(** * MoonTVPlus: the AI data-source orchestrator and the chat stream endpoint

    A shallow embedding of [src/lib/ai-orchestrator.ts] and of
    [src/app/api/ai/chat/route.ts], and the properties of the
    specification that concern them.

    Conventions of the embedding.
    - A JavaScript string is the list of its UTF-16 code units ([jsstring]).
      Literals of the source are written [u16 "..."]: the UTF-8 bytes of the
      Rocq literal are decoded to code points and re-encoded as UTF-16.
    - A [Uint8Array] is a [list byte].
    - A JavaScript value that flows through the code ([any]) is a [value].
    - Network effects are explicit: every function that may issue a request
      returns the list of requests it issued, next to its result; what the
      network answers is read from a [World]. *)

From Stdlib Require Import Strings.String Strings.Ascii Strings.Byte.
From Stdlib Require Import Numbers.DecimalString.
From Stdlib Require Import NArith ZArith List Bool Lia Sorting.Permutation.
Import ListNotations.

Set Warnings "-register-all".
Local Open Scope N_scope.
Local Open Scope list_scope.

(** ** JavaScript strings *)

Definition jsstring : Type := list N.

Definition codepoint : Type := N.

(** *** The UTF-8 decoder of the Encoding standard

    State of the decoder: code point under construction, bytes seen, bytes
    needed, and the bounds allowed for the next continuation byte. *)

Record Utf8State : Type := mkUtf8State {
  u_cp : N;
  u_seen : N;
  u_needed : N;
  u_lower : N;
  u_upper : N
}.

Definition utf8_init : Utf8State := mkUtf8State 0 0 0 128 191.

Inductive HandlerResult : Type :=
| HContinue (st : Utf8State)
| HCodePoint (cp : codepoint)
| HError (restore : bool).

(** One byte through the handler.  [HError true] asks for the byte to be
    handled again from the initial state. *)
Definition utf8_handler (st : Utf8State) (b : N) : HandlerResult :=
  if u_needed st =? 0 then
    if b <=? 127 then HCodePoint b
    else if (194 <=? b) && (b <=? 223) then
      HContinue (mkUtf8State (N.land b 31) 0 1 128 191)
    else if (224 <=? b) && (b <=? 239) then
      HContinue (mkUtf8State (N.land b 15) 0 2
                   (if b =? 224 then 160 else 128)
                   (if b =? 237 then 159 else 191))
    else if (240 <=? b) && (b <=? 244) then
      HContinue (mkUtf8State (N.land b 7) 0 3
                   (if b =? 240 then 144 else 128)
                   (if b =? 244 then 143 else 191))
    else HError false
  else if negb ((u_lower st <=? b) && (b <=? u_upper st)) then HError true
  else
    let cp := N.lor (N.shiftl (u_cp st) 6) (N.land b 63) in
    let seen := u_seen st + 1 in
    if seen =? u_needed st then HCodePoint cp
    else HContinue (mkUtf8State cp seen (u_needed st) 128 191).

Definition replacement_char : codepoint := 65533.

(** A byte through the decoder in replacement error mode: the new state and
    the code points produced (none, one, or two when a byte is restored). *)
Definition utf8_step (st : Utf8State) (b : byte) : Utf8State * list codepoint :=
  let n := Byte.to_N b in
  match utf8_handler st n with
  | HContinue st' => (st', [])
  | HCodePoint cp => (utf8_init, [cp])
  | HError false => (utf8_init, [replacement_char])
  | HError true =>
      match utf8_handler utf8_init n with
      | HContinue st' => (st', [replacement_char])
      | HCodePoint cp => (utf8_init, [replacement_char; cp])
      | HError _ => (utf8_init, [replacement_char; replacement_char])
      end
  end.

Fixpoint utf8_run (st : Utf8State) (bs : list byte) : Utf8State * list codepoint :=
  match bs with
  | [] => (st, [])
  | b :: bs' =>
      let '(st1, out1) := utf8_step st b in
      let '(st2, out2) := utf8_run st1 bs' in
      (st2, out1 ++ out2)
  end.

(** End of queue: a sequence left incomplete yields one replacement. *)
Definition utf8_flush (st : Utf8State) : list codepoint :=
  if u_needed st =? 0 then [] else [replacement_char].

(** *** UTF-16 *)

Definition utf16_encode_cp (cp : codepoint) : jsstring :=
  if cp <? 65536 then [cp]
  else
    let c := cp - 65536 in
    [55296 + N.shiftr c 10; 56320 + N.land c 1023].

Definition utf16_encode (cps : list codepoint) : jsstring :=
  flat_map utf16_encode_cp cps.

Definition is_high_surrogate (c : N) : bool := (55296 <=? c) && (c <=? 56319).
Definition is_low_surrogate (c : N) : bool := (56320 <=? c) && (c <=? 57343).

(** Code units to scalar values; a lone surrogate becomes U+FFFD, as
    [TextEncoder] does. *)
Fixpoint utf16_decode (s : jsstring) : list codepoint :=
  match s with
  | [] => []
  | c :: rest =>
      if is_high_surrogate c then
        match rest with
        | d :: rest' =>
            if is_low_surrogate d
            then (65536 + N.shiftl (c - 55296) 10 + (d - 56320)) :: utf16_decode rest'
            else replacement_char :: utf16_decode rest
        | [] => [replacement_char]
        end
      else if is_low_surrogate c then replacement_char :: utf16_decode rest
      else c :: utf16_decode rest
  end.

Definition byte_of_N (n : N) : byte :=
  match Byte.of_N (n mod 256) with
  | Some b => b
  | None => x00
  end.

Definition utf8_encode_cp (cp : codepoint) : list byte :=
  if cp <? 128 then [byte_of_N cp]
  else if cp <? 2048 then
    [byte_of_N (192 + N.shiftr cp 6); byte_of_N (128 + N.land cp 63)]
  else if cp <? 65536 then
    [byte_of_N (224 + N.shiftr cp 12);
     byte_of_N (128 + N.land (N.shiftr cp 6) 63);
     byte_of_N (128 + N.land cp 63)]
  else
    [byte_of_N (240 + N.shiftr cp 18);
     byte_of_N (128 + N.land (N.shiftr cp 12) 63);
     byte_of_N (128 + N.land (N.shiftr cp 6) 63);
     byte_of_N (128 + N.land cp 63)].

(** [new TextEncoder().encode(s)] *)
Definition TextEncoder_encode (s : jsstring) : list byte :=
  flat_map utf8_encode_cp (utf16_decode s).

(** The text of a complete byte sequence: decoded from the initial state
    and flushed. *)
Definition decode_text (bs : list byte) : jsstring :=
  let '(st, cps) := utf8_run utf8_init bs in
  utf16_encode (cps ++ utf8_flush st).

(** A literal of the source. *)
Definition u16 (s : string) : jsstring := decode_text (list_byte_of_string s).

(** The bytes of a literal (for upstream chunks in examples). *)
Definition bytes (s : string) : list byte := list_byte_of_string s.

(** *** [TextDecoder] in streaming mode

    [decoder.decode(value, { stream: true })]: the decoder keeps the pending
    bytes of an incomplete sequence and whether the byte order mark has been
    looked for; a leading U+FEFF is dropped once. *)

Record TextDecoder : Type := mkTextDecoder {
  td_utf8 : Utf8State;
  td_bom_seen : bool
}.

Definition TextDecoder_new : TextDecoder := mkTextDecoder utf8_init false.

Definition serialize_queue (bom_seen : bool) (cps : list codepoint)
  : bool * list codepoint :=
  match cps with
  | [] => (bom_seen, [])
  | cp :: rest =>
      if bom_seen then (true, cps)
      else if cp =? 65279 then (true, rest)
      else (true, cps)
  end.

Definition TextDecoder_decode (d : TextDecoder) (chunk : list byte)
  : TextDecoder * jsstring :=
  let '(st, cps) := utf8_run (td_utf8 d) chunk in
  let '(seen, out) := serialize_queue (td_bom_seen d) cps in
  (mkTextDecoder st seen, utf16_encode out).

(** *** String operations used by the source *)

Definition jseqb (a b : jsstring) : bool :=
  if list_eq_dec N.eq_dec a b then true else false.

(** [s.startsWith(p)] *)
Fixpoint startsWith (s p : jsstring) : bool :=
  match p, s with
  | [], _ => true
  | _ :: _, [] => false
  | x :: p', y :: s' => (x =? y) && startsWith s' p'
  end.

(** [s.includes(k)] *)
Fixpoint includes (s k : jsstring) : bool :=
  startsWith s k ||
  match s with
  | [] => false
  | _ :: s' => includes s' k
  end.

(** [s.slice(n)] for [0 <= n] *)
Definition slice_from (n : nat) (s : jsstring) : jsstring := skipn n s.

(** WhiteSpace and LineTerminator code units, as [trim] and the regular
    expression class [\s] know them. *)
Definition is_js_space (c : N) : bool :=
  ((9 <=? c) && (c <=? 13)) || (c =? 32) || (c =? 160) || (c =? 5760) ||
  ((8192 <=? c) && (c <=? 8202)) || (c =? 8232) || (c =? 8233) ||
  (c =? 8239) || (c =? 8287) || (c =? 12288) || (c =? 65279).

Fixpoint trimStart (s : jsstring) : jsstring :=
  match s with
  | [] => []
  | c :: s' => if is_js_space c then trimStart s' else s
  end.

Definition trimEnd (s : jsstring) : jsstring := rev (trimStart (rev s)).

(** [s.trim()] *)
Definition trim (s : jsstring) : jsstring := trimEnd (trimStart s).

(** [s.split('\n')]: [cur] is the piece under construction. *)
Fixpoint split_lines_from (cur : jsstring) (s : jsstring) : list jsstring :=
  match s with
  | [] => [cur]
  | c :: s' =>
      if c =? 10 then cur :: split_lines_from [] s'
      else split_lines_from (cur ++ [c]) s'
  end.

Definition split_lines (s : jsstring) : list jsstring := split_lines_from [] s.

(** [s.toLowerCase()].  Only the Basic Latin letters are mapped; the source
    uses the result for nothing but a search for the caseless literal
    '这部'. *)
Definition toLowerCase (s : jsstring) : jsstring :=
  map (fun c => if (65 <=? c) && (c <=? 90) then c + 32 else c) s.

(** [parts.join(sep)] *)
Fixpoint join (sep : jsstring) (parts : list jsstring) : jsstring :=
  match parts with
  | [] => []
  | [p] => p
  | p :: rest => p ++ sep ++ join sep rest
  end.

(** Decimal digits of a natural number. *)
Definition digits_of_N (n : N) : jsstring :=
  map (fun a => N_of_ascii a)
      (list_ascii_of_string (NilZero.string_of_uint (N.to_uint n))).

(** A string is well formed when it has no lone surrogate;
    [encodeURIComponent] throws on the others. *)
Fixpoint isWellFormed (s : jsstring) : bool :=
  match s with
  | [] => true
  | c :: rest =>
      if is_high_surrogate c then
        match rest with
        | d :: rest' => is_low_surrogate d && isWellFormed rest'
        | [] => false
        end
      else negb (is_low_surrogate c) && isWellFormed rest
  end.

Definition repeat_unit (c : N) (n : nat) : jsstring := repeat c n.

(** ** JavaScript values *)

(** A Number read from JSON text or produced by the code is kept as the
    decimal it was written as: (-1)^[n_neg] * [n_mant] * 10^[n_exp].
    Whether its binary64 value is zero or infinite is decided exactly; its
    printed form is the shortest decimal of the literal, the rounding of
    long significands to binary64 being left out. *)
Record number : Type := mkNumber {
  n_neg : bool;
  n_mant : N;
  n_exp : Z
}.

Definition number_of_Z (z : Z) : number :=
  mkNumber (z <? 0)%Z (Z.abs_N z) 0.

Definition number_of_nat (n : nat) : number := mkNumber false (N.of_nat n) 0.

(** Rounds to zero: at most 2^-1075. *)
Definition number_is_zero (x : number) : bool :=
  (n_mant x =? 0) ||
  ((n_exp x <? 0)%Z && (n_mant x * 2 ^ 1075 <=? 10 ^ Z.to_N (- n_exp x))).

(** Rounds to an infinity: at least 2^1024 - 2^970. *)
Definition number_is_infinite (x : number) : bool :=
  let bound := 2 ^ 1024 - 2 ^ 970 in
  if (n_exp x <? 0)%Z
  then bound * 10 ^ Z.to_N (- n_exp x) <=? n_mant x
  else bound <=? n_mant x * 10 ^ Z.to_N (n_exp x).

Fixpoint drop_zeros (s : jsstring) : jsstring :=
  match s with
  | 48 :: s' => drop_zeros s'
  | _ => s
  end.

(** Number::toString, radix 10, for a finite non-zero magnitude. *)
Definition number_digits (x : number) : jsstring :=
  let ds := digits_of_N (n_mant x) in
  let sg := rev (drop_zeros (rev ds)) in
  let k := Z.of_nat (length sg) in
  let n := (Z.of_nat (length ds) + n_exp x)%Z in
  if ((k <=? n) && (n <=? 21))%Z then
    sg ++ repeat_unit 48 (Z.to_nat (n - k))
  else if ((0 <? n) && (n <=? 21))%Z then
    firstn (Z.to_nat n) sg ++ [46] ++ skipn (Z.to_nat n) sg
  else if ((-6 <? n) && (n <=? 0))%Z then
    [48; 46] ++ repeat_unit 48 (Z.to_nat (- n)) ++ sg
  else
    let e := (n - 1)%Z in
    let es := (if (e <? 0)%Z then [45] else [43]) ++ digits_of_N (Z.abs_N e) in
    match sg with
    | [d] => [d] ++ [101] ++ es
    | d :: more => [d] ++ [46] ++ more ++ [101] ++ es
    | [] => [48]
    end.

Definition number_to_string (x : number) : jsstring :=
  if number_is_zero x then [48]
  else if number_is_infinite x then
    (if n_neg x then [45] else []) ++ u16 "Infinity"
  else (if n_neg x then [45] else []) ++ number_digits x.

Inductive value : Type :=
| VUndef
| VNull
| VBool (b : bool)
| VNum (n : number)
| VStr (s : jsstring)
| VArr (items : list value)
| VObj (props : list (jsstring * value))
| VNative (name : jsstring).

(** ToBoolean *)
Definition truthy (v : value) : bool :=
  match v with
  | VUndef | VNull => false
  | VBool b => b
  | VNum n => negb (number_is_zero n)
  | VStr s => match s with [] => false | _ => true end
  | VArr _ | VObj _ | VNative _ => true
  end.

Definition is_nullish (v : value) : bool :=
  match v with
  | VUndef | VNull => true
  | _ => false
  end.

(** [a || b] *)
Definition js_or (a b : value) : value := if truthy a then a else b.

Fixpoint lookup (m : list (jsstring * value)) (k : jsstring) : option value :=
  match m with
  | [] => None
  | (k', v) :: m' => if jseqb k' k then Some v else lookup m' k
  end.

Definition has_key (m : list (jsstring * value)) (k : jsstring) : bool :=
  match lookup m k with
  | Some _ => true
  | None => false
  end.

Definition is_digit (c : N) : bool := (48 <=? c) && (c <=? 57).

Fixpoint N_of_digits (acc : N) (s : jsstring) : N :=
  match s with
  | [] => acc
  | c :: s' => N_of_digits (acc * 10 + (c - 48)) s'
  end.

(** A property key that is a canonical array index. *)
Definition index_of_key (k : jsstring) : option N :=
  match k with
  | [] => None
  | c :: rest =>
      if forallb is_digit k && negb ((c =? 48) && negb (jseqb rest []))
         && (N_of_digits 0 k <? 4294967295)
      then Some (N_of_digits 0 k)
      else None
  end.

Definition nth_unit {A : Type} (i : N) (l : list A) : option A :=
  if i <? N.of_nat (length l) then nth_error l (N.to_nat i) else None.

(** [v[k]] / [v.k].  [None] is the TypeError of reading a property of
    [undefined] or [null].  Of the inherited properties, those the source
    reads by name and a JSON value can carry are given: [length], and the
    legacy [String.prototype.link]. *)
Definition get (v : value) (k : jsstring) : option value :=
  match v with
  | VUndef | VNull => None
  | VObj m =>
      Some (match lookup m k with Some x => x | None => VUndef end)
  | VArr l =>
      if jseqb k (u16 "length") then Some (VNum (number_of_nat (length l)))
      else match index_of_key k with
           | Some i =>
               Some (match nth_unit i l with
                     | Some x => x
                     | None => VUndef
                     end)
           | None => Some VUndef
           end
  | VStr s =>
      if jseqb k (u16 "length") then Some (VNum (number_of_nat (length s)))
      else if jseqb k (u16 "link") then Some (VNative (u16 "link"))
      else match index_of_key k with
           | Some i =>
               Some (match nth_unit i s with
                     | Some c => VStr [c]
                     | None => VUndef
                     end)
           | None => Some VUndef
           end
  | VBool _ | VNum _ | VNative _ => Some VUndef
  end.

(** [v?.k] *)
Definition opt_get (v : value) (k : jsstring) : value :=
  match get v k with
  | Some x => x
  | None => VUndef
  end.

(** ToString.  [None] is the TypeError of an object whose own [toString]
    property (not callable, coming from JSON) hides the inherited one. *)
Fixpoint ToString (v : value) : option jsstring :=
  match v with
  | VUndef => Some (u16 "undefined")
  | VNull => Some (u16 "null")
  | VBool true => Some (u16 "true")
  | VBool false => Some (u16 "false")
  | VNum n => Some (number_to_string n)
  | VStr s => Some s
  | VArr l =>
      (* Array.prototype.join with "," *)
      (fix elems (l : list value) : option jsstring :=
         match l with
         | [] => Some []
         | x :: rest =>
             match (if is_nullish x then Some [] else ToString x), elems rest with
             | Some sx, Some sr =>
                 Some (match rest with [] => sx | _ => sx ++ [44] ++ sr end)
             | _, _ => None
             end
         end) l
  | VObj m =>
      if has_key m (u16 "toString") then None
      else Some (u16 "[object Object]")
  | VNative name =>
      Some (u16 "function " ++ name ++ u16 "() { [native code] }")
  end.

(** *** [JSON.stringify] *)

Definition hex_digit (n : N) : N := if n <? 10 then 48 + n else 87 + n.

Definition hex4 (c : N) : jsstring :=
  [hex_digit (N.shiftr c 12 mod 16); hex_digit (N.shiftr c 8 mod 16);
   hex_digit (N.shiftr c 4 mod 16); hex_digit (c mod 16)].

(** The body of QuoteJSONString, on code units: a surrogate is copied when
    it is half of a pair and escaped when it is alone. *)
Fixpoint quote_units (s : jsstring) : jsstring :=
  match s with
  | [] => []
  | c :: rest =>
      if c =? 8 then u16 "\b" ++ quote_units rest
      else if c =? 9 then u16 "\t" ++ quote_units rest
      else if c =? 10 then u16 "\n" ++ quote_units rest
      else if c =? 12 then u16 "\f" ++ quote_units rest
      else if c =? 13 then u16 "\r" ++ quote_units rest
      else if c =? 34 then [92; 34] ++ quote_units rest
      else if c =? 92 then [92; 92] ++ quote_units rest
      else if c <? 32 then [92; 117] ++ hex4 c ++ quote_units rest
      else if is_high_surrogate c then
        match rest with
        | d :: rest' =>
            if is_low_surrogate d then c :: d :: quote_units rest'
            else [92; 117] ++ hex4 c ++ quote_units rest
        | [] => [92; 117] ++ hex4 c
        end
      else if is_low_surrogate c then [92; 117] ++ hex4 c ++ quote_units rest
      else c :: quote_units rest
  end.

Definition QuoteJSONString (s : jsstring) : jsstring :=
  [34] ++ quote_units s ++ [34].

(** SerializeJSONProperty with the current indentation [indent] and the
    [gap] of the third argument of [JSON.stringify]; [None] is [undefined]. *)
Fixpoint stringify_at (gap indent : jsstring) (v : value) : option jsstring :=
  let indent' := indent ++ gap in
  let wrap (open close : N) (partial : list jsstring) : jsstring :=
    match partial with
    | [] => [open; close]
    | _ =>
        match gap with
        | [] => [open] ++ join [44] partial ++ [close]
        | _ => [open; 10] ++ indent' ++ join ([44; 10] ++ indent') partial
               ++ [10] ++ indent ++ [close]
        end
    end in
  match v with
  | VUndef | VNative _ => None
  | VNull => Some (u16 "null")
  | VBool true => Some (u16 "true")
  | VBool false => Some (u16 "false")
  | VNum n =>
      Some (if number_is_infinite n && negb (number_is_zero n)
            then u16 "null" else number_to_string n)
  | VStr s => Some (QuoteJSONString s)
  | VArr l =>
      Some (wrap 91 93
        ((fix elems (l : list value) : list jsstring :=
            match l with
            | [] => []
            | x :: rest =>
                match stringify_at gap indent' x with
                | Some sx => sx :: elems rest
                | None => u16 "null" :: elems rest
                end
            end) l))
  | VObj m =>
      Some (wrap 123 125
        ((fix members (m : list (jsstring * value)) : list jsstring :=
            match m with
            | [] => []
            | (k, x) :: rest =>
                match stringify_at gap indent' x with
                | Some sx =>
                    (QuoteJSONString k ++ [58]
                       ++ (match gap with [] => [] | _ => [32] end) ++ sx)
                      :: members rest
                | None => members rest
                end
            end) m))
  end.

(** [JSON.stringify(v)] *)
Definition JSON_stringify (v : value) : option jsstring :=
  stringify_at [] [] v.

(** [JSON.stringify(v, null, 2)] *)
Definition JSON_stringify_2 (v : value) : option jsstring :=
  stringify_at [32; 32] [] v.

(** *** [JSON.parse] *)

Fixpoint skip_ws (s : jsstring) : jsstring :=
  match s with
  | c :: s' =>
      if (c =? 9) || (c =? 10) || (c =? 13) || (c =? 32) then skip_ws s' else s
  | [] => []
  end.

Definition hex_value (c : N) : option N :=
  if is_digit c then Some (c - 48)
  else if (97 <=? c) && (c <=? 102) then Some (c - 87)
  else if (65 <=? c) && (c <=? 70) then Some (c - 55)
  else None.

Definition hex4_value (a b c d : N) : option N :=
  match hex_value a, hex_value b, hex_value c, hex_value d with
  | Some x, Some y, Some z, Some w => Some (x * 4096 + y * 256 + z * 16 + w)
  | _, _, _, _ => None
  end.

(** The characters of a string after its opening quote, up to the closing
    one; the result is the contents and what follows the string. *)
Fixpoint parse_string_body (s : jsstring) : option (jsstring * jsstring) :=
  let cons (c : N) (r : option (jsstring * jsstring)) :=
    match r with
    | Some (body, rest) => Some (c :: body, rest)
    | None => None
    end in
  match s with
  | [] => None
  | c :: s1 =>
      if c =? 34 then Some ([], s1)
      else if c <? 32 then None
      else if c =? 92 then
        match s1 with
        | e :: s2 =>
            if e =? 34 then cons 34 (parse_string_body s2)
            else if e =? 92 then cons 92 (parse_string_body s2)
            else if e =? 47 then cons 47 (parse_string_body s2)
            else if e =? 98 then cons 8 (parse_string_body s2)
            else if e =? 102 then cons 12 (parse_string_body s2)
            else if e =? 110 then cons 10 (parse_string_body s2)
            else if e =? 114 then cons 13 (parse_string_body s2)
            else if e =? 116 then cons 9 (parse_string_body s2)
            else if e =? 117 then
              match s2 with
              | h1 :: h2 :: h3 :: h4 :: s3 =>
                  match hex4_value h1 h2 h3 h4 with
                  | Some u => cons u (parse_string_body s3)
                  | None => None
                  end
              | _ => None
              end
            else None
        | [] => None
        end
      else cons c (parse_string_body s1)
  end.

Fixpoint take_digits (s : jsstring) : jsstring * jsstring :=
  match s with
  | c :: s' =>
      if is_digit c then let '(ds, rest) := take_digits s' in (c :: ds, rest)
      else ([], s)
  | [] => ([], [])
  end.

(** A JSON number: [-]? int frac? exp? *)
Definition parse_number (s : jsstring) : option (number * jsstring) :=
  let '(neg, s1) :=
    match s with
    | 45 :: s' => (true, s')
    | _ => (false, s)
    end in
  let '(int_ds, s2) := take_digits s1 in
  match int_ds with
  | [] => None
  | d :: more =>
      if (d =? 48) && negb (jseqb more []) then None
      else
        let frac :=
          match s2 with
          | 46 :: s' =>
              let '(fs, s3) := take_digits s' in
              match fs with
              | [] => None
              | _ => Some (fs, s3)
              end
          | _ => Some ([], s2)
          end in
        match frac with
        | None => None
        | Some (frac_ds, s3) =>
            let mant := N_of_digits 0 (int_ds ++ frac_ds) in
            let shift := Z.of_nat (length frac_ds) in
            match s3 with
            | c :: s4 =>
                if (c =? 101) || (c =? 69) then
                  let '(eneg, s5) :=
                    match s4 with
                    | 45 :: s' => (true, s')
                    | 43 :: s' => (false, s')
                    | _ => (false, s4)
                    end in
                  let '(eds, s6) := take_digits s5 in
                  match eds with
                  | [] => None
                  | _ =>
                      let e := Z.of_N (N_of_digits 0 eds) in
                      Some (mkNumber neg mant
                              ((if eneg then - e else e) - shift)%Z, s6)
                  end
                else Some (mkNumber neg mant (- shift)%Z, s3)
            | [] => Some (mkNumber neg mant (- shift)%Z, s3)
            end
        end
  end.

(** CreateDataProperty on a fresh object, in property enumeration order:
    array-index keys first, ascending, then the other keys in the order
    they were first set. *)
Definition goes_before (k k' : jsstring) : bool :=
  match index_of_key k with
  | Some i =>
      match index_of_key k' with
      | Some j => i <? j
      | None => true
      end
  | None => false
  end.

Fixpoint obj_set (m : list (jsstring * value)) (k : jsstring) (v : value)
  : list (jsstring * value) :=
  match m with
  | [] => [(k, v)]
  | (k', v') :: m' =>
      if jseqb k' k then (k, v) :: m'
      else if goes_before k k' then (k, v) :: m
      else (k', v') :: obj_set m' k v
  end.

(** A string, a literal name or a number at the head of [s]. *)
Definition parse_scalar (s : jsstring) : option (value * jsstring) :=
  match s with
  | [] => None
  | c :: rest =>
      if c =? 34 then
        match parse_string_body rest with
        | Some (body, rest') => Some (VStr body, rest')
        | None => None
        end
      else if startsWith s (u16 "true") then Some (VBool true, skipn 4 s)
      else if startsWith s (u16 "false") then Some (VBool false, skipn 5 s)
      else if startsWith s (u16 "null") then Some (VNull, skipn 4 s)
      else
        match parse_number s with
        | Some (n, rest') => Some (VNum n, rest')
        | None => None
        end
  end.

(** A JSON value at the head of [s].  Every call spends one unit of
    [fuel]; a value that ends [n] code units into [s] is found with [2n]
    units ([JSON_parse_fuel_enough] below). *)
Fixpoint parse_value (fuel : nat) (s : jsstring) : option (value * jsstring) :=
  match fuel with
  | O => None
  | S f =>
      match skip_ws s with
      | [] => None
      | c :: rest =>
          if c =? 91 then
            match skip_ws rest with
            | [] => parse_elements f rest []
            | c' :: rest' =>
                if c' =? 93 then Some (VArr [], rest')
                else parse_elements f rest []
            end
          else if c =? 123 then
            match skip_ws rest with
            | [] => None
            | c' :: rest' =>
                if c' =? 125 then Some (VObj [], rest')
                else parse_members f rest []
            end
          else parse_scalar (c :: rest)
      end
  end

with parse_elements (fuel : nat) (s : jsstring) (acc : list value)
  : option (value * jsstring) :=
  match fuel with
  | O => None
  | S f =>
      match parse_value f s with
      | Some (v, rest) =>
          match skip_ws rest with
          | [] => None
          | c :: rest' =>
              if c =? 44 then parse_elements f rest' (acc ++ [v])
              else if c =? 93 then Some (VArr (acc ++ [v]), rest')
              else None
          end
      | None => None
      end
  end

with parse_members (fuel : nat) (s : jsstring) (acc : list (jsstring * value))
  : option (value * jsstring) :=
  match fuel with
  | O => None
  | S f =>
      match skip_ws s with
      | [] => None
      | q :: s1 =>
          if q =? 34 then
            match parse_string_body s1 with
            | Some (k, s2) =>
                match skip_ws s2 with
                | [] => None
                | c :: s3 =>
                    if c =? 58 then
                      match parse_value f s3 with
                      | Some (v, rest) =>
                          match skip_ws rest with
                          | [] => None
                          | c' :: rest' =>
                              if c' =? 44
                              then parse_members f rest' (obj_set acc k v)
                              else if c' =? 125
                              then Some (VObj (obj_set acc k v), rest')
                              else None
                          end
                      | None => None
                      end
                    else None
                end
            | None => None
            end
          else None
      end
  end.

(** [JSON.parse(text)]; [None] is the SyntaxError. *)
Definition JSON_parse (text : jsstring) : option value :=
  match parse_value (2 * length text + 2) text with
  | Some (v, rest) =>
      match skip_ws rest with
      | [] => Some v
      | _ => None
      end
  | None => None
  end.

(** ** The chat stream transformer ([route.ts], [transformToSSE]) *)

Inductive LLMProvider : Type := openai | claude | custom.

(** How a stream ends: the reader reports [done], or a read rejects. *)
Inductive StreamEnd : Type := StreamClosed | StreamErrored.

(** A byte stream, as its consumer sees it: the chunks in order, then the
    way it ends. *)
Record ReadableStream : Type := mkStream {
  rs_chunks : list (list byte);
  rs_end : StreamEnd
}.

Definition nl : N := 10.

Definition sentinel_event : list byte :=
  TextEncoder_encode (u16 "data: [DONE]" ++ [nl; nl]).

Definition text_event (text : value) : list byte :=
  TextEncoder_encode
    (u16 "data: "
       ++ match JSON_stringify (VObj [(u16 "text", text)]) with
          | Some s => s
          | None => u16 "undefined"
          end
       ++ [nl; nl]).

(** The text carried by one parsed payload; [None] is the TypeError of
    reading a property of [null], which the [catch] of the caller absorbs. *)
Definition extract_text (provider : LLMProvider) (json : value) : option value :=
  match provider with
  | claude =>
      match get json (u16 "type") with
      | None => None
      | Some ty =>
          match ty with
          | VStr t =>
              if jseqb t (u16 "content_block_delta") then
                match get json (u16 "delta") with
                | Some delta => Some (js_or (opt_get delta (u16 "text")) (VStr []))
                | None => None
                end
              else Some (VStr [])
          | _ => Some (VStr [])
          end
      end
  | _ =>
      match get json (u16 "choices") with
      | None => None
      | Some choices =>
          let delta := opt_get (opt_get choices (u16 "0")) (u16 "delta") in
          Some (js_or (opt_get delta (u16 "content")) (VStr []))
      end
  end.

(** The body of [for (const line of lines)]: what one line enqueues. *)
Definition handle_line (provider : LLMProvider) (line : jsstring)
  : list (list byte) :=
  if startsWith line (u16 "data: ") then
    let data := trim (slice_from 6 line) in
    match data with
    | [] => []
    | _ =>
        if jseqb data (u16 "[DONE]") then [sentinel_event]
        else
          match JSON_parse data with
          | None => []
          | Some json =>
              match extract_text provider json with
              | None => []
              | Some text => if truthy text then [text_event text] else []
              end
          end
    end
  else [].

(** [chunk.split('\n').filter((line) => line.trim() !== '')] *)
Definition chunk_lines (chunk : jsstring) : list jsstring :=
  filter (fun line => negb (jseqb (trim line) [])) (split_lines chunk).

Definition handle_chunk (provider : LLMProvider) (chunk : jsstring)
  : list (list byte) :=
  flat_map (handle_line provider) (chunk_lines chunk).

(** The [while (true)] loop over [reader.read()]. *)
Fixpoint read_loop (provider : LLMProvider) (decoder : TextDecoder)
  (chunks : list (list byte)) : list (list byte) :=
  match chunks with
  | [] => []
  | value :: rest =>
      let '(decoder', chunk) := TextDecoder_decode decoder value in
      handle_chunk provider chunk ++ read_loop provider decoder' rest
  end.

(** [transformToSSE(stream, provider)].  A rejected read reaches
    [controller.error]; otherwise the output is closed after the loop. *)
Definition transformToSSE (stream : ReadableStream) (provider : LLMProvider)
  : ReadableStream :=
  mkStream (read_loop provider TextDecoder_new (rs_chunks stream))
           (rs_end stream).

(** ** The intent classifier ([ai-orchestrator.ts], [analyzeIntent]) *)

Inductive MediaKind : Type := movie | tv.

Record VideoContext : Type := mkVideoContext {
  title : option jsstring;
  year : option jsstring;
  douban_id : option number;
  tmdb_id : option number;
  type : option MediaKind;
  currentEpisode : option number
}.

Inductive IntentType : Type := recommendation | query | detail | general.

Inductive MediaType : Type := mt_movie | mt_tv | mt_variety | mt_anime.

Definition MediaType_of_kind (k : MediaKind) : MediaType :=
  match k with
  | movie => mt_movie
  | tv => mt_tv
  end.

Definition MediaKind_string (k : MediaKind) : jsstring :=
  match k with
  | movie => u16 "movie"
  | tv => u16 "tv"
  end.

Definition MediaType_string (m : MediaType) : jsstring :=
  match m with
  | mt_movie => u16 "movie"
  | mt_tv => u16 "tv"
  | mt_variety => u16 "variety"
  | mt_anime => u16 "anime"
  end.

(** The result of the classifier, with the two fields the orchestrator
    adds to it ([optimizedWebSearchQuery], [optimizedDoubanQuery]) when the
    decision model is used; they are [undefined] otherwise. *)
Record IntentAnalysisResult : Type := mkIntent {
  intent_type : IntentType;
  mediaType : option MediaType;
  genre : option jsstring;
  needWebSearch : bool;
  needDouban : bool;
  needTMDB : bool;
  keywords : list value;
  entities : list (jsstring * jsstring);
  optimizedWebSearchQuery : value;
  optimizedDoubanQuery : value
}.

(** Truthiness of optional fields. *)
Definition truthy_string (o : option jsstring) : bool :=
  match o with
  | Some (_ :: _) => true
  | _ => false
  end.

Definition truthy_number (o : option number) : bool :=
  match o with
  | Some n => negb (number_is_zero n)
  | None => false
  end.

(** [x !== undefined && x > 0] *)
Definition positive_number (o : option number) : bool :=
  match o with
  | Some n => negb (number_is_zero n) && negb (n_neg n)
  | None => false
  end.

(** [context?.f] *)
Definition ctx_field {A : Type} (context : option VideoContext)
  (f : VideoContext -> option A) : option A :=
  match context with
  | Some c => f c
  | None => None
  end.

Definition timeKeywords : list jsstring :=
  map u16 ["最新"; "今年"; "2024"; "2025"; "即将"; "上映"; "新出";
           "什么时候"; "何时"; "几时"; "播出"; "更新"; "下一季";
           "第二季"; "第三季"; "续集"; "下季"; "下部"]%string.

Definition recommendKeywords : list jsstring :=
  map u16 ["推荐"; "有什么"; "好看"; "值得"; "介绍"]%string.

Definition personKeywords : list jsstring :=
  map u16 ["演员"; "导演"; "主演"; "出演"; "作品"]%string.

Definition plotKeywords : list jsstring :=
  map u16 ["讲什么"; "剧情"; "故事"; "内容"; "讲的是"]%string.

(** [ks.some((k) => message.includes(k))] *)
Definition some_included (ks : list jsstring) (message : jsstring) : bool :=
  existsb (fun k => includes message k) ks.

(** The pattern /([一-龥]{2,4})(的|是|演|导)/ tried at the head of [s] with
    exactly [n] characters in the first group. *)
Definition in_han_range (c : N) : bool := (19968 <=? c) && (c <=? 40869).

Definition is_particle (c : N) : bool :=
  (c =? 30340) || (c =? 26159) || (c =? 28436) || (c =? 23548).

Definition match_person_n (n : nat) (s : jsstring) : option (jsstring * jsstring) :=
  let name := firstn n s in
  match skipn n s with
  | p :: rest =>
      if (length name =? n)%nat && forallb in_han_range name && is_particle p
      then Some (name, rest)
      else None
  | [] => None
  end.

(** Greedy quantifier with backtracking: 4, then 3, then 2 characters. *)
Definition match_person_at (s : jsstring) : option (jsstring * jsstring) :=
  match match_person_n 4 s with
  | Some r => Some r
  | None =>
      match match_person_n 3 s with
      | Some r => Some r
      | None => match_person_n 2 s
      end
  end.

(** The [while ((match = personPattern.exec(message)) !== null)] loop: the
    next search starts where the last match ended.  Each turn moves on by
    one code unit at least, so the length of the message is fuel enough
    ([extract_from_fuel] below). *)
Fixpoint extract_from (fuel : nat) (s : jsstring) : list (jsstring * jsstring) :=
  match fuel with
  | O => []
  | S f =>
      match s with
      | [] => []
      | _ :: s' =>
          match match_person_at s with
          | Some (name, rest) => (u16 "person", name) :: extract_from f rest
          | None => extract_from f s'
          end
      end
  end.

Definition extractEntities (message : jsstring) : list (jsstring * jsstring) :=
  extract_from (length message) message.

Definition analyzeIntent (message : jsstring) (context : option VideoContext)
  : IntentAnalysisResult :=
  let lowerMessage := toLowerCase message in
  let hasTimeKeyword := some_included timeKeywords message in
  let isRecommendation := some_included recommendKeywords message in
  let isPerson := some_included personKeywords message in
  let isPlotQuery := some_included plotKeywords message in
  let mediaType :=
    if includes message (u16 "电影") then Some mt_movie
    else if includes message (u16 "电视剧") || includes message (u16 "剧集")
    then Some mt_tv
    else if includes message (u16 "综艺") then Some mt_variety
    else if includes message (u16 "动漫") || includes message (u16 "动画")
    then Some mt_anime
    else option_map MediaType_of_kind (ctx_field context type) in
  let type :=
    if isRecommendation then recommendation
    else if truthy_string (ctx_field context title)
            && (isPlotQuery || includes lowerMessage (u16 "这部"))
    then detail
    else if isPerson || hasTimeKeyword then query
    else general in
  let is_detail := match type with detail => true | _ => false end in
  let is_query := match type with query => true | _ => false end in
  let needWebSearch :=
    hasTimeKeyword || isPerson || includes message (u16 "新闻")
    || (isRecommendation && hasTimeKeyword) || is_query in
  let needDouban :=
    isRecommendation || is_detail
    || positive_number (ctx_field context douban_id) in
  let needTMDB :=
    is_detail || positive_number (ctx_field context tmdb_id) in
  mkIntent type mediaType None needWebSearch needDouban needTMDB
           (map VStr (filter (fun k => includes message k) timeKeywords))
           (extractEntities message)
           VUndef VUndef.

(** ** The outside world *)

Inductive WebSearchProvider : Type := tavily | serper | serpapi.

Record ChatMessage : Type := mkChatMessage {
  role : jsstring;
  content : jsstring
}.

(** The address handed to [fetchDoubanAPI], by the values put into it. *)
Inductive DoubanUrl : Type :=
| DoubanSubject (id : number)
| DoubanRecentHot (kind category type_ : jsstring)
| DoubanSearchSubjects (kind tag : jsstring).

(** One request to a provider: the endpoint and the values sent to it. *)
Inductive Call : Type :=
| TavilySearch (apiKey : jsstring) (query : value)
| SerperSearch (apiKey : jsstring) (query : value)
| SerpApiSearch (apiKey : jsstring) (query : jsstring)
| DoubanFetch (url : DoubanUrl)
| TMDBDetail (kind : MediaKind) (id : number) (apiKey : jsstring)
| DecisionClaude (apiKey model system user : jsstring)
| DecisionOpenAI (baseURL apiKey model system user : jsstring)
| ChatCompletions (baseURL apiKey model : jsstring)
    (messages : list ChatMessage) (temperature maxTokens : number).

(** A settled promise. *)
Inductive Settled (A : Type) : Type :=
| Fulfilled (a : A)
| Rejected.
Arguments Fulfilled {A} a.
Arguments Rejected {A}.

(** What [fetch] resolves to.  [resp_json] is [response.json()],
    [resp_body] is [response.body]. *)
Record Response : Type := mkResponse {
  resp_ok : bool;
  resp_json : Settled value;
  resp_body : ReadableStream
}.

(** The answers of the network.  A rejected [fetch] stands for a network
    failure and for the abort of [AbortSignal.timeout]; for a [DoubanFetch]
    the answer is that of [fetchDoubanAPI], which lives outside these
    files: its promise is fulfilled with [resp_json] or rejected. *)
Definition World : Type := Call -> Settled Response.

(** A computation that issues requests: the requests in the order they
    were issued, and the result. *)
Definition Eff (A : Type) : Type := (list Call * A)%type.

Definition ret {A : Type} (a : A) : Eff A := ([], a).

Definition bind {A B : Type} (m : Eff A) (k : A -> Eff B) : Eff B :=
  let '(t1, a) := m in
  let '(t2, b) := k a in
  (t1 ++ t2, b).

Notation "x <- m ;; k" := (bind m (fun x => k))
  (at level 61, m at next level, right associativity).

(** [await fetch(...)]: the request is recorded. *)
Definition fetch (world : World) (c : Call) : Eff (Settled Response) :=
  ([c], world c).

(** [if (!response.ok) throw ...; return await response.json()] inside a
    [try] whose [catch] returns [null]. *)
Definition json_or_null (r : Settled Response) : value :=
  match r with
  | Fulfilled resp =>
      if resp_ok resp then
        match resp_json resp with
        | Fulfilled v => v
        | Rejected => VNull
        end
      else VNull
  | Rejected => VNull
  end.

(** ** Provider adapters ([ai-orchestrator.ts]) *)

Section Adapters.

Variable world : World.

(** [encodeURIComponent(v)]; [None] is a TypeError of ToString or the
    URIError of a lone surrogate.  The result stands for its encoding. *)
Definition encodeURIComponent (v : value) : option jsstring :=
  match ToString v with
  | Some s => if isWellFormed s then Some s else None
  | None => None
  end.

Definition fetchWebSearch (query : value) (provider : WebSearchProvider)
  (apiKey : jsstring) : Eff value :=
  match provider with
  | tavily =>
      r <- fetch world (TavilySearch apiKey query) ;; ret (json_or_null r)
  | serper =>
      r <- fetch world (SerperSearch apiKey query) ;; ret (json_or_null r)
  | serpapi =>
      match encodeURIComponent query with
      | Some q =>
          r <- fetch world (SerpApiSearch apiKey q) ;; ret (json_or_null r)
      | None => ret VNull
      end
  end.

Record DoubanParams : Type := mkDoubanParams {
  p_id : option number;
  p_query : value;
  p_kind : option jsstring;
  p_category : option jsstring;
  p_type : option jsstring
}.

(** [return await fetchDoubanAPI(url)] inside the [try]. *)
Definition fetchDoubanAPI (url : DoubanUrl) : Eff value :=
  r <- fetch world (DoubanFetch url) ;;
  ret (match r with
       | Fulfilled resp =>
           match resp_json resp with
           | Fulfilled v => v
           | Rejected => VNull
           end
       | Rejected => VNull
       end).

Definition string_or (o : option jsstring) (d : jsstring) : jsstring :=
  if truthy_string o then match o with Some s => s | None => d end else d.

Definition fetchDoubanData (params : DoubanParams) : Eff value :=
  if truthy_number (p_id params) then
    match p_id params with
    | Some id => fetchDoubanAPI (DoubanSubject id)
    | None => ret VNull
    end
  else if truthy_string (p_kind params) && truthy_string (p_category params)
          && truthy_string (p_type params) then
    match p_kind params, p_category params, p_type params with
    | Some k, Some c, Some t =>
        match encodeURIComponent (VStr c), encodeURIComponent (VStr t) with
        | Some c', Some t' => fetchDoubanAPI (DoubanRecentHot k c' t')
        | _, _ => ret VNull
        end
    | _, _, _ => ret VNull
    end
  else if truthy (p_query params) then
    let kind := string_or (p_kind params) (u16 "movie") in
    match encodeURIComponent (p_query params) with
    | Some tag => fetchDoubanAPI (DoubanSearchSubjects kind tag)
    | None => ret VNull
    end
  else ret VNull.

(** The request carries [AbortSignal.timeout(15000)] with and without a
    proxy; a request aborted by it is a rejected [fetch]. *)
Definition fetchTMDBData (id : option number) (kind : option MediaKind)
  (tmdbApiKey tmdbProxy : option jsstring) : Eff value :=
  if negb (truthy_string tmdbApiKey) then ret VNull
  else
    match tmdbApiKey, id, kind with
    | Some key, Some i, Some k =>
        if number_is_zero i then ret VNull
        else
          r <- fetch world (TMDBDetail k i key) ;; ret (json_or_null r)
    | _, _, _ => ret VNull
    end.

End Adapters.

(** [formatSearchResults]: the exceptions of its body are computed in
    [option] and absorbed by its [catch]. *)
Definition obind {A B : Type} (o : option A) (k : A -> option B) : option B :=
  match o with
  | Some a => k a
  | None => None
  end.

(** [`${v.k}`] *)
Definition field_string (v : value) (k : string) : option jsstring :=
  obind (get v (u16 k)) ToString.

Fixpoint map_option {A B : Type} (f : A -> option B) (l : list A)
  : option (list B) :=
  match l with
  | [] => Some []
  | x :: rest =>
      match f x with
      | Some y =>
          match map_option f rest with
          | Some ys => Some (y :: ys)
          | None => None
          end
      | None => None
      end
  end.

Definition search_result_text (l1 k1 l2 k2 l3 k3 : string) (r : value)
  : option jsstring :=
  obind (field_string r k1) (fun a =>
  obind (field_string r k2) (fun b =>
  obind (field_string r k3) (fun c =>
    Some ([nl] ++ u16 l1 ++ a ++ [nl] ++ u16 l2 ++ b ++ [nl] ++ u16 l3 ++ c
            ++ [nl])))).

(** [xs.map(f).join('\n')], a TypeError when [xs] is not an array. *)
Definition map_join (xs : value) (f : value -> option jsstring)
  : option jsstring :=
  match xs with
  | VArr l => option_map (join [nl]) (map_option f l)
  | _ => None
  end.

Definition formatSearchResults (results : value) (provider : WebSearchProvider)
  : jsstring :=
  if negb (truthy results) then []
  else
    let attempt :=
      match provider with
      | tavily =>
          let rs := opt_get results (u16 "results") in
          if truthy rs
          then map_join rs (search_result_text "标题: " "title" "内容: " "content"
                                               "来源: " "url")
          else Some []
      | serper =>
          let rs := opt_get results (u16 "organic") in
          if truthy rs
          then map_join rs (search_result_text "标题: " "title" "摘要: " "snippet"
                                               "来源: " "link")
          else Some []
      | serpapi =>
          let rs := opt_get results (u16 "organic_results") in
          if truthy rs
          then map_join rs (search_result_text "标题: " "title" "摘要: " "snippet"
                                               "来源: " "link")
          else Some []
      end in
    match attempt with
    | Some s => s
    | None => []
    end.

(** *** [cleanJsonResponse] *)

Definition backticks : jsstring := [96; 96; 96].

Definition is_json_word (s : jsstring) : bool :=
  match s with
  | j :: s' :: o :: n :: _ =>
      ((j =? 106) || (j =? 74)) && ((s' =? 115) || (s' =? 83))
      && ((o =? 111) || (o =? 79)) && ((n =? 110) || (n =? 78))
  | _ => false
  end.

(** [.replace(/^```(?:json)?\s*\n?/i, '')] *)
Definition strip_open_fence (s : jsstring) : jsstring :=
  if startsWith s backticks then
    let s1 := skipn 3 s in
    let s2 := if is_json_word s1 then skipn 4 s1 else s1 in
    trimStart s2
  else s.

(** The pattern /\n?```\s*$/ tried at the head of [s]. *)
Definition close_fence_here (s : jsstring) : bool :=
  let fence_to_end (r : jsstring) :=
    startsWith r backticks && forallb is_js_space (skipn 3 r) in
  fence_to_end s ||
  match s with
  | 10 :: r => fence_to_end r
  | _ => false
  end.

(** [.replace(/\n?```\s*$/, '')]: the leftmost match is removed. *)
Fixpoint strip_close_fence (s : jsstring) : jsstring :=
  if close_fence_here s then []
  else
    match s with
    | [] => []
    | c :: s' => c :: strip_close_fence s'
    end.

Definition cleanJsonResponse (content : jsstring) : jsstring :=
  trim (strip_close_fence (strip_open_fence (trim content))).

(** [s.match(/\{[\s\S]*\}/)]: from the first opening brace to the last
    closing brace after it. *)
Fixpoint drop_until_open (s : jsstring) : option jsstring :=
  match s with
  | [] => None
  | c :: s' => if c =? 123 then Some s' else drop_until_open s'
  end.

Fixpoint upto_last_close (s : jsstring) : option jsstring :=
  match s with
  | [] => None
  | c :: s' =>
      match upto_last_close s' with
      | Some m => Some (c :: m)
      | None => if c =? 125 then Some [c] else None
      end
  end.

Definition match_braces (s : jsstring) : option jsstring :=
  match drop_until_open s with
  | Some after =>
      match upto_last_close after with
      | Some m => Some (123 :: m)
      | None => None
      end
  | None => None
  end.

(** *** The decision model adapter ([callDecisionModel]) *)

Record DecisionConfig : Type := mkDecisionConfig {
  dc_provider : LLMProvider;
  dc_apiKey : jsstring;
  dc_baseURL : option jsstring;
  dc_model : jsstring
}.

(** The availability map. *)
Record AvailableDataSources : Type := mkAvailable {
  av_webSearch : bool;
  av_douban : bool;
  av_tmdb : bool
}.

(** A literal of the source that holds quotation marks, written here with
    apostrophes in their place. *)
Definition u16q (s : string) : jsstring :=
  map (fun c => if c =? 39 then 34 else c) (u16 s).

Definition unless (b : bool) (t : string) : jsstring :=
  if b then [] else u16 t.

Definition decisionSystemPrompt (available : AvailableDataSources) : jsstring :=
  let availableSources :=
    (if av_webSearch available
     then [u16 "1. **联网搜索** - 获取最新的实时信息（新闻、上映时间、续集信息等）"]
     else [])
    ++ (if av_douban available
        then [u16 "2. **豆瓣API** - 获取中文影视数据（评分、演员、简介、用户评论等）"]
        else [])
    ++ (if av_tmdb available
        then [u16 "3. **TMDB API** - 获取国际影视数据（详细元数据、相似推荐等）"]
        else []) in
  u16 "你是一个影视问答决策系统。请分析用户的问题，判断需要调用哪些数据源来回答。

当前可用的数据源：
" ++ join [nl] availableSources ++ [nl]
  ++ (match availableSources with
      | [] => u16 "⚠️ 没有可用的数据源，请返回所有字段为false"
      | _ => []
      end)
  ++ u16q "

请以JSON格式返回决策结果，包含以下字段：
{
  'needWebSearch': boolean,  // 是否需要联网搜索"
  ++ unless (av_webSearch available) " (当前不可用，必须返回false)"
  ++ u16q "
  'needDouban': boolean,     // 是否需要豆瓣数据"
  ++ unless (av_douban available) " (当前不可用，必须返回false)"
  ++ u16q "
  'needTMDB': boolean,       // 是否需要TMDB数据"
  ++ unless (av_tmdb available) " (当前不可用，必须返回false)"
  ++ u16q "
  'webSearchQuery': string,  // 如果需要联网，用什么关键词搜索（可选）
  'doubanQuery': string,     // 如果需要豆瓣，用什么关键词搜索（可选）
  'reasoning': string        // 简要说明决策理由
}

决策原则：
- **只能选择当前可用的数据源，不可用的数据源必须返回false**
- **优先使用最少的数据源来满足需求，避免不必要的API调用**
- 时效性问题（最新、上映时间、续集、播出、更新等）→ 需要联网搜索"
  ++ unless (av_webSearch available) "（但当前不可用）"
  ++ u16q "
- 演员/导演相关问题 → 优先豆瓣，如果问'最近作品'则额外联网
- 推荐类问题 → 仅豆瓣（如果包含'最新''今年'等时效性关键词则额外联网）
- 剧情、评分等静态信息 → 仅豆瓣或TMDB，不需要联网
- 当前视频的详细信息（有视频上下文） → 豆瓣+TMDB，通常不需要联网
- 新闻、热点、讨论等 → 需要联网搜索"
  ++ unless (av_webSearch available) "（但当前不可用）"
  ++ u16 "

只返回JSON，不要其他内容。".

Definition decisionUserPrompt (userMessage : jsstring)
  (context : option VideoContext) : jsstring :=
  let contextInfo :=
    match context with
    | Some c =>
        if truthy_string (title c) then
          u16 "

当前视频上下文：
- 标题：" ++ string_or (title c) []
          ++ (if truthy_string (year c)
              then [nl] ++ u16 "- 年份：" ++ string_or (year c) []
              else [])
          ++ (match type c with
              | Some k =>
                  [nl] ++ u16 "- 类型："
                  ++ (match k with movie => u16 "电影" | tv => u16 "电视剧" end)
              | None => []
              end)
          ++ (match currentEpisode c with
              | Some e =>
                  if number_is_zero e then []
                  else [nl] ++ u16 "- 当前集数：第" ++ number_to_string e ++ u16 "集"
              | None => []
              end)
        else []
    | None => []
    end in
  u16 "用户问题：" ++ userMessage ++ contextInfo.

(** The reply text of the model, cleaned; [None] is the TypeError of
    [content.trim] on a value that is not a string. *)
Definition cleaned_content (content : value) : option jsstring :=
  match content with
  | VStr s => Some (cleanJsonResponse s)
  | _ => None
  end.

Definition value_or_null (o : option value) : value :=
  match o with
  | Some v => v
  | None => VNull
  end.

(** [callDecisionModel]: the parsed reply, whatever it is, or [null] when
    the call or the parsing fails. *)
Definition callDecisionModel (world : World) (userMessage : jsstring)
  (context : option VideoContext) (config : DecisionConfig)
  (availableDataSources : AvailableDataSources) : Eff value :=
  let systemPrompt := decisionSystemPrompt availableDataSources in
  let userPrompt := decisionUserPrompt userMessage context in
  let reply (r : Settled Response) : option value :=
    match r with
    | Fulfilled resp =>
        if resp_ok resp then
          match resp_json resp with
          | Fulfilled data => Some data
          | Rejected => None
          end
        else None
    | Rejected => None
    end in
  match dc_provider config with
  | claude =>
      r <- fetch world (DecisionClaude (dc_apiKey config) (dc_model config)
                          systemPrompt userPrompt) ;;
      ret (value_or_null
        (obind (reply r) (fun data =>
         obind (get data (u16 "content")) (fun c =>
         let content :=
           js_or (opt_get (opt_get c (u16 "0")) (u16 "text")) (VStr []) in
         obind (cleaned_content content) (fun cleaned =>
         obind (match_braces cleaned) JSON_parse)))))
  | _ =>
      let baseURL := string_or (dc_baseURL config) (u16 "https://api.openai.com/v1") in
      r <- fetch world (DecisionOpenAI baseURL (dc_apiKey config) (dc_model config)
                          systemPrompt userPrompt) ;;
      ret (value_or_null
        (obind (reply r) (fun data =>
         obind (get data (u16 "choices")) (fun c =>
         let content :=
           js_or (opt_get (opt_get (opt_get c (u16 "0")) (u16 "message"))
                          (u16 "content"))
                 (VStr (u16 "{}")) in
         obind (cleaned_content content) JSON_parse))))
  end.

(** ** The orchestrator ([orchestrateDataSources]) *)

Record OrchestratorConfig : Type := mkConfig {
  enableWebSearch : bool;
  webSearchProvider : option WebSearchProvider;
  tavilyApiKey : option jsstring;
  serperApiKey : option jsstring;
  serpApiKey : option jsstring;
  tmdbApiKey : option jsstring;
  tmdbProxy : option jsstring;
  enableDecisionModel : option bool;
  decisionProvider : option LLMProvider;
  decisionApiKey : option jsstring;
  decisionBaseURL : option jsstring;
  decisionModel : option jsstring
}.

Record OrchestrationResult : Type := mkResult {
  systemPrompt : jsstring;
  webSearchResults : value;
  doubanData : value;
  tmdbData : value
}.

(** How a call ends. *)
Inductive Completion (A : Type) : Type :=
| Returned (a : A)
| Threw.
Arguments Returned {A} a.
Arguments Threw {A}.

(** [config?.f] *)
Definition cfg_field {A : Type} (config : option OrchestratorConfig)
  (f : OrchestratorConfig -> option A) : option A :=
  match config with
  | Some c => f c
  | None => None
  end.

(** The key that goes with the provider. *)
Definition webSearchApiKey (c : OrchestratorConfig) (provider : WebSearchProvider)
  : option jsstring :=
  match provider with
  | tavily => tavilyApiKey c
  | serper => serperApiKey c
  | serpapi => serpApiKey c
  end.

Definition hasWebSearchProvider (c : OrchestratorConfig) : bool :=
  enableWebSearch c &&
  match webSearchProvider c with
  | Some provider => truthy_string (webSearchApiKey c provider)
  | None => false
  end.

Definition hasTMDB (c : OrchestratorConfig) : bool :=
  truthy_string (tmdbApiKey c).

(** The availability map handed to the decision model. *)
Definition availability (c : OrchestratorConfig) : AvailableDataSources :=
  mkAvailable (hasWebSearchProvider c) true (hasTMDB c).

(** Step 1: the decision, or [null] when the decision model is not used. *)
Definition decide (world : World) (userMessage : jsstring)
  (context : option VideoContext) (config : option OrchestratorConfig)
  : Eff value :=
  match config with
  | Some c =>
      match enableDecisionModel c, decisionProvider c, decisionApiKey c,
            decisionModel c with
      | Some true, Some provider, Some (k :: key), Some (m :: model) =>
          callDecisionModel world userMessage context
            (mkDecisionConfig provider (k :: key) (decisionBaseURL c) (m :: model))
            (availability c)
      | _, _, _, _ => ret VNull
      end
  | None => ret VNull
  end.

Definition decision_flag (decision : value) (k : string) : bool :=
  truthy (opt_get decision (u16 k)).

(** The decision in the shape of an intent. *)
Definition intentOfDecision (decision : value) (context : option VideoContext)
  : IntentAnalysisResult :=
  let web := decision_flag decision "needWebSearch" in
  let douban := decision_flag decision "needDouban" in
  let tmdb := decision_flag decision "needTMDB" in
  let webSearchQuery := opt_get decision (u16 "webSearchQuery") in
  mkIntent
    (if douban && negb web then detail
     else if web then query else general)
    (option_map MediaType_of_kind (ctx_field context type))
    None
    web douban tmdb
    (if truthy webSearchQuery then [webSearchQuery] else [])
    []
    webSearchQuery
    (opt_get decision (u16 "doubanQuery")).

Definition resolveIntent (decision : value) (userMessage : jsstring)
  (context : option VideoContext) : IntentAnalysisResult :=
  if negb (truthy decision) then analyzeIntent userMessage context
  else intentOfDecision decision context.

(** A promise of one of the adapters, by the way it settles. *)
Definition Promise : Type := Settled value.

(** Calling an [async] adapter: its requests go out, and the promise it
    returns is fulfilled with its result. *)
Definition start (call : Eff value) : Eff (option Promise) :=
  v <- call ;; ret (Some (Fulfilled v)).

Definition startWebSearch (world : World) (intent : IntentAnalysisResult)
  (userMessage : jsstring) (config : option OrchestratorConfig)
  : Eff (option Promise) :=
  match config with
  | Some c =>
      if needWebSearch intent && enableWebSearch c then
        match webSearchProvider c with
        | Some provider =>
            match webSearchApiKey c provider with
            | Some (k :: key) =>
                let searchQuery :=
                  js_or (optimizedWebSearchQuery intent) (VStr userMessage) in
                start (fetchWebSearch world searchQuery provider (k :: key))
            | _ => ret None
            end
        | None => ret None
        end
      else ret None
  | None => ret None
  end.

Definition is_recommendation (t : IntentType) : bool :=
  match t with
  | recommendation => true
  | _ => false
  end.

Definition startDouban (world : World) (intent : IntentAnalysisResult)
  (context : option VideoContext) : Eff (option Promise) :=
  if needDouban intent then
    if truthy_number (ctx_field context douban_id) then
      start (fetchDoubanData world
               (mkDoubanParams (ctx_field context douban_id) VUndef None None None))
    else if is_recommendation (intent_type intent) then
      start (fetchDoubanData world
               (mkDoubanParams None VUndef
                  (Some (match mediaType intent with
                         | Some m => MediaType_string m
                         | None => u16 "movie"
                         end))
                  (Some (u16 "热门"))
                  (Some (string_or (genre intent) (u16 "全部")))))
    else if truthy (optimizedDoubanQuery intent) then
      start (fetchDoubanData world
               (mkDoubanParams None (optimizedDoubanQuery intent)
                  (match mediaType intent with
                   | Some m => Some (MediaType_string m)
                   | None => option_map MediaKind_string (ctx_field context type)
                   end)
                  None None))
    else if truthy_string (ctx_field context title) then
      start (fetchDoubanData world
               (mkDoubanParams None
                  (match ctx_field context title with
                   | Some t => VStr t
                   | None => VUndef
                   end)
                  (option_map MediaKind_string (ctx_field context type))
                  None None))
    else ret None
  else ret None.

Definition startTMDB (world : World) (intent : IntentAnalysisResult)
  (context : option VideoContext) (config : option OrchestratorConfig)
  : Eff (option Promise) :=
  if needTMDB intent && truthy_number (ctx_field context tmdb_id) then
    match ctx_field context type with
    | Some k =>
        start (fetchTMDBData world (ctx_field context tmdb_id) (Some k)
                 (cfg_field config tmdbApiKey) (cfg_field config tmdbProxy))
    | None => ret None
    end
  else ret None.

(** [dataPromises.push(p)] when the call was made. *)
Definition push_started (dataPromises : list Promise) (p : option Promise)
  : list Promise :=
  match p with
  | Some x => dataPromises ++ [x]
  | None => dataPromises
  end.

(** [await Promise.allSettled(dataPromises)]: the outcome of each promise,
    in the order of the array. *)
Definition Promise_allSettled (dataPromises : list Promise) : list (Settled value) :=
  dataPromises.

(** [if (p) { const result = results[resultIndex++]; if (result.status ===
    'fulfilled') data = result.value }]: the datum and the next index;
    [None] is the TypeError of an index past the end. *)
Definition read_settled (p : option Promise) (results : list (Settled value))
  (resultIndex : nat) : option (value * nat) :=
  match p with
  | None => Some (VNull, resultIndex)
  | Some _ =>
      match nth_error results resultIndex with
      | Some (Fulfilled v) => Some (v, S resultIndex)
      | Some Rejected => Some (VNull, S resultIndex)
      | None => None
      end
  end.

(** Step 3: the three data, read from the settled results by index. *)
Definition collectResults (webSearchPromise doubanPromise tmdbPromise : option Promise)
  (dataPromises : list Promise) : option (value * value * value) :=
  let results := Promise_allSettled dataPromises in
  obind (read_settled webSearchPromise results 0) (fun '(webSearchData, i1) =>
  obind (read_settled doubanPromise results i1) (fun '(doubanData, i2) =>
  obind (read_settled tmdbPromise results i2) (fun '(tmdbData, _) =>
  Some (webSearchData, doubanData, tmdbData)))).

(** *** Step 4: the system prompt *)

Definition promptPreamble : jsstring :=
  u16 "你是 MoonTVPlus 的 AI 影视助手，专门帮助用户发现和了解影视内容。

## 你的能力
- 提供影视推荐（基于豆瓣热门榜单和TMDB数据）
- 回答影视相关问题（剧情、演员、评分等）
- 搜索最新影视资讯（如果启用了联网搜索）

## 回复要求
1. 语言风格：友好、专业、简洁
2. 信息来源：优先使用提供的数据，诚实告知数据不足
3. 推荐理由：说明为什么值得看，包括评分、类型、特色等
4. 格式清晰：使用分段、列表等让内容易读

".

Definition promptClosing : jsstring :=
  u16 "
## 数据来源优先级
1. 如果有联网搜索结果，优先使用其最新信息
2. 豆瓣数据提供中文评价和评分（更适合中文用户）
3. TMDB数据更国际化，提供关键词和相似推荐
4. 如果多个数据源有冲突，以联网搜索为准
5. 如果数据不足以回答问题，诚实告知用户

现在请回答用户的问题。".

Definition webSearchSection (webSearchData : value)
  (config : option OrchestratorConfig) : jsstring :=
  if truthy webSearchData then
    match cfg_field config webSearchProvider with
    | Some provider =>
        match formatSearchResults webSearchData provider with
        | [] => []
        | formattedSearch =>
            [nl] ++ u16 "## 【联网搜索结果】（最新实时信息）" ++ [nl]
            ++ formattedSearch ++ [nl]
        end
    | None => []
    end
  else [].

(** [v.slice(0, n)]; a TypeError unless [v] is an array or a string. *)
Definition js_slice (v : value) (n : nat) : option value :=
  match v with
  | VArr l => Some (VArr (firstn n l))
  | VStr s => Some (VStr (firstn n s))
  | _ => None
  end.

(** [v?.slice(0, n)] *)
Definition opt_slice (v : value) (n : nat) : option value :=
  if is_nullish v then Some VUndef else js_slice v n.

(** An object literal [{ k1: v.k1, ... }] read off [v]; a TypeError when
    [v] is [null]. *)
Definition pick (v : value) (ks : list string) : option (list (jsstring * value)) :=
  map_option (fun k => option_map (fun x => (u16 k, x)) (get v (u16 k))) ks.

Definition stringified (v : value) : jsstring :=
  match JSON_stringify_2 v with
  | Some s => s
  | None => u16 "undefined"
  end.

Definition doubanListItem (item : value) : option value :=
  option_map VObj
    (pick item ["title"; "rating"; "year"; "genres"; "directors"; "actors"]%string).

(** The catalog section; [None] when a TypeError escapes. *)
Definition doubanSection (doubanData : value) : option jsstring :=
  if truthy doubanData then
    let header := [nl] ++ u16 "## 【豆瓣数据】（权威中文评分和信息）" ++ [nl] in
    let list := opt_get doubanData (u16 "list") in
    let items := opt_get doubanData (u16 "items") in
    if truthy list then
      obind (get list (u16 "length")) (fun len =>
      obind (ToString len) (fun len_s =>
      obind (js_slice list 10) (fun first =>
      match first with
      | VArr l =>
          obind (map_option doubanListItem l) (fun mapped =>
          Some (header ++ u16 "推荐列表（" ++ len_s ++ u16 "部）:" ++ [nl]
                  ++ stringified (VArr mapped) ++ [nl]))
      | _ => None
      end)))
    else if truthy items then
      obind (js_slice items 5) (fun first =>
      Some (header ++ u16 "搜索结果:" ++ [nl] ++ stringified first ++ [nl]))
    else
      obind (pick doubanData
               ["title"; "rating"; "year"; "genres"; "directors"; "actors";
                "intro"]%string) (fun fields =>
      obind (opt_slice (opt_get doubanData (u16 "reviews")) 2) (fun reviews =>
      Some (header ++ stringified (VObj (fields ++ [(u16 "reviews", reviews)]))
              ++ [nl])))
  else Some [].

(** The international section; [None] when a TypeError escapes. *)
Definition tmdbSection (tmdbData : value) : option jsstring :=
  if truthy tmdbData then
    obind (pick tmdbData ["overview"; "vote_average"; "genres"; "keywords"]%string)
      (fun fields =>
    obind (opt_slice (opt_get tmdbData (u16 "similar")) 5) (fun similar =>
    Some ([nl] ++ u16 "## 【TMDB数据】（国际数据和详细元信息）" ++ [nl]
            ++ stringified
                 (VObj ((u16 "title",
                         js_or (opt_get tmdbData (u16 "title"))
                               (opt_get tmdbData (u16 "name")))
                          :: fields ++ [(u16 "similar", similar)]))
            ++ [nl])))
  else Some [].

Definition contextSection (context : option VideoContext) : jsstring :=
  match context with
  | Some c =>
      if truthy_string (title c) then
        [nl] ++ u16 "## 【当前视频上下文】" ++ [nl]
        ++ u16 "用户正在浏览: " ++ string_or (title c) []
        ++ (if truthy_string (year c)
            then u16 " (" ++ string_or (year c) [] ++ u16 ")"
            else [])
        ++ (match currentEpisode c with
            | Some e =>
                if number_is_zero e then []
                else u16 "，当前第 " ++ number_to_string e ++ u16 " 集"
            | None => []
            end)
        ++ [nl]
      else []
  | None => []
  end.

Definition buildSystemPrompt (webSearchData doubanData tmdbData : value)
  (context : option VideoContext) (config : option OrchestratorConfig)
  : option jsstring :=
  obind (doubanSection doubanData) (fun douban =>
  obind (tmdbSection tmdbData) (fun tmdb =>
  Some (promptPreamble ++ webSearchSection webSearchData config ++ douban
          ++ tmdb ++ contextSection context ++ promptClosing))).

(** Steps 2 to 4: the calls, the join, the prompt. *)
Definition gatherAndCompose (world : World) (intent : IntentAnalysisResult)
  (userMessage : jsstring) (context : option VideoContext)
  (config : option OrchestratorConfig) : Eff (Completion OrchestrationResult) :=
  let dataPromises := [] in
  webSearchPromise <- startWebSearch world intent userMessage config ;;
  let dataPromises := push_started dataPromises webSearchPromise in
  doubanPromise <- startDouban world intent context ;;
  let dataPromises := push_started dataPromises doubanPromise in
  tmdbPromise <- startTMDB world intent context config ;;
  let dataPromises := push_started dataPromises tmdbPromise in
  ret (match collectResults webSearchPromise doubanPromise tmdbPromise
               dataPromises with
       | Some (webSearchData, doubanData, tmdbData) =>
           match buildSystemPrompt webSearchData doubanData tmdbData
                   context config with
           | Some systemPrompt =>
               Returned (mkResult systemPrompt webSearchData doubanData tmdbData)
           | None => Threw
           end
       | None => Threw
       end).

Definition orchestrateDataSources (world : World) (userMessage : jsstring)
  (context : option VideoContext) (config : option OrchestratorConfig)
  : Eff (Completion OrchestrationResult) :=
  decision <- decide world userMessage context config ;;
  gatherAndCompose world (resolveIntent decision userMessage context)
                   userMessage context config.

(** ** The chat endpoint ([route.ts], [POST]) *)

Record AuthInfo : Type := mkAuthInfo {
  username : option jsstring
}.

Record UserInfo : Type := mkUserInfo {
  user_role : jsstring;
  banned : bool
}.

(** The fields of the stored configuration that the endpoint reads. *)
Record AIConfig : Type := mkAIConfig {
  Enabled : bool;
  AllowRegularUsers : bool;
  EnableWebSearch : bool;
  WebSearchProvider_ : option WebSearchProvider;
  TavilyApiKey : option jsstring;
  SerperApiKey : option jsstring;
  SerpApiKey : option jsstring;
  EnableDecisionModel : bool;
  DecisionCustomModel : option jsstring;
  CustomApiKey : option jsstring;
  CustomBaseURL : option jsstring;
  CustomModel : option jsstring;
  SystemPrompt : option jsstring;
  Temperature : option number;
  MaxTokens : option number
}.

Record SiteConfig : Type := mkSiteConfig {
  TMDBApiKey : option jsstring;
  TMDBProxy : option jsstring
}.

Record AdminConfig : Type := mkAdminConfig {
  AIConfig_ : option AIConfig;
  SiteConfig_ : SiteConfig
}.

Record ChatRequest : Type := mkChatRequest {
  message : value;
  context : option VideoContext;
  history : list ChatMessage
}.

(** The request as the handler reads it: the session found in the cookie,
    and the body ([request.json()] may reject). *)
Record NextRequest : Type := mkRequest {
  authInfo : option AuthInfo;
  body : Settled ChatRequest
}.

(** What the handler is given besides the request. *)
Record Server : Type := mkServer {
  net : World;
  getConfig : Settled AdminConfig;
  getUserInfoV2 : jsstring -> Settled (option UserInfo);
  env_USERNAME : option jsstring
}.

(** The response: [NextResponse.json({ error }, { status })], or the event
    stream with status 200. *)
Inductive NextResponse : Type :=
| JsonError (status : N) (error : jsstring)
| EventStream (sse : ReadableStream).

Definition internalError : NextResponse := JsonError 500 (u16 "AI聊天请求失败").

(** [streamOpenAIChat]: the body of the response, or a throw. *)
Definition streamOpenAIChat (world : World) (messages : list ChatMessage)
  (apiKey baseURL model : jsstring) (temperature maxTokens : number)
  : Eff (Completion ReadableStream) :=
  r <- fetch world (ChatCompletions baseURL apiKey model messages
                      temperature maxTokens) ;;
  ret (match r with
       | Fulfilled resp =>
           if resp_ok resp then Returned (resp_body resp) else Threw
       | Rejected => Threw
       end).

Definition is_admin_or_owner (u : UserInfo) : bool :=
  jseqb (user_role u) (u16 "admin") || jseqb (user_role u) (u16 "owner").

(** Gate 3, the role: [true] when the caller may go on, [None] when
    [db.getUserInfoV2] rejects. *)
Definition roleAllowed (server : Server) (aiConfig : AIConfig) (name : jsstring)
  : option bool :=
  if AllowRegularUsers aiConfig then Some true
  else if match env_USERNAME server with
          | Some owner => jseqb name owner
          | None => false
          end then Some true
  else
    match getUserInfoV2 server name with
    | Fulfilled (Some userInfo) =>
        Some (is_admin_or_owner userInfo && negb (banned userInfo))
    | Fulfilled None => Some false
    | Rejected => None
    end.

Definition orchestratorConfig (adminConfig : AdminConfig) (aiConfig : AIConfig)
  : OrchestratorConfig :=
  mkConfig (EnableWebSearch aiConfig) (WebSearchProvider_ aiConfig)
           (TavilyApiKey aiConfig) (SerperApiKey aiConfig) (SerpApiKey aiConfig)
           (TMDBApiKey (SiteConfig_ adminConfig))
           (TMDBProxy (SiteConfig_ adminConfig))
           (Some (EnableDecisionModel aiConfig)) (Some custom)
           (CustomApiKey aiConfig) (CustomBaseURL aiConfig)
           (DecisionCustomModel aiConfig).

(** Steps 4 to 7 of the handler, once the message is known to be a
    non-empty string. *)
Definition answer (server : Server) (adminConfig : AdminConfig)
  (aiConfig : AIConfig) (msg : jsstring) (req : ChatRequest)
  : Eff NextResponse :=
  orchestrationResult <-
    orchestrateDataSources (net server) msg (context req)
      (Some (orchestratorConfig adminConfig aiConfig)) ;;
  match orchestrationResult with
  | Threw => ret internalError
  | Returned result =>
      let prompt :=
        if truthy_string (SystemPrompt aiConfig)
        then string_or (SystemPrompt aiConfig) [] ++ [nl; nl] ++ systemPrompt result
        else systemPrompt result in
      let messages :=
        [mkChatMessage (u16 "user") prompt;
         mkChatMessage (u16 "assistant")
                       (u16 "明白了，我会按照要求回答用户的问题。")]
        ++ history req ++ [mkChatMessage (u16 "user") msg] in
      let temperature :=
        match Temperature aiConfig with
        | Some t => t
        | None => mkNumber false 7 (-1)
        end in
      let maxTokens :=
        match MaxTokens aiConfig with
        | Some m => m
        | None => number_of_Z 1000
        end in
      match CustomApiKey aiConfig, CustomBaseURL aiConfig with
      | Some (k :: key), Some (b :: base) =>
          stream <- streamOpenAIChat (net server) messages (k :: key) (b :: base)
                      (string_or (CustomModel aiConfig) (u16 "gpt-3.5-turbo"))
                      temperature maxTokens ;;
          ret (match stream with
               | Returned upstream => EventStream (transformToSSE upstream openai)
               | Threw => internalError
               end)
      | _, _ => ret (JsonError 400 (u16 "自定义API配置不完整"))
      end
  end.

Definition POST (server : Server) (request : NextRequest) : Eff NextResponse :=
  match authInfo request with
  | Some (mkAuthInfo (Some (n :: name))) =>
      match getConfig server with
      | Rejected => ret internalError
      | Fulfilled adminConfig =>
          match AIConfig_ adminConfig with
          | Some aiConfig =>
              if Enabled aiConfig then
                match roleAllowed server aiConfig (n :: name) with
                | None => ret internalError
                | Some false => ret (JsonError 403 (u16 "该功能仅限站长和管理员使用"))
                | Some true =>
                    match body request with
                    | Rejected => ret internalError
                    | Fulfilled req =>
                        match message req with
                        | VStr (m :: msg) =>
                            answer server adminConfig aiConfig (m :: msg) req
                        | _ => ret (JsonError 400 (u16 "消息内容不能为空"))
                        end
                    end
                end
              else ret (JsonError 400 (u16 "AI功能未启用"))
          | None => ret (JsonError 400 (u16 "AI功能未启用"))
          end
      end
  | _ => ret (JsonError 401 (u16 "Unauthorized"))
  end.

(** ** Vocabulary of the properties *)

(** What a successful parse with some fuel tells: it consumed something,
    and twice the length consumed is fuel enough to find it again. *)
Definition fuel_bound {A : Type} (parse : nat -> jsstring -> A -> option (value * jsstring))
  (f : nat) : Prop :=
  forall (s : jsstring) (a : A) (v : value) (rest : jsstring),
    parse f s a = Some (v, rest) ->
    (length rest < length s)%nat
    /\ forall f', (2 * (length s - length rest) <= f')%nat ->
                  parse f' s a = Some (v, rest).

(** The requests, by the source they go to. *)
Definition is_web_search_call (c : Call) : bool :=
  match c with
  | TavilySearch _ _ | SerperSearch _ _ | SerpApiSearch _ _ => true
  | _ => false
  end.

Definition is_douban_call (c : Call) : bool :=
  match c with
  | DoubanFetch _ => true
  | _ => false
  end.

Definition is_tmdb_call (c : Call) : bool :=
  match c with
  | TMDBDetail _ _ _ => true
  | _ => false
  end.

Definition is_decision_call (c : Call) : bool :=
  match c with
  | DecisionClaude _ _ _ _ | DecisionOpenAI _ _ _ _ _ => true
  | _ => false
  end.

Definition is_provider_call (c : Call) : bool :=
  is_web_search_call c || is_douban_call c || is_tmdb_call c
  || is_decision_call c.

(** The requests of a computation, and its result. *)
Definition calls {A : Type} (m : Eff A) : list Call := fst m.
Definition result {A : Type} (m : Eff A) : A := snd m.

(** A world in which nothing answers. *)
Definition silent : World := fun _ => Rejected.

(** A response that carries JSON. *)
Definition json_response (v : value) : Settled Response :=
  Fulfilled (mkResponse true (Fulfilled v) (mkStream [] StreamClosed)).

(** The line feed byte. *)
Definition LF : byte := x0a.

(** A chunk that stops at a line break (or is empty). *)
Definition ends_at_line_break (chunk : list byte) : bool :=
  match rev chunk with
  | [] => true
  | b :: _ => Byte.eqb b LF
  end.


Fixpoint decoded_chunks (d : TextDecoder) (chunks : list (list byte))
  : list jsstring :=
  match chunks with
  | [] => []
  | c :: rest =>
      snd (TextDecoder_decode d c)
        :: decoded_chunks (fst (TextDecoder_decode d c)) rest
  end.








(** Bytes of a literal written with apostrophes for quotation marks. *)
Definition bytesq (s : string) : list byte :=
  map (fun b => if Byte.eqb b x27 then x22 else b) (list_byte_of_string s).

(** One event of an OpenAI-compatible stream: the line and a blank line. *)
Definition openai_delta_event (delta : string) : list byte :=
  bytesq "data: {'choices':[{'delta':{'content':'" ++ bytes delta
    ++ bytesq "'}}]}" ++ [LF; LF].

Definition openai_done_event : list byte := bytes "data: [DONE]" ++ [LF; LF].

(** The states the UTF-8 decoder can be in: either no sequence is open, or
    the next byte must be a continuation byte. *)
Definition utf8_wf (st : Utf8State) : Prop :=
  u_needed st = 0 \/ (u_needed st <> 0 /\ 128 <= u_lower st).

Definition decoder_wf (d : TextDecoder) : Prop := utf8_wf (td_utf8 d).

(** The decoder between two lines, once something has been decoded. *)
Definition decoder_at_line_start : TextDecoder := mkTextDecoder utf8_init true.

(** The stream of property P5: three deltas and the sentinel. *)
Definition upstream_P5 : list byte :=
  openai_delta_event "Hel" ++ openai_delta_event "lo"
    ++ openai_delta_event " world" ++ openai_done_event.

(** A normalized event as it is on the wire. *)
Definition wire_text_event (text : string) : list byte :=
  bytesq "data: {'text':'" ++ bytes text ++ bytesq "'}" ++ [LF; LF].

Definition wire_sentinel_event : list byte := bytes "data: [DONE]" ++ [LF; LF].

(** The datum a source contributes: the value its promise was fulfilled
    with; [null] when the call was not made or its promise was rejected. *)
Definition own_datum (p : option Promise) : value :=
  match p with
  | Some (Fulfilled v) => v
  | _ => VNull
  end.

(** The three sources, their availability and their requests. *)
Inductive Source : Type := WebSearch | Douban | TMDB.

Definition available (a : AvailableDataSources) (s : Source) : bool :=
  match s with
  | WebSearch => av_webSearch a
  | Douban => av_douban a
  | TMDB => av_tmdb a
  end.

Definition call_to (s : Source) (c : Call) : bool :=
  match s with
  | WebSearch => is_web_search_call c
  | Douban => is_douban_call c
  | TMDB => is_tmdb_call c
  end.

(** The requests to the data sources (all but those to the decision
    model). *)
Definition data_calls {A : Type} (m : Eff A) : list Call :=
  filter (fun c => negb (is_decision_call c)) (calls m).

(** The JSON a request is answered with, [null] when there is none. *)
Definition payload (r : Settled Response) : value :=
  match r with
  | Fulfilled resp =>
      match resp_json resp with
      | Fulfilled v => v
      | Rejected => VNull
      end
  | Rejected => VNull
  end.

Definition sliceable (v : value) : bool :=
  match v with
  | VUndef | VNull | VArr _ | VStr _ => true
  | _ => false
  end.

(** A catalog payload of one of the three shapes the composer expects: a
    [list] of items, [items], or a detail object whose [reviews], when
    present, is a list. *)
Definition catalog_payload_ok (v : value) : bool :=
  negb (truthy v) ||
  (if truthy (opt_get v (u16 "list")) then
     match opt_get v (u16 "list") with
     | VArr l => forallb (fun x => negb (is_nullish x)) l
     | _ => false
     end
   else if truthy (opt_get v (u16 "items")) then
     match opt_get v (u16 "items") with
     | VArr _ | VStr _ => true
     | _ => false
     end
   else sliceable (opt_get v (u16 "reviews"))).

(** An international payload whose [similar], when present, is a list. *)
Definition tmdb_payload_ok (v : value) : bool :=
  negb (truthy v) || sliceable (opt_get v (u16 "similar")).

(** A world whose catalog and international answers have these shapes. *)
Definition well_shaped (world : World) : Prop :=
  forall c : Call,
    (is_douban_call c = true -> catalog_payload_ok (payload (world c)) = true)
    /\ (is_tmdb_call c = true -> tmdb_payload_ok (payload (world c)) = true).

Definition webSearchConfigured (config : option OrchestratorConfig) : bool :=
  match config with
  | Some c => hasWebSearchProvider c
  | None => false
  end.

(** The classifier path: the decision model is not used, or gave nothing. *)
Definition classifier_path (world : World) (userMessage : jsstring)
  (context : option VideoContext) (config : option OrchestratorConfig) : Prop :=
  truthy (result (decide world userMessage context config)) = false.

(** Scenario B. *)
Definition message_B : jsstring := u16 "这部剧什么时候出第二季".

(** Scenario C. *)
Definition message_C : jsstring := u16 "这部电影讲的是什么".

Definition context_C : VideoContext :=
  mkVideoContext None None None (Some (number_of_Z 603)) (Some movie) None.

Definition tmdb_call_C (config : option OrchestratorConfig) : list Call :=
  match cfg_field config tmdbApiKey with
  | Some (k :: key) => [TMDBDetail movie (number_of_Z 603) (k :: key)]
  | _ => []
  end.

(** A context that only names what is being watched. *)
Definition context_titled : VideoContext :=
  mkVideoContext (Some (u16 "黑客帝国")) None None None None None.

(** A configuration with the decision model switched on and neither a
    web-search key nor a TMDB key. *)
Definition config_no_keys : OrchestratorConfig :=
  mkConfig true (Some tavily) None None None None None
           (Some true) (Some custom) (Some (u16 "sk-main"))
           (Some (u16 "https://llm.example/v1")) (Some (u16 "decider")).

(** A decision model that asks for every source, whatever it was told. *)
Definition world_asking_everything : World :=
  fun c =>
    match c with
    | DecisionOpenAI _ _ _ _ _ =>
        json_response
          (VObj [(u16 "choices",
                  VArr [VObj [(u16 "message",
                               VObj [(u16 "content",
                                      VStr (u16q "{'needWebSearch':true,'needDouban':true,'needTMDB':true}"))])]])])
    | _ => Rejected
    end.

Definition context_matrix : VideoContext :=
  mkVideoContext (Some (u16 "黑客帝国")) (Some (u16 "1999")) None
                 (Some (number_of_Z 603)) (Some movie) None.

(** A configuration with a TMDB key and nothing else. *)
Definition config_tmdb_only : OrchestratorConfig :=
  mkConfig false None None None None (Some (u16 "tmdb-key")) None
           None None None None None.

(** The international source answers with the shape of its API, where
    [similar] is a page object. *)
Definition world_tmdb_page : World :=
  fun c =>
    match c with
    | TMDBDetail _ _ _ =>
        json_response
          (VObj [(u16 "title", VStr (u16 "The Matrix"));
                 (u16 "similar",
                  VObj [(u16 "page", VNum (number_of_Z 1));
                        (u16 "results", VArr [])])])
    | _ => Rejected
    end.

(** The same answer without [similar]. *)
Definition world_tmdb_title : World :=
  fun c =>
    match c with
    | TMDBDetail _ _ _ =>
        json_response (VObj [(u16 "title", VStr (u16 "The Matrix"))])
    | _ => Rejected
    end.

(** A stored configuration with the feature enabled for everyone, a TMDB
    key, and no key for the custom LLM provider. *)
Definition aiConfig_without_key : AIConfig :=
  mkAIConfig true true false None None None None false None
             None (Some (u16 "https://llm.example/v1")) None None None None.

Definition server_without_key : Server :=
  mkServer silent
           (Fulfilled (mkAdminConfig (Some aiConfig_without_key)
                         (mkSiteConfig (Some (u16 "tmdb-key")) None)))
           (fun _ => Fulfilled None)
           None.

(** A well-formed request of a logged-in user. *)
Definition request_about_matrix : NextRequest :=
  mkRequest (Some (mkAuthInfo (Some (u16 "alice"))))
            (Fulfilled (mkChatRequest (VStr message_C) (Some context_matrix) [])).

Definition error_custom_api : jsstring := u16 "自定义API配置不完整".

(** The response is the error of one of the gates that stand before the
    orchestration: session, feature switch, role, message. *)
Definition early_gate_error (r : NextResponse) : Prop :=
  match r with
  | JsonError status error =>
      status = 401 \/ status = 403
      \/ (status = 400 /\ error <> error_custom_api)
  | EventStream _ => False
  end.

(** The property under which each web-search provider lists its hits. *)
Definition results_key (provider : WebSearchProvider) : jsstring :=
  match provider with
  | tavily => u16 "results"
  | serper => u16 "organic"
  | serpapi => u16 "organic_results"
  end.

Definition has_backtick (s : jsstring) : bool := existsb (N.eqb 96) s.

(** A reply wrapped in a Markdown code fence, with or without the language
    tag. *)
Definition fenced (tag body : jsstring) : jsstring :=
  backticks ++ tag ++ [nl] ++ body ++ [nl] ++ backticks.

Definition fence_tags : list jsstring := [[]; u16 "json"; u16 "JSON"].

(** The configuration with the decision model switched off. *)
Definition without_decision_model (c : OrchestratorConfig) : OrchestratorConfig :=
  mkConfig (enableWebSearch c) (webSearchProvider c) (tavilyApiKey c)
           (serperApiKey c) (serpApiKey c) (tmdbApiKey c) (tmdbProxy c)
           (Some false) (decisionProvider c) (decisionApiKey c)
           (decisionBaseURL c) (decisionModel c).

(** A request that got no usable answer: the fetch was rejected, the status
    was not ok, or the body was not JSON. *)
Definition unanswered (r : Settled Response) : bool :=
  match r with
  | Fulfilled resp =>
      negb (resp_ok resp)
      || match resp_json resp with
         | Fulfilled _ => false
         | Rejected => true
         end
  | Rejected => true
  end.

(** The decision model is switched on and fully configured. *)
Definition decision_model_on (c : OrchestratorConfig) : bool :=
  match enableDecisionModel c, decisionProvider c, decisionApiKey c,
        decisionModel c with
  | Some true, Some _, Some (_ :: _), Some (_ :: _) => true
  | _, _, _, _ => false
  end.

(** The requests to a language model: the decision model and the chat. *)
Definition is_chat_call (c : Call) : bool :=
  match c with
  | ChatCompletions _ _ _ _ _ _ => true
  | _ => false
  end.

Definition is_llm_call (c : Call) : bool := is_decision_call c || is_chat_call c.

(** Every error the endpoint can answer with. *)
Definition POST_errors : list (N * jsstring) :=
  [(401, u16 "Unauthorized");
   (400, u16 "AI功能未启用");
   (403, u16 "该功能仅限站长和管理员使用");
   (400, u16 "消息内容不能为空");
   (400, error_custom_api);
   (500, u16 "AI聊天请求失败")].

(** The acknowledgement put after the system prompt. *)
Definition assistant_ack : ChatMessage :=
  mkChatMessage (u16 "assistant") (u16 "明白了，我会按照要求回答用户的问题。").

(** The stored configuration has a key for the custom LLM provider. *)
Definition custom_key_configured (server : Server) : bool :=
  match getConfig server with
  | Fulfilled adminConfig =>
      match AIConfig_ adminConfig with
      | Some aiConfig => truthy_string (CustomApiKey aiConfig)
      | None => false
      end
  | Rejected => false
  end.

Definition is_event_stream (r : NextResponse) : bool :=
  match r with
  | EventStream _ => true
  | JsonError _ _ => false
  end.

(** ** The chat panel ([AIChatPanel.tsx], [handleSendMessage]) *)

(** The body of [for (const line of lines)]: the assistant message after
    the line, and whether the loop is left by [break].  A SyntaxError of
    [JSON.parse] and a TypeError of [json.text] or of the concatenation are
    absorbed by the [catch]. *)
Definition client_line (assistantMessage line : jsstring) : jsstring * bool :=
  if startsWith line (u16 "data: ") then
    let data := slice_from 6 line in
    if jseqb data (u16 "[DONE]") then (assistantMessage, true)
    else
      match JSON_parse data with
      | None => (assistantMessage, false)
      | Some json =>
          match get json (u16 "text") with
          | None => (assistantMessage, false)
          | Some t =>
              let text := js_or t (VStr []) in
              if truthy text then
                match ToString text with
                | Some s => (assistantMessage ++ s, false)
                | None => (assistantMessage, false)
                end
              else (assistantMessage, false)
          end
      end
  else (assistantMessage, false).

Fixpoint client_lines (assistantMessage : jsstring) (lines : list jsstring)
  : jsstring :=
  match lines with
  | [] => assistantMessage
  | line :: rest =>
      let '(m, stop) := client_line assistantMessage line in
      if stop then m else client_lines m rest
  end.

(** The [while (true)] loop over [reader.read()]; the [break] on the
    sentinel leaves the loop over the lines of one chunk only. *)
Fixpoint client_read_loop (decoder : TextDecoder) (assistantMessage : jsstring)
  (chunks : list (list byte)) : jsstring :=
  match chunks with
  | [] => assistantMessage
  | value :: rest =>
      let '(decoder', chunk) := TextDecoder_decode decoder value in
      client_read_loop decoder'
        (client_lines assistantMessage (chunk_lines chunk)) rest
  end.

(** The text of the assistant message when the response body has been
    read; [Threw] when a read rejects, and the error notice takes the place
    of the text. *)
Definition receive (body : ReadableStream) : Completion jsstring :=
  match rs_end body with
  | StreamClosed =>
      Returned (client_read_loop TextDecoder_new [] (rs_chunks body))
  | StreamErrored => Threw
  end.

(** The request [handleSendMessage] sends, from the messages on screen,
    the input box and the streaming flag; [None] when it returns at once.
    The welcome message of the assistant is left out of the history. *)
Definition chat_request (messages : list ChatMessage)
  (welcomeMessage input : jsstring) (isStreaming : bool)
  (context : option VideoContext) : option ChatRequest :=
  if jseqb (trim input) [] || isStreaming then None
  else
    Some (mkChatRequest (VStr (trim input)) context
            (filter (fun m => negb (jseqb (role m) (u16 "assistant"))
                              || negb (jseqb (content m) welcomeMessage))
                    messages)).

(** ** The settings menu ([UserMenu.tsx]) *)

Definition strategies : list jsstring := map u16 ["low"; "medium"; "high"; "ultra"]%string.

(** [strategies[sliderValue] || 'medium'] *)
Definition getBufferStrategyFromSlider (sliderValue : number) : value :=
  js_or (opt_get (VArr (map VStr strategies)) (number_to_string sliderValue))
        (VStr (u16 "medium")).

(** [xs.indexOf(x)], from position [i]; [None] is -1. *)
Fixpoint indexOf_from (xs : list jsstring) (x : jsstring) (i : nat) : option nat :=
  match xs with
  | [] => None
  | y :: rest => if jseqb y x then Some i else indexOf_from rest x (S i)
  end.

Definition indexOf (xs : list jsstring) (x : jsstring) : option nat :=
  indexOf_from xs x 0.

Definition getSliderValueFromStrategy (strategy : jsstring) : number :=
  match indexOf strategies strategy with
  | Some index => number_of_nat index
  | None => number_of_nat 1
  end.

Record HomeModule : Type := mkHomeModule {
  hm_id : jsstring;
  hm_name : jsstring;
  hm_enabled : bool;
  hm_order : number
}.

(** An array position: never written (a hole), [undefined], or a
    module. *)
Inductive Slot : Type :=
| Hole
| Undefined
| Module (m : HomeModule).

(** [xs[i]] read as a value to store. *)
Definition slot_get (xs : list Slot) (i : nat) : Slot :=
  match nth_error xs i with
  | Some (Module m) => Module m
  | _ => Undefined
  end.

(** [xs[i] = v]: a write past the end lengthens the array and leaves
    holes. *)
Fixpoint slot_set (xs : list Slot) (i : nat) (v : Slot) : list Slot :=
  match xs, i with
  | [], O => [v]
  | [], S j => Hole :: slot_set [] j v
  | _ :: rest, O => v :: rest
  | x :: rest, S j => x :: slot_set rest j v
  end.

(** [xs.forEach((module, idx) => { module.order = idx })]: holes are
    skipped; [None] is the TypeError of [undefined.order = idx]. *)
Fixpoint renumber_from (idx : nat) (xs : list Slot) : option (list Slot) :=
  match xs with
  | [] => Some []
  | Hole :: rest => option_map (cons Hole) (renumber_from (S idx) rest)
  | Undefined :: _ => None
  | Module m :: rest =>
      option_map
        (cons (Module (mkHomeModule (hm_id m) (hm_name m) (hm_enabled m)
                                    (number_of_nat idx))))
        (renumber_from (S idx) rest)
  end.

(** What a handler of the menu does to the list of modules. *)
Inductive Handled : Type :=
| Ignored
| Updated (updatedModules : list Slot)
| TypeError.

Definition swap_and_renumber (homeModules : list HomeModule) (i j : nat) : Handled :=
  let updatedModules := map Module homeModules in
  let temp := slot_get updatedModules i in
  let updatedModules := slot_set updatedModules i (slot_get updatedModules j) in
  let updatedModules := slot_set updatedModules j temp in
  match renumber_from 0 updatedModules with
  | Some renumbered => Updated renumbered
  | None => TypeError
  end.

(** The two handlers are called by the rendered list with the position of
    the module ([homeModules.map((module, index) => ...)]); [index] is that
    position, an array index: a non-negative integer below 2^32 - 1.  Other
    numbers (negative, fractional, larger) name ordinary properties of the
    array in JavaScript and are not described by these definitions. *)
Definition handleHomeModuleMoveUp (homeModules : list HomeModule) (index : nat)
  : Handled :=
  if (index =? 0)%nat then Ignored
  else swap_and_renumber homeModules index (index - 1).

Definition handleHomeModuleMoveDown (homeModules : list HomeModule) (index : nat)
  : Handled :=
  if (Z.of_nat index =? Z.of_nat (length homeModules) - 1)%Z then Ignored
  else swap_and_renumber homeModules index (index + 1).

Definition handleHomeModuleToggle (homeModules : list HomeModule)
  (id : jsstring) (enabled : bool) : list HomeModule :=
  map (fun module =>
         if jseqb (hm_id module) id
         then mkHomeModule (hm_id module) (hm_name module) enabled (hm_order module)
         else module)
      homeModules.

(** ** The theme endpoint ([POST] of the theme configuration route) *)

Record ThemeUser : Type := mkThemeUser {
  tu_username : jsstring;
  tu_role : jsstring;
  tu_banned : bool
}.

(** The theme configuration as this handler writes it.  [cacheVersion] is
    a counter that only this handler writes, kept as a natural number. *)
Record ThemeConfig : Type := mkThemeConfig {
  tc_enableBuiltInTheme : bool;
  tc_builtInTheme : jsstring;
  tc_customCSS : jsstring;
  tc_enableCache : bool;
  tc_cacheMinutes : number;
  tc_cacheVersion : N;
  tc_loginBackgroundImage : option jsstring;
  tc_registerBackgroundImage : option jsstring
}.

Record ThemeAdminConfig : Type := mkThemeAdminConfig {
  Users : list ThemeUser;
  ThemeConfig_ : option ThemeConfig
}.

Record ThemeServer : Type := mkThemeServer {
  ts_storageType : option jsstring;
  ts_USERNAME : option jsstring;
  ts_getConfig : Settled ThemeAdminConfig;
  ts_saveAdminConfig : ThemeConfig -> bool
}.

Record ThemeRequest : Type := mkThemeRequest {
  tr_authInfo : option AuthInfo;
  tr_body : Settled value
}.

Inductive ThemeResponse : Type :=
| ThemeError (status : N) (error : jsstring)
| ThemeOk (cacheVersion : N).

Definition themeFailed : ThemeResponse := ThemeError 500 (u16 "更新主题配置失败").

(** [version + 1] on binary64: exact below 2^53, rounded to even above. *)
Definition version_plus_one (version : N) : N :=
  if version <? 2 ^ 53 then version + 1
  else if version <? 2 ^ 54
       then (if N.even (version / 2) then version else version + 2)
       else version.

(** The lines of a background-image field that hold something. *)
Definition background_urls (s : jsstring) : list jsstring :=
  filter (fun url => negb (jseqb url [])) (map trim (split_lines s)).

Definition bad_url (url : jsstring) : bool :=
  negb (startsWith url (u16 "http://")) && negb (startsWith url (u16 "https://")).

(** The check of one background-image field: the first line that is not a
    URL, if any; the outer [None] is the TypeError of [.trim] on a value
    that is not a string. *)
Definition check_background (v : value) : option (option jsstring) :=
  if truthy v then
    match v with
    | VStr s =>
        if negb (jseqb (trim s) []) then Some (find bad_url (background_urls s))
        else Some None
    | _ => None
    end
  else Some None.

(** [v?.trim() || undefined]; the outer [None] is a TypeError. *)
Definition stored_background (v : value) : option (option jsstring) :=
  match v with
  | VUndef | VNull => Some None
  | VStr s => Some (match trim s with [] => None | t => Some t end)
  | _ => None
  end.

Definition theme_permitted (server : ThemeServer) (adminConfig : ThemeAdminConfig)
  (username : jsstring) : bool :=
  if match ts_USERNAME server with
     | Some owner => jseqb username owner
     | None => false
     end then true
  else
    match find (fun u => jseqb (tu_username u) username) (Users adminConfig) with
    | Some user => jseqb (tu_role user) (u16 "admin") && negb (tu_banned user)
    | None => false
    end.

(** The handler: what it hands to [db.saveAdminConfig], if it gets there,
    and what it answers. *)
Definition theme_POST (server : ThemeServer) (request : ThemeRequest)
  : option ThemeConfig * ThemeResponse :=
  if jseqb (string_or (ts_storageType server) (u16 "localstorage"))
           (u16 "localstorage")
  then (None, ThemeError 400 (u16 "不支持本地存储进行管理员配置"))
  else
    match tr_body request with
    | Rejected => (None, themeFailed)
    | Fulfilled body =>
        match tr_authInfo request with
        | Some (mkAuthInfo (Some (n :: name))) =>
            let username := n :: name in
            match get body (u16 "enableBuiltInTheme") with
            | None => (None, themeFailed)
            | Some _ =>
                match opt_get body (u16 "enableBuiltInTheme"),
                      opt_get body (u16 "builtInTheme"),
                      opt_get body (u16 "customCSS"),
                      opt_get body (u16 "enableCache"),
                      opt_get body (u16 "cacheMinutes") with
                | VBool enableBuiltInTheme, VStr builtInTheme, VStr customCSS,
                  VBool enableCache, VNum cacheMinutes =>
                    let loginBackgroundImage :=
                      opt_get body (u16 "loginBackgroundImage") in
                    let registerBackgroundImage :=
                      opt_get body (u16 "registerBackgroundImage") in
                    match check_background loginBackgroundImage with
                    | None => (None, themeFailed)
                    | Some (Some url) =>
                        (None,
                         ThemeError 400
                           (u16 "登录界面背景图URL格式错误：" ++ url
                              ++ u16 "，每个URL必须以http://或https://开头"))
                    | Some None =>
                        match check_background registerBackgroundImage with
                        | None => (None, themeFailed)
                        | Some (Some url) =>
                            (None,
                             ThemeError 400
                               (u16 "注册界面背景图URL格式错误：" ++ url
                                  ++ u16 "，每个URL必须以http://或https://开头"))
                        | Some None =>
                            match ts_getConfig server with
                            | Rejected => (None, themeFailed)
                            | Fulfilled adminConfig =>
                                if theme_permitted server adminConfig username then
                                  let currentVersion :=
                                    match ThemeConfig_ adminConfig with
                                    | Some t => tc_cacheVersion t
                                    | None => 0
                                    end in
                                  let currentCSS :=
                                    option_map
                                      (if enableBuiltInTheme then tc_builtInTheme
                                       else tc_customCSS)
                                      (ThemeConfig_ adminConfig) in
                                  let newCSS :=
                                    if enableBuiltInTheme then builtInTheme
                                    else customCSS in
                                  let cssChanged :=
                                    match currentCSS with
                                    | Some css => negb (jseqb css newCSS)
                                    | None => true
                                    end in
                                  match stored_background loginBackgroundImage,
                                        stored_background registerBackgroundImage with
                                  | Some login, Some register =>
                                      let theme :=
                                        mkThemeConfig enableBuiltInTheme builtInTheme
                                          customCSS enableCache cacheMinutes
                                          (if cssChanged
                                           then version_plus_one currentVersion
                                           else currentVersion)
                                          login register in
                                      if ts_saveAdminConfig server theme
                                      then (Some theme, ThemeOk (tc_cacheVersion theme))
                                      else (Some theme, themeFailed)
                                  | _, _ => (None, themeFailed)
                                  end
                                else (None, ThemeError 401 (u16 "权限不足"))
                            end
                        end
                    end
                | _, _, _, _, _ => (None, ThemeError 400 (u16 "参数格式错误"))
                end
            end
        | _ => (None, ThemeError 401 (u16 "Unauthorized"))
        end
    end.

(** ** Vocabulary of the round trip *)

(** [p] holds on every number from [base] to [base + 2^bits - 1]. *)
Fixpoint all_in_range (bits : nat) (base : N) (p : N -> bool) : bool :=
  match bits with
  | O => p base
  | S b => all_in_range b base p && all_in_range b (base + 2 ^ N.of_nat b) p
  end.

Definition is_scalar_value (cp : codepoint) : bool :=
  (cp <? 1114112) && negb ((55296 <=? cp) && (cp <=? 57343)).

(** The four digits of an escape give back the code unit. *)
Definition hex_round_trip_at (c : N) : bool :=
  match hex4 c with
  | [h1; h2; h3; h4] =>
      match hex4_value h1 h2 h3 h4 with
      | Some u => u =? c
      | None => false
      end
  | _ => false
  end.

(** Code units of sixteen bits. *)
Definition valid_units (s : jsstring) : bool := forallb (fun c => c <? 65536) s.

(** Text that [TextEncoder] encodes without loss: sixteen-bit code units
    and no lone surrogate. *)
Definition scalar_text (s : jsstring) : bool := isWellFormed s && valid_units s.

(** A value whose strings and keys are made of sixteen-bit code units. *)
Fixpoint valid_value (v : value) : bool :=
  match v with
  | VStr s => valid_units s
  | VArr items => forallb valid_value items
  | VObj props =>
      forallb (fun '(k, x) => valid_units k && valid_value x) props
  | VNative name => valid_units name
  | VUndef | VNull | VBool _ | VNum _ => true
  end.

(** The code point that the UTF-8 decoder has under construction leaves
    room for the bytes still needed, so that the code points it gives are
    below 2^21. *)
Definition utf8_bounded (st : Utf8State) : Prop :=
  u_needed st = 0
  \/ (u_seen st + 1 = u_needed st /\ u_cp st < 32768)
  \/ (u_seen st + 2 = u_needed st /\ u_cp st < 512)
  \/ (u_seen st + 3 = u_needed st /\ u_cp st < 8).

Definition decoder_bounded (d : TextDecoder) : Prop := utf8_bounded (td_utf8 d).

(** A code unit that is neither a line feed nor outside sixteen bits, and a
    text of such units. *)
Definition is_line_unit (c : N) : bool := (c <? 65536) && negb (c =? 10).

Definition line_text (s : jsstring) : bool := forallb is_line_unit s.

(** A text delta: not empty, sixteen-bit code units. *)
Definition is_delta (s : jsstring) : bool :=
  negb (jseqb s []) && valid_units s.

(** An upstream line that carries the text [s] for provider [p]. *)
Definition carries (p : LLMProvider) (line s : jsstring) : bool :=
  startsWith line (u16 "data: ")
  && negb (existsb (N.eqb nl) line)
  && scalar_text line
  && match JSON_parse (trim (slice_from 6 line)) with
     | Some json =>
         match extract_text p json with
         | Some (VStr t) => jseqb t s
         | _ => false
         end
     | None => false
     end.

(** An upstream event: the line and a blank line. *)
Definition upstream_event (line : jsstring) : list byte :=
  TextEncoder_encode (line ++ [nl; nl]).

(** The events the transformer makes of a list of deltas, and the
    sentinel. *)
Definition wire_events (deltas : list jsstring) : list (list byte) :=
  map (fun s => text_event (VStr s)) deltas ++ [sentinel_event].

(** The texts of the modules in the list, holes and [undefined] apart. *)
Fixpoint modules_of (xs : list Slot) : list HomeModule :=
  match xs with
  | [] => []
  | Module m :: rest => m :: modules_of rest
  | _ :: rest => modules_of rest
  end.

(** A stored theme whose two background fields hold URLs only. *)
Definition urls_only (o : option jsstring) : bool :=
  match o with
  | Some s =>
      negb (jseqb s []) && jseqb (trim s) s
      && forallb (fun url => negb (bad_url url)) (background_urls s)
  | None => true
  end.

(** The style sheet a theme configuration selects. *)
Definition active_css (t : ThemeConfig) : jsstring :=
  if tc_enableBuiltInTheme t then tc_builtInTheme t else tc_customCSS t.

Definition is_theme_ok (r : ThemeResponse) : bool :=
  match r with
  | ThemeOk _ => true
  | ThemeError _ _ => false
  end.

Definition session_name (a : option AuthInfo) : jsstring :=
  match a with
  | Some (mkAuthInfo (Some name)) => name
  | _ => []
  end.

Definition message_gate_error : NextResponse :=
  JsonError 400 (u16 "消息内容不能为空").

(** A list of modules with [order] set to the position, counted from
    [idx]. *)
Fixpoint with_order_from (idx : nat) (l : list HomeModule) : list HomeModule :=
  match l with
  | [] => []
  | m :: rest =>
      mkHomeModule (hm_id m) (hm_name m) (hm_enabled m) (number_of_nat idx)
        :: with_order_from (S idx) rest
  end.

(** The list with the modules at positions [i] and [i + 1] exchanged. *)
Definition exchanged (l : list HomeModule) (i : nat) : list HomeModule :=
  match skipn i l with
  | a :: b :: post => firstn i l ++ b :: a :: post
  | _ => l
  end.

(** A stored theme with the custom sheet selected, a server that keeps its
    configuration in a database, and a request of an administrator that
    selects the built-in sheet and edits neither sheet. *)
Definition stored_theme_example : ThemeConfig :=
  mkThemeConfig false (u16 "dark") (u16 "body{color:red}") true
                (number_of_nat 5) 7 None None.

Definition theme_server_example : ThemeServer :=
  mkThemeServer (Some (u16 "redis")) (Some (u16 "root"))
    (Fulfilled (mkThemeAdminConfig
                  [mkThemeUser (u16 "alice") (u16 "admin") false]
                  (Some stored_theme_example)))
    (fun _ => true).

Definition theme_request_example : ThemeRequest :=
  mkThemeRequest (Some (mkAuthInfo (Some (u16 "alice"))))
    (Fulfilled
       (VObj [(u16 "enableBuiltInTheme", VBool true);
              (u16 "builtInTheme", VStr (u16 "dark"));
              (u16 "customCSS", VStr (u16 "body{color:red}"));
              (u16 "enableCache", VBool true);
              (u16 "cacheMinutes", VNum (number_of_nat 5));
              (u16 "loginBackgroundImage",
               VStr ([32] ++ u16 "https://a.example/1.png" ++ [nl; nl]
                       ++ u16 "http://b.example/2.png" ++ [32; nl]))])).

Definition theme_written_example : ThemeConfig :=
  match fst (theme_POST theme_server_example theme_request_example) with
  | Some theme => theme
  | None => stored_theme_example
  end.


(** * Properties *)

(** ** [JSON.parse]: the fuel is enough *)

Lemma skip_ws_length (s : jsstring) : (length (skip_ws s) <= length s)%nat.
Proof.
  induction s as [|c s IH]; simpl.
  - lia.
  - destruct ((c =? 9) || (c =? 10) || (c =? 13) || (c =? 32)); simpl; lia.
Qed.

Lemma parse_string_body_length (s body rest : jsstring) :
  parse_string_body s = Some (body, rest) -> (length rest < length s)%nat.
Proof.
  assert (Hle : (length s <= length s)%nat) by lia.
  revert Hle. generalize (length s) at 2. intro n.
  revert s body rest.
  induction n as [|n IHn]; intros s body rest Hle.
  { destruct s; [discriminate | simpl in Hle; lia]. }
  assert (IH : forall t, (length t < length s)%nat ->
                 forall b r, parse_string_body t = Some (b, r) ->
                             (length r < length t)%nat).
  { intros t Ht b r. apply IHn. lia. }
  clear IHn.
  destruct s as [|c s1]; [discriminate|].
  cbn [parse_string_body].
  assert (Hcons : forall (u : N) (t : jsstring),
            (length t < length (c :: s1))%nat ->
            match parse_string_body t with
            | Some (body0, rest0) => Some (u :: body0, rest0)
            | None => None
            end = Some (body, rest) -> (length rest < length (c :: s1))%nat).
  { intros u t Ht H.
    destruct (parse_string_body t) as [[b0 r0]|] eqn:E; [|discriminate].
    inversion H; subst. specialize (IH t Ht b0 rest E). lia. }
  destruct (c =? 34).
  { intro H. inversion H; subst. simpl. lia. }
  destruct (c <? 32); [discriminate|].
  destruct (c =? 92).
  - destruct s1 as [|e s2]; [discriminate|].
    destruct (e =? 34); [apply Hcons; simpl; lia|].
    destruct (e =? 92); [apply Hcons; simpl; lia|].
    destruct (e =? 47); [apply Hcons; simpl; lia|].
    destruct (e =? 98); [apply Hcons; simpl; lia|].
    destruct (e =? 102); [apply Hcons; simpl; lia|].
    destruct (e =? 110); [apply Hcons; simpl; lia|].
    destruct (e =? 114); [apply Hcons; simpl; lia|].
    destruct (e =? 116); [apply Hcons; simpl; lia|].
    destruct (e =? 117); [|discriminate].
    destruct s2 as [|h1 [|h2 [|h3 [|h4 s3]]]]; try discriminate.
    destruct (hex4_value h1 h2 h3 h4); [|discriminate].
    apply Hcons. simpl. lia.
  - apply Hcons. simpl. lia.
Qed.

Lemma take_digits_length (s ds rest : jsstring) :
  take_digits s = (ds, rest) -> length s = (length ds + length rest)%nat.
Proof.
  revert ds rest. induction s as [|c s IH]; intros ds rest; simpl.
  - intro H. inversion H. reflexivity.
  - destruct (is_digit c).
    + destruct (take_digits s) as [ds' rest'] eqn:E.
      intro H. inversion H; subst. simpl. rewrite (IH ds' rest eq_refl). lia.
    + intro H. inversion H; subst. reflexivity.
Qed.

Lemma parse_number_length (s rest : jsstring) (n : number) :
  parse_number s = Some (n, rest) -> (length rest < length s)%nat.
Proof.
  unfold parse_number.
  set (signed := match s with 45 :: s' => (true, s') | _ => (false, s) end).
  assert (Hs : (length (snd signed) <= length s)%nat).
  { subst signed. destruct s as [|c s']; simpl; [lia|].
    destruct c as [|p]; simpl; [lia|].
    do 6 (destruct p as [p|p|]; simpl; try lia). }
  destruct signed as [neg s1]. simpl in Hs.
  destruct (take_digits s1) as [int_ds s2] eqn:E1.
  apply take_digits_length in E1.
  destruct int_ds as [|d more]; [discriminate|]. simpl in E1.
  destruct ((d =? 48) && negb (jseqb more [])); [discriminate|].
  assert (Hfrac : forall fr,
            match s2 with
            | 46 :: s' =>
                let '(fs, s3) := take_digits s' in
                match fs with
                | [] => None
                | _ => Some (fs, s3)
                end
            | _ => Some ([], s2)
            end = Some fr -> (length (snd fr) <= length s2)%nat).
  { intros [fs s3]. destruct s2 as [|c s']; simpl.
    - intro H. inversion H. simpl. lia.
    - destruct c as [|p].
      { intro H. inversion H. simpl. lia. }
      do 6 (destruct p as [p|p|];
            try (intro H; inversion H; simpl; lia)).
      destruct (take_digits s') as [fs' s3'] eqn:E.
      apply take_digits_length in E.
      destruct fs'; [discriminate|].
      intro H. inversion H; subst. simpl in *. lia. }
  destruct (match s2 with
            | 46 :: s' =>
                let '(fs, s3) := take_digits s' in
                match fs with
                | [] => None
                | _ => Some (fs, s3)
                end
            | _ => Some ([], s2)
            end) as [[frac_ds s3]|] eqn:Ef; [|discriminate].
  specialize (Hfrac _ eq_refl). simpl in Hfrac.
  destruct s3 as [|c s4].
  - intro H. inversion H; subst. simpl in *. lia.
  - destruct ((c =? 101) || (c =? 69)).
    + set (esign := match s4 with
                    | 45 :: s' => (true, s')
                    | 43 :: s' => (false, s')
                    | _ => (false, s4)
                    end).
      assert (He : (length (snd esign) <= length s4)%nat).
      { subst esign. destruct s4 as [|c' s']; simpl; [lia|].
        destruct c' as [|p]; simpl; [lia|].
        do 6 (destruct p as [p|p|]; simpl; try lia). }
      destruct esign as [eneg s5]. simpl in He.
      destruct (take_digits s5) as [eds s6] eqn:E6.
      apply take_digits_length in E6.
      destruct eds; [discriminate|].
      intro H. inversion H; subst. simpl in *. lia.
    + intro H. inversion H; subst. simpl in *. lia.
Qed.

Lemma skipn_shorter {A : Type} (n : nat) (c : A) (s : list A) :
  (0 < n)%nat -> (length (skipn n (c :: s)) < length (c :: s))%nat.
Proof.
  intro H. destruct n as [|n]; [lia|]. simpl.
  rewrite length_skipn. lia.
Qed.

Lemma parse_scalar_length (s rest : jsstring) (v : value) :
  parse_scalar s = Some (v, rest) -> (length rest < length s)%nat.
Proof.
  unfold parse_scalar. destruct s as [|c s1]; [discriminate|].
  destruct (c =? 34).
  { destruct (parse_string_body s1) as [[body r]|] eqn:E; [|discriminate].
    intro H. inversion H; subst.
    apply parse_string_body_length in E. simpl. lia. }
  destruct (startsWith (c :: s1) (u16 "true")).
  { intro H. replace rest with (skipn 4 (c :: s1)) by congruence.
    apply skipn_shorter. lia. }
  destruct (startsWith (c :: s1) (u16 "false")).
  { intro H. replace rest with (skipn 5 (c :: s1)) by congruence.
    apply skipn_shorter. lia. }
  destruct (startsWith (c :: s1) (u16 "null")).
  { intro H. replace rest with (skipn 4 (c :: s1)) by congruence.
    apply skipn_shorter. lia. }
  destruct (parse_number (c :: s1)) as [[n r]|] eqn:E; [|discriminate].
  intro H. inversion H; subst. eapply parse_number_length. eassumption.
Qed.

Lemma parse_fuel_bounds (f : nat) :
  fuel_bound (fun f s (_ : unit) => parse_value f s) f
  /\ fuel_bound parse_elements f
  /\ fuel_bound parse_members f.
Proof.
  induction f as [|f (IHv & IHe & IHm)].
  { split; [|split]; intros s a v rest H; discriminate. }
  split; [|split]; intros s a v rest.
  - (* parse_value *)
    cbn [parse_value].
    pose proof (skip_ws_length s) as Hws.
    destruct (skip_ws s) as [|c r0] eqn:Es; [discriminate|]. simpl in Hws.
    destruct (c =? 91) eqn:E91.
    { destruct (skip_ws r0) as [|c' r1] eqn:Er.
      - intro H. destruct (IHe r0 [] v rest H) as [Hl Hf].
        split; [lia|]. intros f' Hf'.
        destruct f' as [|f']; [lia|]. cbn [parse_value].
        rewrite Es, E91, Er. apply Hf. lia.
      - pose proof (skip_ws_length r0) as Hws0. rewrite Er in Hws0.
        simpl in Hws0.
        destruct (c' =? 93) eqn:E93.
        + intro H. inversion H; subst. split; [lia|]. intros f' Hf'.
          destruct f' as [|f']; [lia|]. cbn [parse_value].
          rewrite Es, E91, Er, E93. reflexivity.
        + intro H. destruct (IHe r0 [] v rest H) as [Hl Hf].
          split; [lia|]. intros f' Hf'.
          destruct f' as [|f']; [lia|]. cbn [parse_value].
          rewrite Es, E91, Er, E93. apply Hf. lia. }
    destruct (c =? 123) eqn:E123.
    { destruct (skip_ws r0) as [|c' r1] eqn:Er; [discriminate|].
      pose proof (skip_ws_length r0) as Hws0. rewrite Er in Hws0.
      simpl in Hws0.
      destruct (c' =? 125) eqn:E125.
      + intro H. inversion H; subst. split; [lia|]. intros f' Hf'.
        destruct f' as [|f']; [lia|]. cbn [parse_value].
        rewrite Es, E91, E123, Er, E125. reflexivity.
      + intro H. destruct (IHm r0 [] v rest H) as [Hl Hf].
        split; [lia|]. intros f' Hf'.
        destruct f' as [|f']; [lia|]. cbn [parse_value].
        rewrite Es, E91, E123, Er, E125. apply Hf. lia. }
    intro H. pose proof (parse_scalar_length _ _ _ H) as Hl. simpl in Hl.
    split; [lia|]. intros f' Hf'.
    destruct f' as [|f']; [lia|]. cbn [parse_value].
    rewrite Es, E91, E123. exact H.
  - (* parse_elements *)
    cbn [parse_elements].
    destruct (parse_value f s) as [[v1 r1]|] eqn:Ev; [|discriminate].
    destruct (IHv s tt v1 r1 Ev) as [Hl1 Hf1].
    pose proof (skip_ws_length r1) as Hws.
    destruct (skip_ws r1) as [|c r2] eqn:Er; [discriminate|]. simpl in Hws.
    destruct (c =? 44) eqn:E44.
    + intro H. destruct (IHe r2 (a ++ [v1]) v rest H) as [Hl Hf].
      split; [lia|]. intros f' Hf'.
      destruct f' as [|f']; [lia|]. cbn [parse_elements].
      rewrite (Hf1 f') by lia. rewrite Er, E44. apply Hf. lia.
    + destruct (c =? 93) eqn:E93; [|discriminate].
      intro H. inversion H; subst. split; [lia|]. intros f' Hf'.
      destruct f' as [|f']; [lia|]. cbn [parse_elements].
      rewrite (Hf1 f') by lia. rewrite Er, E44, E93. reflexivity.
  - (* parse_members *)
    cbn [parse_members].
    pose proof (skip_ws_length s) as Hws.
    destruct (skip_ws s) as [|q s1] eqn:Es; [discriminate|]. simpl in Hws.
    destruct (q =? 34) eqn:Eq; [|discriminate].
    destruct (parse_string_body s1) as [[k s2]|] eqn:Ek; [|discriminate].
    pose proof (parse_string_body_length _ _ _ Ek) as Hk.
    pose proof (skip_ws_length s2) as Hws2.
    destruct (skip_ws s2) as [|c s3] eqn:E2; [discriminate|]. simpl in Hws2.
    destruct (c =? 58) eqn:E58; [|discriminate].
    destruct (parse_value f s3) as [[v1 r1]|] eqn:Ev; [|discriminate].
    destruct (IHv s3 tt v1 r1 Ev) as [Hl1 Hf1].
    pose proof (skip_ws_length r1) as Hws1.
    destruct (skip_ws r1) as [|c' r2] eqn:Er; [discriminate|]. simpl in Hws1.
    destruct (c' =? 44) eqn:E44.
    + intro H. destruct (IHm r2 (obj_set a k v1) v rest H) as [Hl Hf].
      split; [lia|]. intros f' Hf'.
      destruct f' as [|f']; [lia|]. cbn [parse_members].
      rewrite Es, Eq, Ek, E2, E58. rewrite (Hf1 f') by lia.
      rewrite Er, E44. apply Hf. lia.
    + destruct (c' =? 125) eqn:E125; [|discriminate].
      intro H. inversion H; subst. split; [lia|]. intros f' Hf'.
      destruct f' as [|f']; [lia|]. cbn [parse_members].
      rewrite Es, Eq, Ek, E2, E58. rewrite (Hf1 f') by lia.
      rewrite Er, E44, E125. reflexivity.
Qed.

(** A value found with any amount of fuel is found by [JSON.parse]: its
    fuel never runs out on a text that has a parse. *)
Lemma JSON_parse_fuel_enough (f : nat) (text rest : jsstring) (v : value) :
  parse_value f text = Some (v, rest) ->
  skip_ws rest = [] ->
  JSON_parse text = Some v.
Proof.
  intros H Hr. unfold JSON_parse.
  destruct (parse_fuel_bounds f) as [Hv _].
  destruct (Hv text tt v rest H) as [_ Hf].
  rewrite (Hf (2 * length text + 2)%nat) by lia.
  rewrite Hr. reflexivity.
Qed.

(** ** [extractEntities]: the fuel is enough *)

Lemma match_person_n_length (n : nat) (s name rest : jsstring) :
  match_person_n n s = Some (name, rest) -> (length rest < length s)%nat.
Proof.
  unfold match_person_n.
  destruct (skipn n s) as [|p r] eqn:E; [discriminate|].
  destruct ((length (firstn n s) =? n)%nat && forallb in_han_range (firstn n s)
            && is_particle p); [|discriminate].
  intro H. inversion H; subst.
  pose proof (length_skipn n s) as Hl. rewrite E in Hl. simpl in Hl. lia.
Qed.

Lemma match_person_at_length (s name rest : jsstring) :
  match_person_at s = Some (name, rest) -> (length rest < length s)%nat.
Proof.
  unfold match_person_at.
  destruct (match_person_n 4 s) as [[n4 r4]|] eqn:E4.
  { intro H. inversion H; subst. eapply match_person_n_length; eassumption. }
  destruct (match_person_n 3 s) as [[n3 r3]|] eqn:E3.
  { intro H. inversion H; subst. eapply match_person_n_length; eassumption. }
  apply match_person_n_length.
Qed.

Lemma extract_from_fuel (f : nat) (s : jsstring) :
  (length s <= f)%nat -> extract_from f s = extractEntities s.
Proof.
  unfold extractEntities.
  assert (H : forall n f1 f2 t,
            (length t <= n)%nat -> (length t <= f1)%nat -> (length t <= f2)%nat ->
            extract_from f1 t = extract_from f2 t).
  { induction n as [|n IH]; intros f1 f2 t Hn H1 H2.
    - destruct t; [|simpl in Hn; lia]. destruct f1, f2; reflexivity.
    - destruct t as [|c t']; [destruct f1, f2; reflexivity|].
      simpl in Hn, H1, H2.
      destruct f1 as [|f1]; [lia|]. destruct f2 as [|f2]; [lia|].
      cbn [extract_from].
      destruct (match_person_at (c :: t')) as [[name rest]|] eqn:E.
      + apply match_person_at_length in E. simpl in E.
        f_equal. apply IH; lia.
      + apply IH; lia. }
  intro Hf. apply (H (length s)); lia.
Qed.


(** ** Lines of a chunk *)

Lemma split_lines_from_app (x y cur : jsstring) :
  split_lines_from cur (x ++ nl :: y) = split_lines_from cur x ++ split_lines y.
Proof.
  revert cur. induction x as [|c x IH]; intro cur; simpl.
  - reflexivity.
  - destruct (c =? 10); simpl; rewrite IH; reflexivity.
Qed.

Lemma split_lines_app (x y : jsstring) :
  split_lines (x ++ nl :: y) = split_lines x ++ split_lines y.
Proof. apply split_lines_from_app. Qed.

Lemma split_lines_from_single (x cur : jsstring) :
  existsb (N.eqb nl) x = false -> split_lines_from cur x = [cur ++ x].
Proof.
  revert cur. induction x as [|c x IH]; intros cur H.
  - simpl. rewrite app_nil_r. reflexivity.
  - change (N.eqb nl c || existsb (N.eqb nl) x = false) in H.
    apply orb_false_iff in H. destruct H as [Hc Hx].
    rewrite N.eqb_sym in Hc. unfold nl in Hc.
    change (split_lines_from cur (c :: x))
      with (if c =? 10 then cur :: split_lines_from [] x
            else split_lines_from (cur ++ [c]) x).
    rewrite Hc, IH by assumption. rewrite <- app_assoc. reflexivity.
Qed.

Lemma handle_chunk_app (p : LLMProvider) (x y : jsstring) :
  handle_chunk p (x ++ nl :: y) = handle_chunk p x ++ handle_chunk p y.
Proof.
  unfold handle_chunk, chunk_lines.
  rewrite split_lines_app, filter_app, flat_map_app. reflexivity.
Qed.

Lemma handle_chunk_nil (p : LLMProvider) : handle_chunk p [] = [].
Proof. reflexivity. Qed.

Lemma handle_chunk_line_end (p : LLMProvider) (x : jsstring) :
  handle_chunk p (x ++ [nl]) = handle_chunk p x.
Proof.
  rewrite handle_chunk_app, handle_chunk_nil. apply app_nil_r.
Qed.


(** ** The decoder across chunk boundaries *)

Lemma utf8_wf_init : utf8_wf utf8_init.
Proof. left. reflexivity. Qed.

Lemma utf8_handler_wf (st st' : Utf8State) (b : N) :
  utf8_handler st b = HContinue st' -> utf8_wf st'.
Proof.
  unfold utf8_handler.
  destruct (u_needed st =? 0) eqn:E.
  - destruct (b <=? 127); [discriminate|].
    destruct ((194 <=? b) && (b <=? 223)).
    { intro H; inversion H; subst. right; simpl; split; [discriminate|lia]. }
    destruct ((224 <=? b) && (b <=? 239)).
    { intro H; inversion H; subst. right; simpl; split; [discriminate|].
      destruct (b =? 224); lia. }
    destruct ((240 <=? b) && (b <=? 244)).
    { intro H; inversion H; subst. right; simpl; split; [discriminate|].
      destruct (b =? 240); lia. }
    discriminate.
  - destruct (negb ((u_lower st <=? b) && (b <=? u_upper st))); [discriminate|].
    destruct (u_seen st + 1 =? u_needed st); [discriminate|].
    intro H; inversion H; subst. right; simpl. split; [|lia].
    apply N.eqb_neq. assumption.
Qed.

Lemma utf8_step_wf (st : Utf8State) (b : byte) :
  utf8_wf (fst (utf8_step st b)).
Proof.
  unfold utf8_step.
  destruct (utf8_handler st (to_N b)) as [st'|cp|[|]] eqn:E; simpl.
  - eapply utf8_handler_wf; eassumption.
  - apply utf8_wf_init.
  - destruct (utf8_handler utf8_init (to_N b)) as [st'|cp|r] eqn:E'; simpl.
    + eapply utf8_handler_wf; eassumption.
    + apply utf8_wf_init.
    + apply utf8_wf_init.
  - apply utf8_wf_init.
Qed.

Lemma utf8_run_wf (bs : list byte) (st : Utf8State) :
  utf8_wf st -> utf8_wf (fst (utf8_run st bs)).
Proof.
  revert st. induction bs as [|b bs IH]; intros st H; simpl.
  - assumption.
  - pose proof (utf8_step_wf st b) as Hs.
    destruct (utf8_step st b) as [st1 o1]. simpl in Hs.
    specialize (IH st1 Hs).
    destruct (utf8_run st1 bs) as [st2 o2]. simpl in *. assumption.
Qed.

Lemma utf8_run_app (a b : list byte) (st : Utf8State) :
  utf8_run st (a ++ b) =
  (fst (utf8_run (fst (utf8_run st a)) b),
   snd (utf8_run st a) ++ snd (utf8_run (fst (utf8_run st a)) b)).
Proof.
  revert st. induction a as [|x a IH]; intro st; simpl.
  - destruct (utf8_run st b); reflexivity.
  - destruct (utf8_step st x) as [st1 o1].
    rewrite IH.
    destruct (utf8_run st1 a) as [st2 o2]. simpl.
    destruct (utf8_run st2 b) as [st3 o3]. simpl.
    rewrite app_assoc. reflexivity.
Qed.

(** A line feed closes whatever sequence was open. *)
Lemma utf8_step_LF (st : Utf8State) :
  utf8_wf st -> utf8_step st LF = (utf8_init, utf8_flush st ++ [nl]).
Proof.
  intros [H|[H1 H2]]; unfold utf8_step, utf8_handler, utf8_flush.
  - rewrite H. reflexivity.
  - apply N.eqb_neq in H1. rewrite H1. simpl to_N.
    replace (u_lower st <=? 10) with false.
    + reflexivity.
    + symmetry. apply N.leb_gt. lia.
Qed.

Lemma utf8_run_LF (a : list byte) (st : Utf8State) :
  utf8_wf st ->
  utf8_run st (a ++ [LF]) =
  (utf8_init,
   snd (utf8_run st a) ++ utf8_flush (fst (utf8_run st a)) ++ [nl]).
Proof.
  intro H. rewrite utf8_run_app. simpl.
  rewrite utf8_step_LF by (apply utf8_run_wf; assumption).
  simpl. rewrite app_nil_r. reflexivity.
Qed.

Lemma serialize_queue_seen (cps : list codepoint) :
  serialize_queue true cps = (true, cps).
Proof. destruct cps; reflexivity. Qed.

Lemma serialize_queue_app (b : bool) (x y : list codepoint) :
  serialize_queue b (x ++ y) =
  (fst (serialize_queue (fst (serialize_queue b x)) y),
   snd (serialize_queue b x) ++ snd (serialize_queue (fst (serialize_queue b x)) y)).
Proof.
  destruct x as [|c x]; simpl.
  - destruct (serialize_queue b y); reflexivity.
  - destruct b; simpl.
    + rewrite serialize_queue_seen. reflexivity.
    + destruct (c =? 65279); simpl; rewrite serialize_queue_seen; reflexivity.
Qed.

Lemma serialize_queue_line_end (b : bool) (x : list codepoint) :
  exists x', serialize_queue b (x ++ [nl]) = (true, x' ++ [nl]).
Proof.
  destruct x as [|c x]; simpl.
  - exists []. destruct b; reflexivity.
  - destruct b.
    + exists (c :: x). reflexivity.
    + destruct (c =? 65279).
      * exists x. reflexivity.
      * exists (c :: x). reflexivity.
Qed.

Lemma utf16_encode_app (x y : list codepoint) :
  utf16_encode (x ++ y) = utf16_encode x ++ utf16_encode y.
Proof. apply flat_map_app. Qed.

(** Decoding is indifferent to where a chunk is cut. *)
Lemma TextDecoder_decode_app (d : TextDecoder) (a b : list byte) :
  TextDecoder_decode d (a ++ b) =
  (fst (TextDecoder_decode (fst (TextDecoder_decode d a)) b),
   snd (TextDecoder_decode d a)
     ++ snd (TextDecoder_decode (fst (TextDecoder_decode d a)) b)).
Proof.
  unfold TextDecoder_decode. rewrite utf8_run_app.
  destruct (utf8_run (td_utf8 d) a) as [st1 o1]. cbn [fst snd].
  rewrite serialize_queue_app.
  destruct (serialize_queue (td_bom_seen d) o1) as [s1 q1].
  cbn [fst snd td_utf8 td_bom_seen].
  destruct (utf8_run st1 b) as [st2 o2]. cbn [fst snd].
  destruct (serialize_queue s1 o2) as [s2 q2]. cbn [fst snd].
  rewrite utf16_encode_app. reflexivity.
Qed.

Lemma TextDecoder_decode_nil (d : TextDecoder) :
  TextDecoder_decode d [] = (d, []).
Proof. destruct d. reflexivity. Qed.


(** After a line feed the decoder is between two lines, and the text it
    gave stops at that line feed. *)
Lemma TextDecoder_decode_line_end (d : TextDecoder) (a : list byte) :
  decoder_wf d ->
  exists t, TextDecoder_decode d (a ++ [LF]) = (decoder_at_line_start, t ++ [nl]).
Proof.
  unfold decoder_wf, TextDecoder_decode. intro H.
  rewrite utf8_run_LF by assumption.
  rewrite app_assoc.
  destruct (serialize_queue_line_end (td_bom_seen d)
              (snd (utf8_run (td_utf8 d) a)
                 ++ utf8_flush (fst (utf8_run (td_utf8 d) a)))) as [x' Hx].
  rewrite Hx. exists (utf16_encode x').
  rewrite utf16_encode_app. reflexivity.
Qed.


Lemma decoder_at_line_start_wf : decoder_wf decoder_at_line_start.
Proof. apply utf8_wf_init. Qed.

Lemma TextDecoder_new_wf : decoder_wf TextDecoder_new.
Proof. apply utf8_wf_init. Qed.

Lemma ends_at_line_break_inv (c : list byte) :
  ends_at_line_break c = true -> c = [] \/ exists c', c = c' ++ [LF].
Proof.
  unfold ends_at_line_break. intro H.
  destruct (rev c) as [|b l] eqn:E.
  - left. apply (f_equal (@rev byte)) in E. rewrite rev_involutive in E.
    assumption.
  - right. exists (rev l).
    apply Byte.byte_dec_bl in H. subst b.
    apply (f_equal (@rev byte)) in E. rewrite rev_involutive in E.
    simpl in E. assumption.
Qed.

(** ** The read loop *)

Lemma read_loop_decoded (p : LLMProvider) (chunks : list (list byte))
  (d : TextDecoder) :
  read_loop p d chunks = flat_map (handle_chunk p) (decoded_chunks d chunks).
Proof.
  revert d. induction chunks as [|c cs IH]; intro d; simpl.
  - reflexivity.
  - destruct (TextDecoder_decode d c) as [d1 t]. simpl. rewrite IH. reflexivity.
Qed.



Lemma read_loop_single (p : LLMProvider) (c : list byte) (d : TextDecoder) :
  read_loop p d [c] = handle_chunk p (snd (TextDecoder_decode d c)).
Proof.
  simpl. destruct (TextDecoder_decode d c). simpl. apply app_nil_r.
Qed.

(** Chunks that stop at line breaks can be glued. *)
Lemma read_loop_aligned (p : LLMProvider) (chunks : list (list byte))
  (d : TextDecoder) :
  decoder_wf d ->
  forallb ends_at_line_break chunks = true ->
  read_loop p d chunks = read_loop p d [concat chunks].
Proof.
  revert d. induction chunks as [|c cs IH]; intros d Hd Hal.
  - rewrite read_loop_single. simpl concat.
    rewrite TextDecoder_decode_nil. reflexivity.
  - simpl in Hal. apply andb_true_iff in Hal. destruct Hal as [Hc Hcs].
    rewrite read_loop_single. simpl concat.
    rewrite TextDecoder_decode_app. simpl snd.
    change (read_loop p d (c :: cs))
      with (let '(d', t) := TextDecoder_decode d c in
            handle_chunk p t ++ read_loop p d' cs).
    destruct (ends_at_line_break_inv c Hc) as [->|[c' ->]].
    + rewrite TextDecoder_decode_nil. simpl.
      rewrite IH by assumption. apply read_loop_single.
    + destruct (TextDecoder_decode_line_end d c' Hd) as [t Ht].
      rewrite Ht. simpl fst. simpl snd.
      rewrite IH by (assumption || apply decoder_at_line_start_wf).
      rewrite read_loop_single.
      rewrite handle_chunk_line_end.
      match goal with
      | |- _ = handle_chunk p ((t ++ [nl]) ++ ?x) =>
          replace ((t ++ [nl]) ++ x) with (t ++ nl :: x)
            by (rewrite <- app_assoc; reflexivity)
      end.
      rewrite handle_chunk_app. reflexivity.
Qed.

(** ** Events *)

Lemma u16_data_prefix : u16 "data: " = [100; 97; 116; 97; 58; 32].
Proof. vm_compute. reflexivity. Qed.


Lemma TextEncoder_encode_ascii (c : N) (s : jsstring) :
  c < 128 -> TextEncoder_encode (c :: s) = byte_of_N c :: TextEncoder_encode s.
Proof.
  intro H. unfold TextEncoder_encode. cbn [utf16_decode].
  assert (Hh : is_high_surrogate c = false).
  { unfold is_high_surrogate. apply andb_false_iff. left. apply N.leb_gt. lia. }
  assert (Hl : is_low_surrogate c = false).
  { unfold is_low_surrogate. apply andb_false_iff. left. apply N.leb_gt. lia. }
  rewrite Hh, Hl. cbn [flat_map app]. unfold utf8_encode_cp.
  replace (c <? 128) with true by (symmetry; apply N.ltb_lt; lia).
  reflexivity.
Qed.












(** ** The stream transformer: claims *)

Lemma transform_P5_unsplit :
  read_loop openai TextDecoder_new [upstream_P5] =
  [wire_text_event "Hel"; wire_text_event "lo"; wire_text_event " world";
   wire_sentinel_event].
Proof. vm_compute. reflexivity. Qed.

Lemma transform_P5_unsplit_custom :
  read_loop custom TextDecoder_new [upstream_P5] =
  [wire_text_event "Hel"; wire_text_event "lo"; wire_text_event " world";
   wire_sentinel_event].
Proof. vm_compute. reflexivity. Qed.

(** C5 (stream fidelity).  The OpenAI-compatible stream of the deltas "Hel",
    "lo", " world" followed by [data: [DONE]], delivered in chunks of whole
    lines in any grouping, is transformed into exactly the three text events
    [{"text":"Hel"}], [{"text":"lo"}], [{"text":" world"}], in that order,
    followed by exactly one sentinel event; the output then closes as the
    upstream does. *)
Theorem C5_stream_fidelity (chunks : list (list byte)) (e : StreamEnd)
  (p : LLMProvider) :
  p <> claude ->
  forallb ends_at_line_break chunks = true ->
  concat chunks = upstream_P5 ->
  transformToSSE (mkStream chunks e) p =
  mkStream [wire_text_event "Hel"; wire_text_event "lo";
            wire_text_event " world"; wire_sentinel_event] e.
Proof.
  intros Hp Hal Hcat. unfold transformToSSE. simpl rs_chunks. simpl rs_end.
  rewrite read_loop_aligned by (assumption || apply TextDecoder_new_wf).
  rewrite Hcat. f_equal.
  destruct p.
  - apply transform_P5_unsplit.
  - contradiction.
  - apply transform_P5_unsplit_custom.
Qed.

Lemma C5_stream_fidelity_witness :
  forallb ends_at_line_break
    [openai_delta_event "Hel"; openai_delta_event "lo";
     openai_delta_event " world"; openai_done_event] = true
  /\ transformToSSE
       (mkStream [openai_delta_event "Hel"; openai_delta_event "lo";
                  openai_delta_event " world"; openai_done_event] StreamClosed)
       openai =
     mkStream [wire_text_event "Hel"; wire_text_event "lo";
               wire_text_event " world"; wire_sentinel_event] StreamClosed.
Proof.
  split; [vm_compute; reflexivity|].
  apply (C5_stream_fidelity
           [openai_delta_event "Hel"; openai_delta_event "lo";
            openai_delta_event " world"; openai_done_event]
           StreamClosed openai).
  - discriminate.
  - vm_compute. reflexivity.
  - vm_compute. reflexivity.
Defined.


(** Two partitions of the same upstream bytes into chunks that each stop
    at a line break give the same output. *)
Lemma aligned_partitions_same_output (cs1 cs2 : list (list byte))
  (e : StreamEnd) (p : LLMProvider) :
  forallb ends_at_line_break cs1 = true ->
  forallb ends_at_line_break cs2 = true ->
  concat cs1 = concat cs2 ->
  transformToSSE (mkStream cs1 e) p = transformToSSE (mkStream cs2 e) p.
Proof.
  intros H1 H2 Hcat. unfold transformToSSE. simpl rs_chunks.
  rewrite (read_loop_aligned p cs1) by (assumption || apply TextDecoder_new_wf).
  rewrite (read_loop_aligned p cs2) by (assumption || apply TextDecoder_new_wf).
  rewrite Hcat. reflexivity.
Qed.

(** C7, where the code departs from it.  The bytes of one delta event,
    read in one chunk, give its text event; the same bytes read in two
    chunks that cut the [data:] line give no event at all: the first piece
    is not JSON and the second does not start with [data: ]. *)
Theorem C7_split_line_loses_delta :
  concat [firstn 20 (openai_delta_event "Hi"); skipn 20 (openai_delta_event "Hi")]
    = concat [openai_delta_event "Hi"]
  /\ transformToSSE (mkStream [openai_delta_event "Hi"] StreamClosed) openai
     = mkStream [wire_text_event "Hi"] StreamClosed
  /\ transformToSSE
       (mkStream [firstn 20 (openai_delta_event "Hi");
                  skipn 20 (openai_delta_event "Hi")] StreamClosed) openai
     = mkStream [] StreamClosed.
Proof. repeat split; vm_compute; reflexivity. Qed.








(** ** Requests and results of the orchestrator *)

Lemma calls_bind {A B : Type} (m : Eff A) (k : A -> Eff B) :
  calls (bind m k) = calls m ++ calls (k (result m)).
Proof.
  unfold calls, result, bind. destruct m as [t a]. simpl.
  destruct (k a). reflexivity.
Qed.

Lemma result_bind {A B : Type} (m : Eff A) (k : A -> Eff B) :
  result (bind m k) = result (k (result m)).
Proof.
  unfold result, bind. destruct m as [t a]. simpl.
  destruct (k a). reflexivity.
Qed.

Lemma calls_ret {A : Type} (a : A) : calls (ret a) = [].
Proof. reflexivity. Qed.

Lemma result_ret {A : Type} (a : A) : result (ret a) = a.
Proof. reflexivity. Qed.

Lemma calls_fetch (world : World) (c : Call) : calls (fetch world c) = [c].
Proof. reflexivity. Qed.

Lemma result_fetch (world : World) (c : Call) : result (fetch world c) = world c.
Proof. reflexivity. Qed.

Lemma calls_start (m : Eff value) : calls (start m) = calls m.
Proof.
  unfold start. rewrite calls_bind, calls_ret. apply app_nil_r.
Qed.

Lemma result_start (m : Eff value) :
  result (start m) = Some (Fulfilled (result m)).
Proof. unfold start. rewrite result_bind. reflexivity. Qed.

Ltac eff :=
  repeat (rewrite ?calls_bind, ?result_bind, ?calls_ret, ?result_ret,
            ?calls_fetch, ?result_fetch, ?calls_start, ?result_start,
            ?app_nil_r; cbn [app]).

(** *** Which requests each step can issue *)

Lemma fetchWebSearch_calls (world : World) (q : value)
  (provider : WebSearchProvider) (key : jsstring) :
  Forall (fun c => is_web_search_call c = true)
         (calls (fetchWebSearch world q provider key)).
Proof.
  unfold fetchWebSearch. destruct provider; eff.
  - repeat constructor.
  - repeat constructor.
  - destruct (encodeURIComponent q); eff; repeat constructor.
Qed.

Lemma startWebSearch_calls (world : World) (intent : IntentAnalysisResult)
  (msg : jsstring) (config : option OrchestratorConfig) :
  Forall (fun c => is_web_search_call c = true)
         (calls (startWebSearch world intent msg config)).
Proof.
  unfold startWebSearch.
  destruct config as [c|]; [|constructor].
  destruct (needWebSearch intent && enableWebSearch c); [|constructor].
  destruct (webSearchProvider c) as [provider|]; [|constructor].
  destruct (webSearchApiKey c provider) as [[|k key]|]; try constructor.
  rewrite calls_start. apply fetchWebSearch_calls.
Qed.

Lemma startWebSearch_unavailable (world : World) (intent : IntentAnalysisResult)
  (msg : jsstring) (config : option OrchestratorConfig) :
  webSearchConfigured config = false ->
  startWebSearch world intent msg config = ret None.
Proof.
  unfold startWebSearch, webSearchConfigured, hasWebSearchProvider.
  destruct config as [c|]; [|reflexivity].
  destruct (enableWebSearch c); [|rewrite andb_false_r; reflexivity].
  rewrite andb_true_r. simpl andb.
  destruct (webSearchProvider c) as [provider|];
    [|destruct (needWebSearch intent); reflexivity].
  destruct (webSearchApiKey c provider) as [[|k key]|]; simpl;
    try discriminate; destruct (needWebSearch intent); reflexivity.
Qed.

Lemma fetchDoubanAPI_calls (world : World) (u : DoubanUrl) :
  calls (fetchDoubanAPI world u) = [DoubanFetch u].
Proof. unfold fetchDoubanAPI. eff. reflexivity. Qed.

Lemma fetchDoubanAPI_result (world : World) (u : DoubanUrl) :
  result (fetchDoubanAPI world u) = payload (world (DoubanFetch u)).
Proof. unfold fetchDoubanAPI. eff. reflexivity. Qed.

(** The catalog adapter makes at most one request; its result is the
    payload of that request, or [null]. *)
Lemma fetchDoubanData_spec (world : World) (params : DoubanParams) :
  (calls (fetchDoubanData world params) = []
   /\ result (fetchDoubanData world params) = VNull)
  \/ exists u, calls (fetchDoubanData world params) = [DoubanFetch u]
               /\ result (fetchDoubanData world params)
                  = payload (world (DoubanFetch u)).
Proof.
  unfold fetchDoubanData.
  destruct (truthy_number (p_id params)).
  { destruct (p_id params) as [id|].
    - right. exists (DoubanSubject id).
      split; [apply fetchDoubanAPI_calls | apply fetchDoubanAPI_result].
    - left. split; reflexivity. }
  destruct (truthy_string (p_kind params) && truthy_string (p_category params)
            && truthy_string (p_type params)).
  { destruct (p_kind params) as [k|]; [|left; split; reflexivity].
    destruct (p_category params) as [c|]; [|left; split; reflexivity].
    destruct (p_type params) as [t|]; [|left; split; reflexivity].
    destruct (encodeURIComponent (VStr c)) as [c'|]; [|left; split; reflexivity].
    destruct (encodeURIComponent (VStr t)) as [t'|]; [|left; split; reflexivity].
    right. exists (DoubanRecentHot k c' t').
    split; [apply fetchDoubanAPI_calls | apply fetchDoubanAPI_result]. }
  destruct (truthy (p_query params)); [|left; split; reflexivity].
  destruct (encodeURIComponent (p_query params)) as [tag|];
    [|left; split; reflexivity].
  right. eexists.
  split; [apply fetchDoubanAPI_calls | apply fetchDoubanAPI_result].
Qed.

(** The international adapter makes no request without a key, at most one
    with a key; its result is the payload of that request, or [null]. *)
Lemma fetchTMDBData_spec (world : World) (id : option number)
  (kind : option MediaKind) (key proxy : option jsstring) :
  (calls (fetchTMDBData world id kind key proxy) = []
   /\ result (fetchTMDBData world id kind key proxy) = VNull)
  \/ exists k i apiKey,
       truthy_string key = true
       /\ calls (fetchTMDBData world id kind key proxy) = [TMDBDetail k i apiKey]
       /\ (result (fetchTMDBData world id kind key proxy) = VNull
           \/ result (fetchTMDBData world id kind key proxy)
              = payload (world (TMDBDetail k i apiKey))).
Proof.
  unfold fetchTMDBData.
  destruct (truthy_string key) eqn:Hk; simpl negb; cbv iota.
  - destruct key as [apiKey|]; [|left; split; reflexivity].
    destruct id as [i|]; [|left; split; reflexivity].
    destruct kind as [k|]; [|left; split; reflexivity].
    destruct (number_is_zero i); [left; split; reflexivity|].
    right. exists k, i, apiKey. split; [reflexivity|]. eff.
    split; [reflexivity|].
    unfold json_or_null, payload.
    destruct (world (TMDBDetail k i apiKey)) as [resp|]; [|left; reflexivity].
    destruct (resp_ok resp); [right; reflexivity | left; reflexivity].
  - left. split; reflexivity.
Qed.

Lemma startDouban_spec (world : World) (intent : IntentAnalysisResult)
  (context : option VideoContext) :
  (calls (startDouban world intent context) = []
   /\ own_datum (result (startDouban world intent context)) = VNull)
  \/ exists u, calls (startDouban world intent context) = [DoubanFetch u]
               /\ own_datum (result (startDouban world intent context))
                  = payload (world (DoubanFetch u)).
Proof.
  assert (H : forall params,
    (calls (start (fetchDoubanData world params)) = []
     /\ own_datum (result (start (fetchDoubanData world params))) = VNull)
    \/ exists u, calls (start (fetchDoubanData world params)) = [DoubanFetch u]
                 /\ own_datum (result (start (fetchDoubanData world params)))
                    = payload (world (DoubanFetch u))).
  { intro params. rewrite calls_start, result_start. simpl own_datum.
    apply fetchDoubanData_spec. }
  unfold startDouban.
  destruct (needDouban intent); [|left; split; reflexivity].
  destruct (truthy_number (ctx_field context douban_id)); [apply H|].
  destruct (is_recommendation (intent_type intent)); [apply H|].
  destruct (truthy (optimizedDoubanQuery intent)); [apply H|].
  destruct (truthy_string (ctx_field context title)); [apply H|].
  left. split; reflexivity.
Qed.

Lemma startTMDB_spec (world : World) (intent : IntentAnalysisResult)
  (context : option VideoContext) (config : option OrchestratorConfig) :
  (calls (startTMDB world intent context config) = []
   /\ own_datum (result (startTMDB world intent context config)) = VNull)
  \/ exists k i apiKey,
       truthy_string (cfg_field config tmdbApiKey) = true
       /\ calls (startTMDB world intent context config) = [TMDBDetail k i apiKey]
       /\ (own_datum (result (startTMDB world intent context config)) = VNull
           \/ own_datum (result (startTMDB world intent context config))
              = payload (world (TMDBDetail k i apiKey))).
Proof.
  unfold startTMDB.
  destruct (needTMDB intent && truthy_number (ctx_field context tmdb_id));
    [|left; split; reflexivity].
  destruct (ctx_field context type) as [k|]; [|left; split; reflexivity].
  rewrite calls_start, result_start. simpl own_datum.
  apply fetchTMDBData_spec.
Qed.

Lemma callDecisionModel_calls (world : World) (msg : jsstring)
  (context : option VideoContext) (dc : DecisionConfig)
  (av : AvailableDataSources) :
  Forall (fun c => is_decision_call c = true)
         (calls (callDecisionModel world msg context dc av)).
Proof.
  unfold callDecisionModel. destruct (dc_provider dc); eff; repeat constructor.
Qed.

Lemma decide_calls (world : World) (msg : jsstring)
  (context : option VideoContext) (config : option OrchestratorConfig) :
  Forall (fun c => is_decision_call c = true)
         (calls (decide world msg context config)).
Proof.
  unfold decide.
  destruct config as [c|]; [|constructor].
  destruct (enableDecisionModel c) as [[|]|]; try constructor.
  destruct (decisionProvider c); try constructor.
  destruct (decisionApiKey c) as [[|k key]|]; try constructor.
  destruct (decisionModel c) as [[|m model]|]; try constructor.
  apply callDecisionModel_calls.
Qed.

(** *** The join *)

(** The results are read back in the order the promises were pushed:
    each datum is its own source's. *)
Lemma collectResults_own (w d t : option Promise) :
  collectResults w d t
    (push_started (push_started (push_started [] w) d) t)
  = Some (own_datum w, own_datum d, own_datum t).
Proof.
  destruct w as [[vw|]|], d as [[vd|]|], t as [[vt|]|]; reflexivity.
Qed.

Lemma gatherAndCompose_calls (world : World) (intent : IntentAnalysisResult)
  (msg : jsstring) (context : option VideoContext)
  (config : option OrchestratorConfig) :
  calls (gatherAndCompose world intent msg context config) =
  calls (startWebSearch world intent msg config)
    ++ calls (startDouban world intent context)
    ++ calls (startTMDB world intent context config).
Proof. unfold gatherAndCompose. eff. reflexivity. Qed.

Lemma gatherAndCompose_result (world : World) (intent : IntentAnalysisResult)
  (msg : jsstring) (context : option VideoContext)
  (config : option OrchestratorConfig) :
  let w := own_datum (result (startWebSearch world intent msg config)) in
  let d := own_datum (result (startDouban world intent context)) in
  let t := own_datum (result (startTMDB world intent context config)) in
  result (gatherAndCompose world intent msg context config) =
  match buildSystemPrompt w d t context config with
  | Some prompt => Returned (mkResult prompt w d t)
  | None => Threw
  end.
Proof.
  unfold gatherAndCompose. eff. rewrite collectResults_own. reflexivity.
Qed.

Lemma orchestrate_calls (world : World) (msg : jsstring)
  (context : option VideoContext) (config : option OrchestratorConfig) :
  calls (orchestrateDataSources world msg context config) =
  calls (decide world msg context config)
    ++ calls (gatherAndCompose world
                (resolveIntent (result (decide world msg context config))
                               msg context)
                msg context config).
Proof. unfold orchestrateDataSources. rewrite calls_bind. reflexivity. Qed.

Lemma orchestrate_result (world : World) (msg : jsstring)
  (context : option VideoContext) (config : option OrchestratorConfig) :
  result (orchestrateDataSources world msg context config) =
  result (gatherAndCompose world
            (resolveIntent (result (decide world msg context config))
                           msg context)
            msg context config).
Proof. unfold orchestrateDataSources. rewrite result_bind. reflexivity. Qed.

(** *** The prompt *)

Lemma truthy_not_nullish (v : value) : truthy v = true -> is_nullish v = false.
Proof. destruct v; simpl; congruence. Qed.

Lemma get_some (v : value) (k : jsstring) :
  is_nullish v = false -> exists x, get v k = Some x.
Proof.
  destruct v; simpl; intro H; try discriminate; try (eexists; reflexivity).
  - destruct (jseqb k (u16 "length")); [eexists; reflexivity|].
    destruct (jseqb k (u16 "link")); [eexists; reflexivity|].
    destruct (index_of_key k); eexists; reflexivity.
  - destruct (jseqb k (u16 "length")); [eexists; reflexivity|].
    destruct (index_of_key k); eexists; reflexivity.
Qed.

Lemma pick_some (v : value) (ks : list string) :
  is_nullish v = false -> exists fields, pick v ks = Some fields.
Proof.
  intro H. unfold pick. induction ks as [|k ks [fs IH]]; simpl.
  - eexists. reflexivity.
  - destruct (get_some v (u16 k) H) as [x Hx]. rewrite Hx. simpl.
    rewrite IH. eexists. reflexivity.
Qed.

Lemma map_option_some {A B : Type} (f : A -> option B) (l : list A) :
  (forall x, In x l -> exists y, f x = Some y) ->
  exists ys, map_option f l = Some ys.
Proof.
  induction l as [|x l IH]; intro H; simpl.
  - eexists. reflexivity.
  - destruct (H x (or_introl eq_refl)) as [y Hy]. rewrite Hy.
    destruct IH as [ys Hys].
    + intros z Hz. apply H. right. assumption.
    + rewrite Hys. eexists. reflexivity.
Qed.

Lemma In_firstn {A : Type} (n : nat) (l : list A) (x : A) :
  In x (firstn n l) -> In x l.
Proof.
  intro H. rewrite <- (firstn_skipn n l). apply in_or_app. left. assumption.
Qed.

Lemma get_array_length (l : list value) :
  get (VArr l) (u16 "length") = Some (VNum (number_of_nat (length l))).
Proof.
  unfold get.
  replace (jseqb (u16 "length") (u16 "length")) with true
    by (vm_compute; reflexivity).
  reflexivity.
Qed.

Lemma opt_slice_some (v : value) (n : nat) :
  sliceable v = true -> exists x, opt_slice v n = Some x.
Proof.
  destruct v; simpl; intro H; try discriminate; eexists; reflexivity.
Qed.

(** The composer returns on a catalog payload of an expected shape. *)
Lemma doubanSection_ok (v : value) :
  catalog_payload_ok v = true -> exists s, doubanSection v = Some s.
Proof.
  unfold catalog_payload_ok, doubanSection.
  destruct (truthy v) eqn:Hv; [|intros _; eexists; reflexivity].
  cbn [negb orb]. cbv zeta.
  destruct (truthy (opt_get v (u16 "list"))).
  - destruct (opt_get v (u16 "list")) as [| | | | |l| |]; try discriminate.
    intro Hl. rewrite get_array_length. cbn [obind ToString js_slice].
    destruct (map_option_some doubanListItem (firstn 10 l)) as [ys Hys].
    + intros x Hx. apply In_firstn in Hx.
      rewrite forallb_forall in Hl. specialize (Hl x Hx).
      apply negb_true_iff in Hl.
      unfold doubanListItem.
      destruct (pick_some x
                  ["title"; "rating"; "year"; "genres"; "directors"; "actors"]%string
                  Hl) as [fs Hfs].
      rewrite Hfs. eexists. reflexivity.
    + rewrite Hys. eexists. reflexivity.
  - destruct (truthy (opt_get v (u16 "items"))).
    + destruct (opt_get v (u16 "items")); try discriminate;
        intros _; eexists; reflexivity.
    + intro Hr.
      destruct (pick_some v
                  ["title"; "rating"; "year"; "genres"; "directors"; "actors";
                   "intro"]%string (truthy_not_nullish v Hv)) as [fs Hfs].
      rewrite Hfs. cbn [obind].
      destruct (opt_slice_some _ 2 Hr) as [x Hx]. rewrite Hx.
      eexists. reflexivity.
Qed.

(** The composer returns on an international payload of the expected
    shape. *)
Lemma tmdbSection_ok (v : value) :
  tmdb_payload_ok v = true -> exists s, tmdbSection v = Some s.
Proof.
  unfold tmdb_payload_ok, tmdbSection.
  destruct (truthy v) eqn:Hv; [|intros _; eexists; reflexivity].
  cbn [negb orb]. intro Hs.
  destruct (pick_some v ["overview"; "vote_average"; "genres"; "keywords"]%string
              (truthy_not_nullish v Hv)) as [fs Hfs].
  rewrite Hfs. cbn [obind].
  destruct (opt_slice_some _ 5 Hs) as [x Hx]. rewrite Hx.
  eexists. reflexivity.
Qed.

Lemma doubanSection_absent (v : value) :
  truthy v = false -> doubanSection v = Some [].
Proof. unfold doubanSection. intros ->. reflexivity. Qed.

Lemma tmdbSection_absent (v : value) :
  truthy v = false -> tmdbSection v = Some [].
Proof. unfold tmdbSection. intros ->. reflexivity. Qed.

Lemma webSearchSection_absent (v : value) (config : option OrchestratorConfig) :
  truthy v = false -> webSearchSection v config = [].
Proof. unfold webSearchSection. intros ->. reflexivity. Qed.

Lemma promptPreamble_not_empty (rest : jsstring) : promptPreamble ++ rest <> [].
Proof.
  assert (H : exists c p, promptPreamble = c :: p)
    by (vm_compute; eexists; eexists; reflexivity).
  destruct H as (c & p & ->). discriminate.
Qed.

Lemma buildSystemPrompt_not_empty (w d t : value)
  (context : option VideoContext) (config : option OrchestratorConfig)
  (prompt : jsstring) :
  buildSystemPrompt w d t context config = Some prompt -> prompt <> [].
Proof.
  unfold buildSystemPrompt.
  destruct (doubanSection d); [|discriminate].
  destruct (tmdbSection t); [|discriminate].
  cbn [obind]. intro H. injection H as <-. apply promptPreamble_not_empty.
Qed.

Lemma buildSystemPrompt_no_data (w d t : value)
  (context : option VideoContext) (config : option OrchestratorConfig) :
  truthy w = false -> truthy d = false -> truthy t = false ->
  buildSystemPrompt w d t context config
  = Some (promptPreamble ++ contextSection context ++ promptClosing).
Proof.
  intros Hw Hd Ht. unfold buildSystemPrompt.
  rewrite doubanSection_absent, tmdbSection_absent by assumption.
  cbn [obind]. rewrite webSearchSection_absent by assumption. reflexivity.
Qed.


(** ** The orchestrator: claims *)

Lemma existsb_none {A : Type} (P Q : A -> bool) (l : list A) :
  Forall (fun c => Q c = true) l ->
  (forall c, Q c = true -> P c = false) ->
  existsb P l = false.
Proof.
  intros H HPQ. induction H as [|c l Hc _ IH]; simpl.
  - reflexivity.
  - rewrite (HPQ c Hc), IH. reflexivity.
Qed.

(** C2 (availability override).  A source that the availability map marks
    as unavailable receives no request from the orchestrator, whatever the
    decision model answered. *)
Theorem C2_unavailable_source_not_called (world : World) (msg : jsstring)
  (context : option VideoContext) (config : OrchestratorConfig) (s : Source) :
  available (availability config) s = false ->
  existsb (call_to s)
          (calls (orchestrateDataSources world msg context (Some config)))
  = false.
Proof.
  intro Hav.
  rewrite orchestrate_calls, gatherAndCompose_calls, !existsb_app.
  set (intent := resolveIntent _ msg context).
  assert (Hdec : existsb (call_to s) (calls (decide world msg context (Some config)))
                 = false).
  { eapply existsb_none; [apply decide_calls|].
    intros c Hc. destruct s, c; simpl in *; congruence. }
  rewrite Hdec. cbn [orb].
  destruct s; simpl in Hav.
  - (* web search *)
    rewrite (startWebSearch_unavailable world intent msg (Some config)) by exact Hav.
    rewrite calls_ret. cbn [existsb orb].
    destruct (startDouban_spec world intent context) as [[-> _]|[u [-> _]]];
      destruct (startTMDB_spec world intent context (Some config))
        as [[-> _]|(k & i & key & _ & -> & _)]; reflexivity.
  - discriminate.
  - (* TMDB *)
    assert (Hweb : existsb (call_to TMDB)
                     (calls (startWebSearch world intent msg (Some config))) = false).
    { eapply existsb_none; [apply startWebSearch_calls|].
      intros c Hc. destruct c; simpl in *; congruence. }
    rewrite Hweb. cbn [orb].
    destruct (startDouban_spec world intent context) as [[-> _]|[u [-> _]]];
      destruct (startTMDB_spec world intent context (Some config))
        as [[-> _]|(k & i & key & Hkey & _)];
      try reflexivity;
      unfold hasTMDB in Hav; simpl cfg_field in Hkey; congruence.
Qed.

(** In [world_asking_everything] the decision has the three flags set
    although neither web search nor TMDB is available; no request goes to
    either. *)
Lemma C2_unavailable_source_not_called_witness :
  (available (availability config_no_keys) TMDB = false
   /\ needTMDB (resolveIntent
                  (result (decide world_asking_everything message_C
                             (Some context_matrix) (Some config_no_keys)))
                  message_C (Some context_matrix)) = true)
  /\ existsb (call_to TMDB)
       (calls (orchestrateDataSources world_asking_everything message_C
                 (Some context_matrix) (Some config_no_keys)))
     = false.
Proof.
  split.
  - split; vm_compute; reflexivity.
  - apply (C2_unavailable_source_not_called world_asking_everything message_C
             (Some context_matrix) config_no_keys TMDB).
    vm_compute. reflexivity.
Defined.

Lemma well_shaped_datum_douban (world : World) (intent : IntentAnalysisResult)
  (context : option VideoContext) :
  well_shaped world ->
  catalog_payload_ok (own_datum (result (startDouban world intent context))) = true.
Proof.
  intro Hw.
  destruct (startDouban_spec world intent context) as [[_ ->]|[u [_ ->]]].
  - reflexivity.
  - apply (Hw (DoubanFetch u)). reflexivity.
Qed.

Lemma well_shaped_datum_tmdb (world : World) (intent : IntentAnalysisResult)
  (context : option VideoContext) (config : option OrchestratorConfig) :
  well_shaped world ->
  tmdb_payload_ok (own_datum (result (startTMDB world intent context config)))
  = true.
Proof.
  intro Hw.
  destruct (startTMDB_spec world intent context config)
    as [[_ ->]|(k & i & key & _ & _ & [->| ->])].
  - reflexivity.
  - reflexivity.
  - apply (Hw (TMDBDetail k i key)). reflexivity.
Qed.

(** C10 (fan-in).  Whatever subset of the three calls is started and
    however each promise settles, the index-based read-out of the settled
    results gives each field the datum of its own source: the value its
    promise was fulfilled with, [null] when the call was not started or its
    promise was rejected.  The orchestrator returns exactly when the
    composer of the prompt does not throw on these data, and the three
    fields of what it returns are these data, each under its own name; in
    a world whose payloads have the shapes the composer expects it always
    returns. *)
Theorem C10_fan_in_demultiplexes :
  (forall w d t : option Promise,
     collectResults w d t
       (push_started (push_started (push_started [] w) d) t)
     = Some (own_datum w, own_datum d, own_datum t))
  /\ (forall (world : World) (msg : jsstring) (context : option VideoContext)
        (config : option OrchestratorConfig),
        let intent :=
          resolveIntent (result (decide world msg context config)) msg context in
        let w := own_datum (result (startWebSearch world intent msg config)) in
        let d := own_datum (result (startDouban world intent context)) in
        let t := own_datum (result (startTMDB world intent context config)) in
        result (orchestrateDataSources world msg context config)
        = match buildSystemPrompt w d t context config with
          | Some systemPrompt => Returned (mkResult systemPrompt w d t)
          | None => Threw
          end)
  /\ (forall (world : World) (msg : jsstring) (context : option VideoContext)
        (config : option OrchestratorConfig),
        well_shaped world ->
        let intent :=
          resolveIntent (result (decide world msg context config)) msg context in
        exists r,
          result (orchestrateDataSources world msg context config) = Returned r
          /\ webSearchResults r
             = own_datum (result (startWebSearch world intent msg config))
          /\ doubanData r
             = own_datum (result (startDouban world intent context))
          /\ tmdbData r
             = own_datum (result (startTMDB world intent context config))).
Proof.
  split; [|split].
  - apply collectResults_own.
  - intros world msg context config intent w d t.
    rewrite orchestrate_result.
    pose proof (gatherAndCompose_result world intent msg context config) as H.
    cbv zeta in H. fold intent. rewrite H. reflexivity.
  - intros world msg context config Hw intent.
    rewrite orchestrate_result.
    pose proof (gatherAndCompose_result world intent msg context config) as H.
    cbv zeta in H. fold intent. rewrite H. clear H.
    set (w := own_datum (result (startWebSearch world intent msg config))).
    set (d := own_datum (result (startDouban world intent context))).
    set (t := own_datum (result (startTMDB world intent context config))).
    destruct (doubanSection_ok d (well_shaped_datum_douban world intent context Hw))
      as [sd Hsd].
    destruct (tmdbSection_ok t
                (well_shaped_datum_tmdb world intent context config Hw))
      as [st Hst].
    destruct (buildSystemPrompt w d t context config) as [prompt|] eqn:Hb.
    + exists (mkResult prompt w d t). repeat split.
    + unfold buildSystemPrompt in Hb. rewrite Hsd, Hst in Hb. discriminate.
Qed.

(** The message of scenario C with a TMDB key, in a world where TMDB
    answers with a title: the orchestrator returns, the TMDB field holds
    that answer and the two other fields are [null]. *)
Lemma C10_fan_in_demultiplexes_witness :
  well_shaped world_tmdb_title
  /\ exists r,
       result (orchestrateDataSources world_tmdb_title message_C
                 (Some context_C) (Some config_tmdb_only)) = Returned r
       /\ webSearchResults r = VNull
       /\ doubanData r = VNull
       /\ tmdbData r = VObj [(u16 "title", VStr (u16 "The Matrix"))].
Proof.
  assert (Hw : well_shaped world_tmdb_title)
    by (intro c; destruct c; split; intros _; reflexivity).
  split; [exact Hw|].
  destruct (proj2 (proj2 C10_fan_in_demultiplexes) world_tmdb_title message_C
              (Some context_C) (Some config_tmdb_only) Hw)
    as (r & Hr & Hweb & Hdouban & Htmdb).
  exists r. rewrite Hweb, Hdouban, Htmdb.
  split; [exact Hr|]. vm_compute. repeat split.
Defined.

(** How far the orchestrator degrades gracefully.  For every message,
    context and configuration, and whether each provider call is skipped,
    fails, or succeeds with a payload of one of the shapes the composer
    expects, the orchestrator returns, and the prompt it returns is not
    empty; when no source produced data the prompt is the fixed preamble,
    then the section on the video being watched when the context has a
    title, then the closing section. *)
Lemma graceful_degradation_when_well_shaped (world : World) (msg : jsstring)
  (context : option VideoContext) (config : option OrchestratorConfig) :
  well_shaped world ->
  exists r,
    result (orchestrateDataSources world msg context config) = Returned r
    /\ systemPrompt r <> []
    /\ (truthy (webSearchResults r) = false ->
        truthy (doubanData r) = false ->
        truthy (tmdbData r) = false ->
        systemPrompt r = promptPreamble ++ contextSection context ++ promptClosing).
Proof.
  intro Hw.
  rewrite orchestrate_result.
  set (intent := resolveIntent _ msg context).
  pose proof (gatherAndCompose_result world intent msg context config) as H.
  cbv zeta in H. rewrite H. clear H.
  set (w := own_datum (result (startWebSearch world intent msg config))).
  set (d := own_datum (result (startDouban world intent context))).
  set (t := own_datum (result (startTMDB world intent context config))).
  destruct (doubanSection_ok d (well_shaped_datum_douban world intent context Hw))
    as [sd Hsd].
  destruct (tmdbSection_ok t (well_shaped_datum_tmdb world intent context config Hw))
    as [st Hst].
  destruct (buildSystemPrompt w d t context config) as [prompt|] eqn:Hb.
  - exists (mkResult prompt w d t). split; [reflexivity|]. split.
    + cbn [systemPrompt]. eapply buildSystemPrompt_not_empty. eassumption.
    + cbn [systemPrompt webSearchResults doubanData tmdbData].
      intros Hnw Hnd Hnt.
      rewrite (buildSystemPrompt_no_data w d t context config Hnw Hnd Hnt) in Hb.
      injection Hb as <-. reflexivity.
  - unfold buildSystemPrompt in Hb. rewrite Hsd, Hst in Hb. discriminate.
Qed.

Lemma silent_well_shaped : well_shaped silent.
Proof. intro c. split; intros _; reflexivity. Qed.

(** With a context that has a title and no source giving data, the prompt
    is not the preamble and the closing section only: it names the video
    being watched. *)
Lemma prompt_names_the_video_watched :
  exists r,
    result (orchestrateDataSources silent message_C (Some context_titled) None)
      = Returned r
    /\ webSearchResults r = VNull /\ doubanData r = VNull /\ tmdbData r = VNull
    /\ systemPrompt r <> promptPreamble ++ promptClosing.
Proof.
  eexists. split; [vm_compute; reflexivity|].
  repeat split.
  cbn [systemPrompt]. intro H. apply (f_equal (@length N)) in H.
  vm_compute in H. discriminate.
Qed.

(** C1, where the code departs from it.  The message of scenario C with
    the context {tmdb_id: 603, type: 'movie'} and a TMDB key makes the
    orchestrator ask TMDB for the details with
    [append_to_response=keywords,similar].  When that call succeeds with a
    detail object of the shape of the TMDB API, whose [similar] is a page
    object {page, results} and not a list, the composer of the prompt
    evaluates [tmdbData.similar?.slice(0, 5)] outside any [try]: [slice] is
    not a function of that object, and the orchestrator throws after its
    one request.  With the same answer without [similar] it returns, and
    the result carries the answer. *)
Theorem C1_throws_on_similar_page :
  orchestrateDataSources world_tmdb_page message_C (Some context_C)
    (Some config_tmdb_only)
  = ([TMDBDetail movie (number_of_Z 603) (u16 "tmdb-key")], Threw)
  /\ exists r,
       orchestrateDataSources world_tmdb_title message_C (Some context_C)
         (Some config_tmdb_only)
       = ([TMDBDetail movie (number_of_Z 603) (u16 "tmdb-key")], Returned r)
       /\ tmdbData r = VObj [(u16 "title", VStr (u16 "The Matrix"))].
Proof.
  split; [vm_compute; reflexivity|].
  eexists. split; [vm_compute; reflexivity | reflexivity].
Qed.


(** ** The end-to-end scenarios *)

Lemma filter_none {A : Type} (P Q : A -> bool) (l : list A) :
  Forall (fun c => Q c = true) l ->
  (forall c, Q c = true -> P c = false) ->
  filter P l = [].
Proof.
  intros H HPQ. induction H as [|c l Hc _ IH]; simpl.
  - reflexivity.
  - rewrite (HPQ c Hc), IH. reflexivity.
Qed.

Lemma data_calls_orchestrate (world : World) (msg : jsstring)
  (context : option VideoContext) (config : option OrchestratorConfig) :
  data_calls (orchestrateDataSources world msg context config) =
  filter (fun c => negb (is_decision_call c))
    (calls (gatherAndCompose world
              (resolveIntent (result (decide world msg context config))
                             msg context)
              msg context config)).
Proof.
  unfold data_calls. rewrite orchestrate_calls, filter_app.
  rewrite (filter_none _ (fun c => is_decision_call c)).
  - reflexivity.
  - apply decide_calls.
  - intros c ->. reflexivity.
Qed.

Lemma classifier_path_intent (world : World) (msg : jsstring)
  (context : option VideoContext) (config : option OrchestratorConfig) :
  classifier_path world msg context config ->
  resolveIntent (result (decide world msg context config)) msg context
  = analyzeIntent msg context.
Proof. unfold classifier_path, resolveIntent. intros ->. reflexivity. Qed.

(** *** Scenario C *)

Lemma analyzeIntent_C :
  analyzeIntent message_C (Some context_C) =
  mkIntent general (Some mt_movie) None false false true []
           (extractEntities message_C) VUndef VUndef.
Proof. vm_compute. reflexivity. Qed.

Lemma startTMDB_C (world : World) (config : option OrchestratorConfig) :
  calls (startTMDB world (analyzeIntent message_C (Some context_C))
           (Some context_C) config) = tmdb_call_C config
  /\ ((forall c, In c (tmdb_call_C config) -> world c = Rejected) ->
      own_datum (result (startTMDB world (analyzeIntent message_C (Some context_C))
                           (Some context_C) config)) = VNull).
Proof.
  rewrite analyzeIntent_C. unfold startTMDB, tmdb_call_C.
  cbn [needTMDB ctx_field context_C tmdb_id type].
  replace (true && truthy_number (Some (number_of_Z 603))) with true
    by (vm_compute; reflexivity).
  rewrite calls_start, result_start. cbn [own_datum].
  unfold fetchTMDBData.
  destruct (cfg_field config tmdbApiKey) as [[|k key]|]; cbn [truthy_string negb].
  - split; [reflexivity|]. intros _. reflexivity.
  - replace (number_is_zero (number_of_Z 603)) with false
      by (vm_compute; reflexivity).
    eff. split; [reflexivity|].
    intro H. rewrite (H _ (or_introl eq_refl)). reflexivity.
  - split; [reflexivity|]. intros _. reflexivity.
Qed.

(** C4, as the code has it.  For the message "这部电影讲的是什么" with the
    context [{tmdb_id: 603, type: "movie"}] the classifier gives type
    general, needTMDB true and needDouban false (a detail needs a title);
    on the classifier path the orchestrator attempts the international call
    only, when a TMDB key is configured, and no catalog call; when that
    call is rejected, as it is when its 15-second signal aborts it, the
    orchestrator still returns, without international data. *)
Theorem C4_scenario_C (world : World) (config : option OrchestratorConfig) :
  classifier_path world message_C (Some context_C) config ->
  (intent_type (analyzeIntent message_C (Some context_C)) = general
   /\ needTMDB (analyzeIntent message_C (Some context_C)) = true
   /\ needDouban (analyzeIntent message_C (Some context_C)) = false)
  /\ data_calls (orchestrateDataSources world message_C (Some context_C) config)
     = tmdb_call_C config
  /\ ((forall c, In c (tmdb_call_C config) -> world c = Rejected) ->
      exists r,
        result (orchestrateDataSources world message_C (Some context_C) config)
          = Returned r
        /\ tmdbData r = VNull /\ doubanData r = VNull
        /\ systemPrompt r = promptPreamble ++ promptClosing).
Proof.
  intro Hpath. split; [|split].
  - rewrite analyzeIntent_C. repeat split.
  - rewrite data_calls_orchestrate, classifier_path_intent by assumption.
    rewrite gatherAndCompose_calls.
    destruct (startTMDB_C world config) as [-> _].
    rewrite analyzeIntent_C.
    assert (Hw : calls (startWebSearch world
                   (mkIntent general (Some mt_movie) None false false true []
                      (extractEntities message_C) VUndef VUndef)
                   message_C config) = []).
    { unfold startWebSearch. destruct config; reflexivity. }
    rewrite Hw. cbn [app startDouban needDouban]. rewrite calls_ret. cbn [app].
    unfold tmdb_call_C.
    destruct (cfg_field config tmdbApiKey) as [[|k key]|]; reflexivity.
  - intro Hrej.
    rewrite orchestrate_result, classifier_path_intent by assumption.
    pose proof (gatherAndCompose_result world
                  (analyzeIntent message_C (Some context_C)) message_C
                  (Some context_C) config) as H.
    cbv zeta in H. rewrite H. clear H.
    destruct (startTMDB_C world config) as [_ Ht]. rewrite (Ht Hrej).
    rewrite analyzeIntent_C.
    assert (Hw : result (startWebSearch world
                   (mkIntent general (Some mt_movie) None false false true []
                      (extractEntities message_C) VUndef VUndef)
                   message_C config) = None).
    { unfold startWebSearch. destruct config; reflexivity. }
    rewrite Hw. cbn [startDouban needDouban]. rewrite result_ret.
    cbn [own_datum].
    rewrite buildSystemPrompt_no_data by reflexivity.
    eexists. split; [reflexivity|]. repeat split.
Qed.

Lemma C4_scenario_C_witness :
  classifier_path silent message_C (Some context_C) (Some config_tmdb_only)
  /\ data_calls (orchestrateDataSources silent message_C (Some context_C)
                   (Some config_tmdb_only))
     = [TMDBDetail movie (number_of_Z 603) (u16 "tmdb-key")].
Proof.
  split; [vm_compute; reflexivity|].
  refine (eq_trans
            (proj1 (proj2 (C4_scenario_C silent (Some config_tmdb_only) _))) _).
  - vm_compute. reflexivity.
  - vm_compute. reflexivity.
Defined.

(** C4 fails as stated: without a title in the context the type is not
    detail and the catalog is not needed. *)
Lemma C4_counterexample :
  ~ (intent_type (analyzeIntent message_C (Some context_C)) = detail
     /\ needTMDB (analyzeIntent message_C (Some context_C)) = true
     /\ needDouban (analyzeIntent message_C (Some context_C)) = true).
Proof. rewrite analyzeIntent_C. intros (H & _). discriminate. Qed.

(** *** Scenario B *)

Lemma message_B_time : some_included timeKeywords message_B = true.
Proof. vm_compute. reflexivity. Qed.

Lemma message_B_recommend : some_included recommendKeywords message_B = false.
Proof. vm_compute. reflexivity. Qed.

Lemma message_B_this : includes (toLowerCase message_B) (u16 "这部") = true.
Proof. vm_compute. reflexivity. Qed.

Lemma message_B_encodes :
  encodeURIComponent (VStr message_B) = Some message_B.
Proof. vm_compute. reflexivity. Qed.

(** With a title in the context the message of scenario B is a detail
    question that needs the three sources. *)
Lemma analyzeIntent_B (context : VideoContext) :
  truthy_string (title context) = true ->
  intent_type (analyzeIntent message_B (Some context)) = detail
  /\ needWebSearch (analyzeIntent message_B (Some context)) = true
  /\ needDouban (analyzeIntent message_B (Some context)) = true
  /\ optimizedWebSearchQuery (analyzeIntent message_B (Some context)) = VUndef.
Proof.
  intro Ht. unfold analyzeIntent.
  cbn [intent_type needWebSearch needDouban optimizedWebSearchQuery ctx_field].
  rewrite message_B_time, message_B_recommend, message_B_this, Ht.
  rewrite orb_true_r. cbn [andb orb]. repeat split.
Qed.

(** A needed web search is attempted exactly when it is configured. *)
Lemma startWebSearch_needed (world : World) (intent : IntentAnalysisResult)
  (msg : jsstring) (config : option OrchestratorConfig) :
  needWebSearch intent = true ->
  optimizedWebSearchQuery intent = VUndef ->
  encodeURIComponent (VStr msg) = Some msg ->
  length (filter is_web_search_call
            (calls (startWebSearch world intent msg config)))
  = (if webSearchConfigured config then 1 else 0)%nat.
Proof.
  intros Hneed Hq Henc.
  unfold startWebSearch, webSearchConfigured, hasWebSearchProvider.
  destruct config as [c|]; [|reflexivity].
  rewrite Hneed. cbn [andb].
  destruct (enableWebSearch c); [|reflexivity]. cbn [andb].
  destruct (webSearchProvider c) as [provider|]; [|reflexivity].
  destruct (webSearchApiKey c provider) as [[|k key]|]; try reflexivity.
  cbn [truthy_string]. rewrite calls_start, Hq.
  cbn [js_or truthy]. unfold fetchWebSearch.
  destruct provider; [| |rewrite Henc]; eff; reflexivity.
Qed.

Lemma not_web_douban (world : World) (intent : IntentAnalysisResult)
  (context : option VideoContext) :
  filter is_web_search_call (calls (startDouban world intent context)) = [].
Proof.
  destruct (startDouban_spec world intent context) as [[-> _]|[u [-> _]]];
    reflexivity.
Qed.

Lemma not_web_tmdb (world : World) (intent : IntentAnalysisResult)
  (context : option VideoContext) (config : option OrchestratorConfig) :
  filter is_web_search_call (calls (startTMDB world intent context config)) = [].
Proof.
  destruct (startTMDB_spec world intent context config)
    as [[-> _]|(k & i & key & _ & -> & _)]; reflexivity.
Qed.

(** C8, as the code has it.  For the message "这部剧什么时候出第二季" with a
    title in the context, the classifier finds a time keyword and returns
    needWebSearch true, and the type is detail (the message says "这部" and
    there is a title); on the classifier path the orchestrator sends one
    web-search request when web search is enabled with a provider and the
    key of that provider, and none otherwise.  In that other case the
    result has no web-search data and the prompt has no web-search
    section: it is the preamble, the catalog section and the international
    section of the data those two calls gave, the section on the video
    being watched, and the closing section, and nothing else; the
    orchestrator returns it unless the composer throws on one of these two
    data. *)
Theorem C8_scenario_B (world : World) (context : VideoContext)
  (config : option OrchestratorConfig) :
  truthy_string (title context) = true ->
  classifier_path world message_B (Some context) config ->
  let intent := analyzeIntent message_B (Some context) in
  needWebSearch intent = true
  /\ intent_type intent = detail
  /\ length (filter is_web_search_call
               (calls (orchestrateDataSources world message_B (Some context)
                         config)))
     = (if webSearchConfigured config then 1 else 0)%nat
  /\ (webSearchConfigured config = false ->
      let d := own_datum (result (startDouban world intent (Some context))) in
      let t := own_datum (result (startTMDB world intent (Some context) config)) in
      result (orchestrateDataSources world message_B (Some context) config)
      = match doubanSection d, tmdbSection t with
        | Some douban, Some tmdb =>
            Returned
              (mkResult (promptPreamble ++ douban ++ tmdb
                           ++ contextSection (Some context) ++ promptClosing)
                        VNull d t)
        | _, _ => Threw
        end).
Proof.
  intros Ht Hpath intent.
  destruct (analyzeIntent_B context Ht) as (Hty & Hweb & _ & Hq).
  split; [assumption|]. split; [assumption|]. split.
  - rewrite orchestrate_calls, classifier_path_intent by assumption.
    rewrite gatherAndCompose_calls, !filter_app, !length_app.
    rewrite (filter_none _ (fun c => is_decision_call c));
      [|apply decide_calls|intros c Hc; destruct c; (reflexivity || discriminate Hc)].
    rewrite not_web_douban, not_web_tmdb.
    rewrite (startWebSearch_needed world _ message_B config Hweb Hq
               message_B_encodes).
    simpl. rewrite Nat.add_0_r. reflexivity.
  - intros Hno d t. subst d t intent.
    rewrite orchestrate_result, classifier_path_intent by assumption.
    pose proof (gatherAndCompose_result world
                  (analyzeIntent message_B (Some context)) message_B
                  (Some context) config) as H.
    cbv zeta in H. rewrite H. clear H.
    rewrite (startWebSearch_unavailable world _ message_B config Hno).
    rewrite result_ret. cbn [own_datum].
    unfold buildSystemPrompt, webSearchSection. cbn [truthy app].
    destruct (doubanSection _) as [douban|]; [|reflexivity].
    destruct (tmdbSection _) as [tmdb|]; reflexivity.
Qed.

(** With a title in the context, a TMDB key and no web-search provider, in
    a world where every call fails: no web-search request, and the prompt
    is the preamble, the section on the video being watched and the closing
    section. *)
Lemma C8_scenario_B_witness :
  (truthy_string (title context_titled) = true
   /\ classifier_path silent message_B (Some context_titled)
        (Some config_tmdb_only))
  /\ length (filter is_web_search_call
               (calls (orchestrateDataSources silent message_B
                         (Some context_titled) (Some config_tmdb_only))))
     = 0%nat
  /\ result (orchestrateDataSources silent message_B (Some context_titled)
               (Some config_tmdb_only))
     = Returned
         (mkResult (promptPreamble ++ contextSection (Some context_titled)
                      ++ promptClosing)
                   VNull VNull VNull).
Proof.
  split; [split; vm_compute; reflexivity|].
  destruct (C8_scenario_B silent context_titled (Some config_tmdb_only))
    as (_ & _ & Hcalls & Hprompt).
  - vm_compute. reflexivity.
  - vm_compute. reflexivity.
  - split.
    + rewrite Hcalls. reflexivity.
    + rewrite (Hprompt eq_refl). vm_compute. reflexivity.
Defined.

(** C8 fails as stated: with a title in the context the type is not
    query. *)
Lemma C8_counterexample :
  truthy_string (title context_titled) = true
  /\ intent_type (analyzeIntent message_B (Some context_titled)) <> query.
Proof.
  split; [vm_compute; reflexivity|].
  destruct (analyzeIntent_B context_titled) as (-> & _).
  - vm_compute. reflexivity.
  - discriminate.
Qed.


(** ** The chat endpoint *)

(** What [answer] can respond: the internal error, the error of the
    custom-provider gate, or the event stream. *)
Lemma answer_responses (server : Server) (adminConfig : AdminConfig)
  (aiConfig : AIConfig) (msg : jsstring) (req : ChatRequest) :
  ~ early_gate_error (result (answer server adminConfig aiConfig msg req)).
Proof.
  unfold answer. rewrite result_bind.
  destruct (result (orchestrateDataSources _ _ _ _)) as [r|].
  - destruct (CustomApiKey aiConfig) as [[|k key]|];
      try (rewrite result_ret; simpl; intros [H|[H|[_ H]]];
           [discriminate | discriminate | apply H; reflexivity]).
    destruct (CustomBaseURL aiConfig) as [[|b base]|];
      try (rewrite result_ret; simpl; intros [H|[H|[_ H]]];
           [discriminate | discriminate | apply H; reflexivity]).
    rewrite result_bind, result_ret.
    destruct (result (streamOpenAIChat _ _ _ _ _ _ _)); simpl.
    + intros [].
    + intros [H|[H|[H _]]]; discriminate.
  - rewrite result_ret. simpl. intros [H|[H|[H _]]]; discriminate.
Qed.

(** The gates on the session, the feature switch, the role and the
    message answer before any request is made. *)
Lemma POST_early_gates_no_call (server : Server) (request : NextRequest) :
  early_gate_error (result (POST server request)) ->
  calls (POST server request) = [].
Proof.
  unfold POST.
  destruct (authInfo request) as [[[[|n name]|]]|]; try reflexivity.
  destruct (getConfig server) as [adminConfig|]; try reflexivity.
  destruct (AIConfig_ adminConfig) as [aiConfig|]; try reflexivity.
  destruct (Enabled aiConfig); try reflexivity.
  destruct (roleAllowed server aiConfig (n :: name)) as [[|]|]; try reflexivity.
  destruct (body request) as [req|]; try reflexivity.
  destruct (message req) as [| | | |[|m msg]| | |]; try reflexivity.
  intro H. exfalso. revert H. apply answer_responses.
Qed.

(** C3, where the code departs from it.  With the key of the custom LLM
    provider missing, the handler answers 400 only after the orchestrator
    has run: a catalog request and an international request, both provider
    calls, have been made. *)
Theorem C3_orchestration_before_key_gate :
  POST server_without_key request_about_matrix =
  ([DoubanFetch (DoubanSearchSubjects (u16 "movie") (u16 "黑客帝国"));
    TMDBDetail movie (number_of_Z 603) (u16 "tmdb-key")],
   JsonError 400 error_custom_api)
  /\ forallb is_provider_call
       (calls (POST server_without_key request_about_matrix)) = true.
Proof. split; vm_compute; reflexivity. Qed.


(** ** The intent classifier: further properties *)

(** X1.  The type and the flags of a classification agree: a detail
    question needs the catalog and the international source and has a
    title in its context; a query needs the web; a recommendation needs the
    catalog; a general question needs the web only when it mentions news. *)
Theorem analyzeIntent_type_flags (message : jsstring)
  (context : option VideoContext) :
  match intent_type (analyzeIntent message context) with
  | detail =>
      needDouban (analyzeIntent message context) = true
      /\ needTMDB (analyzeIntent message context) = true
      /\ truthy_string (ctx_field context title) = true
  | query => needWebSearch (analyzeIntent message context) = true
  | recommendation => needDouban (analyzeIntent message context) = true
  | general =>
      needWebSearch (analyzeIntent message context)
      = includes message (u16 "新闻")
  end.
Proof.
  unfold analyzeIntent.
  cbn [intent_type needWebSearch needDouban needTMDB].
  destruct (some_included recommendKeywords message);
    destruct (truthy_string (ctx_field context title));
    destruct (some_included plotKeywords message);
    destruct (includes (toLowerCase message) (u16 "这部"));
    destruct (some_included personKeywords message);
    destruct (some_included timeKeywords message);
    cbn [andb orb]; rewrite ?orb_true_r, ?orb_false_r; auto.
Qed.

(** X2.  The web is needed exactly when the message has a time keyword or
    a person keyword or mentions news: the two other disjuncts of the
    source add nothing. *)
Theorem analyzeIntent_needWebSearch (message : jsstring)
  (context : option VideoContext) :
  needWebSearch (analyzeIntent message context)
  = some_included timeKeywords message
    || some_included personKeywords message
    || includes message (u16 "新闻").
Proof.
  unfold analyzeIntent. cbn [needWebSearch].
  destruct (some_included recommendKeywords message);
    destruct (truthy_string (ctx_field context title)
              && (some_included plotKeywords message
                  || includes (toLowerCase message) (u16 "这部")));
    destruct (some_included personKeywords message);
    destruct (some_included timeKeywords message);
    destruct (includes message (u16 "新闻")); reflexivity.
Qed.

(** X3.  Without a context a message is never a detail question, the
    international source is never needed, and the catalog is needed exactly
    for recommendations. *)
Theorem analyzeIntent_without_context (message : jsstring) :
  intent_type (analyzeIntent message None) <> detail
  /\ needTMDB (analyzeIntent message None) = false
  /\ needDouban (analyzeIntent message None)
     = some_included recommendKeywords message.
Proof.
  unfold analyzeIntent. cbn [intent_type needTMDB needDouban ctx_field].
  cbn [truthy_string andb positive_number].
  destruct (some_included recommendKeywords message);
    destruct (some_included personKeywords message
              || some_included timeKeywords message);
    repeat split; discriminate.
Qed.

(** X4.  The keywords returned are time keywords found in the message,
    and there is one exactly when the message has a time keyword, in which
    case the web is needed. *)
Theorem analyzeIntent_keywords (message : jsstring)
  (context : option VideoContext) :
  Forall (fun v => exists k, v = VStr k /\ In k timeKeywords
                             /\ includes message k = true)
         (keywords (analyzeIntent message context))
  /\ match keywords (analyzeIntent message context) with
     | [] => some_included timeKeywords message = false
     | _ :: _ =>
         some_included timeKeywords message = true
         /\ needWebSearch (analyzeIntent message context) = true
     end.
Proof.
  rewrite analyzeIntent_needWebSearch.
  unfold analyzeIntent. cbn [keywords]. unfold some_included.
  split.
  - apply Forall_forall. intros v Hv.
    apply in_map_iff in Hv. destruct Hv as (k & <- & Hk).
    apply filter_In in Hk. destruct Hk as [Hin Hinc].
    exists k. auto.
  - induction timeKeywords as [|k ks IH]; cbn [filter map existsb].
    + reflexivity.
    + destruct (includes message k); cbn [map orb].
      * split; reflexivity.
      * exact IH.
Qed.

Lemma startsWith_app (v post : jsstring) : startsWith (v ++ post) v = true.
Proof.
  induction v as [|c v IH]; [destruct post; reflexivity|].
  cbn [app startsWith]. rewrite N.eqb_refl, IH. reflexivity.
Qed.

Lemma includes_head (s k : jsstring) : startsWith s k = true -> includes s k = true.
Proof. intro H. destruct s; cbn [includes]; rewrite H; reflexivity. Qed.

Lemma includes_middle (pre v post : jsstring) :
  includes (pre ++ v ++ post) v = true.
Proof.
  induction pre as [|c pre IH].
  - apply includes_head. exact (startsWith_app v post).
  - cbn [app includes]. rewrite IH. apply orb_true_r.
Qed.

Lemma match_person_n_shape (n : nat) (s name rest : jsstring) :
  match_person_n n s = Some (name, rest) ->
  exists p, s = name ++ p :: rest /\ length name = n
            /\ forallb in_han_range name = true /\ is_particle p = true.
Proof.
  unfold match_person_n.
  destruct (skipn n s) as [|p r] eqn:E; [discriminate|].
  destruct ((length (firstn n s) =? n)%nat) eqn:El; [|discriminate].
  destruct (forallb in_han_range (firstn n s)) eqn:Eh; [|discriminate].
  destruct (is_particle p) eqn:Ep; [|discriminate].
  cbn [andb]. intro H. injection H as <- <-.
  exists p. repeat split; try assumption.
  - rewrite <- E. symmetry. apply firstn_skipn.
  - apply Nat.eqb_eq. assumption.
Qed.

Lemma match_person_at_shape (s name rest : jsstring) :
  match_person_at s = Some (name, rest) ->
  exists p, s = name ++ p :: rest /\ (2 <= length name <= 4)%nat
            /\ forallb in_han_range name = true /\ is_particle p = true.
Proof.
  unfold match_person_at.
  destruct (match_person_n 4 s) as [[n4 r4]|] eqn:E4.
  { intro H. injection H as <- <-.
    destruct (match_person_n_shape _ _ _ _ E4) as (p & ? & ? & ? & ?).
    exists p. repeat split; try assumption; lia. }
  destruct (match_person_n 3 s) as [[n3 r3]|] eqn:E3.
  { intro H. injection H as <- <-.
    destruct (match_person_n_shape _ _ _ _ E3) as (p & ? & ? & ? & ?).
    exists p. repeat split; try assumption; lia. }
  intro H.
  destruct (match_person_n_shape _ _ _ _ H) as (p & ? & ? & ? & ?).
  exists p. repeat split; try assumption; lia.
Qed.

(** X5.  Every entity extracted is a person whose value is two to four
    code units of the range 一 to 龥 that stand in the message right before
    one of 的, 是, 演, 导; matches do not overlap, so there is at most one
    entity for three code units of the message. *)
Theorem extractEntities_sound (message : jsstring) :
  Forall (fun e =>
            fst e = u16 "person"
            /\ (2 <= length (snd e) <= 4)%nat
            /\ forallb in_han_range (snd e) = true
            /\ exists p, is_particle p = true
                         /\ includes message (snd e ++ [p]) = true)
         (extractEntities message)
  /\ (3 * length (extractEntities message) <= length message)%nat.
Proof.
  unfold extractEntities.
  assert (H : forall f t pre, message = pre ++ t ->
            Forall (fun e =>
                      fst e = u16 "person"
                      /\ (2 <= length (snd e) <= 4)%nat
                      /\ forallb in_han_range (snd e) = true
                      /\ exists p, is_particle p = true
                                   /\ includes message (snd e ++ [p]) = true)
                   (extract_from f t)
            /\ (3 * length (extract_from f t) <= length t)%nat).
  { induction f as [|f IH]; intros t pre Hm.
    - split; [constructor | simpl; lia].
    - cbn [extract_from]. destruct t as [|c t'].
      + split; [constructor | simpl; lia].
      + destruct (match_person_at (c :: t')) as [[name rest]|] eqn:E.
        * destruct (match_person_at_shape _ _ _ E) as (p & Ht & Hl & Hh & Hp).
          destruct (IH rest (pre ++ name ++ [p])) as [IH1 IH2].
          { rewrite Hm, Ht, <- !app_assoc. reflexivity. }
          split.
          -- constructor; [|exact IH1]. cbn [fst snd].
             repeat split; try assumption; try lia.
             exists p. split; [assumption|].
             rewrite Hm, Ht.
             replace (name ++ p :: rest) with ((name ++ [p]) ++ rest)
               by (rewrite <- app_assoc; reflexivity).
             apply includes_middle.
          -- rewrite Ht. cbn [length]. rewrite length_app. cbn [length]. lia.
        * destruct (IH t' (pre ++ [c])) as [IH1 IH2].
          { rewrite Hm, <- app_assoc. reflexivity. }
          split; [exact IH1 | cbn [length]; lia]. }
  apply (H (length message) message []). reflexivity.
Qed.


(** ** Formatting and cleaning *)

Lemma search_result_text_nullish (l1 k1 l2 k2 l3 k3 : string) (x : value) :
  is_nullish x = true -> search_result_text l1 k1 l2 k2 l3 k3 x = None.
Proof. destruct x; try discriminate; reflexivity. Qed.

Lemma map_option_not_nullish (f : value -> option jsstring) (items : list value) :
  (forall x, is_nullish x = true -> f x = None) ->
  forall ys, map_option f items = Some ys -> existsb is_nullish items = false.
Proof.
  intro Hf. induction items as [|x items IH]; intros ys H; [reflexivity|].
  cbn [map_option] in H. cbn [existsb].
  destruct (is_nullish x) eqn:Ex.
  - rewrite (Hf x Ex) in H. discriminate.
  - destruct (f x); [|discriminate].
    destruct (map_option f items) eqn:E; [|discriminate].
    apply (IH l). reflexivity.
Qed.

Lemma map_join_shape (rs : value) (f : value -> option jsstring) (s : jsstring) :
  (forall x, is_nullish x = true -> f x = None) ->
  map_join rs f = Some s -> s <> [] ->
  exists items, rs = VArr items /\ items <> []
                /\ existsb is_nullish items = false.
Proof.
  intros Hf H Hne. destruct rs; try discriminate H.
  cbn [map_join] in H.
  destruct (map_option f items) as [ys|] eqn:E; [|discriminate].
  cbn [option_map] in H. injection H as <-.
  exists items. split; [reflexivity|]. split.
  - intros ->. cbn [map_option] in E. injection E as <-. apply Hne. reflexivity.
  - apply (map_option_not_nullish f items Hf ys E).
Qed.

Lemma opt_get_array (v : value) (k : jsstring) (items : list value) :
  opt_get v k = VArr items -> get v k = Some (VArr items).
Proof.
  unfold opt_get. destruct (get v k); [intros ->; reflexivity | discriminate].
Qed.

(** X6.  [formatSearchResults] is all or nothing: when it gives any text,
    the provider's list was a non-empty array without a null or undefined
    entry.  One such entry, or a list that is not an array, empties the
    whole text. *)
Theorem formatSearchResults_all_or_nothing (results : value)
  (provider : WebSearchProvider) :
  formatSearchResults results provider <> [] ->
  exists items,
    get results (results_key provider) = Some (VArr items)
    /\ items <> [] /\ existsb is_nullish items = false.
Proof.
  unfold formatSearchResults.
  destruct (truthy results); cbn [negb]; [|intro H; contradiction H; reflexivity].
  destruct provider; cbv zeta; cbn [results_key].
  all: match goal with
       | |- context [truthy (opt_get ?r ?k)] =>
           destruct (truthy (opt_get r k));
           [|intro H; contradiction H; reflexivity]
       end.
  all: match goal with
       | |- context [map_join ?rs ?f] =>
           destruct (map_join rs f) as [s|] eqn:E;
           [|intro H; contradiction H; reflexivity];
           intro Hne;
           destruct (map_join_shape rs f s
                       (search_result_text_nullish _ _ _ _ _ _) E Hne)
             as (items & Hi & Hn & Hx);
           exists items; split; [apply opt_get_array; exact Hi | split; assumption]
       end.
Qed.

Lemma formatSearchResults_all_or_nothing_witness :
  exists items,
    get (VObj [(u16 "results", VArr [VObj [(u16 "title", VStr (u16 "Dune"))]])])
        (results_key tavily) = Some (VArr items)
    /\ items <> [] /\ existsb is_nullish items = false.
Proof.
  apply formatSearchResults_all_or_nothing.
  vm_compute. discriminate.
Defined.

(** *** Trimming *)

Lemma trimStart_fixed (c : N) (r : jsstring) :
  is_js_space c = false -> trimStart (c :: r) = c :: r.
Proof. intro H. cbn [trimStart]. rewrite H. reflexivity. Qed.

Lemma trimStart_shape (s : jsstring) :
  trimStart s = [] \/ exists c r, trimStart s = c :: r /\ is_js_space c = false.
Proof.
  induction s as [|c s IH]; [left; reflexivity|].
  cbn [trimStart]. destruct (is_js_space c) eqn:E; [exact IH|].
  right. exists c, s. split; [reflexivity | exact E].
Qed.

Lemma trimStart_idem (s : jsstring) : trimStart (trimStart s) = trimStart s.
Proof.
  destruct (trimStart_shape s) as [-> | (c & r & -> & Hc)]; [reflexivity|].
  apply trimStart_fixed. exact Hc.
Qed.

Lemma trimStart_app_keep (l : jsstring) (c : N) :
  is_js_space c = false -> exists q, trimStart (l ++ [c]) = q ++ [c].
Proof.
  intro Hc. induction l as [|x l IH].
  - exists []. apply trimStart_fixed. exact Hc.
  - cbn [app trimStart]. destruct (is_js_space x); [exact IH|].
    exists (x :: l). reflexivity.
Qed.

Lemma trimEnd_head (c : N) (r : jsstring) :
  is_js_space c = false -> exists r', trimEnd (c :: r) = c :: r'.
Proof.
  intro Hc. unfold trimEnd. cbn [rev].
  destruct (trimStart_app_keep (rev r) c Hc) as [q ->].
  rewrite rev_app_distr. exists (rev q). reflexivity.
Qed.

Lemma trimEnd_idem (s : jsstring) : trimEnd (trimEnd s) = trimEnd s.
Proof. unfold trimEnd. rewrite rev_involutive, trimStart_idem. reflexivity. Qed.

Lemma trim_idem (s : jsstring) : trim (trim s) = trim s.
Proof.
  unfold trim. destruct (trimStart_shape s) as [-> | (c & r & -> & Hc)].
  - reflexivity.
  - destruct (trimEnd_head c r Hc) as [r' E]. rewrite E.
    rewrite (trimStart_fixed c r' Hc). rewrite <- E. apply trimEnd_idem.
Qed.

Lemma trim_trimStart (s : jsstring) : trim (trimStart s) = trim s.
Proof. unfold trim. rewrite trimStart_idem. reflexivity. Qed.

Lemma trim_fixed_ends (c d : N) (m : jsstring) :
  is_js_space c = false -> is_js_space d = false ->
  trim (c :: m ++ [d]) = c :: m ++ [d].
Proof.
  intros Hc Hd. unfold trim. rewrite (trimStart_fixed c _ Hc).
  unfold trimEnd.
  replace (rev (c :: m ++ [d])) with (d :: rev (c :: m))
    by (cbn [rev]; rewrite rev_app_distr; reflexivity).
  rewrite (trimStart_fixed d _ Hd). cbn [rev]. rewrite rev_app_distr.
  cbn [rev app]. rewrite rev_involutive. reflexivity.
Qed.

Lemma trimStart_app_blank (body rest : jsstring) :
  trimStart body = [] -> trimStart (body ++ rest) = trimStart rest.
Proof.
  induction body as [|c body IH]; [reflexivity|].
  cbn [app trimStart]. destruct (is_js_space c); [exact IH | discriminate].
Qed.

Lemma trimStart_app_text (body rest : jsstring) (c : N) (r : jsstring) :
  trimStart body = c :: r -> trimStart (body ++ rest) = (c :: r) ++ rest.
Proof.
  induction body as [|x body IH]; [discriminate|].
  cbn [app trimStart]. destruct (is_js_space x); [exact IH|].
  intro H. injection H as <- <-. reflexivity.
Qed.

(** *** Text without a backtick *)

Lemma has_backtick_trimStart (s : jsstring) :
  has_backtick s = false -> has_backtick (trimStart s) = false.
Proof.
  unfold has_backtick. induction s as [|c s IH]; [reflexivity|].
  cbn [trimStart existsb]. intro H. apply orb_false_elim in H as [H1 H2].
  destruct (is_js_space c); [exact (IH H2)|].
  cbn [existsb]. rewrite H1, H2. reflexivity.
Qed.

Lemma has_backtick_rev (s : jsstring) : has_backtick (rev s) = has_backtick s.
Proof.
  unfold has_backtick. induction s as [|c s IH]; [reflexivity|].
  cbn [rev existsb]. rewrite existsb_app, IH. cbn [existsb].
  rewrite orb_false_r. apply orb_comm.
Qed.

Lemma has_backtick_trim (s : jsstring) :
  has_backtick s = false -> has_backtick (trim s) = false.
Proof.
  intro H. unfold trim, trimEnd. rewrite has_backtick_rev.
  apply has_backtick_trimStart. rewrite has_backtick_rev.
  apply has_backtick_trimStart. exact H.
Qed.

Lemma startsWith_backticks_head (s : jsstring) :
  startsWith s backticks = true -> exists r, s = 96 :: r.
Proof.
  destruct s as [|c r]; [discriminate|].
  unfold backticks. cbn [startsWith]. intro H.
  apply andb_true_iff in H as [H _]. apply N.eqb_eq in H. subst c.
  exists r. reflexivity.
Qed.

Lemma startsWith_no_backtick (s : jsstring) :
  has_backtick s = false -> startsWith s backticks = false.
Proof.
  intro H. destruct (startsWith s backticks) eqn:E; [|reflexivity].
  destruct (startsWith_backticks_head s E) as [r ->].
  discriminate H.
Qed.

Lemma close_fence_here_shape (s : jsstring) :
  close_fence_here s = true ->
  exists r, (s = r \/ s = 10 :: r) /\ startsWith r backticks = true.
Proof.
  unfold close_fence_here. intro H. apply orb_true_iff in H as [H|H].
  - apply andb_true_iff in H as [H _]. exists s. split; [left; reflexivity | exact H].
  - destruct s as [|c r]; [discriminate|].
    destruct c as [|p]; [discriminate|].
    destruct p as [p|p|]; try discriminate H.
    destruct p as [p|p|]; try discriminate H.
    destruct p as [p|p|]; try discriminate H.
    destruct p as [p|p|]; try discriminate H.
    apply andb_true_iff in H as [H _].
    exists r. split; [right; reflexivity | exact H].
Qed.

Lemma close_fence_here_no_backtick (s : jsstring) :
  has_backtick s = false -> close_fence_here s = false.
Proof.
  intro H. destruct (close_fence_here s) eqn:E; [|reflexivity].
  destruct (close_fence_here_shape s E) as (r & [-> | ->] & Hr).
  - rewrite (startsWith_no_backtick r H) in Hr. discriminate.
  - unfold has_backtick in H. cbn [existsb] in H.
    apply orb_false_elim in H as [_ H].
    rewrite (startsWith_no_backtick r H) in Hr. discriminate.
Qed.

Lemma strip_close_fence_cons (c : N) (s : jsstring) :
  strip_close_fence (c :: s)
  = if close_fence_here (c :: s) then [] else c :: strip_close_fence s.
Proof. reflexivity. Qed.

Lemma strip_close_fence_no_backtick (s : jsstring) :
  has_backtick s = false -> strip_close_fence s = s.
Proof.
  induction s as [|c s IH]; intro H; [reflexivity|].
  rewrite strip_close_fence_cons, (close_fence_here_no_backtick _ H).
  unfold has_backtick in H. cbn [existsb] in H.
  apply orb_false_elim in H as [_ H]. rewrite (IH H). reflexivity.
Qed.

Lemma strip_open_fence_no_backtick (s : jsstring) :
  has_backtick s = false -> strip_open_fence s = s.
Proof.
  intro H. unfold strip_open_fence.
  rewrite (startsWith_no_backtick s H). reflexivity.
Qed.

Lemma strip_close_fence_body (t : jsstring) :
  has_backtick t = false ->
  strip_close_fence (t ++ [nl] ++ backticks) = t.
Proof.
  induction t as [|c t IH]; intro H; [reflexivity|].
  unfold has_backtick in H. cbn [existsb] in H.
  apply orb_false_elim in H as [Hc Ht].
  cbn [app]. rewrite strip_close_fence_cons.
  destruct (close_fence_here (c :: t ++ nl :: backticks)) eqn:E.
  - exfalso. destruct (close_fence_here_shape _ E) as (r & [Hr | Hr] & Hs).
    + subst r. destruct (startsWith_backticks_head _ Hs) as [r' Hr'].
      injection Hr' as -> _. discriminate Hc.
    + injection Hr as -> <-.
      destruct (startsWith_backticks_head _ Hs) as [r' Hr'].
      destruct t as [|d t]; [discriminate Hr'|].
      cbn [app] in Hr'. injection Hr' as -> _.
      cbn [existsb] in Ht. discriminate Ht.
  - cbn [app] in IH. rewrite (IH Ht). reflexivity.
Qed.

(** X7.  A reply without a backtick passes through [cleanJsonResponse]
    trimmed and otherwise untouched. *)
Theorem cleanJsonResponse_plain (content : jsstring) :
  has_backtick content = false -> cleanJsonResponse content = trim content.
Proof.
  intro H. unfold cleanJsonResponse.
  pose proof (has_backtick_trim content H) as Ht.
  rewrite (strip_open_fence_no_backtick _ Ht).
  rewrite (strip_close_fence_no_backtick _ Ht).
  apply trim_idem.
Qed.

Lemma cleanJsonResponse_plain_witness :
  cleanJsonResponse (u16q " {'needDouban':true} ") = trim (u16q " {'needDouban':true} ").
Proof. apply cleanJsonResponse_plain. vm_compute. reflexivity. Defined.

Lemma fenced_ends (tag body : jsstring) :
  fenced tag body
  = 96 :: (96 :: 96 :: tag ++ [nl] ++ body ++ [nl] ++ [96; 96]) ++ [96].
Proof.
  unfold fenced, backticks. cbn [app]. do 3 f_equal.
  rewrite <- app_assoc. cbn [app]. do 2 f_equal.
  rewrite <- app_assoc. reflexivity.
Qed.

Lemma is_json_word_line_feed (rest : jsstring) : is_json_word (nl :: rest) = false.
Proof. destruct rest as [|a [|b [|c rest]]]; reflexivity. Qed.

Lemma strip_open_fence_fenced (tag body : jsstring) :
  In tag fence_tags ->
  strip_open_fence (fenced tag body) = trimStart (body ++ [nl] ++ backticks).
Proof.
  unfold fence_tags. intros [<- | [<- | [<- | []]]].
  - unfold strip_open_fence, fenced, backticks. cbn [app startsWith N.eqb Pos.eqb andb skipn].
    change (10 :: body ++ [nl; 96; 96; 96]) with (nl :: body ++ [nl; 96; 96; 96]).
    rewrite is_json_word_line_feed. reflexivity.
  - change (u16 "json") with [106; 115; 111; 110].
    reflexivity.
  - change (u16 "JSON") with [74; 83; 79; 78].
    reflexivity.
Qed.

(** X8.  A reply wrapped in a code fence, with or without the [json] tag,
    is unwrapped: what is left is the body, trimmed. *)
Theorem cleanJsonResponse_fenced (tag body : jsstring) :
  In tag fence_tags -> has_backtick body = false ->
  cleanJsonResponse (fenced tag body) = trim body.
Proof.
  intros Htag Hb. unfold cleanJsonResponse.
  rewrite fenced_ends, trim_fixed_ends by reflexivity.
  rewrite <- fenced_ends, (strip_open_fence_fenced tag body Htag).
  destruct (trimStart_shape body) as [E | (c & r & E & Hc)].
  - rewrite (trimStart_app_blank body _ E).
    unfold trim at 2. rewrite E. reflexivity.
  - rewrite (trimStart_app_text body _ c r E), <- E.
    rewrite (strip_close_fence_body _ (has_backtick_trimStart body Hb)).
    apply trim_trimStart.
Qed.

Lemma cleanJsonResponse_fenced_witness :
  cleanJsonResponse (fenced (u16 "json") (u16q "{'needTMDB': true}"))
  = trim (u16q "{'needTMDB': true}").
Proof.
  apply cleanJsonResponse_fenced.
  - right. left. reflexivity.
  - vm_compute. reflexivity.
Defined.


(** ** The orchestrator: further properties *)

Lemma filter_all {A : Type} (P : A -> bool) (l : list A) :
  Forall (fun c => P c = true) l -> filter P l = l.
Proof.
  intro H. induction H as [|c l Hc _ IH]; [reflexivity|].
  cbn [filter]. rewrite Hc, IH. reflexivity.
Qed.

Lemma fetchWebSearch_budget (world : World) (q : value)
  (provider : WebSearchProvider) (key : jsstring) :
  (length (calls (fetchWebSearch world q provider key)) <= 1)%nat.
Proof.
  unfold fetchWebSearch. destruct provider; eff; try (cbn [length]; lia).
  destruct (encodeURIComponent q); eff; cbn [length]; lia.
Qed.

Lemma startWebSearch_budget (world : World) (intent : IntentAnalysisResult)
  (msg : jsstring) (config : option OrchestratorConfig) :
  (length (calls (startWebSearch world intent msg config)) <= 1)%nat.
Proof.
  unfold startWebSearch.
  destruct config as [c|]; [|cbn; lia].
  destruct (needWebSearch intent && enableWebSearch c); [|cbn; lia].
  destruct (webSearchProvider c) as [provider|]; [|cbn; lia].
  destruct (webSearchApiKey c provider) as [[|k key]|]; try (cbn; lia).
  rewrite calls_start. apply fetchWebSearch_budget.
Qed.

Lemma callDecisionModel_budget (world : World) (msg : jsstring)
  (context : option VideoContext) (dc : DecisionConfig)
  (av : AvailableDataSources) :
  length (calls (callDecisionModel world msg context dc av)) = 1%nat.
Proof. unfold callDecisionModel. destruct (dc_provider dc); eff; reflexivity. Qed.

Lemma decide_budget (world : World) (msg : jsstring)
  (context : option VideoContext) (config : option OrchestratorConfig) :
  (length (calls (decide world msg context config)) <= 1)%nat.
Proof.
  unfold decide.
  destruct config as [c|]; [|cbn; lia].
  destruct (enableDecisionModel c) as [[|]|]; try (cbn; lia).
  destruct (decisionProvider c); try (cbn; lia).
  destruct (decisionApiKey c) as [[|k key]|]; try (cbn; lia).
  destruct (decisionModel c) as [[|m model]|]; try (cbn; lia).
  rewrite callDecisionModel_budget. lia.
Qed.

Lemma startDouban_calls (world : World) (intent : IntentAnalysisResult)
  (context : option VideoContext) :
  Forall (fun c => is_douban_call c = true)
         (calls (startDouban world intent context))
  /\ (length (calls (startDouban world intent context)) <= 1)%nat.
Proof.
  destruct (startDouban_spec world intent context) as [[-> _] | (u & -> & _)].
  - split; [constructor | cbn; lia].
  - split; [repeat constructor | cbn; lia].
Qed.

Lemma startTMDB_calls (world : World) (intent : IntentAnalysisResult)
  (context : option VideoContext) (config : option OrchestratorConfig) :
  Forall (fun c => is_tmdb_call c = true)
         (calls (startTMDB world intent context config))
  /\ (length (calls (startTMDB world intent context config)) <= 1)%nat.
Proof.
  destruct (startTMDB_spec world intent context config)
    as [[-> _] | (k & i & key & _ & -> & _)].
  - split; [constructor | cbn; lia].
  - split; [repeat constructor | cbn; lia].
Qed.

Ltac other_class :=
  let c := fresh "c" in
  intro c; destruct c; cbn; intros; solve [reflexivity | discriminate].

(** The requests of a run, by the step that issued them. *)
Lemma orchestrate_calls_by_step (world : World) (msg : jsstring)
  (context : option VideoContext) (config : option OrchestratorConfig) :
  let intent :=
    resolveIntent (result (decide world msg context config)) msg context in
  let cs := calls (orchestrateDataSources world msg context config) in
  filter is_decision_call cs = calls (decide world msg context config)
  /\ filter is_web_search_call cs = calls (startWebSearch world intent msg config)
  /\ filter is_douban_call cs = calls (startDouban world intent context)
  /\ filter is_tmdb_call cs = calls (startTMDB world intent context config)
  /\ cs = calls (decide world msg context config)
          ++ calls (startWebSearch world intent msg config)
          ++ calls (startDouban world intent context)
          ++ calls (startTMDB world intent context config).
Proof.
  intros intent cs. subst cs.
  rewrite orchestrate_calls, gatherAndCompose_calls. fold intent.
  pose proof (decide_calls world msg context config) as Hd.
  pose proof (startWebSearch_calls world intent msg config) as Hw.
  destruct (startDouban_calls world intent context) as [Hb _].
  destruct (startTMDB_calls world intent context config) as [Ht _].
  rewrite !filter_app.
  repeat split.
  - rewrite (filter_all _ _ Hd).
    rewrite (filter_none is_decision_call _ _ Hw) by other_class.
    rewrite (filter_none is_decision_call _ _ Hb) by other_class.
    rewrite (filter_none is_decision_call _ _ Ht) by other_class.
    rewrite !app_nil_r. reflexivity.
  - rewrite (filter_all _ _ Hw).
    rewrite (filter_none is_web_search_call _ _ Hd) by other_class.
    rewrite (filter_none is_web_search_call _ _ Hb) by other_class.
    rewrite (filter_none is_web_search_call _ _ Ht) by other_class.
    rewrite !app_nil_r. reflexivity.
  - rewrite (filter_all _ _ Hb).
    rewrite (filter_none is_douban_call _ _ Hd) by other_class.
    rewrite (filter_none is_douban_call _ _ Hw) by other_class.
    rewrite (filter_none is_douban_call _ _ Ht) by other_class.
    rewrite !app_nil_r. reflexivity.
  - rewrite (filter_all _ _ Ht).
    rewrite (filter_none is_tmdb_call _ _ Hd) by other_class.
    rewrite (filter_none is_tmdb_call _ _ Hw) by other_class.
    rewrite (filter_none is_tmdb_call _ _ Hb) by other_class.
    reflexivity.
Qed.

(** X9.  One run of the orchestrator makes at most four requests: at most
    one to the decision model, then at most one to each of web search, the
    catalog and the international source, in that order, and none of any
    other kind. *)
Theorem orchestrate_request_budget (world : World) (msg : jsstring)
  (context : option VideoContext) (config : option OrchestratorConfig) :
  let cs := calls (orchestrateDataSources world msg context config) in
  cs = filter is_decision_call cs ++ filter is_web_search_call cs
         ++ filter is_douban_call cs ++ filter is_tmdb_call cs
  /\ (length (filter is_decision_call cs) <= 1)%nat
  /\ (length (filter is_web_search_call cs) <= 1)%nat
  /\ (length (filter is_douban_call cs) <= 1)%nat
  /\ (length (filter is_tmdb_call cs) <= 1)%nat.
Proof.
  intro cs.
  destruct (orchestrate_calls_by_step world msg context config)
    as (Hd & Hw & Hb & Ht & Hcs).
  fold cs in Hd, Hw, Hb, Ht, Hcs.
  rewrite Hd, Hw, Hb, Ht.
  split; [exact Hcs|].
  split; [apply decide_budget|].
  split; [apply startWebSearch_budget|].
  split; [apply startDouban_calls | apply startTMDB_calls].
Qed.

(** X10.  The international source is asked exactly when the intent needs
    it, the context has a non-zero [tmdb_id] and a [type], and a TMDB key is
    configured; the request then carries these three values. *)
Theorem tmdb_request_criterion (world : World) (msg : jsstring)
  (context : option VideoContext) (config : option OrchestratorConfig) :
  let intent :=
    resolveIntent (result (decide world msg context config)) msg context in
  filter is_tmdb_call
    (calls (orchestrateDataSources world msg context config))
  = match ctx_field context type, ctx_field context tmdb_id,
          cfg_field config tmdbApiKey with
    | Some k, Some i, Some key =>
        if needTMDB intent && negb (number_is_zero i)
           && truthy_string (Some key)
        then [TMDBDetail k i key]
        else []
    | _, _, _ => []
    end.
Proof.
  intro intent.
  destruct (orchestrate_calls_by_step world msg context config)
    as (_ & _ & _ & Ht & _).
  fold intent in Ht. rewrite Ht. unfold startTMDB, fetchTMDBData.
  destruct (needTMDB intent); cbn [andb].
  2: { destruct (ctx_field context type), (ctx_field context tmdb_id),
         (cfg_field config tmdbApiKey); reflexivity. }
  destruct (ctx_field context tmdb_id) as [i|]; cbn [truthy_number].
  2: { destruct (ctx_field context type); reflexivity. }
  destruct (number_is_zero i) eqn:Ez; cbn [negb andb].
  { destruct (ctx_field context type), (cfg_field config tmdbApiKey);
      reflexivity. }
  destruct (ctx_field context type) as [k|]; [|reflexivity].
  rewrite calls_start.
  destruct (cfg_field config tmdbApiKey) as [[|c key]|]; reflexivity.
Qed.

(** X11.  When the catalog is needed and the context has a non-zero
    [douban_id], the one catalog request is for that subject, whatever the
    intent type and the queries say. *)
Theorem douban_id_takes_priority (world : World) (msg : jsstring)
  (context : option VideoContext) (config : option OrchestratorConfig) :
  needDouban (resolveIntent (result (decide world msg context config))
                            msg context) = true ->
  truthy_number (ctx_field context douban_id) = true ->
  exists id,
    ctx_field context douban_id = Some id
    /\ filter is_douban_call
         (calls (orchestrateDataSources world msg context config))
       = [DoubanFetch (DoubanSubject id)].
Proof.
  intros Hn Hid.
  destruct (orchestrate_calls_by_step world msg context config)
    as (_ & _ & Hb & _ & _).
  cbv zeta in Hb. rewrite Hb. unfold startDouban. rewrite Hn, Hid.
  rewrite calls_start. unfold fetchDoubanData. cbn [p_id]. rewrite Hid.
  destruct (ctx_field context douban_id) as [id|]; [|discriminate Hid].
  exists id. split; [reflexivity | apply fetchDoubanAPI_calls].
Qed.

Lemma douban_id_takes_priority_witness :
  exists id,
    ctx_field (Some (mkVideoContext (Some (u16 "黑客帝国")) None
                       (Some (number_of_Z 1291843)) None (Some movie) None))
              douban_id = Some id
    /\ filter is_douban_call
         (calls (orchestrateDataSources silent (u16 "推荐几部类似的电影")
                   (Some (mkVideoContext (Some (u16 "黑客帝国")) None
                            (Some (number_of_Z 1291843)) None (Some movie) None))
                   None))
       = [DoubanFetch (DoubanSubject id)].
Proof.
  apply douban_id_takes_priority; vm_compute; reflexivity.
Defined.

(** *** The decision model *)

Lemma callDecisionModel_unanswered (world : World) (msg : jsstring)
  (context : option VideoContext) (dc : DecisionConfig)
  (av : AvailableDataSources) :
  (forall c, is_decision_call c = true -> unanswered (world c) = true) ->
  result (callDecisionModel world msg context dc av) = VNull.
Proof.
  intro H. unfold callDecisionModel.
  destruct (dc_provider dc); eff;
    match goal with
    | |- context [world ?c] =>
        pose proof (H c eq_refl) as Hc; destruct (world c) as [resp|];
        [ unfold unanswered in Hc;
          destruct (resp_ok resp);
          [ destruct (resp_json resp); [discriminate Hc | reflexivity]
          | reflexivity ]
        | reflexivity ]
    end.
Qed.

Lemma decide_unanswered (world : World) (msg : jsstring)
  (context : option VideoContext) (config : option OrchestratorConfig) :
  (forall c, is_decision_call c = true -> unanswered (world c) = true) ->
  result (decide world msg context config) = VNull.
Proof.
  intro H. unfold decide.
  destruct config as [c|]; [|reflexivity].
  destruct (enableDecisionModel c) as [[|]|]; try reflexivity.
  destruct (decisionProvider c); try reflexivity.
  destruct (decisionApiKey c) as [[|k key]|]; try reflexivity.
  destruct (decisionModel c) as [[|m model]|]; try reflexivity.
  apply callDecisionModel_unanswered. exact H.
Qed.

Lemma decide_without (world : World) (msg : jsstring)
  (context : option VideoContext) (c : OrchestratorConfig) :
  decide world msg context (Some (without_decision_model c)) = ret VNull.
Proof. reflexivity. Qed.

Lemma gatherAndCompose_without (world : World) (intent : IntentAnalysisResult)
  (msg : jsstring) (context : option VideoContext) (c : OrchestratorConfig) :
  gatherAndCompose world intent msg context (Some (without_decision_model c))
  = gatherAndCompose world intent msg context (Some c).
Proof. destruct c. reflexivity. Qed.

Lemma gatherAndCompose_data_calls (world : World) (intent : IntentAnalysisResult)
  (msg : jsstring) (context : option VideoContext)
  (config : option OrchestratorConfig) :
  filter (fun c => negb (is_decision_call c))
         (calls (gatherAndCompose world intent msg context config))
  = calls (gatherAndCompose world intent msg context config).
Proof.
  rewrite gatherAndCompose_calls. rewrite !filter_app.
  rewrite (filter_all _ (calls (startWebSearch _ _ _ _))).
  rewrite (filter_all _ (calls (startDouban _ _ _))).
  rewrite (filter_all _ (calls (startTMDB _ _ _ _))).
  - reflexivity.
  - eapply Forall_impl; [|apply startTMDB_calls].
    intros c Hc. destruct c; try discriminate Hc; reflexivity.
  - eapply Forall_impl; [|apply startDouban_calls].
    intros c Hc. destruct c; try discriminate Hc; reflexivity.
  - eapply Forall_impl; [|apply startWebSearch_calls].
    intros c Hc. destruct c; try discriminate Hc; reflexivity.
Qed.

(** X12.  When the decision model gives no usable answer (the request is
    rejected, the status is not ok, or the body is not JSON), the run ends
    as it does with the decision model switched off: the same outcome and
    the same requests to the data sources. *)
Theorem decision_failure_falls_back (world : World) (msg : jsstring)
  (context : option VideoContext) (c : OrchestratorConfig) :
  (forall call, is_decision_call call = true -> unanswered (world call) = true) ->
  result (orchestrateDataSources world msg context (Some c))
  = result (orchestrateDataSources world msg context
              (Some (without_decision_model c)))
  /\ data_calls (orchestrateDataSources world msg context (Some c))
     = calls (orchestrateDataSources world msg context
                (Some (without_decision_model c))).
Proof.
  intro H. split.
  - rewrite !orchestrate_result, decide_without, result_ret.
    rewrite (decide_unanswered world msg context (Some c) H).
    rewrite gatherAndCompose_without. reflexivity.
  - rewrite data_calls_orchestrate, orchestrate_calls, decide_without.
    rewrite calls_ret, result_ret. cbn [app].
    rewrite (decide_unanswered world msg context (Some c) H).
    rewrite gatherAndCompose_without. apply gatherAndCompose_data_calls.
Qed.

Lemma decision_failure_falls_back_witness :
  result (orchestrateDataSources silent message_B (Some context_matrix)
            (Some config_no_keys))
  = result (orchestrateDataSources silent message_B (Some context_matrix)
              (Some (without_decision_model config_no_keys)))
  /\ data_calls (orchestrateDataSources silent message_B (Some context_matrix)
                   (Some config_no_keys))
     = calls (orchestrateDataSources silent message_B (Some context_matrix)
                (Some (without_decision_model config_no_keys))).
Proof.
  apply decision_failure_falls_back. intros call _. reflexivity.
Defined.

Lemma empty_object_parses :
  JSON_parse (cleanJsonResponse (u16 "{}")) = Some (VObj []).
Proof. vm_compute. reflexivity. Qed.

Lemma callDecisionModel_empty_reply (world : World) (msg : jsstring)
  (context : option VideoContext) (dc : DecisionConfig)
  (av : AvailableDataSources) (data : value) :
  dc_provider dc <> claude ->
  is_nullish data = false ->
  truthy (opt_get (opt_get (opt_get (opt_get data (u16 "choices")) (u16 "0"))
                           (u16 "message")) (u16 "content")) = false ->
  (forall call, is_decision_call call = true -> world call = json_response data) ->
  result (callDecisionModel world msg context dc av) = VObj [].
Proof.
  intros Hp Hn Ht Hw. unfold callDecisionModel.
  destruct (get_some data (u16 "choices") Hn) as [x Hx].
  unfold opt_get at 4 in Ht. rewrite Hx in Ht.
  destruct (dc_provider dc); [|contradiction Hp; reflexivity|]; eff;
    rewrite Hw by reflexivity;
    unfold json_response; cbn [obind resp_ok resp_json];
    rewrite Hx; cbn [obind]; unfold js_or; rewrite Ht;
    cbn [cleaned_content obind]; rewrite empty_object_parses; reflexivity.
Qed.

Lemma decide_on (world : World) (msg : jsstring)
  (context : option VideoContext) (c : OrchestratorConfig) :
  decision_model_on c = true ->
  exists p key model,
    decisionProvider c = Some p
    /\ decide world msg context (Some c)
       = callDecisionModel world msg context
           (mkDecisionConfig p key (decisionBaseURL c) model) (availability c).
Proof.
  unfold decision_model_on, decide.
  destruct (enableDecisionModel c) as [[|]|]; try discriminate.
  destruct (decisionProvider c) as [p|]; try discriminate.
  destruct (decisionApiKey c) as [[|k key]|]; try discriminate.
  destruct (decisionModel c) as [[|m model]|]; try discriminate.
  intros _. exists p, (k :: key), (m :: model). split; reflexivity.
Qed.

Lemma gatherAndCompose_no_needs (world : World) (intent : IntentAnalysisResult)
  (msg : jsstring) (context : option VideoContext)
  (config : option OrchestratorConfig) :
  needWebSearch intent = false -> needDouban intent = false ->
  needTMDB intent = false ->
  gatherAndCompose world intent msg context config
  = ret (Returned (mkResult (promptPreamble ++ contextSection context
                               ++ promptClosing) VNull VNull VNull)).
Proof.
  intros Hw Hd Ht.
  assert (Ew : startWebSearch world intent msg config = ret None).
  { unfold startWebSearch. rewrite Hw. destruct config; reflexivity. }
  assert (Ed : startDouban world intent context = ret None).
  { unfold startDouban. rewrite Hd. reflexivity. }
  assert (Et : startTMDB world intent context config = ret None).
  { unfold startTMDB. rewrite Ht. reflexivity. }
  rewrite (surjective_pairing (gatherAndCompose world intent msg context config)).
  change (fst ?m) with (calls m). change (snd ?m) with (result m).
  rewrite gatherAndCompose_calls, gatherAndCompose_result, Ew, Ed, Et.
  cbv zeta. rewrite result_ret, calls_ret. cbn [own_datum app].
  rewrite buildSystemPrompt_no_data by reflexivity. reflexivity.
Qed.

(** X13.  An OpenAI-compatible decision model whose answer carries no
    text is read as the decision [{}]: nothing is needed.  No data source is
    asked and the prompt has no data section, whatever the message is; the
    keyword classifier is not consulted. *)
Theorem decision_empty_reply_stops_everything (world : World) (msg : jsstring)
  (context : option VideoContext) (c : OrchestratorConfig) (data : value) :
  decision_model_on c = true ->
  decisionProvider c <> Some claude ->
  is_nullish data = false ->
  truthy (opt_get (opt_get (opt_get (opt_get data (u16 "choices")) (u16 "0"))
                           (u16 "message")) (u16 "content")) = false ->
  (forall call, is_decision_call call = true -> world call = json_response data) ->
  data_calls (orchestrateDataSources world msg context (Some c)) = []
  /\ result (orchestrateDataSources world msg context (Some c))
     = Returned (mkResult (promptPreamble ++ contextSection context
                             ++ promptClosing) VNull VNull VNull).
Proof.
  intros Hon Hp Hn Ht Hw.
  destruct (decide_on world msg context c Hon) as (p & key & model & Hprov & Hdec).
  assert (Hres : result (decide world msg context (Some c)) = VObj []).
  { rewrite Hdec. apply (callDecisionModel_empty_reply world msg context _ _ data);
      try assumption.
    cbn [dc_provider]. intros ->. apply Hp. exact Hprov. }
  assert (Hg : gatherAndCompose world
                 (resolveIntent (result (decide world msg context (Some c)))
                                msg context) msg context (Some c)
               = ret (Returned (mkResult (promptPreamble ++ contextSection context
                                            ++ promptClosing) VNull VNull VNull))).
  { rewrite Hres. apply gatherAndCompose_no_needs; reflexivity. }
  split.
  - rewrite data_calls_orchestrate, Hg. reflexivity.
  - rewrite orchestrate_result, Hg. reflexivity.
Qed.

Lemma decision_empty_reply_stops_everything_witness :
  data_calls (orchestrateDataSources (fun _ => json_response (VObj []))
                message_B (Some context_matrix) (Some config_no_keys)) = []
  /\ result (orchestrateDataSources (fun _ => json_response (VObj []))
               message_B (Some context_matrix) (Some config_no_keys))
     = Returned (mkResult (promptPreamble ++ contextSection (Some context_matrix)
                             ++ promptClosing) VNull VNull VNull).
Proof.
  apply (decision_empty_reply_stops_everything _ _ _ _ (VObj [])).
  - reflexivity.
  - discriminate.
  - reflexivity.
  - reflexivity.
  - intros call _. reflexivity.
Defined.

(** *** The outcome *)

Lemma section_none_truthy (f : value -> option jsstring) (v : value) :
  (truthy v = false -> f v = Some []) -> f v = None -> truthy v = true.
Proof.
  intros Habs Hnone. destruct (truthy v); [reflexivity|].
  rewrite (Habs eq_refl) in Hnone. discriminate.
Qed.

(** X14.  A run that returns gives a prompt built from the very data it
    returns, framed by the fixed preamble and the fixed closing.  A run
    throws only after a request to the catalog or to the international
    source: the decision model and web search cannot make it throw. *)
Theorem orchestrate_outcome (world : World) (msg : jsstring)
  (context : option VideoContext) (config : option OrchestratorConfig) :
  match result (orchestrateDataSources world msg context config) with
  | Returned r =>
      buildSystemPrompt (webSearchResults r) (doubanData r) (tmdbData r)
                        context config = Some (systemPrompt r)
      /\ exists middle,
           systemPrompt r = promptPreamble ++ middle ++ promptClosing
  | Threw =>
      existsb (fun c => is_douban_call c || is_tmdb_call c)
              (calls (orchestrateDataSources world msg context config)) = true
  end.
Proof.
  destruct (orchestrate_calls_by_step world msg context config)
    as (_ & _ & _ & _ & Hcs).
  cbv zeta in Hcs. rewrite Hcs.
  rewrite orchestrate_result, gatherAndCompose_result.
  set (intent := resolveIntent _ _ _). cbv zeta.
  set (w := own_datum (result (startWebSearch world intent msg config))).
  destruct (buildSystemPrompt w _ _ context config) as [prompt|] eqn:E.
  - cbn [webSearchResults doubanData tmdbData systemPrompt].
    split; [exact E|].
    unfold buildSystemPrompt in E.
    destruct (doubanSection _) as [d|]; [|discriminate E].
    destruct (tmdbSection _) as [t|]; [|discriminate E].
    cbn [obind] in E. injection E as <-.
    exists (webSearchSection w config ++ d ++ t ++ contextSection context).
    rewrite <- !app_assoc. reflexivity.
  - rewrite !existsb_app.
    unfold buildSystemPrompt in E.
    destruct (doubanSection _) as [d|] eqn:Ed.
    + destruct (tmdbSection _) as [t|] eqn:Et; [discriminate E|].
      pose proof (section_none_truthy tmdbSection _ (tmdbSection_absent _) Et) as Hv.
      destruct (startTMDB_spec world intent context config)
        as [[_ Hnull] | (k & i & key & _ & -> & _)].
      * rewrite Hnull in Hv. discriminate Hv.
      * cbn. rewrite !orb_true_r. reflexivity.
    + pose proof (section_none_truthy doubanSection _ (doubanSection_absent _) Ed) as Hv.
      destruct (startDouban_spec world intent context)
        as [[_ Hnull] | (u & -> & _)].
      * rewrite Hnull in Hv. discriminate Hv.
      * cbn. rewrite !orb_true_r. reflexivity.
Qed.


(** ** The chat endpoint: further properties *)

Lemma orchestrate_calls_provider (world : World) (msg : jsstring)
  (context : option VideoContext) (config : option OrchestratorConfig) :
  Forall (fun c => is_provider_call c = true)
         (calls (orchestrateDataSources world msg context config)).
Proof.
  destruct (orchestrate_calls_by_step world msg context config)
    as (_ & _ & _ & _ & Hcs).
  cbv zeta in Hcs. rewrite Hcs.
  repeat (apply Forall_app; split).
  - eapply Forall_impl; [|apply decide_calls].
    intros c Hc. unfold is_provider_call. rewrite Hc. apply orb_true_r.
  - eapply Forall_impl; [|apply startWebSearch_calls].
    intros c Hc. unfold is_provider_call. rewrite Hc. reflexivity.
  - eapply Forall_impl; [|apply startDouban_calls].
    intros c Hc. unfold is_provider_call. rewrite Hc.
    rewrite orb_true_r. reflexivity.
  - eapply Forall_impl; [|apply startTMDB_calls].
    intros c Hc. unfold is_provider_call. rewrite Hc.
    rewrite !orb_true_r. reflexivity.
Qed.

Ltac post_error :=
  rewrite ?result_ret; unfold POST_errors, internalError, error_custom_api;
  cbn [In]; tauto.

(** X15.  What the endpoint answers.  An error is one of six; an event
    stream is the transformed body of a chat request that was answered ok,
    made last, after provider requests only.  That request carries the
    prompt as a first user message, the fixed acknowledgement, the history
    as it was sent, and the message last. *)
Theorem POST_responses (server : Server) (request : NextRequest) :
  match result (POST server request) with
  | JsonError status error => In (status, error) POST_errors
  | EventStream sse =>
      exists pre base key model messages temperature maxTokens resp,
        calls (POST server request)
        = pre ++ [ChatCompletions base key model messages temperature maxTokens]
        /\ Forall (fun c => is_provider_call c = true) pre
        /\ net server
             (ChatCompletions base key model messages temperature maxTokens)
           = Fulfilled resp
        /\ resp_ok resp = true
        /\ sse = transformToSSE (resp_body resp) openai
        /\ exists req msg prompt,
             body request = Fulfilled req
             /\ message req = VStr msg
             /\ messages
                = mkChatMessage (u16 "user") prompt :: assistant_ack
                    :: history req ++ [mkChatMessage (u16 "user") msg]
  end.
Proof.
  unfold POST.
  destruct (authInfo request) as [[[[|n name]|]]|]; try post_error.
  destruct (getConfig server) as [adminConfig|]; try post_error.
  destruct (AIConfig_ adminConfig) as [aiConfig|]; try post_error.
  destruct (Enabled aiConfig); try post_error.
  destruct (roleAllowed server aiConfig (n :: name)) as [[|]|]; try post_error.
  destruct (body request) as [req|] eqn:Ebody; try post_error.
  destruct (message req) as [| | | |[|m msg]| | |] eqn:Emsg; try post_error.
  unfold answer. rewrite result_bind, calls_bind.
  pose proof (orchestrate_calls_provider (net server) (m :: msg) (context req)
                (Some (orchestratorConfig adminConfig aiConfig))) as Hpre.
  destruct (result (orchestrateDataSources _ _ _ _)) as [r|]; try post_error.
  destruct (CustomApiKey aiConfig) as [[|k key]|]; try post_error.
  destruct (CustomBaseURL aiConfig) as [[|b base]|]; try post_error.
  unfold streamOpenAIChat. eff.
  match goal with
  | |- context [net server ?c] => destruct (net server c) as [resp|] eqn:Enet
  end; try post_error.
  destruct (resp_ok resp) eqn:Eok; try post_error.
  do 8 eexists.
  split; [reflexivity|].
  split; [exact Hpre|].
  split; [exact Enet|].
  split; [exact Eok|].
  split; [reflexivity|].
  exists req, (m :: msg). eexists.
  split; [reflexivity|]. split; [exact Emsg | reflexivity].
Qed.

Lemma decide_without_key (world : World) (msg : jsstring)
  (context : option VideoContext) (c : OrchestratorConfig) :
  truthy_string (decisionApiKey c) = false ->
  decide world msg context (Some c) = ret VNull.
Proof.
  intro H. unfold decide.
  destruct (enableDecisionModel c) as [[|]|]; try reflexivity.
  destruct (decisionProvider c); try reflexivity.
  destruct (decisionApiKey c) as [[|k key]|]; try reflexivity.
  discriminate H.
Qed.

Lemma orchestrate_without_key_no_llm (world : World) (msg : jsstring)
  (context : option VideoContext) (c : OrchestratorConfig) :
  truthy_string (decisionApiKey c) = false ->
  existsb is_llm_call (calls (orchestrateDataSources world msg context (Some c)))
  = false.
Proof.
  intro H.
  rewrite orchestrate_calls, (decide_without_key world msg context c H).
  rewrite calls_ret, result_ret. cbn [app].
  rewrite gatherAndCompose_calls, !existsb_app.
  rewrite (existsb_none is_llm_call _ _ (startWebSearch_calls _ _ _ _))
    by (intro x; destruct x; cbn; intros; solve [reflexivity | discriminate]).
  rewrite (existsb_none is_llm_call _ _ (proj1 (startDouban_calls _ _ _)))
    by (intro x; destruct x; cbn; intros; solve [reflexivity | discriminate]).
  rewrite (existsb_none is_llm_call _ _ (proj1 (startTMDB_calls _ _ _ _)))
    by (intro x; destruct x; cbn; intros; solve [reflexivity | discriminate]).
  reflexivity.
Qed.

(** X16.  Without a key for the custom LLM provider in the stored
    configuration, the endpoint asks no language model, neither for the
    decision nor for the chat, and never answers with an event stream. *)
Theorem POST_without_key_asks_no_model (server : Server) (request : NextRequest) :
  custom_key_configured server = false ->
  existsb is_llm_call (calls (POST server request)) = false
  /\ is_event_stream (result (POST server request)) = false.
Proof.
  unfold custom_key_configured, POST.
  destruct (authInfo request) as [[[[|n name]|]]|]; try (intros _; split; reflexivity).
  destruct (getConfig server) as [adminConfig|]; try (intros _; split; reflexivity).
  destruct (AIConfig_ adminConfig) as [aiConfig|]; try (intros _; split; reflexivity).
  intro Hkey.
  destruct (Enabled aiConfig); try (split; reflexivity).
  destruct (roleAllowed server aiConfig (n :: name)) as [[|]|];
    try (split; reflexivity).
  destruct (body request) as [req|]; try (split; reflexivity).
  destruct (message req) as [| | | |[|m msg]| | |]; try (split; reflexivity).
  unfold answer. rewrite result_bind, calls_bind.
  pose proof (orchestrate_without_key_no_llm (net server) (m :: msg) (context req)
                (orchestratorConfig adminConfig aiConfig) Hkey) as Hno.
  rewrite existsb_app, Hno.
  destruct (result (orchestrateDataSources _ _ _ _)) as [r|];
    [|split; reflexivity].
  destruct (CustomApiKey aiConfig) as [[|k key]|];
    [split; reflexivity | discriminate Hkey | split; reflexivity].
Qed.

Lemma POST_without_key_asks_no_model_witness :
  existsb is_llm_call (calls (POST server_without_key request_about_matrix))
  = false
  /\ is_event_stream (result (POST server_without_key request_about_matrix))
     = false.
Proof. apply POST_without_key_asks_no_model. reflexivity. Defined.

(** X17.  The gates on the session, the feature switch, the role and the
    message answer before anything is asked of a provider: with one of
    their errors as the response, no request was made. *)
Theorem POST_gate_errors_cost_nothing (server : Server) (request : NextRequest) :
  early_gate_error (result (POST server request)) ->
  calls (POST server request) = []
  /\ In (match result (POST server request) with
         | JsonError status error => (status, error)
         | EventStream _ => (200, [])
         end)
        (firstn 4 POST_errors).
Proof.
  intro H. split; [apply POST_early_gates_no_call; exact H|].
  revert H. unfold POST.
  destruct (authInfo request) as [[[[|n name]|]]|];
    try (intros _; cbn; tauto).
  destruct (getConfig server) as [adminConfig|];
    try (cbn; intros [H|[H|[H _]]]; discriminate H).
  destruct (AIConfig_ adminConfig) as [aiConfig|]; try (intros _; cbn; tauto).
  destruct (Enabled aiConfig); try (intros _; cbn; tauto).
  destruct (roleAllowed server aiConfig (n :: name)) as [[|]|];
    try (intros _; cbn; tauto);
    try (cbn; intros [H|[H|[H _]]]; discriminate H).
  destruct (body request) as [req|];
    try (cbn; intros [H|[H|[H _]]]; discriminate H).
  destruct (message req) as [| | | |[|m msg]| | |]; try (intros _; cbn; tauto).
  intro H. exfalso. revert H. apply answer_responses.
Qed.

Lemma POST_gate_errors_cost_nothing_witness :
  calls (POST server_without_key
           (mkRequest None (Fulfilled (mkChatRequest (VStr message_C) None []))))
  = []
  /\ In (match result (POST server_without_key
                         (mkRequest None
                            (Fulfilled (mkChatRequest (VStr message_C) None []))))
         with
         | JsonError status error => (status, error)
         | EventStream _ => (200, [])
         end)
        (firstn 4 POST_errors).
Proof.
  apply POST_gate_errors_cost_nothing. cbn. left. reflexivity.
Defined.


(** ** Encoding and decoding round trips *)

Lemma all_in_range_spec (p : N -> bool) (bits : nat) (base : N) :
  all_in_range bits base p = true ->
  forall c, base <= c -> c < base + 2 ^ N.of_nat bits -> p c = true.
Proof.
  revert base. induction bits as [|b IH]; intros base H c Hlo Hhi.
  - cbn in H, Hhi. assert (c = base) by lia. subst c. exact H.
  - cbn [all_in_range] in H. apply andb_true_iff in H as [H1 H2].
    rewrite Nat2N.inj_succ, N.pow_succ_r' in Hhi.
    destruct (N.lt_ge_cases c (base + 2 ^ N.of_nat b)) as [Hc|Hc].
    + apply (IH base H1 c Hlo Hc).
    + apply (IH _ H2 c Hc). lia.
Qed.

(** *** Bits as arithmetic *)

Lemma land_shiftl_low (a lo k : N) :
  lo < 2 ^ k -> N.land (N.shiftl a k) lo = 0.
Proof.
  intro H. apply N.bits_inj. intro n. rewrite N.land_spec, N.bits_0.
  destruct (N.lt_ge_cases n k) as [Hn|Hn].
  - rewrite N.shiftl_spec_low by assumption. reflexivity.
  - rewrite <- (N.mod_small lo (2 ^ k)) by assumption.
    rewrite N.mod_pow2_bits_high by assumption. apply andb_false_r.
Qed.

Lemma lor_shiftl (a lo k : N) :
  lo < 2 ^ k -> N.lor (N.shiftl a k) lo = a * 2 ^ k + lo.
Proof.
  intro H. rewrite <- N.lxor_lor by (apply land_shiftl_low; exact H).
  rewrite <- N.add_nocarry_lxor by (apply land_shiftl_low; exact H).
  rewrite N.shiftl_mul_pow2. reflexivity.
Qed.

Lemma shiftr_6 (x : N) : N.shiftr x 6 = x / 64.
Proof. rewrite N.shiftr_div_pow2. reflexivity. Qed.

Lemma shiftr_12 (x : N) : N.shiftr x 12 = x / 64 / 64.
Proof.
  change 12 with (6 + 6). rewrite <- N.shiftr_shiftr, !shiftr_6. reflexivity.
Qed.

Lemma shiftr_18 (x : N) : N.shiftr x 18 = x / 64 / 64 / 64.
Proof.
  change 18 with (12 + 6). rewrite <- N.shiftr_shiftr, shiftr_12, shiftr_6.
  reflexivity.
Qed.

Lemma land_63 (x : N) : N.land x 63 = x mod 64.
Proof. change 63 with (N.ones 6). rewrite N.land_ones. reflexivity. Qed.

Lemma mod_above (base lo m k : N) :
  m <> 0 -> base = k * m -> lo < m -> (base + lo) mod m = lo.
Proof.
  intros Hm -> Hlo. rewrite N.add_comm, N.Div0.mod_add.
  apply N.mod_small. exact Hlo.
Qed.

Lemma to_N_byte_of_N (n : N) : n < 256 -> Byte.to_N (byte_of_N n) = n.
Proof.
  intro H. unfold byte_of_N. rewrite (N.mod_small n 256 H).
  destruct (Byte.of_N n) as [b|] eqn:E.
  - apply Byte.to_of_N. exact E.
  - apply Byte.of_N_None_iff in E. lia.
Qed.

(** *** The UTF-8 decoder on what the encoder writes *)

Lemma utf8_step_ascii (c : N) :
  c < 128 -> utf8_step utf8_init (byte_of_N c) = (utf8_init, [c]).
Proof.
  intro H. unfold utf8_step. rewrite to_N_byte_of_N by lia.
  unfold utf8_handler. cbn [u_needed utf8_init N.eqb].
  destruct (N.leb_spec c 127); [reflexivity | lia].
Qed.

Lemma utf8_step_lead2 (h : N) :
  2 <= h -> h < 32 ->
  utf8_step utf8_init (byte_of_N (192 + h))
  = (mkUtf8State h 0 1 128 191, []).
Proof.
  intros H1 H2. unfold utf8_step. rewrite to_N_byte_of_N by lia.
  unfold utf8_handler. cbn [u_needed utf8_init N.eqb].
  destruct (N.leb_spec (192 + h) 127); [lia|].
  destruct (N.leb_spec 194 (192 + h)); [|lia].
  destruct (N.leb_spec (192 + h) 223); [|lia].
  cbn [andb]. change 31 with (N.ones 5). rewrite N.land_ones.
  rewrite (mod_above 192 h (2 ^ 5) 6) by (cbn; lia). reflexivity.
Qed.

Lemma utf8_step_lead3 (h : N) :
  h < 16 ->
  utf8_step utf8_init (byte_of_N (224 + h))
  = (mkUtf8State h 0 2 (if h =? 0 then 160 else 128)
                       (if h =? 13 then 159 else 191), []).
Proof.
  intro H. unfold utf8_step. rewrite to_N_byte_of_N by lia.
  unfold utf8_handler. cbn [u_needed utf8_init N.eqb].
  destruct (N.leb_spec (224 + h) 127); [lia|].
  destruct (N.leb_spec (224 + h) 223); [lia|].
  rewrite andb_false_r.
  destruct (N.leb_spec 224 (224 + h)); [|lia].
  destruct (N.leb_spec (224 + h) 239); [|lia].
  cbn [andb]. change 15 with (N.ones 4). rewrite N.land_ones.
  rewrite (mod_above 224 h (2 ^ 4) 14) by (cbn; lia).
  destruct (N.eqb_spec (224 + h) 224), (N.eqb_spec h 0); try lia;
    destruct (N.eqb_spec (224 + h) 237), (N.eqb_spec h 13); try lia;
    reflexivity.
Qed.

Lemma utf8_step_lead4 (h : N) :
  h <= 4 ->
  utf8_step utf8_init (byte_of_N (240 + h))
  = (mkUtf8State h 0 3 (if h =? 0 then 144 else 128)
                       (if h =? 4 then 143 else 191), []).
Proof.
  intro H. unfold utf8_step. rewrite to_N_byte_of_N by lia.
  unfold utf8_handler. cbn [u_needed utf8_init N.eqb].
  destruct (N.leb_spec (240 + h) 127); [lia|].
  destruct (N.leb_spec (240 + h) 223); [lia|].
  rewrite andb_false_r.
  destruct (N.leb_spec (240 + h) 239); [lia|].
  rewrite andb_false_r.
  destruct (N.leb_spec 240 (240 + h)); [|lia].
  destruct (N.leb_spec (240 + h) 244); [|lia].
  cbn [andb]. change 7 with (N.ones 3). rewrite N.land_ones.
  rewrite (mod_above 240 h (2 ^ 3) 30) by (cbn; lia).
  destruct (N.eqb_spec (240 + h) 240), (N.eqb_spec h 0); try lia;
    destruct (N.eqb_spec (240 + h) 244), (N.eqb_spec h 4); try lia;
    reflexivity.
Qed.

Lemma utf8_step_continuation (c s n lower upper lo : N) :
  n <> 0 -> lo < 64 -> lower <= 128 + lo -> 128 + lo <= upper ->
  utf8_step (mkUtf8State c s n lower upper) (byte_of_N (128 + lo))
  = if s + 1 =? n then (utf8_init, [c * 64 + lo])
    else (mkUtf8State (c * 64 + lo) (s + 1) n 128 191, []).
Proof.
  intros Hn Hlo Hl Hu. unfold utf8_step. rewrite to_N_byte_of_N by lia.
  unfold utf8_handler. cbn [u_needed u_lower u_upper u_cp u_seen].
  destruct (N.eqb_spec n 0); [contradiction|].
  destruct (N.leb_spec lower (128 + lo)); [|lia].
  destruct (N.leb_spec (128 + lo) upper); [|lia].
  cbn [andb negb]. rewrite land_63.
  rewrite (mod_above 128 lo 64 2) by lia.
  rewrite (lor_shiftl c lo 6) by (cbn; lia).
  change (2 ^ 6) with 64.
  destruct (s + 1 =? n); reflexivity.
Qed.

Lemma utf8_step_more (c s n lower upper lo : N) :
  n <> 0 -> lo < 64 -> lower <= 128 + lo -> 128 + lo <= upper -> s + 1 <> n ->
  utf8_step (mkUtf8State c s n lower upper) (byte_of_N (128 + lo))
  = (mkUtf8State (c * 64 + lo) (s + 1) n 128 191, []).
Proof.
  intros Hn Hlo Hl Hu Hs. rewrite utf8_step_continuation by assumption.
  destruct (N.eqb_spec (s + 1) n); [contradiction | reflexivity].
Qed.

Lemma utf8_step_last (c s n lower upper lo : N) :
  n <> 0 -> lo < 64 -> lower <= 128 + lo -> 128 + lo <= upper -> s + 1 = n ->
  utf8_step (mkUtf8State c s n lower upper) (byte_of_N (128 + lo))
  = (utf8_init, [c * 64 + lo]).
Proof.
  intros Hn Hlo Hl Hu Hs. rewrite utf8_step_continuation by assumption.
  destruct (N.eqb_spec (s + 1) n); [reflexivity | contradiction].
Qed.

Ltac digits cp :=
  pose proof (N.div_mod' cp 64);
  pose proof (N.mod_lt cp 64 ltac:(lia));
  pose proof (N.div_mod' (cp / 64) 64);
  pose proof (N.mod_lt (cp / 64) 64 ltac:(lia));
  pose proof (N.div_mod' (cp / 64 / 64) 64);
  pose proof (N.mod_lt (cp / 64 / 64) 64 ltac:(lia));
  pose proof (N.le_0_l (cp mod 64));
  pose proof (N.le_0_l (cp / 64));
  pose proof (N.le_0_l ((cp / 64) mod 64));
  pose proof (N.le_0_l (cp / 64 / 64));
  pose proof (N.le_0_l ((cp / 64 / 64) mod 64));
  pose proof (N.le_0_l (cp / 64 / 64 / 64)).

Lemma utf8_round_trip (cp : codepoint) :
  is_scalar_value cp = true ->
  utf8_run utf8_init (utf8_encode_cp cp) = (utf8_init, [cp]).
Proof.
  unfold is_scalar_value. intro H. apply andb_true_iff in H as [Hmax Hsur].
  apply N.ltb_lt in Hmax. apply negb_true_iff in Hsur.
  unfold utf8_encode_cp. digits cp.
  destruct (N.ltb_spec cp 128).
  { cbn [utf8_run]. rewrite utf8_step_ascii by assumption. reflexivity. }
  rewrite ?shiftr_6, ?shiftr_12, ?shiftr_18, ?land_63.
  destruct (N.ltb_spec cp 2048).
  { cbn [utf8_run]. rewrite utf8_step_lead2 by lia.
    rewrite utf8_step_last by lia.
    cbn [app]. f_equal. f_equal. lia. }
  destruct (N.ltb_spec cp 65536).
  { cbn [utf8_run]. rewrite utf8_step_lead3 by lia.
    assert (Hnot : cp < 55296 \/ 57343 < cp).
    { destruct (N.leb_spec 55296 cp); [|lia].
      destruct (N.leb_spec cp 57343); [discriminate Hsur | lia]. }
    rewrite utf8_step_more;
      try (destruct (N.eqb_spec (cp / 64 / 64) 0);
           destruct (N.eqb_spec (cp / 64 / 64) 13); lia).
    rewrite utf8_step_last by lia.
    cbn [app]. f_equal. f_equal. lia. }
  cbn [utf8_run].
  pose proof (N.div_mod' (cp / 64 / 64 / 64) 64).
  pose proof (N.le_0_l ((cp / 64 / 64 / 64) mod 64)).
  pose proof (N.le_0_l (cp / 64 / 64 / 64 / 64)).
  rewrite utf8_step_lead4 by lia.
  rewrite utf8_step_more;
    try (destruct (N.eqb_spec (cp / 64 / 64 / 64) 0);
         destruct (N.eqb_spec (cp / 64 / 64 / 64) 4); lia).
  rewrite utf8_step_more by lia.
  rewrite utf8_step_last by lia.
  cbn [app]. f_equal. f_equal. lia.
Qed.

(** *** UTF-16 *)

Lemma surrogate_pair_round_trip (c d : N) :
  is_high_surrogate c = true -> is_low_surrogate d = true ->
  is_scalar_value (65536 + N.shiftl (c - 55296) 10 + (d - 56320)) = true
  /\ utf16_encode_cp (65536 + N.shiftl (c - 55296) 10 + (d - 56320)) = [c; d].
Proof.
  unfold is_high_surrogate, is_low_surrogate. intros Hc Hd.
  apply andb_true_iff in Hc as [Hc1 Hc2]. apply andb_true_iff in Hd as [Hd1 Hd2].
  apply N.leb_le in Hc1, Hc2, Hd1, Hd2.
  rewrite N.shiftl_mul_pow2. change (2 ^ 10) with 1024.
  set (x := c - 55296). set (y := d - 56320).
  assert (Hx : x < 1024) by (subst x; lia).
  assert (Hy : y < 1024) by (subst y; lia).
  split.
  - unfold is_scalar_value.
    destruct (N.ltb_spec (65536 + x * 1024 + y) 1114112); [|lia].
    destruct (N.leb_spec 55296 (65536 + x * 1024 + y)); [|reflexivity].
    destruct (N.leb_spec (65536 + x * 1024 + y) 57343); [lia | reflexivity].
  - unfold utf16_encode_cp.
    destruct (N.ltb_spec (65536 + x * 1024 + y) 65536); [lia|].
    replace (65536 + x * 1024 + y - 65536) with (y + x * 1024) by lia.
    rewrite N.shiftr_div_pow2. change (2 ^ 10) with 1024.
    rewrite N.div_add by lia. rewrite (N.div_small y 1024 Hy).
    change 1023 with (N.ones 10). rewrite N.land_ones. change (2 ^ 10) with 1024.
    rewrite N.Div0.mod_add. rewrite (N.mod_small y 1024 Hy).
    f_equal; [|f_equal]; subst x y; lia.
Qed.

Lemma unit_round_trip (c : N) :
  is_high_surrogate c = false -> is_low_surrogate c = false -> c < 65536 ->
  is_scalar_value c = true /\ utf16_encode_cp c = [c].
Proof.
  unfold is_high_surrogate, is_low_surrogate, is_scalar_value, utf16_encode_cp.
  intros Hh Hl Hc.
  destruct (N.ltb_spec c 65536); [|lia].
  destruct (N.ltb_spec c 1114112); [|lia].
  split; [|reflexivity].
  destruct (N.leb_spec 55296 c); [|reflexivity].
  destruct (N.leb_spec c 57343); [|reflexivity].
  destruct (N.leb_spec c 56319); [discriminate Hh|].
  destruct (N.leb_spec 56320 c); [discriminate Hl | lia].
Qed.

(** What [scalar_text] says of a text that is not empty. *)
Lemma scalar_text_cons (c : N) (s : jsstring) :
  scalar_text (c :: s) = true ->
  (is_high_surrogate c = true
   /\ exists d s', s = d :: s' /\ is_low_surrogate d = true
                   /\ scalar_text s' = true)
  \/ (is_high_surrogate c = false /\ is_low_surrogate c = false
      /\ c < 65536 /\ scalar_text s = true).
Proof.
  unfold scalar_text. cbn [isWellFormed valid_units forallb].
  intro H. apply andb_true_iff in H as [Hw Hv].
  apply andb_true_iff in Hv as [Hc Hv]. apply N.ltb_lt in Hc.
  destruct (is_high_surrogate c).
  - left. split; [reflexivity|].
    destruct s as [|d s']; [discriminate Hw|].
    apply andb_true_iff in Hw as [Hd Hw].
    cbn [forallb] in Hv. apply andb_true_iff in Hv as [_ Hv].
    exists d, s'. split; [reflexivity|]. split; [exact Hd|].
    rewrite Hw. exact Hv.
  - right. apply andb_true_iff in Hw as [Hl Hw].
    apply negb_true_iff in Hl.
    split; [reflexivity|]. split; [exact Hl|]. split; [exact Hc|].
    rewrite Hw. exact Hv.
Qed.

(** Induction on a text, one character (one or two code units) at a
    time. *)
Lemma scalar_text_ind (P : jsstring -> Prop) :
  P [] ->
  (forall c d s, is_high_surrogate c = true -> is_low_surrogate d = true ->
                 scalar_text s = true -> P s -> P (c :: d :: s)) ->
  (forall c s, is_high_surrogate c = false -> is_low_surrogate c = false ->
               c < 65536 -> scalar_text s = true -> P s -> P (c :: s)) ->
  forall s, scalar_text s = true -> P s.
Proof.
  intros Hnil Hpair Hunit s.
  assert (H : forall n s, (length s <= n)%nat -> scalar_text s = true -> P s).
  { clear s. induction n as [|n IH]; intros s Hlen Hs.
    - destruct s; [exact Hnil | cbn in Hlen; lia].
    - destruct s as [|c s]; [exact Hnil|].
      destruct (scalar_text_cons c s Hs)
        as [(Hc & d & s' & -> & Hd & Hs') | (Hh & Hl & Hc & Hs')].
      + apply Hpair; try assumption. apply IH; [cbn in Hlen; lia | exact Hs'].
      + apply Hunit; try assumption. apply IH; [cbn in Hlen; lia | exact Hs']. }
  apply (H (length s)). lia.
Qed.

Lemma utf16_decode_pair (c d : N) (s : jsstring) :
  is_high_surrogate c = true -> is_low_surrogate d = true ->
  utf16_decode (c :: d :: s)
  = (65536 + N.shiftl (c - 55296) 10 + (d - 56320)) :: utf16_decode s.
Proof. intros Hc Hd. cbn [utf16_decode]. rewrite Hc, Hd. reflexivity. Qed.

Lemma utf16_decode_unit (c : N) (s : jsstring) :
  is_high_surrogate c = false -> is_low_surrogate c = false ->
  utf16_decode (c :: s) = c :: utf16_decode s.
Proof. intros Hc Hd. cbn [utf16_decode]. rewrite Hc, Hd. reflexivity. Qed.

Lemma utf16_round_trip (s : jsstring) :
  scalar_text s = true ->
  utf16_encode (utf16_decode s) = s
  /\ forallb is_scalar_value (utf16_decode s) = true.
Proof.
  revert s. apply scalar_text_ind.
  - split; reflexivity.
  - intros c d s Hc Hd _ [IH1 IH2].
    rewrite (utf16_decode_pair c d s Hc Hd).
    destruct (surrogate_pair_round_trip c d Hc Hd) as [Hs He].
    unfold utf16_encode in *. cbn [flat_map forallb].
    rewrite He, IH1, Hs, IH2. split; reflexivity.
  - intros c s Hh Hl Hc _ [IH1 IH2].
    rewrite (utf16_decode_unit c s Hh Hl).
    destruct (unit_round_trip c Hh Hl Hc) as [Hs He].
    unfold utf16_encode in *. cbn [flat_map forallb].
    rewrite He, IH1, Hs, IH2. split; reflexivity.
Qed.

Lemma utf16_decode_app (a b : jsstring) :
  scalar_text a = true ->
  utf16_decode (a ++ b) = utf16_decode a ++ utf16_decode b.
Proof.
  revert a. apply scalar_text_ind.
  - reflexivity.
  - intros c d s Hc Hd _ IH. cbn [app].
    rewrite !(utf16_decode_pair c d _ Hc Hd), IH. reflexivity.
  - intros c s Hh Hl _ _ IH. cbn [app].
    rewrite !(utf16_decode_unit c _ Hh Hl), IH. reflexivity.
Qed.

Lemma scalar_text_app (a b : jsstring) :
  scalar_text a = true -> scalar_text b = true -> scalar_text (a ++ b) = true.
Proof.
  intros Ha Hb. revert a Ha. apply scalar_text_ind.
  - exact Hb.
  - intros c d s Hc Hd _ IH. cbn [app].
    unfold scalar_text in *. cbn [isWellFormed valid_units forallb].
    rewrite Hc, Hd. cbn [andb].
    apply andb_true_iff in IH as [IH1 IH2]. rewrite IH1.
    unfold valid_units in IH2. rewrite IH2.
    unfold is_high_surrogate in Hc. unfold is_low_surrogate in Hd.
    apply andb_true_iff in Hc as [_ Hc]. apply andb_true_iff in Hd as [_ Hd].
    apply N.leb_le in Hc, Hd.
    destruct (N.ltb_spec c 65536); [|lia].
    destruct (N.ltb_spec d 65536); [|lia]. reflexivity.
  - intros c s Hh Hl Hc _ IH. cbn [app].
    unfold scalar_text in *. cbn [isWellFormed valid_units forallb].
    rewrite Hh, Hl. cbn [negb andb].
    apply andb_true_iff in IH as [IH1 IH2]. rewrite IH1.
    unfold valid_units in IH2. rewrite IH2.
    destruct (N.ltb_spec c 65536); [|lia]. reflexivity.
Qed.

Lemma TextEncoder_encode_app (a b : jsstring) :
  scalar_text a = true ->
  TextEncoder_encode (a ++ b) = TextEncoder_encode a ++ TextEncoder_encode b.
Proof.
  intro H. unfold TextEncoder_encode.
  rewrite (utf16_decode_app a b H). apply flat_map_app.
Qed.

Lemma utf8_run_scalars (cps : list codepoint) :
  forallb is_scalar_value cps = true ->
  utf8_run utf8_init (flat_map utf8_encode_cp cps) = (utf8_init, cps).
Proof.
  induction cps as [|cp cps IH]; intro H; [reflexivity|].
  cbn [forallb] in H. apply andb_true_iff in H as [Hcp H].
  cbn [flat_map]. rewrite utf8_run_app, (utf8_round_trip cp Hcp).
  cbn [fst snd]. rewrite (IH H). reflexivity.
Qed.

(** [TextEncoder] then the UTF-8 decoder: the code points of the text. *)
Lemma utf8_run_encoded (t : jsstring) :
  scalar_text t = true ->
  utf8_run utf8_init (TextEncoder_encode t) = (utf8_init, utf16_decode t).
Proof.
  intro H. unfold TextEncoder_encode. apply utf8_run_scalars.
  apply (utf16_round_trip t H).
Qed.

(** A text that starts with a letter, encoded by [TextEncoder] and decoded
    by a [TextDecoder] that has no byte pending: the text again. *)
Lemma TextDecoder_decode_encoded (d : TextDecoder) (c : N) (t : jsstring) :
  td_utf8 d = utf8_init -> c < 128 -> scalar_text (c :: t) = true ->
  TextDecoder_decode d (TextEncoder_encode (c :: t))
  = (decoder_at_line_start, c :: t).
Proof.
  intros Hd Hc Ht. unfold TextDecoder_decode.
  rewrite Hd, (utf8_run_encoded _ Ht).
  assert (Hh : is_high_surrogate c = false).
  { unfold is_high_surrogate. destruct (N.leb_spec 55296 c); [lia | reflexivity]. }
  assert (Hl : is_low_surrogate c = false).
  { unfold is_low_surrogate. destruct (N.leb_spec 56320 c); [lia | reflexivity]. }
  pose proof (proj1 (utf16_round_trip _ Ht)) as Hrt.
  rewrite (utf16_decode_unit c t Hh Hl) in *.
  unfold serialize_queue.
  destruct (td_bom_seen d).
  - rewrite Hrt. reflexivity.
  - destruct (N.eqb_spec c 65279); [lia|]. rewrite Hrt. reflexivity.
Qed.

(** *** JSON strings *)

Lemma printable_text (t : jsstring) :
  forallb (fun x => (32 <=? x) && (x <? 128)) t = true ->
  scalar_text t = true /\ existsb (N.eqb nl) t = false.
Proof.
  induction t as [|x t IH]; intro H; [split; reflexivity|].
  cbn [forallb] in H. apply andb_true_iff in H as [Hx H].
  apply andb_true_iff in Hx as [Hx1 Hx2].
  apply N.leb_le in Hx1. apply N.ltb_lt in Hx2.
  destruct (IH H) as [IH1 IH2]. split.
  - change (x :: t) with ([x] ++ t). apply scalar_text_app; [|exact IH1].
    unfold scalar_text, is_high_surrogate, is_low_surrogate.
    cbn [isWellFormed valid_units forallb].
    unfold is_high_surrogate, is_low_surrogate.
    destruct (N.leb_spec 55296 x); [lia|].
    destruct (N.leb_spec 56320 x); [lia|].
    destruct (N.ltb_spec x 65536); [reflexivity | lia].
  - cbn [existsb]. rewrite IH2. unfold nl.
    destruct (N.eqb_spec 10 x); [lia | reflexivity].
Qed.

Lemma hex_digit_printable (n : N) :
  n < 16 -> (32 <=? hex_digit n) && (hex_digit n <? 128) = true.
Proof.
  intro H. unfold hex_digit. destruct (N.ltb_spec n 10).
  - destruct (N.leb_spec 32 (48 + n)); [|lia].
    destruct (N.ltb_spec (48 + n) 128); [reflexivity | lia].
  - destruct (N.leb_spec 32 (87 + n)); [|lia].
    destruct (N.ltb_spec (87 + n) 128); [reflexivity | lia].
Qed.

Lemma hex_escape_printable (c : N) :
  forallb (fun x => (32 <=? x) && (x <? 128)) ([92; 117] ++ hex4 c) = true.
Proof.
  unfold hex4. cbn [app forallb].
  rewrite !hex_digit_printable by (apply N.mod_lt; lia). reflexivity.
Qed.

Lemma hex_round_trip_checked : all_in_range 16 0 hex_round_trip_at = true.
Proof. vm_compute. reflexivity. Qed.

Lemma hex_round_trip (c : N) :
  c < 65536 ->
  hex4_value (hex_digit (N.shiftr c 12 mod 16)) (hex_digit (N.shiftr c 8 mod 16))
             (hex_digit (N.shiftr c 4 mod 16)) (hex_digit (c mod 16))
  = Some c.
Proof.
  intro H.
  pose proof (all_in_range_spec _ _ _ hex_round_trip_checked c (N.le_0_l c) H)
    as Hc.
  unfold hex_round_trip_at, hex4 in Hc.
  destruct (hex4_value _ _ _ _) as [u|]; [|discriminate Hc].
  apply N.eqb_eq in Hc. subst u. reflexivity.
Qed.

Lemma parse_string_body_plain (c : N) (X : jsstring) :
  32 <= c -> c <> 34 -> c <> 92 ->
  parse_string_body (c :: X)
  = match parse_string_body X with
    | Some (body, r) => Some (c :: body, r)
    | None => None
    end.
Proof.
  intros H1 H2 H3. cbn [parse_string_body].
  destruct (N.eqb_spec c 34); [contradiction|].
  destruct (N.ltb_spec c 32); [lia|].
  destruct (N.eqb_spec c 92); [contradiction|].
  reflexivity.
Qed.

Lemma parse_string_body_hex (c : N) (X : jsstring) :
  c < 65536 ->
  parse_string_body (([92; 117] ++ hex4 c) ++ X)
  = match parse_string_body X with
    | Some (body, r) => Some (c :: body, r)
    | None => None
    end.
Proof.
  intro H. unfold hex4. cbn [app].
  change (parse_string_body (92 :: 117 :: ?h1 :: ?h2 :: ?h3 :: ?h4 :: X))
    with (match hex4_value h1 h2 h3 h4 with
          | Some u =>
              match parse_string_body X with
              | Some (body, r) => Some (u :: body, r)
              | None => None
              end
          | None => None
          end).
  rewrite (hex_round_trip c H). reflexivity.
Qed.

Lemma quote_units_cons (c : N) (rest : jsstring) :
  quote_units (c :: rest)
  = if c =? 8 then [92; 98] ++ quote_units rest
    else if c =? 9 then [92; 116] ++ quote_units rest
    else if c =? 10 then [92; 110] ++ quote_units rest
    else if c =? 12 then [92; 102] ++ quote_units rest
    else if c =? 13 then [92; 114] ++ quote_units rest
    else if c =? 34 then [92; 34] ++ quote_units rest
    else if c =? 92 then [92; 92] ++ quote_units rest
    else if c <? 32 then ([92; 117] ++ hex4 c) ++ quote_units rest
    else if is_high_surrogate c then
      match rest with
      | d :: rest' =>
          if is_low_surrogate d then [c; d] ++ quote_units rest'
          else ([92; 117] ++ hex4 c) ++ quote_units rest
      | [] => ([92; 117] ++ hex4 c) ++ quote_units []
      end
    else if is_low_surrogate c then ([92; 117] ++ hex4 c) ++ quote_units rest
    else [c] ++ quote_units rest.
Proof.
  cbn [quote_units].
  repeat match goal with
         | |- context [if ?b then _ else _] => destruct b; [reflexivity|]
         end.
  reflexivity.
Qed.

Ltac escaped_as piece c rest E :=
  exists piece, [c], rest;
  split; [reflexivity|];
  split; [cbn [length]; lia|];
  split; [exact E|];
  split; [intro X; reflexivity|];
  split; [reflexivity | intros _; reflexivity].

Lemma hex_escape_step (c : N) (rest : jsstring) :
  c < 65536 ->
  quote_units (c :: rest) = ([92; 117] ++ hex4 c) ++ quote_units rest ->
  exists piece consumed rest',
    c :: rest = consumed ++ rest'
    /\ (length rest' < length (c :: rest))%nat
    /\ quote_units (c :: rest) = piece ++ quote_units rest'
    /\ (forall X,
          parse_string_body (piece ++ X)
          = match parse_string_body X with
            | Some (body, r) => Some (consumed ++ body, r)
            | None => None
            end)
    /\ existsb (N.eqb nl) piece = false
    /\ (valid_units consumed = true -> scalar_text piece = true).
Proof.
  intros Hc E. exists ([92; 117] ++ hex4 c), [c], rest.
  split; [reflexivity|].
  split; [cbn [length]; lia|].
  split; [exact E|].
  split; [intro X; apply parse_string_body_hex; exact Hc|].
  destruct (printable_text _ (hex_escape_printable c)) as [Hs Hn].
  split; [exact Hn | intros _; exact Hs].
Qed.

(** One character of a string through [QuoteJSONString]: what is written
    for it is read back as the character, holds no line feed, and is text
    that [TextEncoder] keeps. *)
Lemma quote_units_step (c : N) (rest : jsstring) :
  exists piece consumed rest',
    c :: rest = consumed ++ rest'
    /\ (length rest' < length (c :: rest))%nat
    /\ quote_units (c :: rest) = piece ++ quote_units rest'
    /\ (forall X,
          parse_string_body (piece ++ X)
          = match parse_string_body X with
            | Some (body, r) => Some (consumed ++ body, r)
            | None => None
            end)
    /\ existsb (N.eqb nl) piece = false
    /\ (valid_units consumed = true -> scalar_text piece = true).
Proof.
  pose proof (quote_units_cons c rest) as E.
  destruct (N.eqb_spec c 8) as [->|H8]; [escaped_as [92; 98] 8 rest E|].
  destruct (N.eqb_spec c 9) as [->|H9]; [escaped_as [92; 116] 9 rest E|].
  destruct (N.eqb_spec c 10) as [->|H10]; [escaped_as [92; 110] 10 rest E|].
  destruct (N.eqb_spec c 12) as [->|H12]; [escaped_as [92; 102] 12 rest E|].
  destruct (N.eqb_spec c 13) as [->|H13]; [escaped_as [92; 114] 13 rest E|].
  destruct (N.eqb_spec c 34) as [->|H34]; [escaped_as [92; 34] 34 rest E|].
  destruct (N.eqb_spec c 92) as [->|H92]; [escaped_as [92; 92] 92 rest E|].
  destruct (N.ltb_spec c 32) as [H32|H32].
  { apply hex_escape_step; [lia | exact E]. }
  destruct (is_high_surrogate c) eqn:Hh.
  { assert (Hc : 55296 <= c /\ c <= 56319).
    { unfold is_high_surrogate in Hh. apply andb_true_iff in Hh as [A B].
      apply N.leb_le in A, B. split; assumption. }
    destruct rest as [|d rest'].
    { cbn [quote_units] in E. rewrite app_nil_r in E.
      exists ([92; 117] ++ hex4 c), [c], [].
      split; [reflexivity|].
      split; [cbn [length]; lia|].
      split; [cbn [quote_units]; rewrite app_nil_r; exact E|].
      split; [intro X; apply parse_string_body_hex; lia|].
      destruct (printable_text _ (hex_escape_printable c)) as [Hs Hn].
      split; [exact Hn | intros _; exact Hs]. }
    destruct (is_low_surrogate d) eqn:Hl.
    2: { apply hex_escape_step; [lia | exact E]. }
    assert (Hd : 56320 <= d /\ d <= 57343).
    { unfold is_low_surrogate in Hl. apply andb_true_iff in Hl as [A B].
      apply N.leb_le in A, B. split; assumption. }
    exists [c; d], [c; d], rest'.
    split; [reflexivity|].
    split; [cbn [length]; lia|].
    split; [exact E|].
    split.
    { intro X. cbn [app].
      rewrite (parse_string_body_plain c) by lia.
      rewrite (parse_string_body_plain d) by lia.
      destruct (parse_string_body X) as [[body r]|]; reflexivity. }
    split.
    { cbn [existsb]. unfold nl.
      destruct (N.eqb_spec 10 c); [lia|].
      destruct (N.eqb_spec 10 d); [lia | reflexivity]. }
    intros _. unfold scalar_text. cbn [isWellFormed valid_units forallb].
    rewrite Hh, Hl.
    destruct (N.ltb_spec c 65536); [|lia].
    destruct (N.ltb_spec d 65536); [reflexivity | lia]. }
  destruct (is_low_surrogate c) eqn:Hl.
  { apply hex_escape_step; [|exact E].
    unfold is_low_surrogate in Hl. apply andb_true_iff in Hl as [_ B].
    apply N.leb_le in B. lia. }
  exists [c], [c], rest.
  split; [reflexivity|].
  split; [cbn [length]; lia|].
  split; [exact E|].
  split; [intro X; apply parse_string_body_plain; assumption|].
  split.
  { cbn [existsb]. unfold nl.
    destruct (N.eqb_spec 10 c); [congruence | reflexivity]. }
  intro Hv. unfold scalar_text. cbn [isWellFormed].
  rewrite Hh, Hl, Hv. reflexivity.
Qed.

Lemma quote_units_facts (s : jsstring) :
  (forall rest, parse_string_body (quote_units s ++ 34 :: rest) = Some (s, rest))
  /\ existsb (N.eqb nl) (quote_units s) = false
  /\ (valid_units s = true -> scalar_text (quote_units s) = true).
Proof.
  assert (H : forall n s, (length s <= n)%nat ->
    (forall rest, parse_string_body (quote_units s ++ 34 :: rest) = Some (s, rest))
    /\ existsb (N.eqb nl) (quote_units s) = false
    /\ (valid_units s = true -> scalar_text (quote_units s) = true)).
  { clear s. induction n as [|n IH]; intros s Hlen.
    - destruct s; [|cbn in Hlen; lia].
      split; [intro rest; reflexivity|]. split; [reflexivity | intros _; reflexivity].
    - destruct s as [|c s].
      { split; [intro rest; reflexivity|].
        split; [reflexivity | intros _; reflexivity]. }
      destruct (quote_units_step c s)
        as (piece & consumed & rest' & Hsplit & Hshort & Hq & Hparse & Hnl & Hsc).
      destruct (IH rest') as (IHp & IHn & IHs); [cbn [length] in *; lia|].
      rewrite Hq, Hsplit. split; [|split].
      + intro rest. rewrite <- app_assoc, Hparse, IHp. reflexivity.
      + rewrite existsb_app, Hnl, IHn. reflexivity.
      + intro Hv. unfold valid_units in Hv. rewrite forallb_app in Hv.
        apply andb_true_iff in Hv as [Hv1 Hv2].
        apply scalar_text_app; [apply Hsc; exact Hv1 | apply IHs; exact Hv2]. }
  apply (H (length s)). lia.
Qed.


(** ** From the upstream model to the chat panel *)

(** The text of a normalized event. *)
Lemma JSON_stringify_text (s : jsstring) :
  JSON_stringify (VObj [(u16 "text", VStr s)])
  = Some ([123; 34; 116; 101; 120; 116; 34; 58; 34] ++ quote_units s ++ [34; 125]).
Proof.
  transitivity
    (Some ([123; 34; 116; 101; 120; 116; 34; 58; 34]
             ++ (quote_units s ++ [34]) ++ [125])); [reflexivity|].
  rewrite <- app_assoc. reflexivity.
Qed.

Lemma JSON_parse_text (s : jsstring) :
  JSON_parse ([123; 34; 116; 101; 120; 116; 34; 58; 34] ++ quote_units s ++ [34; 125])
  = Some (VObj [(u16 "text", VStr s)]).
Proof.
  apply (JSON_parse_fuel_enough 3 _ []); [|reflexivity].
  cbn.
  rewrite (proj1 (quote_units_facts s) [125]). reflexivity.
Qed.

Lemma u16_text_open : [123; 34; 116; 101; 120; 116; 34; 58; 34] = u16q "{'text':'".
Proof. vm_compute. reflexivity. Qed.

(** The line of a normalized event. *)
Lemma text_event_line (s : jsstring) :
  text_event (VStr s)
  = TextEncoder_encode
      ((u16 "data: " ++ [123; 34; 116; 101; 120; 116; 34; 58; 34]
          ++ quote_units s ++ [34; 125]) ++ [nl; nl]).
Proof.
  unfold text_event. rewrite JSON_stringify_text, <- app_assoc. reflexivity.
Qed.

Lemma event_line_facts (s : jsstring) :
  let line := u16 "data: " ++ [123; 34; 116; 101; 120; 116; 34; 58; 34]
                ++ quote_units s ++ [34; 125] in
  existsb (N.eqb nl) line = false
  /\ (valid_units s = true -> scalar_text line = true).
Proof.
  cbv zeta. destruct (quote_units_facts s) as (_ & Hn & Hs). split.
  - rewrite !existsb_app, Hn. reflexivity.
  - intro Hv.
    apply scalar_text_app; [reflexivity|].
    apply scalar_text_app; [reflexivity|].
    apply scalar_text_app; [apply Hs; exact Hv | reflexivity].
Qed.

(** A chunk that is one line and a blank line has one line to handle. *)
Lemma chunk_lines_event (c : N) (line : jsstring) :
  is_js_space c = false -> existsb (N.eqb nl) (c :: line) = false ->
  chunk_lines ((c :: line) ++ [nl; nl]) = [c :: line].
Proof.
  intros Hc Hn. unfold chunk_lines.
  change ((c :: line) ++ [nl; nl]) with ((c :: line) ++ nl :: ([] ++ nl :: [])).
  rewrite !split_lines_app.
  unfold split_lines at 1. rewrite (split_lines_from_single _ [] Hn).
  cbn [app filter split_lines split_lines_from].
  change (trim []) with (@nil N). cbn [jseqb negb].
  unfold trim. rewrite (trimStart_fixed c line Hc).
  destruct (trimEnd_head c line Hc) as [r' ->].
  reflexivity.
Qed.

Lemma chunk_lines_single (c : N) (line : jsstring) :
  is_js_space c = false -> existsb (N.eqb nl) (c :: line) = false ->
  chunk_lines (c :: line) = [c :: line].
Proof.
  intros Hc Hn. unfold chunk_lines, split_lines.
  rewrite (split_lines_from_single _ [] Hn). cbn [app filter].
  unfold trim. rewrite (trimStart_fixed c line Hc).
  destruct (trimEnd_head c line Hc) as [r' ->]. reflexivity.
Qed.

Lemma chunk_lines_data_event (rest : jsstring) :
  existsb (N.eqb nl) (u16 "data: " ++ rest) = false ->
  chunk_lines ((u16 "data: " ++ rest) ++ [nl; nl]) = [u16 "data: " ++ rest].
Proof.
  rewrite u16_data_prefix. intro H.
  exact (chunk_lines_event 100 (97 :: 116 :: 97 :: 58 :: 32 :: rest) eq_refl H).
Qed.

Lemma jseqb_eq (a b : jsstring) : jseqb a b = true -> a = b.
Proof. unfold jseqb. destruct (list_eq_dec N.eq_dec a b); [trivial | discriminate]. Qed.

Lemma jseqb_refl (a : jsstring) : jseqb a a = true.
Proof. unfold jseqb. destruct (list_eq_dec N.eq_dec a a); [reflexivity | contradiction]. Qed.

Lemma is_delta_inv (s : jsstring) :
  is_delta s = true -> truthy (VStr s) = true /\ valid_units s = true.
Proof.
  unfold is_delta. intro H. apply andb_true_iff in H as [Hne Hv].
  split; [|exact Hv]. destruct s; [discriminate Hne | reflexivity].
Qed.

(** *** The chat panel on the events of the transformer *)

Lemma client_line_text (assistantMessage s : jsstring) :
  truthy (VStr s) = true ->
  client_line assistantMessage
    (u16 "data: " ++ [123; 34; 116; 101; 120; 116; 34; 58; 34]
       ++ quote_units s ++ [34; 125])
  = (assistantMessage ++ s, false).
Proof.
  intro Ht. unfold client_line.
  rewrite startsWith_app.
  change (slice_from 6 (u16 "data: " ++ ?x)) with x.
  change (jseqb ([123; 34; 116; 101; 120; 116; 34; 58; 34] ++ ?x) (u16 "[DONE]"))
    with false.
  rewrite JSON_parse_text.
  change (get (VObj [(u16 "text", VStr s)]) (u16 "text")) with (Some (VStr s)).
  unfold js_or. rewrite Ht. rewrite Ht. reflexivity.
Qed.

Lemma client_chunk_text (d : TextDecoder) (assistantMessage s : jsstring) :
  td_utf8 d = utf8_init -> is_delta s = true ->
  TextDecoder_decode d (text_event (VStr s))
  = (decoder_at_line_start,
     (u16 "data: " ++ [123; 34; 116; 101; 120; 116; 34; 58; 34]
        ++ quote_units s ++ [34; 125]) ++ [nl; nl])
  /\ client_lines assistantMessage
       (chunk_lines ((u16 "data: " ++ [123; 34; 116; 101; 120; 116; 34; 58; 34]
                        ++ quote_units s ++ [34; 125]) ++ [nl; nl]))
     = assistantMessage ++ s.
Proof.
  intros Hd Hs. destruct (is_delta_inv s Hs) as [Ht Hv].
  destruct (event_line_facts s) as [Hn Hsc]. cbv zeta in Hn, Hsc.
  specialize (Hsc Hv). split.
  - rewrite text_event_line.
    assert (Hall : scalar_text
              ((u16 "data: " ++ [123; 34; 116; 101; 120; 116; 34; 58; 34]
                  ++ quote_units s ++ [34; 125]) ++ [nl; nl]) = true)
      by (apply scalar_text_app; [exact Hsc | reflexivity]).
    revert Hall. rewrite u16_data_prefix. cbn [app]. intro Hall.
    apply TextDecoder_decode_encoded; [exact Hd | lia | exact Hall].
  - rewrite (chunk_lines_data_event _ Hn). cbn [client_lines].
    rewrite (client_line_text _ s Ht). reflexivity.
Qed.

Lemma sentinel_event_text :
  sentinel_event = TextEncoder_encode (100 :: skipn 1 (u16 "data: [DONE]" ++ [nl; nl])).
Proof. reflexivity. Qed.

Lemma client_chunk_sentinel (d : TextDecoder) (assistantMessage : jsstring) :
  td_utf8 d = utf8_init ->
  TextDecoder_decode d sentinel_event
  = (decoder_at_line_start, u16 "data: [DONE]" ++ [nl; nl])
  /\ client_lines assistantMessage (chunk_lines (u16 "data: [DONE]" ++ [nl; nl]))
     = assistantMessage.
Proof.
  intro Hd. split.
  - rewrite sentinel_event_text.
    rewrite (TextDecoder_decode_encoded d 100 _ Hd); [|lia|vm_compute; reflexivity].
    f_equal.
  - replace (chunk_lines (u16 "data: [DONE]" ++ [nl; nl]))
      with [u16 "data: [DONE]"] by (vm_compute; reflexivity).
    reflexivity.
Qed.

Lemma client_read_loop_events (deltas : list jsstring) (d : TextDecoder)
  (assistantMessage : jsstring) :
  td_utf8 d = utf8_init -> forallb is_delta deltas = true ->
  client_read_loop d assistantMessage (wire_events deltas)
  = assistantMessage ++ concat deltas.
Proof.
  unfold wire_events.
  revert d assistantMessage.
  induction deltas as [|s deltas IH]; intros d msg Hd Hall.
  - cbn [map app client_read_loop concat].
    destruct (client_chunk_sentinel d msg Hd) as [-> ->].
    rewrite app_nil_r. reflexivity.
  - cbn [forallb] in Hall. apply andb_true_iff in Hall as [Hs Hall].
    cbn [map app client_read_loop concat].
    destruct (client_chunk_text d msg s Hd Hs) as [-> ->].
    rewrite (IH decoder_at_line_start (msg ++ s) eq_refl Hall).
    apply eq_sym, app_assoc.
Qed.

(** X18.  The chat panel reads the events of the transformer back: from
    the text events of a list of deltas and the sentinel, one event in each
    chunk, it shows the deltas joined, whatever characters they hold. *)
Theorem receive_recovers_text (deltas : list jsstring) :
  forallb is_delta deltas = true ->
  receive (mkStream (wire_events deltas) StreamClosed)
  = Returned (concat deltas).
Proof.
  intro H. unfold receive. cbn [rs_end rs_chunks].
  rewrite (client_read_loop_events deltas TextDecoder_new [] eq_refl H).
  reflexivity.
Qed.

Lemma receive_recovers_text_witness :
  receive (mkStream (wire_events [u16q "She said 'hi'"; [10; 55357; 56832];
                                  u16 "你好"]) StreamClosed)
  = Returned (concat [u16q "She said 'hi'"; [10; 55357; 56832]; u16 "你好"]).
Proof. apply receive_recovers_text. vm_compute. reflexivity. Defined.

(** *** The transformer on upstream events *)

Lemma startsWith_split (s p : jsstring) :
  startsWith s p = true -> s = p ++ skipn (length p) s.
Proof.
  revert s. induction p as [|x p IH]; intros s H; [reflexivity|].
  destruct s as [|y s]; [discriminate H|].
  cbn [startsWith] in H. apply andb_true_iff in H as [Hx H].
  apply N.eqb_eq in Hx. subst y.
  cbn [length skipn app]. f_equal. apply IH. exact H.
Qed.

Lemma carries_inv (p : LLMProvider) (line s : jsstring) :
  carries p line s = true ->
  line = u16 "data: " ++ slice_from 6 line
  /\ existsb (N.eqb nl) line = false
  /\ scalar_text line = true
  /\ exists json,
       JSON_parse (trim (slice_from 6 line)) = Some json
       /\ extract_text p json = Some (VStr s).
Proof.
  unfold carries. intro H.
  apply andb_true_iff in H as [H Hj]. apply andb_true_iff in H as [H Hs].
  apply andb_true_iff in H as [Hp Hn]. apply negb_true_iff in Hn.
  split; [exact (startsWith_split _ _ Hp)|].
  split; [exact Hn|]. split; [exact Hs|].
  destruct (JSON_parse (trim (slice_from 6 line))) as [json|]; [|discriminate Hj].
  exists json. split; [reflexivity|].
  destruct (extract_text p json) as [[| | | |t| | |]|]; try discriminate Hj.
  apply jseqb_eq in Hj. subst t. reflexivity.
Qed.

Lemma handle_line_carries (p : LLMProvider) (line s : jsstring) :
  carries p line s = true -> truthy (VStr s) = true ->
  handle_line p line = [text_event (VStr s)].
Proof.
  intros Hc Ht.
  destruct (carries_inv p line s Hc) as (Hl & _ & _ & json & Hj & He).
  unfold handle_line. rewrite Hl at 1. rewrite startsWith_app.
  destruct (trim (slice_from 6 line)) as [|c data] eqn:Ed; [discriminate Hj|].
  destruct (jseqb (c :: data) (u16 "[DONE]")) eqn:Edone.
  { apply jseqb_eq in Edone. rewrite Edone in Hj. discriminate Hj. }
  rewrite Hj, He, Ht. reflexivity.
Qed.

Lemma handle_chunk_carries (p : LLMProvider) (line s : jsstring) :
  carries p line s = true -> truthy (VStr s) = true ->
  handle_chunk p line = [text_event (VStr s)].
Proof.
  intros Hc Ht.
  destruct (carries_inv p line s Hc) as (Hl & Hn & _).
  unfold handle_chunk.
  assert (E : chunk_lines line = [line]).
  { rewrite Hl in Hn |- *. revert Hn. rewrite u16_data_prefix. intro Hn.
    exact (chunk_lines_single 100 _ eq_refl Hn). }
  rewrite E. cbn [flat_map]. rewrite app_nil_r.
  apply (handle_line_carries p line s Hc Ht).
Qed.

Lemma decode_upstream_event (d : TextDecoder) (p : LLMProvider) (line s : jsstring) :
  td_utf8 d = utf8_init -> carries p line s = true ->
  TextDecoder_decode d (upstream_event line)
  = (decoder_at_line_start, line ++ [nl; nl]).
Proof.
  intros Hd Hc.
  destruct (carries_inv p line s Hc) as (Hl & _ & Hs & _).
  assert (Hall : scalar_text (line ++ [nl; nl]) = true)
    by (apply scalar_text_app; [exact Hs | reflexivity]).
  unfold upstream_event. revert Hall. rewrite Hl, u16_data_prefix. cbn [app].
  intro Hall. apply TextDecoder_decode_encoded; [exact Hd | lia | exact Hall].
Qed.

Lemma sentinel_is_done_event : openai_done_event = sentinel_event.
Proof. vm_compute. reflexivity. Qed.

Lemma handle_chunk_done (p : LLMProvider) :
  handle_chunk p (u16 "data: [DONE]" ++ [nl; nl]) = [sentinel_event].
Proof. destruct p; vm_compute; reflexivity. Qed.

(** The text of an upstream stream: each line and a blank line, then the
    sentinel line. *)
Lemma decode_upstream (p : LLMProvider) (lines deltas : list jsstring)
  (d : TextDecoder) :
  td_utf8 d = utf8_init ->
  Forall2 (fun line s => carries p line s = true /\ is_delta s = true)
          lines deltas ->
  TextDecoder_decode d (concat (map upstream_event lines) ++ openai_done_event)
  = (decoder_at_line_start,
     concat (map (fun line => line ++ [nl; nl]) lines)
       ++ u16 "data: [DONE]" ++ [nl; nl]).
Proof.
  intros Hd H. revert d Hd.
  induction H as [|line s lines deltas [Hc _] _ IH]; intros d Hd.
  - cbn [map concat app]. rewrite sentinel_is_done_event.
    apply (client_chunk_sentinel d [] Hd).
  - cbn [map concat]. rewrite <- !app_assoc.
    rewrite TextDecoder_decode_app, (decode_upstream_event d p line s Hd Hc).
    cbn [fst snd]. rewrite (IH decoder_at_line_start eq_refl).
    cbn [fst snd]. rewrite <- !app_assoc. reflexivity.
Qed.

Lemma handle_upstream (p : LLMProvider) (lines deltas : list jsstring) :
  Forall2 (fun line s => carries p line s = true /\ is_delta s = true)
          lines deltas ->
  handle_chunk p (concat (map (fun line => line ++ [nl; nl]) lines)
                    ++ u16 "data: [DONE]" ++ [nl; nl])
  = wire_events deltas.
Proof.
  unfold wire_events.
  induction 1 as [|line s lines deltas [Hc Hs] _ IH].
  - apply handle_chunk_done.
  - cbn [map concat]. rewrite <- !app_assoc.
    change ([nl; nl] ++ ?rest) with (nl :: ([] ++ nl :: rest)).
    rewrite !handle_chunk_app, handle_chunk_nil, IH.
    rewrite (handle_chunk_carries p line s Hc (proj1 (is_delta_inv s Hs))).
    reflexivity.
Qed.

Lemma read_loop_upstream (p : LLMProvider) (lines deltas : list jsstring)
  (chunks : list (list byte)) :
  Forall2 (fun line s => carries p line s = true /\ is_delta s = true)
          lines deltas ->
  forallb ends_at_line_break chunks = true ->
  concat chunks = concat (map upstream_event lines) ++ openai_done_event ->
  read_loop p TextDecoder_new chunks = wire_events deltas.
Proof.
  intros H Hal Hcat.
  rewrite (read_loop_aligned p chunks TextDecoder_new TextDecoder_new_wf Hal).
  rewrite read_loop_single, Hcat.
  rewrite (decode_upstream p lines deltas TextDecoder_new eq_refl H).
  apply (handle_upstream p lines deltas H).
Qed.

(** X19.  Every delta gets through the transformer.  For an upstream
    stream of data lines that each carry a text, followed by the sentinel
    line, cut into chunks at line breaks in any way, the output is one text
    event for each delta, in order, and one sentinel event; this holds for
    the three providers. *)
Theorem transformToSSE_delivers_deltas (p : LLMProvider)
  (lines deltas : list jsstring) (chunks : list (list byte)) (e : StreamEnd) :
  Forall2 (fun line s => carries p line s = true /\ is_delta s = true)
          lines deltas ->
  forallb ends_at_line_break chunks = true ->
  concat chunks = concat (map upstream_event lines) ++ openai_done_event ->
  transformToSSE (mkStream chunks e) p = mkStream (wire_events deltas) e.
Proof.
  intros H Hal Hcat. unfold transformToSSE. cbn [rs_chunks rs_end].
  rewrite (read_loop_upstream p lines deltas chunks H Hal Hcat). reflexivity.
Qed.

Lemma transformToSSE_delivers_deltas_witness :
  transformToSSE
    (mkStream
       [upstream_event (u16q "data: {'type':'content_block_delta','delta':{'text':'Neo'}}")
          ++ upstream_event (u16q "data: {'type':'content_block_delta','delta':{'text':' wakes'}}");
        openai_done_event]
       StreamErrored) claude
  = mkStream (wire_events [u16 "Neo"; u16 " wakes"]) StreamErrored.
Proof.
  apply (transformToSSE_delivers_deltas claude
           [u16q "data: {'type':'content_block_delta','delta':{'text':'Neo'}}";
            u16q "data: {'type':'content_block_delta','delta':{'text':' wakes'}}"]).
  - repeat constructor; vm_compute; reflexivity.
  - vm_compute. reflexivity.
  - vm_compute. reflexivity.
Defined.




(** ** The sentinel event *)

(** *** Parts of a text *)





Lemma trimStart_part (s : jsstring) : exists a, s = a ++ trimStart s.
Proof.
  induction s as [|c s [a IH]]; [exists []; reflexivity|].
  cbn [trimStart]. destruct (is_js_space c).
  - exists (c :: a). cbn [app]. rewrite <- IH. reflexivity.
  - exists []. reflexivity.
Qed.

Lemma trimEnd_part (s : jsstring) : exists b, s = trimEnd s ++ b.
Proof.
  unfold trimEnd. destruct (trimStart_part (rev s)) as [a E].
  exists (rev a). apply (f_equal (@rev N)) in E.
  rewrite rev_involutive, rev_app_distr in E. exact E.
Qed.

Lemma trim_part (s : jsstring) : exists a b, s = a ++ trim s ++ b.
Proof.
  unfold trim. destruct (trimStart_part s) as [a Ea].
  destruct (trimEnd_part (trimStart s)) as [b Eb].
  exists a, b. rewrite <- Eb. exact Ea.
Qed.


(** *** Lines that carry the sentinel literal *)









(** ** The settings menu *)

(** *** The order of the home modules *)

Lemma slot_get_at (pre post : list HomeModule) (x : HomeModule) :
  slot_get (map Module (pre ++ x :: post)) (length pre) = Module x.
Proof.
  unfold slot_get. rewrite map_app, nth_error_app2 by (rewrite length_map; lia).
  rewrite length_map, Nat.sub_diag. reflexivity.
Qed.

Lemma slot_set_at (xs ys : list Slot) (x v : Slot) :
  slot_set (xs ++ x :: ys) (length xs) v = xs ++ v :: ys.
Proof.
  induction xs as [|y xs IH]; [reflexivity|].
  cbn [app length slot_set]. rewrite IH. reflexivity.
Qed.

Lemma renumber_from_modules (l : list HomeModule) (idx : nat) :
  renumber_from idx (map Module l) = Some (map Module (with_order_from idx l)).
Proof.
  revert idx. induction l as [|m l IH]; intro idx; [reflexivity|].
  cbn [map renumber_from with_order_from]. rewrite IH. reflexivity.
Qed.

Lemma renumber_from_undefined (xs : list Slot) (i idx : nat) :
  nth_error xs i = Some Undefined -> renumber_from idx xs = None.
Proof.
  revert i idx. induction xs as [|x xs IH]; intros i idx H.
  - destruct i; discriminate H.
  - destruct i as [|i].
    + cbn in H. injection H as ->. reflexivity.
    + cbn [nth_error] in H. cbn [renumber_from].
      destruct x; [|reflexivity|]; rewrite (IH i (S idx) H); reflexivity.
Qed.

Lemma nth_error_slot_set_same (xs : list Slot) (i : nat) (v : Slot) :
  nth_error (slot_set xs i v) i = Some v.
Proof.
  revert xs. induction i as [|i IH]; intro xs.
  - destruct xs; reflexivity.
  - destruct xs as [|x xs]; cbn [slot_set nth_error]; apply IH.
Qed.

Lemma nth_error_slot_set_before (xs : list Slot) (i j : nat) (v : Slot) :
  (i < j)%nat -> (i < length xs)%nat ->
  nth_error (slot_set xs j v) i = nth_error xs i.
Proof.
  revert xs j. induction i as [|i IH]; intros xs j Hij Hi.
  - destruct xs as [|x xs]; [cbn in Hi; lia|].
    destruct j; [lia | reflexivity].
  - destruct xs as [|x xs]; [cbn in Hi; lia|].
    destruct j as [|j]; [lia|].
    cbn [slot_set nth_error]. apply IH; [lia | cbn in Hi; lia].
Qed.

Lemma length_slot_set (xs : list Slot) (i : nat) (v : Slot) :
  (i < length (slot_set xs i v))%nat.
Proof.
  apply nth_error_Some. rewrite nth_error_slot_set_same. discriminate.
Qed.

Lemma slot_get_outside (l : list HomeModule) (i : nat) :
  (length l <= i)%nat -> slot_get (map Module l) i = Undefined.
Proof.
  intro H. unfold slot_get.
  rewrite (proj2 (nth_error_None _ _)) by (rewrite length_map; lia).
  reflexivity.
Qed.

(** Two neighbours exchanged, in either order of the two indices. *)
Lemma swap_and_renumber_neighbours (pre post : list HomeModule)
  (a b : HomeModule) :
  swap_and_renumber (pre ++ a :: b :: post) (S (length pre)) (length pre)
  = Updated (map Module (with_order_from 0 (pre ++ b :: a :: post)))
  /\ swap_and_renumber (pre ++ a :: b :: post) (length pre) (S (length pre))
     = Updated (map Module (with_order_from 0 (pre ++ b :: a :: post))).
Proof.
  assert (Ha : slot_get (map Module (pre ++ a :: b :: post)) (length pre) = Module a)
    by apply slot_get_at.
  assert (Hb : slot_get (map Module (pre ++ a :: b :: post)) (S (length pre))
               = Module b).
  { replace (pre ++ a :: b :: post) with ((pre ++ [a]) ++ b :: post)
      by (rewrite <- app_assoc; reflexivity).
    replace (S (length pre)) with (length (pre ++ [a]))
      by (rewrite length_app; cbn; lia).
    apply slot_get_at. }
  assert (Hmap : map Module (pre ++ a :: b :: post)
                 = map Module pre ++ Module a :: Module b :: map Module post)
    by (rewrite map_app; reflexivity).
  assert (Hlen : length (map Module pre) = length pre) by apply length_map.
  assert (Hres : map Module pre ++ Module b :: Module a :: map Module post
                 = map Module (pre ++ b :: a :: post))
    by (rewrite map_app; reflexivity).
  unfold swap_and_renumber. cbv zeta. rewrite Ha, Hb, Hmap. split.
  - replace (map Module pre ++ Module a :: Module b :: map Module post)
      with ((map Module pre ++ [Module a]) ++ Module b :: map Module post)
      by (rewrite <- app_assoc; reflexivity).
    replace (S (length pre)) with (length (map Module pre ++ [Module a]))
      by (rewrite length_app, Hlen; cbn; lia).
    rewrite slot_set_at, <- app_assoc. cbn [app].
    rewrite <- Hlen at 1. rewrite slot_set_at, Hres, renumber_from_modules.
    reflexivity.
  - rewrite <- Hlen at 1. rewrite slot_set_at.
    replace (map Module pre ++ Module b :: Module b :: map Module post)
      with ((map Module pre ++ [Module b]) ++ Module b :: map Module post)
      by (rewrite <- app_assoc; reflexivity).
    replace (S (length pre)) with (length (map Module pre ++ [Module b]))
      by (rewrite length_app, Hlen; cbn; lia).
    rewrite slot_set_at, <- app_assoc. cbn [app].
    rewrite Hres, renumber_from_modules. reflexivity.
Qed.

Lemma neighbours_at (l : list HomeModule) (i : nat) :
  (S i < length l)%nat ->
  exists pre a b post, l = pre ++ a :: b :: post /\ length pre = i.
Proof.
  intro H.
  destruct (skipn i l) as [|a [|b post]] eqn:E.
  - pose proof (length_skipn i l) as Hl. rewrite E in Hl. cbn in Hl. lia.
  - pose proof (length_skipn i l) as Hl. rewrite E in Hl. cbn in Hl. lia.
  - exists (firstn i l), a, b, post. split.
    + rewrite <- E. symmetry. apply firstn_skipn.
    + rewrite length_firstn. lia.
Qed.

Lemma swap_and_renumber_outside (l : list HomeModule) (i j : nat) :
  (length l <= i)%nat -> i <> j -> ((j < i)%nat \/ j = S i) ->
  swap_and_renumber l i j = TypeError.
Proof.
  intros Hi Hne Hj. unfold swap_and_renumber. cbv zeta.
  rewrite (slot_get_outside l i Hi).
  destruct Hj as [Hj | ->].
  - rewrite (renumber_from_undefined _ j 0); [reflexivity|].
    apply nth_error_slot_set_same.
  - rewrite (slot_get_outside l (S i)) by lia.
    rewrite (renumber_from_undefined _ i 0); [reflexivity|].
    rewrite nth_error_slot_set_before; [apply nth_error_slot_set_same | lia |].
    apply length_slot_set.
Qed.

Lemma exchanged_at (pre post : list HomeModule) (a b : HomeModule) :
  exchanged (pre ++ a :: b :: post) (length pre) = pre ++ b :: a :: post.
Proof.
  unfold exchanged.
  rewrite skipn_app, firstn_app, Nat.sub_diag, skipn_all, firstn_all.
  cbn [skipn firstn app]. rewrite app_nil_r. reflexivity.
Qed.

(** X22.  Moving a home module up or down, in closed form, for an index
    that is an array index (a non-negative integer below 2^32 - 1, as the
    rendered list passes it).  Moving up does nothing at index 0, moving
    down nothing at the last index; at any other index inside the list the
    two neighbours are exchanged and every module gets its position as
    [order]; at an array index at or past the end of the list the exchange
    stores [undefined] in the array, so the renumbering throws a TypeError
    and [setHomeModules] is not reached. *)
Theorem handleHomeModuleMove_outcome (homeModules : list HomeModule) (index : nat) :
  (N.of_nat index < 2 ^ 32 - 1)%N ->
  handleHomeModuleMoveUp homeModules index
  = (if (index =? 0)%nat then Ignored
     else if (index <? length homeModules)%nat
          then Updated (map Module
                          (with_order_from 0 (exchanged homeModules (index - 1))))
          else TypeError)
  /\ handleHomeModuleMoveDown homeModules index
     = (if (S index =? length homeModules)%nat then Ignored
        else if (S index <? length homeModules)%nat
             then Updated (map Module
                             (with_order_from 0 (exchanged homeModules index)))
             else TypeError).
Proof.
  intros _. split.
  - unfold handleHomeModuleMoveUp.
    destruct (Nat.eqb_spec index 0) as [|H0]; [reflexivity|].
    destruct (Nat.ltb_spec index (length homeModules)) as [Hlt|Hge].
    + destruct (neighbours_at homeModules (index - 1)) as (pre & a & b & post & -> & Hn);
        [lia|].
      replace index with (S (length pre)) by lia.
      replace (S (length pre) - 1)%nat with (length pre) by lia.
      rewrite (proj1 (swap_and_renumber_neighbours pre post a b)).
      rewrite exchanged_at. reflexivity.
    + apply swap_and_renumber_outside; [exact Hge | lia | left; lia].
  - unfold handleHomeModuleMoveDown.
    destruct (Nat.eqb_spec (S index) (length homeModules)) as [He|Hne].
    + destruct (Z.eqb_spec (Z.of_nat index) (Z.of_nat (length homeModules) - 1));
        [reflexivity | lia].
    + destruct (Z.eqb_spec (Z.of_nat index) (Z.of_nat (length homeModules) - 1));
        [lia|].
      replace (index + 1)%nat with (S index) by lia.
      destruct (Nat.ltb_spec (S index) (length homeModules)) as [Hlt|Hge].
      * destruct (neighbours_at homeModules index Hlt)
          as (pre & a & b & post & -> & Hn).
        subst index.
        rewrite (proj2 (swap_and_renumber_neighbours pre post a b)).
        rewrite exchanged_at. reflexivity.
      * apply swap_and_renumber_outside; [lia | lia | right; reflexivity].
Qed.

(** Three modules: at index 3, just past the end, both handlers throw; at
    index 1 the first exchanges the first two modules and the second the
    last two. *)
Lemma handleHomeModuleMove_outcome_witness :
  (handleHomeModuleMoveUp
     [mkHomeModule (u16 "hotMovies") (u16 "热门电影") true (number_of_nat 0);
      mkHomeModule (u16 "hotDuanju") (u16 "热播短剧") false (number_of_nat 1);
      mkHomeModule (u16 "hotTvShows") (u16 "热门剧集") true (number_of_nat 2)] 3
   = TypeError
   /\ handleHomeModuleMoveDown
        [mkHomeModule (u16 "hotMovies") (u16 "热门电影") true (number_of_nat 0);
         mkHomeModule (u16 "hotDuanju") (u16 "热播短剧") false (number_of_nat 1);
         mkHomeModule (u16 "hotTvShows") (u16 "热门剧集") true (number_of_nat 2)] 3
      = TypeError)
  /\ (handleHomeModuleMoveUp
        [mkHomeModule (u16 "hotMovies") (u16 "热门电影") true (number_of_nat 0);
         mkHomeModule (u16 "hotDuanju") (u16 "热播短剧") false (number_of_nat 1);
         mkHomeModule (u16 "hotTvShows") (u16 "热门剧集") true (number_of_nat 2)] 1
      = Updated
          [Module (mkHomeModule (u16 "hotDuanju") (u16 "热播短剧") false
                                (number_of_nat 0));
           Module (mkHomeModule (u16 "hotMovies") (u16 "热门电影") true
                                (number_of_nat 1));
           Module (mkHomeModule (u16 "hotTvShows") (u16 "热门剧集") true
                                (number_of_nat 2))]
      /\ handleHomeModuleMoveDown
           [mkHomeModule (u16 "hotMovies") (u16 "热门电影") true (number_of_nat 0);
            mkHomeModule (u16 "hotDuanju") (u16 "热播短剧") false (number_of_nat 1);
            mkHomeModule (u16 "hotTvShows") (u16 "热门剧集") true (number_of_nat 2)] 1
         = Updated
             [Module (mkHomeModule (u16 "hotMovies") (u16 "热门电影") true
                                   (number_of_nat 0));
              Module (mkHomeModule (u16 "hotTvShows") (u16 "热门剧集") true
                                   (number_of_nat 1));
              Module (mkHomeModule (u16 "hotDuanju") (u16 "热播短剧") false
                                   (number_of_nat 2))]).
Proof.
  split.
  - exact (handleHomeModuleMove_outcome
             [mkHomeModule (u16 "hotMovies") (u16 "热门电影") true (number_of_nat 0);
              mkHomeModule (u16 "hotDuanju") (u16 "热播短剧") false (number_of_nat 1);
              mkHomeModule (u16 "hotTvShows") (u16 "热门剧集") true (number_of_nat 2)]
             3 eq_refl).
  - exact (handleHomeModuleMove_outcome
             [mkHomeModule (u16 "hotMovies") (u16 "热门电影") true (number_of_nat 0);
              mkHomeModule (u16 "hotDuanju") (u16 "热播短剧") false (number_of_nat 1);
              mkHomeModule (u16 "hotTvShows") (u16 "热门剧集") true (number_of_nat 2)]
             1 eq_refl).
Defined.

Lemma with_order_from_app (x y : list HomeModule) (k : nat) :
  with_order_from k (x ++ y)
  = with_order_from k x ++ with_order_from (k + length x) y.
Proof.
  revert k. induction x as [|m x IH]; intro k.
  - cbn [app with_order_from length]. rewrite Nat.add_0_r. reflexivity.
  - cbn [app with_order_from length]. rewrite IH.
    replace (S k + length x)%nat with (k + S (length x))%nat by lia. reflexivity.
Qed.

Lemma with_order_from_again (l : list HomeModule) (j k : nat) :
  with_order_from k (with_order_from j l) = with_order_from k l.
Proof.
  revert j k. induction l as [|m l IH]; intros j k; [reflexivity|].
  cbn [with_order_from hm_id hm_name hm_enabled]. rewrite IH. reflexivity.
Qed.

Lemma with_order_from_length (l : list HomeModule) (k : nat) :
  length (with_order_from k l) = length l.
Proof.
  revert k. induction l as [|m l IH]; intro k; [reflexivity|].
  cbn [with_order_from length]. rewrite IH. reflexivity.
Qed.

Lemma with_order_from_ids (l : list HomeModule) (k : nat) :
  map hm_id (with_order_from k l) = map hm_id l.
Proof.
  revert k. induction l as [|m l IH]; intro k; [reflexivity|].
  cbn [with_order_from map hm_id]. rewrite IH. reflexivity.
Qed.

Lemma with_order_from_orders (l : list HomeModule) (k : nat) :
  map hm_order (with_order_from k l) = map number_of_nat (seq k (length l)).
Proof.
  revert k. induction l as [|m l IH]; intro k; [reflexivity|].
  cbn [with_order_from map hm_order length seq]. rewrite IH. reflexivity.
Qed.

(** X23.  Moving a module up keeps the modules and numbers them: the
    new list has the same identifiers, two neighbours exchanged, and
    [order] runs 0, 1, 2, ... along it; moving the same module down again
    gives the first order back. *)
Theorem move_up_then_down (homeModules : list HomeModule) (index : nat) :
  (0 < index)%nat -> (index < length homeModules)%nat ->
  exists moved,
    handleHomeModuleMoveUp homeModules index = Updated (map Module moved)
    /\ Permutation (map hm_id moved) (map hm_id homeModules)
    /\ map hm_order moved = map number_of_nat (seq 0 (length homeModules))
    /\ handleHomeModuleMoveDown moved (index - 1)
       = Updated (map Module (with_order_from 0 homeModules)).
Proof.
  intros H0 Hlt.
  destruct (neighbours_at homeModules (index - 1)) as (pre & a & b & post & -> & Hn);
    [lia|].
  exists (with_order_from 0 (pre ++ b :: a :: post)).
  split; [|split; [|split]].
  - unfold handleHomeModuleMoveUp.
    destruct (Nat.eqb_spec index 0); [lia|].
    replace index with (S (length pre)) by lia.
    replace (S (length pre) - 1)%nat with (length pre) by lia.
    apply (swap_and_renumber_neighbours pre post a b).
  - rewrite with_order_from_ids, !map_app. cbn [map].
    apply Permutation_app_head, perm_swap.
  - rewrite with_order_from_orders, !length_app. reflexivity.
  - unfold handleHomeModuleMoveDown.
    rewrite with_order_from_length.
    destruct (Z.eqb_spec (Z.of_nat (index - 1))
                (Z.of_nat (length (pre ++ b :: a :: post)) - 1)) as [E|_].
    { rewrite length_app in E. cbn [length] in E. lia. }
    rewrite with_order_from_app. cbn [with_order_from].
    replace (index - 1 + 1)%nat with (S (length (with_order_from 0 pre)))
      by (rewrite with_order_from_length; lia).
    replace (index - 1)%nat with (length (with_order_from 0 pre))
      by (rewrite with_order_from_length; lia).
    rewrite (proj2 (swap_and_renumber_neighbours _ _ _ _)).
    f_equal. f_equal.
    rewrite !with_order_from_app. cbn [with_order_from hm_id hm_name hm_enabled].
    rewrite !with_order_from_again, with_order_from_length. reflexivity.
Qed.

Lemma move_up_then_down_witness :
  exists moved,
    handleHomeModuleMoveUp
      [mkHomeModule (u16 "hotMovies") (u16 "热门电影") true (number_of_nat 0);
       mkHomeModule (u16 "hotDuanju") (u16 "热播短剧") false (number_of_nat 1);
       mkHomeModule (u16 "hotTvShows") (u16 "热门剧集") true (number_of_nat 2)] 2
    = Updated (map Module moved)
    /\ Permutation (map hm_id moved)
         (map hm_id
            [mkHomeModule (u16 "hotMovies") (u16 "热门电影") true (number_of_nat 0);
             mkHomeModule (u16 "hotDuanju") (u16 "热播短剧") false (number_of_nat 1);
             mkHomeModule (u16 "hotTvShows") (u16 "热门剧集") true (number_of_nat 2)])
    /\ map hm_order moved = map number_of_nat (seq 0 3)
    /\ handleHomeModuleMoveDown moved (2 - 1)
       = Updated
           (map Module
              (with_order_from 0
                 [mkHomeModule (u16 "hotMovies") (u16 "热门电影") true (number_of_nat 0);
                  mkHomeModule (u16 "hotDuanju") (u16 "热播短剧") false (number_of_nat 1);
                  mkHomeModule (u16 "hotTvShows") (u16 "热门剧集") true (number_of_nat 2)])).
Proof. apply move_up_then_down; cbn; lia. Defined.

(** *** The buffer strategy slider *)

Lemma string_of_uint_digits (d : Decimal.uint) :
  forallb is_digit
    (map N_of_ascii (list_ascii_of_string (NilEmpty.string_of_uint d))) = true.
Proof. induction d; cbn [NilEmpty.string_of_uint list_ascii_of_string map forallb];
         try rewrite IHd; reflexivity. Qed.

Lemma digits_of_N_digits (n : N) : forallb is_digit (digits_of_N n) = true.
Proof.
  unfold digits_of_N, NilZero.string_of_uint.
  destruct (N.to_uint n) eqn:E; try (rewrite <- E at 1; apply string_of_uint_digits);
    try apply string_of_uint_digits.
  reflexivity.
Qed.

Lemma is_digit_not_l (c : N) : is_digit c = true -> c <> 108.
Proof.
  unfold is_digit. intros H ->. discriminate H.
Qed.

Lemma forallb_drop_zeros (s : jsstring) :
  forallb is_digit s = true -> forallb is_digit (drop_zeros s) = true.
Proof.
  induction s as [|c s IH]; intro H; [reflexivity|].
  cbn [forallb] in H. apply andb_true_iff in H as [Hc Hs].
  assert (Hkeep : forallb is_digit (c :: s) = true)
    by (cbn [forallb]; rewrite Hc, Hs; reflexivity).
  cbn [drop_zeros].
  destruct c as [|p]; [exact Hkeep|].
  repeat (destruct p as [p|p|]; try exact Hkeep).
  exact (IH Hs).
Qed.

Lemma forallb_rev {A : Type} (f : A -> bool) (l : list A) :
  forallb f (rev l) = forallb f l.
Proof.
  induction l as [|x l IH]; [reflexivity|].
  cbn [rev forallb]. rewrite forallb_app, IH. cbn [forallb].
  rewrite andb_true_r. apply andb_comm.
Qed.

Lemma hd_digits_app (a b : jsstring) :
  forallb is_digit a = true -> hd 0 b <> 108 -> hd 0 (a ++ b) <> 108.
Proof.
  intros Ha Hb. destruct a as [|c a]; [exact Hb|].
  cbn [app hd]. cbn [forallb] in Ha. apply andb_true_iff in Ha as [Hc _].
  apply is_digit_not_l. exact Hc.
Qed.

Lemma forallb_firstn {A : Type} (f : A -> bool) (n : nat) (l : list A) :
  forallb f l = true -> forallb f (firstn n l) = true.
Proof.
  intro H. apply forallb_forall. intros x Hx.
  apply (proj1 (forallb_forall f l) H). apply (In_firstn n). exact Hx.
Qed.

Lemma hd_repeat_zero (n : nat) : hd 0 (repeat_unit 48 n) <> 108.
Proof. destruct n; cbn; discriminate. Qed.

Lemma number_digits_head (x : number) : hd 0 (number_digits x) <> 108.
Proof.
  unfold number_digits.
  set (ds := digits_of_N (n_mant x)).
  assert (Hds : forallb is_digit ds = true) by apply digits_of_N_digits.
  set (sg := rev (drop_zeros (rev ds))).
  assert (Hsg : forallb is_digit sg = true).
  { subst sg. rewrite forallb_rev. apply forallb_drop_zeros.
    rewrite forallb_rev. exact Hds. }
  cbv zeta.
  destruct ((Z.of_nat (length sg) <=? Z.of_nat (length ds) + n_exp x)
            && (Z.of_nat (length ds) + n_exp x <=? 21))%Z.
  { apply hd_digits_app; [exact Hsg | apply hd_repeat_zero]. }
  destruct ((0 <? Z.of_nat (length ds) + n_exp x)
            && (Z.of_nat (length ds) + n_exp x <=? 21))%Z.
  { apply hd_digits_app; [apply forallb_firstn; exact Hsg | cbn; discriminate]. }
  destruct ((-6 <? Z.of_nat (length ds) + n_exp x)
            && (Z.of_nat (length ds) + n_exp x <=? 0))%Z.
  { cbn. discriminate. }
  destruct sg as [|d [|d' more]].
  - cbn. discriminate.
  - cbn [app hd]. cbn [forallb] in Hsg. apply andb_true_iff in Hsg as [Hd _].
    apply is_digit_not_l. exact Hd.
  - cbn [app hd]. cbn [forallb] in Hsg. apply andb_true_iff in Hsg as [Hd _].
    apply is_digit_not_l. exact Hd.
Qed.

Lemma number_to_string_not_length (x : number) :
  jseqb (number_to_string x) (u16 "length") = false.
Proof.
  assert (H : hd 0 (number_to_string x) <> 108).
  { unfold number_to_string.
    destruct (number_is_zero x); [cbn; discriminate|].
    destruct (number_is_infinite x); destruct (n_neg x);
      try (cbn; discriminate); cbn [app]; apply number_digits_head. }
  destruct (jseqb (number_to_string x) (u16 "length")) eqn:E; [|reflexivity].
  apply jseqb_eq in E. rewrite E in H. contradiction H. reflexivity.
Qed.

Lemma array_element (l : list value) (key : jsstring) :
  jseqb key (u16 "length") = false ->
  opt_get (VArr l) key = VUndef \/ In (opt_get (VArr l) key) l.
Proof.
  intro H. unfold opt_get, get. rewrite H.
  destruct (index_of_key key) as [i|]; [|left; reflexivity].
  unfold nth_unit. destruct (i <? N.of_nat (length l)); [|left; reflexivity].
  destruct (nth_error l (N.to_nat i)) as [v|] eqn:E; [|left; reflexivity].
  right. apply (nth_error_In _ _ E).
Qed.

(** X24.  The two conversions of the buffer slider.  From a strategy name
    to the slider and back gives the name again when it is one of the four,
    and 'medium' otherwise; every slider value, whatever number it is, gives
    one of the four names; and the positions 0 to 3 give names that lead
    back to them. *)
Theorem buffer_strategy_round_trip :
  (forall strategy,
     getBufferStrategyFromSlider (getSliderValueFromStrategy strategy)
     = VStr (if existsb (fun s => jseqb s strategy) strategies
             then strategy else u16 "medium"))
  /\ (forall sliderValue,
        exists s, In s strategies
                  /\ getBufferStrategyFromSlider sliderValue = VStr s)
  /\ Forall (fun i =>
               exists s,
                 getBufferStrategyFromSlider (number_of_nat i) = VStr s
                 /\ getSliderValueFromStrategy s = number_of_nat i)
            [0; 1; 2; 3]%nat.
Proof.
  split; [|split].
  - intro strategy. unfold getSliderValueFromStrategy, indexOf, strategies.
    cbn [map indexOf_from existsb].
    destruct (jseqb (u16 "low") strategy) eqn:E0.
    { apply jseqb_eq in E0. subst strategy. reflexivity. }
    destruct (jseqb (u16 "medium") strategy) eqn:E1.
    { apply jseqb_eq in E1. subst strategy. reflexivity. }
    destruct (jseqb (u16 "high") strategy) eqn:E2.
    { apply jseqb_eq in E2. subst strategy. reflexivity. }
    destruct (jseqb (u16 "ultra") strategy) eqn:E3.
    { apply jseqb_eq in E3. subst strategy. reflexivity. }
    reflexivity.
  - intro sliderValue. unfold getBufferStrategyFromSlider.
    destruct (array_element (map VStr strategies) (number_to_string sliderValue)
                (number_to_string_not_length sliderValue)) as [-> | Hin].
    + exists (u16 "medium"). split; [right; left; reflexivity | reflexivity].
    + apply in_map_iff in Hin as (s & Hs & Hin). exists s. split; [exact Hin|].
      rewrite <- Hs. unfold js_or.
      assert (Ht : truthy (VStr s) = true).
      { unfold strategies in Hin. cbn [map In] in Hin.
        destruct Hin as [<- | [<- | [<- | [<- | []]]]]; reflexivity. }
      rewrite Ht. reflexivity.
  - repeat constructor;
      [exists (u16 "low") | exists (u16 "medium") | exists (u16 "high")
       | exists (u16 "ultra")]; split; vm_compute; reflexivity.
Qed.

(** *** Switching a home module on or off *)

Lemma toggle_app (x y : list HomeModule) (id : jsstring) (enabled : bool) :
  handleHomeModuleToggle (x ++ y) id enabled
  = handleHomeModuleToggle x id enabled ++ handleHomeModuleToggle y id enabled.
Proof. apply map_app. Qed.

Lemma toggle_length (l : list HomeModule) (id : jsstring) (enabled : bool) :
  length (handleHomeModuleToggle l id enabled) = length l.
Proof. apply length_map. Qed.

Lemma toggle_with_order_from (l : list HomeModule) (id : jsstring)
  (enabled : bool) (k : nat) :
  handleHomeModuleToggle (with_order_from k l) id enabled
  = with_order_from k (handleHomeModuleToggle l id enabled).
Proof.
  revert k. induction l as [|m l IH]; intro k; [reflexivity|].
  unfold handleHomeModuleToggle in *.
  cbn [with_order_from map hm_id hm_name hm_enabled hm_order].
  rewrite IH. destruct (jseqb (hm_id m) id); reflexivity.
Qed.

Lemma toggle_again (l : list HomeModule) (id : jsstring) (first enabled : bool) :
  handleHomeModuleToggle (handleHomeModuleToggle l id first) id enabled
  = handleHomeModuleToggle l id enabled.
Proof.
  unfold handleHomeModuleToggle. rewrite map_map. apply map_ext. intro m.
  destruct (jseqb (hm_id m) id) eqn:E; cbn [hm_id hm_name hm_order];
    rewrite E; reflexivity.
Qed.

(** X30.  Switching a module on or off and moving a module do not
    interfere: moving after the switch gives the list that the switch gives
    after the move.  A switch leaves identifiers, names and orders alone,
    and overrides an earlier switch of the same module. *)
Theorem toggle_and_move_commute (homeModules : list HomeModule)
  (id : jsstring) (enabled : bool) (index : nat) :
  (0 < index)%nat -> (index < length homeModules)%nat ->
  exists moved,
    handleHomeModuleMoveUp homeModules index = Updated (map Module moved)
    /\ handleHomeModuleMoveUp (handleHomeModuleToggle homeModules id enabled) index
       = Updated (map Module (handleHomeModuleToggle moved id enabled))
    /\ handleHomeModuleMoveDown
         (handleHomeModuleToggle homeModules id enabled) (index - 1)
       = Updated (map Module (handleHomeModuleToggle moved id enabled))
    /\ map hm_id (handleHomeModuleToggle moved id enabled) = map hm_id moved
    /\ map hm_order (handleHomeModuleToggle moved id enabled) = map hm_order moved
    /\ handleHomeModuleToggle
         (handleHomeModuleToggle moved id (negb enabled)) id enabled
       = handleHomeModuleToggle moved id enabled.
Proof.
  intros H0 Hlt.
  destruct (neighbours_at homeModules (index - 1)) as (pre & a & b & post & -> & Hn);
    [lia|].
  exists (with_order_from 0 (pre ++ b :: a :: post)).
  assert (Ht : forall x y,
             handleHomeModuleToggle (pre ++ x :: y :: post) id enabled
             = handleHomeModuleToggle pre id enabled
               ++ hd x (handleHomeModuleToggle [x] id enabled)
               :: hd y (handleHomeModuleToggle [y] id enabled)
               :: handleHomeModuleToggle post id enabled).
  { intros x y. rewrite toggle_app. reflexivity. }
  assert (Hl : length (handleHomeModuleToggle pre id enabled) = length pre)
    by apply toggle_length.
  split; [|split; [|split; [|split; [|split]]]].
  - unfold handleHomeModuleMoveUp.
    destruct (Nat.eqb_spec index 0); [lia|].
    replace index with (S (length pre)) by lia.
    replace (S (length pre) - 1)%nat with (length pre) by lia.
    apply (swap_and_renumber_neighbours pre post a b).
  - unfold handleHomeModuleMoveUp.
    destruct (Nat.eqb_spec index 0); [lia|].
    rewrite toggle_with_order_from, !Ht.
    replace index with (S (length (handleHomeModuleToggle pre id enabled))) by lia.
    replace (S (length (handleHomeModuleToggle pre id enabled)) - 1)%nat
      with (length (handleHomeModuleToggle pre id enabled)) by lia.
    apply (swap_and_renumber_neighbours _ _ _ _).
  - unfold handleHomeModuleMoveDown.
    rewrite toggle_length.
    destruct (Z.eqb_spec (Z.of_nat (index - 1))
                (Z.of_nat (length (pre ++ a :: b :: post)) - 1)) as [E|_].
    { rewrite length_app in E. cbn [length] in E. lia. }
    rewrite toggle_with_order_from, !Ht.
    replace (index - 1 + 1)%nat
      with (S (length (handleHomeModuleToggle pre id enabled))) by lia.
    replace (index - 1)%nat
      with (length (handleHomeModuleToggle pre id enabled)) by lia.
    apply (swap_and_renumber_neighbours _ _ _ _).
  - unfold handleHomeModuleToggle. rewrite map_map. apply map_ext. intro m.
    destruct (jseqb (hm_id m) id); reflexivity.
  - unfold handleHomeModuleToggle. rewrite map_map. apply map_ext. intro m.
    destruct (jseqb (hm_id m) id); reflexivity.
  - apply toggle_again.
Qed.

Lemma toggle_and_move_commute_witness :
  exists moved,
    handleHomeModuleMoveUp
      [mkHomeModule (u16 "hotMovies") (u16 "热门电影") true (number_of_nat 0);
       mkHomeModule (u16 "hotDuanju") (u16 "热播短剧") true (number_of_nat 1);
       mkHomeModule (u16 "hotTvShows") (u16 "热门剧集") true (number_of_nat 2)] 1
    = Updated (map Module moved)
    /\ handleHomeModuleMoveUp
         (handleHomeModuleToggle
            [mkHomeModule (u16 "hotMovies") (u16 "热门电影") true (number_of_nat 0);
             mkHomeModule (u16 "hotDuanju") (u16 "热播短剧") true (number_of_nat 1);
             mkHomeModule (u16 "hotTvShows") (u16 "热门剧集") true (number_of_nat 2)]
            (u16 "hotDuanju") false) 1
       = Updated (map Module (handleHomeModuleToggle moved (u16 "hotDuanju") false)).
Proof.
  destruct (toggle_and_move_commute
              [mkHomeModule (u16 "hotMovies") (u16 "热门电影") true (number_of_nat 0);
               mkHomeModule (u16 "hotDuanju") (u16 "热播短剧") true (number_of_nat 1);
               mkHomeModule (u16 "hotTvShows") (u16 "热门剧集") true (number_of_nat 2)]
              (u16 "hotDuanju") false 1) as (moved & H1 & H2 & _);
    [cbn; lia | cbn; lia |].
  exists moved. split; [exact H1 | exact H2].
Defined.


(** ** What the transformer can emit *)

(** *** Decoded text is made of sixteen-bit code units *)

Lemma land_ones_lt (b : N) (k : N) : N.land b (N.ones k) < 2 ^ k.
Proof. rewrite N.land_ones. apply N.mod_lt. apply N.pow_nonzero. discriminate. Qed.

Lemma utf8_handler_bounded (st : Utf8State) (b : N) :
  utf8_bounded st ->
  match utf8_handler st b with
  | HContinue st' => utf8_bounded st'
  | HCodePoint cp => cp < 2097152
  | HError _ => True
  end.
Proof.
  intro H. unfold utf8_handler.
  destruct (N.eqb_spec (u_needed st) 0) as [E0|E0].
  - destruct (N.leb_spec b 127); [lia|].
    destruct ((194 <=? b) && (b <=? 223)).
    { right. left. cbn [u_seen u_needed u_cp].
      pose proof (land_ones_lt b 5) as Hb. change (N.ones 5) with 31 in Hb.
      change (2 ^ 5) with 32 in Hb. split; [reflexivity | lia]. }
    destruct ((224 <=? b) && (b <=? 239)).
    { right. right. left. cbn [u_seen u_needed u_cp].
      pose proof (land_ones_lt b 4) as Hb. change (N.ones 4) with 15 in Hb.
      change (2 ^ 4) with 16 in Hb. split; [reflexivity | lia]. }
    destruct ((240 <=? b) && (b <=? 244)); [|exact I].
    right. right. right. cbn [u_seen u_needed u_cp].
    pose proof (land_ones_lt b 3) as Hb. change (N.ones 3) with 7 in Hb.
    change (2 ^ 3) with 8 in Hb. split; [reflexivity | lia].
  - destruct (negb ((u_lower st <=? b) && (b <=? u_upper st))); [exact I|].
    cbv zeta.
    pose proof (land_ones_lt b 6) as Hb. change (N.ones 6) with 63 in Hb.
    change (2 ^ 6) with 64 in Hb.
    rewrite (lor_shiftl (u_cp st) (N.land b 63) 6) by exact Hb.
    change (2 ^ 6) with 64.
    destruct (N.eqb_spec (u_seen st + 1) (u_needed st)) as [E1|E1].
    + destruct H as [H|[[_ H]|[[H _]|[H _]]]]; lia.
    + destruct H as [H|[[H _]|[[H1 H2]|[H1 H2]]]]; [lia | lia | |].
      * right. left. cbn [u_seen u_needed u_cp]. lia.
      * right. right. left. cbn [u_seen u_needed u_cp]. lia.
Qed.

Lemma utf8_init_bounded : utf8_bounded utf8_init.
Proof. left. reflexivity. Qed.

Lemma utf8_step_bounded (st : Utf8State) (b : byte) :
  utf8_bounded st ->
  utf8_bounded (fst (utf8_step st b))
  /\ Forall (fun cp => cp < 2097152) (snd (utf8_step st b)).
Proof.
  intro H. unfold utf8_step.
  pose proof (utf8_handler_bounded st (to_N b) H) as H1.
  pose proof (utf8_handler_bounded utf8_init (to_N b) utf8_init_bounded) as H2.
  assert (Hr : replacement_char < 2097152) by (unfold replacement_char; lia).
  destruct (utf8_handler st (to_N b)) as [st'|cp|[|]]; cbn [fst snd].
  - split; [exact H1 | constructor].
  - split; [exact utf8_init_bounded | repeat constructor; exact H1].
  - destruct (utf8_handler utf8_init (to_N b)) as [st'|cp|r]; cbn [fst snd].
    + split; [exact H2 | repeat constructor; exact Hr].
    + split; [exact utf8_init_bounded | repeat constructor; assumption].
    + split; [exact utf8_init_bounded | repeat constructor; assumption].
  - split; [exact utf8_init_bounded | repeat constructor; exact Hr].
Qed.

Lemma utf8_run_bounded (bs : list byte) (st : Utf8State) :
  utf8_bounded st ->
  utf8_bounded (fst (utf8_run st bs))
  /\ Forall (fun cp => cp < 2097152) (snd (utf8_run st bs)).
Proof.
  revert st. induction bs as [|b bs IH]; intros st H; cbn [utf8_run].
  - split; [exact H | constructor].
  - destruct (utf8_step_bounded st b H) as [H1 H2].
    destruct (utf8_step st b) as [st1 out1]. cbn [fst snd] in H1, H2.
    destruct (IH st1 H1) as [H3 H4].
    destruct (utf8_run st1 bs) as [st2 out2]. cbn [fst snd] in *.
    split; [exact H3 | apply Forall_app; split; assumption].
Qed.

Lemma utf16_encode_cp_valid (cp : codepoint) :
  cp < 2097152 -> valid_units (utf16_encode_cp cp) = true.
Proof.
  intro H. unfold utf16_encode_cp, valid_units.
  destruct (N.ltb_spec cp 65536) as [Hlt|Hge]; cbn [forallb].
  - rewrite (proj2 (N.ltb_lt _ _) Hlt). reflexivity.
  - rewrite N.shiftr_div_pow2. change (2 ^ 10) with 1024.
    pose proof (land_ones_lt (cp - 65536) 10) as Hl.
    change (N.ones 10) with 1023 in Hl. change (2 ^ 10) with 1024 in Hl.
    assert (Hd : (cp - 65536) / 1024 < 2048)
      by (apply N.Div0.div_lt_upper_bound; lia).
    rewrite (proj2 (N.ltb_lt _ _)) by lia.
    rewrite (proj2 (N.ltb_lt _ _)) by lia. reflexivity.
Qed.

Lemma valid_units_app (a b : jsstring) :
  valid_units (a ++ b) = valid_units a && valid_units b.
Proof. apply forallb_app. Qed.

Lemma utf16_encode_valid (cps : list codepoint) :
  Forall (fun cp => cp < 2097152) cps -> valid_units (utf16_encode cps) = true.
Proof.
  induction 1 as [|cp cps Hcp _ IH]; [reflexivity|].
  unfold utf16_encode. cbn [flat_map]. rewrite valid_units_app.
  rewrite (utf16_encode_cp_valid cp Hcp). exact IH.
Qed.

Lemma TextDecoder_decode_valid (d : TextDecoder) (chunk : list byte) :
  decoder_bounded d ->
  decoder_bounded (fst (TextDecoder_decode d chunk))
  /\ valid_units (snd (TextDecoder_decode d chunk)) = true.
Proof.
  unfold decoder_bounded, TextDecoder_decode. intro H.
  destruct (utf8_run_bounded chunk (td_utf8 d) H) as [H1 H2].
  destruct (utf8_run (td_utf8 d) chunk) as [st cps]. cbn [fst snd] in H1, H2.
  assert (H3 : Forall (fun cp => cp < 2097152)
                      (snd (serialize_queue (td_bom_seen d) cps))).
  { unfold serialize_queue. destruct cps as [|cp rest]; [constructor|].
    destruct (td_bom_seen d); [exact H2|].
    destruct (cp =? 65279); [|exact H2]. cbn [snd]. inversion H2; assumption. }
  destruct (serialize_queue (td_bom_seen d) cps) as [seen out].
  cbn [fst snd td_utf8] in *. split; [exact H1 | apply utf16_encode_valid, H3].
Qed.

Lemma decoded_chunks_valid (chunks : list (list byte)) (d : TextDecoder) :
  decoder_bounded d ->
  Forall (fun t => valid_units t = true) (decoded_chunks d chunks).
Proof.
  revert d. induction chunks as [|c cs IH]; intros d H; cbn [decoded_chunks].
  - constructor.
  - destruct (TextDecoder_decode_valid d c H) as [H1 H2].
    constructor; [exact H2 | apply IH, H1].
Qed.

(** *** Parts of a text of sixteen-bit code units *)

Lemma valid_units_part (a s b : jsstring) :
  valid_units (a ++ s ++ b) = true -> valid_units s = true.
Proof.
  rewrite !valid_units_app. intro H.
  apply andb_true_iff in H as [_ H]. apply andb_true_iff in H as [H _]. exact H.
Qed.

Lemma valid_units_trim (s : jsstring) :
  valid_units s = true -> valid_units (trim s) = true.
Proof.
  intro H. destruct (trim_part s) as (a & b & E). rewrite E in H.
  exact (valid_units_part _ _ _ H).
Qed.

Lemma valid_units_skipn (n : nat) (s : jsstring) :
  valid_units s = true -> valid_units (skipn n s) = true.
Proof.
  intro H. rewrite <- (firstn_skipn n s), valid_units_app in H.
  apply andb_true_iff in H as [_ H]. exact H.
Qed.

Lemma valid_units_tail (c : N) (s : jsstring) :
  valid_units (c :: s) = true -> valid_units s = true.
Proof. apply (valid_units_skipn 1 (c :: s)). Qed.

Lemma valid_units_head (c : N) (s : jsstring) :
  valid_units (c :: s) = true -> c < 65536.
Proof.
  unfold valid_units. cbn [forallb]. intro H.
  apply andb_true_iff in H as [H _]. apply N.ltb_lt. exact H.
Qed.

Lemma valid_units_cons (c : N) (s : jsstring) :
  c < 65536 -> valid_units s = true -> valid_units (c :: s) = true.
Proof.
  intros Hc Hs. unfold valid_units in *. cbn [forallb].
  rewrite (proj2 (N.ltb_lt _ _) Hc). exact Hs.
Qed.

Lemma valid_units_skip_ws (s : jsstring) :
  valid_units s = true -> valid_units (skip_ws s) = true.
Proof.
  induction s as [|c s IH]; [trivial|]. intro H. cbn [skip_ws].
  destruct ((c =? 9) || (c =? 10) || (c =? 13) || (c =? 32)); [|exact H].
  apply IH. exact (valid_units_tail c s H).
Qed.

Lemma split_lines_from_valid (t cur : jsstring) :
  valid_units cur = true -> valid_units t = true ->
  Forall (fun l => valid_units l = true) (split_lines_from cur t).
Proof.
  revert cur. induction t as [|c t IH]; intros cur Hcur Ht;
    cbn [split_lines_from].
  - constructor; [exact Hcur | constructor].
  - pose proof (valid_units_tail c t Ht) as Ht'.
    destruct (c =? 10).
    + constructor; [exact Hcur | apply IH; [reflexivity | exact Ht']].
    + apply IH; [|exact Ht'].
      rewrite valid_units_app, Hcur.
      apply valid_units_cons; [exact (valid_units_head c t Ht) | reflexivity].
Qed.

Lemma chunk_lines_valid (t : jsstring) :
  valid_units t = true -> Forall (fun l => valid_units l = true) (chunk_lines t).
Proof.
  intro H. unfold chunk_lines. apply Forall_forall. intros l Hl.
  apply filter_In in Hl as [Hl _].
  exact (proj1 (Forall_forall _ _) (split_lines_from_valid t [] eq_refl H) l Hl).
Qed.

(** *** [JSON.parse] keeps to the code units of its text *)

Lemma hex_value_lt (c x : N) : hex_value c = Some x -> x < 16.
Proof.
  unfold hex_value, is_digit.
  destruct ((48 <=? c) && (c <=? 57)) eqn:E1.
  { apply andb_true_iff in E1 as [A B]. apply N.leb_le in A, B.
    intro H. injection H as <-. lia. }
  destruct ((97 <=? c) && (c <=? 102)) eqn:E2.
  { apply andb_true_iff in E2 as [A B]. apply N.leb_le in A, B.
    intro H. injection H as <-. lia. }
  destruct ((65 <=? c) && (c <=? 70)) eqn:E3; [|discriminate].
  apply andb_true_iff in E3 as [A B]. apply N.leb_le in A, B.
  intro H. injection H as <-. lia.
Qed.

Lemma hex4_value_lt (a b c d u : N) : hex4_value a b c d = Some u -> u < 65536.
Proof.
  unfold hex4_value.
  destruct (hex_value a) as [x|] eqn:Ea; [|discriminate].
  destruct (hex_value b) as [y|] eqn:Eb; [|discriminate].
  destruct (hex_value c) as [z|] eqn:Ec; [|discriminate].
  destruct (hex_value d) as [w|] eqn:Ed; [|discriminate].
  apply hex_value_lt in Ea, Eb, Ec, Ed. intro H. injection H as <-. lia.
Qed.

Lemma parse_string_body_valid (s body rest : jsstring) :
  valid_units s = true ->
  parse_string_body s = Some (body, rest) ->
  valid_units body = true /\ valid_units rest = true.
Proof.
  assert (Hle : (length s <= length s)%nat) by lia.
  revert Hle. generalize (length s) at 2. intro n.
  revert s body rest.
  induction n as [|n IHn]; intros s body rest Hle Hs.
  { destruct s; [discriminate | simpl in Hle; lia]. }
  assert (IH : forall t, (length t < length s)%nat -> valid_units t = true ->
                 forall b r, parse_string_body t = Some (b, r) ->
                             valid_units b = true /\ valid_units r = true).
  { intros t Ht Hv b r. apply IHn; [lia | exact Hv]. }
  clear IHn.
  destruct s as [|c s1]; [discriminate|].
  cbn [parse_string_body].
  assert (Hcons : forall (u : N) (t : jsstring),
            (length t < length (c :: s1))%nat -> valid_units t = true ->
            u < 65536 ->
            match parse_string_body t with
            | Some (body0, rest0) => Some (u :: body0, rest0)
            | None => None
            end = Some (body, rest) ->
            valid_units body = true /\ valid_units rest = true).
  { intros u t Ht Hv Hu H.
    destruct (parse_string_body t) as [[b0 r0]|] eqn:E; [|discriminate].
    inversion H; subst. destruct (IH t Ht Hv b0 rest E) as [Hb Hr].
    split; [apply valid_units_cons; assumption | exact Hr]. }
  pose proof (valid_units_head c s1 Hs) as Hc.
  pose proof (valid_units_tail c s1 Hs) as Hs1.
  destruct (c =? 34).
  { intro H. inversion H; subst. split; [reflexivity | exact Hs1]. }
  destruct (c <? 32); [discriminate|].
  destruct (c =? 92).
  - destruct s1 as [|e s2]; [discriminate|].
    pose proof (valid_units_tail e s2 Hs1) as Hs2.
    destruct (e =? 34); [apply Hcons; (simpl; lia) || assumption|].
    destruct (e =? 92); [apply Hcons; (simpl; lia) || assumption|].
    destruct (e =? 47); [apply Hcons; (simpl; lia) || assumption|].
    destruct (e =? 98); [apply Hcons; (simpl; lia) || assumption|].
    destruct (e =? 102); [apply Hcons; (simpl; lia) || assumption|].
    destruct (e =? 110); [apply Hcons; (simpl; lia) || assumption|].
    destruct (e =? 114); [apply Hcons; (simpl; lia) || assumption|].
    destruct (e =? 116); [apply Hcons; (simpl; lia) || assumption|].
    destruct (e =? 117); [|discriminate].
    destruct s2 as [|h1 [|h2 [|h3 [|h4 s3]]]]; try discriminate.
    destruct (hex4_value h1 h2 h3 h4) as [u|] eqn:Eu; [|discriminate].
    apply Hcons.
    + simpl. lia.
    + exact (valid_units_skipn 4 _ Hs2).
    + exact (hex4_value_lt _ _ _ _ _ Eu).
  - apply Hcons; [simpl; lia | exact Hs1 | exact Hc].
Qed.

Lemma take_digits_rest (s ds rest : jsstring) :
  take_digits s = (ds, rest) -> exists k, rest = skipn k s.
Proof.
  revert ds rest. induction s as [|c s IH]; intros ds rest; cbn [take_digits].
  - intro H. inversion H. exists 0%nat. reflexivity.
  - destruct (is_digit c).
    + destruct (take_digits s) as [ds' rest'] eqn:E.
      intro H. inversion H; subst.
      destruct (IH ds' rest eq_refl) as [k ->]. exists (S k). reflexivity.
    + intro H. inversion H; subst. exists 0%nat. reflexivity.
Qed.

Lemma take_digits_valid (s ds rest : jsstring) :
  valid_units s = true -> take_digits s = (ds, rest) -> valid_units rest = true.
Proof.
  intros Hs H. destruct (take_digits_rest s ds rest H) as [k ->].
  apply valid_units_skipn. exact Hs.
Qed.

Ltac after_sign :=
  match goal with
  | |- valid_units ?s = true -> valid_units (snd (match ?s with _ => _ end)) = true =>
      let H := fresh in
      intro H; destruct s as [|[|p] s']; try exact H;
      do 6 (destruct p as [p|p|]; try exact H);
      exact (valid_units_tail _ _ H)
  end.

Lemma parse_number_valid (s rest : jsstring) (n : number) :
  valid_units s = true -> parse_number s = Some (n, rest) ->
  valid_units rest = true.
Proof.
  intro Hv. unfold parse_number.
  set (signed := match s with 45 :: s' => (true, s') | _ => (false, s) end).
  assert (Hs : valid_units (snd signed) = true).
  { revert Hv. subst signed. after_sign. }
  destruct signed as [neg s1]. cbn [snd] in Hs.
  destruct (take_digits s1) as [int_ds s2] eqn:E1.
  pose proof (take_digits_valid _ _ _ Hs E1) as Hs2.
  destruct int_ds as [|d more]; [discriminate|].
  destruct ((d =? 48) && negb (jseqb more [])); [discriminate|].
  assert (Hfrac : forall fr,
            match s2 with
            | 46 :: s' =>
                let '(fs, s3) := take_digits s' in
                match fs with
                | [] => None
                | _ => Some (fs, s3)
                end
            | _ => Some ([], s2)
            end = Some fr -> valid_units (snd fr) = true).
  { intros [fs s3]. destruct s2 as [|c s'].
    - intro H. inversion H. reflexivity.
    - destruct c as [|p].
      { intro H. inversion H. exact Hs2. }
      do 6 (destruct p as [p|p|];
            try (intro H; inversion H; exact Hs2)).
      destruct (take_digits s') as [fs' s3'] eqn:E.
      pose proof (take_digits_valid _ _ _ (valid_units_tail _ _ Hs2) E) as H3.
      destruct fs'; [discriminate|].
      intro H. inversion H; subst. exact H3. }
  destruct (match s2 with
            | 46 :: s' =>
                let '(fs, s3) := take_digits s' in
                match fs with
                | [] => None
                | _ => Some (fs, s3)
                end
            | _ => Some ([], s2)
            end) as [[frac_ds s3]|] eqn:Ef; [|discriminate].
  specialize (Hfrac _ eq_refl). cbn [snd] in Hfrac.
  destruct s3 as [|c s4].
  - intro H. inversion H; subst. reflexivity.
  - destruct ((c =? 101) || (c =? 69)).
    + set (esign := match s4 with
                    | 45 :: s' => (true, s')
                    | 43 :: s' => (false, s')
                    | _ => (false, s4)
                    end).
      assert (He : valid_units (snd esign) = true).
      { pose proof (valid_units_tail _ _ Hfrac) as H4. revert H4.
        subst esign. after_sign. }
      destruct esign as [eneg s5]. cbn [snd] in He.
      destruct (take_digits s5) as [eds s6] eqn:E6.
      pose proof (take_digits_valid _ _ _ He E6) as H6.
      destruct eds; [discriminate|].
      intro H. inversion H; subst. exact H6.
    + intro H. inversion H; subst. exact Hfrac.
Qed.

Lemma parse_scalar_valid (s rest : jsstring) (v : value) :
  valid_units s = true -> parse_scalar s = Some (v, rest) ->
  valid_value v = true /\ valid_units rest = true.
Proof.
  intro Hv. unfold parse_scalar. destruct s as [|c s1]; [discriminate|].
  destruct (c =? 34).
  { destruct (parse_string_body s1) as [[body r]|] eqn:E; [|discriminate].
    intro H. inversion H; subst.
    exact (parse_string_body_valid _ _ _ (valid_units_tail _ _ Hv) E). }
  destruct (startsWith (c :: s1) (u16 "true")).
  { intro H. injection H as <- <-. split; [reflexivity|].
    exact (valid_units_skipn 4 _ Hv). }
  destruct (startsWith (c :: s1) (u16 "false")).
  { intro H. injection H as <- <-. split; [reflexivity|].
    exact (valid_units_skipn 5 _ Hv). }
  destruct (startsWith (c :: s1) (u16 "null")).
  { intro H. injection H as <- <-. split; [reflexivity|].
    exact (valid_units_skipn 4 _ Hv). }
  destruct (parse_number (c :: s1)) as [[n r]|] eqn:E; [|discriminate].
  intro H. inversion H; subst. split; [reflexivity|].
  exact (parse_number_valid _ _ _ Hv E).
Qed.

Lemma obj_set_valid (m : list (jsstring * value)) (k : jsstring) (v : value) :
  valid_value (VObj m) = true -> valid_units k = true -> valid_value v = true ->
  valid_value (VObj (obj_set m k v)) = true.
Proof.
  intros Hm Hk Hv. cbn [valid_value] in *.
  induction m as [|[k' v'] m IH]; cbn [obj_set forallb].
  - rewrite Hk, Hv. reflexivity.
  - cbn [forallb] in Hm. apply andb_true_iff in Hm as [Hkv Hm].
    destruct (jseqb k' k).
    + cbn [forallb]. rewrite Hk, Hv, Hm. reflexivity.
    + destruct (goes_before k k').
      * cbn [forallb]. rewrite Hk, Hv, Hkv, Hm. reflexivity.
      * cbn [forallb]. rewrite Hkv, (IH Hm). reflexivity.
Qed.

Lemma valid_value_snoc (acc : list value) (v : value) :
  forallb valid_value acc = true -> valid_value v = true ->
  valid_value (VArr (acc ++ [v])) = true.
Proof.
  intros Ha Hv. cbn [valid_value]. rewrite forallb_app, Ha. cbn [forallb].
  rewrite Hv. reflexivity.
Qed.

Lemma parse_valid (f : nat) :
  (forall s v rest,
     valid_units s = true -> parse_value f s = Some (v, rest) ->
     valid_value v = true /\ valid_units rest = true)
  /\ (forall s acc v rest,
        valid_units s = true -> forallb valid_value acc = true ->
        parse_elements f s acc = Some (v, rest) ->
        valid_value v = true /\ valid_units rest = true)
  /\ (forall s acc v rest,
        valid_units s = true -> valid_value (VObj acc) = true ->
        parse_members f s acc = Some (v, rest) ->
        valid_value v = true /\ valid_units rest = true).
Proof.
  induction f as [|f (IHv & IHe & IHm)].
  { split; [|split]; intros; discriminate. }
  split; [|split].
  - intros s v rest Hs. cbn [parse_value].
    pose proof (valid_units_skip_ws s Hs) as Hws.
    destruct (skip_ws s) as [|c r0]; [discriminate|].
    pose proof (valid_units_tail _ _ Hws) as Hr0.
    destruct (c =? 91).
    { pose proof (valid_units_skip_ws r0 Hr0) as Hws0.
      destruct (skip_ws r0) as [|c' r1].
      - apply IHe; [exact Hr0 | reflexivity].
      - destruct (c' =? 93).
        + intro H. inversion H; subst. split; [reflexivity|].
          exact (valid_units_tail _ _ Hws0).
        + apply IHe; [exact Hr0 | reflexivity]. }
    destruct (c =? 123).
    { pose proof (valid_units_skip_ws r0 Hr0) as Hws0.
      destruct (skip_ws r0) as [|c' r1]; [discriminate|].
      destruct (c' =? 125).
      + intro H. inversion H; subst. split; [reflexivity|].
        exact (valid_units_tail _ _ Hws0).
      + apply IHm; [exact Hr0 | reflexivity]. }
    apply parse_scalar_valid. exact Hws.
  - intros s acc v rest Hs Hacc. cbn [parse_elements].
    destruct (parse_value f s) as [[v1 r1]|] eqn:Ev; [|discriminate].
    destruct (IHv s v1 r1 Hs Ev) as [Hv1 Hr1].
    pose proof (valid_units_skip_ws r1 Hr1) as Hws.
    destruct (skip_ws r1) as [|c r2]; [discriminate|].
    pose proof (valid_units_tail _ _ Hws) as Hr2.
    pose proof (valid_value_snoc acc v1 Hacc Hv1) as Hsnoc.
    destruct (c =? 44).
    + apply IHe; [exact Hr2 | exact Hsnoc].
    + destruct (c =? 93); [|discriminate].
      intro H. inversion H; subst. split; [exact Hsnoc | exact Hr2].
  - intros s acc v rest Hs Hacc. cbn [parse_members].
    pose proof (valid_units_skip_ws s Hs) as Hws.
    destruct (skip_ws s) as [|q s1]; [discriminate|].
    pose proof (valid_units_tail _ _ Hws) as Hs1.
    destruct (q =? 34); [|discriminate].
    destruct (parse_string_body s1) as [[k s2]|] eqn:Ek; [|discriminate].
    destruct (parse_string_body_valid _ _ _ Hs1 Ek) as [Hk Hs2].
    pose proof (valid_units_skip_ws s2 Hs2) as Hws2.
    destruct (skip_ws s2) as [|c s3]; [discriminate|].
    pose proof (valid_units_tail _ _ Hws2) as Hs3.
    destruct (c =? 58); [|discriminate].
    destruct (parse_value f s3) as [[v1 r1]|] eqn:Ev; [|discriminate].
    destruct (IHv s3 v1 r1 Hs3 Ev) as [Hv1 Hr1].
    pose proof (valid_units_skip_ws r1 Hr1) as Hws1.
    destruct (skip_ws r1) as [|c' r2]; [discriminate|].
    pose proof (valid_units_tail _ _ Hws1) as Hr2.
    pose proof (obj_set_valid acc k v1 Hacc Hk Hv1) as Hset.
    destruct (c' =? 44).
    + apply IHm; [exact Hr2 | exact Hset].
    + destruct (c' =? 125); [|discriminate].
      intro H. inversion H; subst. split; [exact Hset | exact Hr2].
Qed.

Lemma JSON_parse_valid (text : jsstring) (v : value) :
  valid_units text = true -> JSON_parse text = Some v -> valid_value v = true.
Proof.
  intros Ht. unfold JSON_parse.
  destruct (parse_value (2 * length text + 2) text) as [[v' rest]|] eqn:E;
    [|discriminate].
  destruct (skip_ws rest); [|discriminate].
  intro H. injection H as <-.
  exact (proj1 (proj1 (parse_valid _) text v' rest Ht E)).
Qed.

(** *** What the transformer reads in a parsed value *)

Lemma lookup_valid (m : list (jsstring * value)) (k : jsstring) (x : value) :
  valid_value (VObj m) = true -> lookup m k = Some x -> valid_value x = true.
Proof.
  cbn [valid_value]. induction m as [|[k' v'] m IH]; [discriminate|].
  cbn [forallb lookup]. intro H. apply andb_true_iff in H as [Hkv Hm].
  apply andb_true_iff in Hkv as [_ Hv'].
  destruct (jseqb k' k).
  - intro E. injection E as <-. exact Hv'.
  - apply IH. exact Hm.
Qed.

Lemma nth_unit_in {A : Type} (i : N) (l : list A) (x : A) :
  nth_unit i l = Some x -> In x l.
Proof.
  unfold nth_unit. destruct (i <? N.of_nat (length l)); [|discriminate].
  apply nth_error_In.
Qed.

Lemma get_valid (v x : value) (k : jsstring) :
  valid_value v = true -> get v k = Some x -> valid_value x = true.
Proof.
  intro Hv. destruct v as [| | | |s|l|m|name]; cbn [get];
    try discriminate; try (intro H; injection H as <-; reflexivity).
  - (* a string *)
    destruct (jseqb k (u16 "length")); [intro H; injection H as <-; reflexivity|].
    destruct (jseqb k (u16 "link")); [intro H; injection H as <-; reflexivity|].
    destruct (index_of_key k) as [i|]; [|intro H; injection H as <-; reflexivity].
    destruct (nth_unit i s) as [c|] eqn:E; intro H; injection H as <-;
      [|reflexivity].
    cbn [valid_value] in *. apply nth_unit_in in E.
    unfold valid_units in *. cbn [forallb].
    rewrite (proj1 (forallb_forall _ _) Hv c E). reflexivity.
  - (* an array *)
    destruct (jseqb k (u16 "length")); [intro H; injection H as <-; reflexivity|].
    destruct (index_of_key k) as [i|]; [|intro H; injection H as <-; reflexivity].
    destruct (nth_unit i l) as [y|] eqn:E; intro H; injection H as <-;
      [|reflexivity].
    cbn [valid_value] in Hv. apply nth_unit_in in E.
    exact (proj1 (forallb_forall _ _) Hv y E).
  - (* an object *)
    destruct (lookup m k) as [y|] eqn:E; intro H; injection H as <-;
      [|reflexivity].
    exact (lookup_valid m k y Hv E).
Qed.

Lemma opt_get_valid (v : value) (k : jsstring) :
  valid_value v = true -> valid_value (opt_get v k) = true.
Proof.
  intro Hv. unfold opt_get. destruct (get v k) as [x|] eqn:E; [|reflexivity].
  exact (get_valid v x k Hv E).
Qed.

Lemma extract_text_valid (p : LLMProvider) (json text : value) :
  valid_value json = true -> extract_text p json = Some text ->
  valid_value text = true.
Proof.
  intro Hj.
  assert (Hor : forall v, valid_value v = true ->
                          valid_value (js_or v (VStr [])) = true).
  { intros v Hv. unfold js_or. destruct (truthy v); [exact Hv | reflexivity]. }
  assert (Hopenai :
            match get json (u16 "choices") with
            | None => None
            | Some choices =>
                Some (js_or (opt_get (opt_get (opt_get choices (u16 "0"))
                                        (u16 "delta")) (u16 "content"))
                            (VStr []))
            end = Some text -> valid_value text = true).
  { destruct (get json (u16 "choices")) as [choices|] eqn:E; [|discriminate].
    intro H. injection H as <-. apply Hor.
    do 3 apply opt_get_valid. exact (get_valid _ _ _ Hj E). }
  destruct p; cbn [extract_text]; try exact Hopenai.
  destruct (get json (u16 "type")) as [ty|]; [|discriminate].
  destruct ty; try (intro H; injection H as <-; reflexivity).
  destruct (jseqb s (u16 "content_block_delta"));
    [|intro H; injection H as <-; reflexivity].
  destruct (get json (u16 "delta")) as [delta|] eqn:E; [|discriminate].
  intro H. injection H as <-. apply Hor. apply opt_get_valid.
  exact (get_valid _ _ _ Hj E).
Qed.

(** *** [JSON.stringify] without indentation writes one line *)

Lemma line_text_app (a b : jsstring) :
  line_text (a ++ b) = line_text a && line_text b.
Proof. apply forallb_app. Qed.

Lemma forallb_weaken {A : Type} (f g : A -> bool) (l : list A) :
  (forall x, f x = true -> g x = true) ->
  forallb f l = true -> forallb g l = true.
Proof.
  intros Hfg H. apply forallb_forall. intros x Hx.
  apply Hfg. exact (proj1 (forallb_forall f l) H x Hx).
Qed.

Lemma printable_line_text (s : jsstring) :
  forallb (fun x => (32 <=? x) && (x <? 128)) s = true -> line_text s = true.
Proof.
  apply forallb_weaken. intros x H. apply andb_true_iff in H as [A B].
  apply N.leb_le in A. apply N.ltb_lt in B. unfold is_line_unit.
  rewrite (proj2 (N.ltb_lt _ _)) by lia.
  rewrite (proj2 (N.eqb_neq _ _)) by lia. reflexivity.
Qed.

Lemma digits_line_text (s : jsstring) :
  forallb is_digit s = true -> line_text s = true.
Proof.
  intro H. apply printable_line_text. revert H. apply forallb_weaken.
  intros x H. unfold is_digit in H. apply andb_true_iff in H as [A B].
  apply N.leb_le in A, B.
  rewrite (proj2 (N.leb_le _ _)) by lia.
  rewrite (proj2 (N.ltb_lt _ _)) by lia. reflexivity.
Qed.

Lemma forallb_skipn {A : Type} (f : A -> bool) (n : nat) (l : list A) :
  forallb f l = true -> forallb f (skipn n l) = true.
Proof.
  intro H. rewrite <- (firstn_skipn n l), forallb_app in H.
  apply andb_true_iff in H as [_ H]. exact H.
Qed.

Lemma repeat_zero_digits (n : nat) : forallb is_digit (repeat_unit 48 n) = true.
Proof. induction n as [|n IH]; [reflexivity | exact IH]. Qed.

Lemma number_digits_line_text (x : number) : line_text (number_digits x) = true.
Proof.
  unfold number_digits.
  set (ds := digits_of_N (n_mant x)).
  assert (Hds : forallb is_digit ds = true) by apply digits_of_N_digits.
  set (sg := rev (drop_zeros (rev ds))).
  assert (Hsg : forallb is_digit sg = true).
  { subst sg. rewrite forallb_rev. apply forallb_drop_zeros.
    rewrite forallb_rev. exact Hds. }
  cbv zeta.
  destruct ((Z.of_nat (length sg) <=? Z.of_nat (length ds) + n_exp x)
            && (Z.of_nat (length ds) + n_exp x <=? 21))%Z.
  { apply digits_line_text. rewrite forallb_app, Hsg. apply repeat_zero_digits. }
  destruct ((0 <? Z.of_nat (length ds) + n_exp x)
            && (Z.of_nat (length ds) + n_exp x <=? 21))%Z.
  { rewrite !line_text_app.
    rewrite (digits_line_text _ (forallb_firstn _ _ _ Hsg)).
    rewrite (digits_line_text _ (forallb_skipn _ _ _ Hsg)). reflexivity. }
  destruct ((-6 <? Z.of_nat (length ds) + n_exp x)
            && (Z.of_nat (length ds) + n_exp x <=? 0))%Z.
  { rewrite !line_text_app.
    rewrite (digits_line_text _ (repeat_zero_digits _)).
    rewrite (digits_line_text _ Hsg). reflexivity. }
  set (es := (if (Z.of_nat (length ds) + n_exp x - 1 <? 0)%Z then [45] else [43])
             ++ digits_of_N (Z.abs_N (Z.of_nat (length ds) + n_exp x - 1))).
  assert (Hes : line_text es = true).
  { subst es. rewrite line_text_app.
    rewrite (digits_line_text _ (digits_of_N_digits _)).
    destruct (_ <? 0)%Z; reflexivity. }
  pose proof (digits_line_text _ Hsg) as Hl.
  destruct sg as [|d [|d' more]].
  - reflexivity.
  - rewrite !line_text_app, Hl, Hes. reflexivity.
  - change (d :: d' :: more) with ([d] ++ (d' :: more)) in Hl.
    rewrite line_text_app in Hl. apply andb_true_iff in Hl as [Hd Hmore].
    rewrite !line_text_app, Hd, Hmore, Hes. reflexivity.
Qed.

Lemma number_to_string_line_text (x : number) :
  line_text (number_to_string x) = true.
Proof.
  unfold number_to_string.
  destruct (number_is_zero x); [reflexivity|].
  destruct (number_is_infinite x); destruct (n_neg x);
    try (vm_compute; reflexivity);
    rewrite ?line_text_app; cbn [app];
    try (rewrite number_digits_line_text; reflexivity);
    apply number_digits_line_text.
Qed.

Lemma hex_escape_line_text (c : N) (rest : jsstring) :
  line_text rest = true -> line_text ([92; 117] ++ hex4 c ++ rest) = true.
Proof.
  intro H. rewrite app_assoc, line_text_app, H.
  rewrite (printable_line_text _ (hex_escape_printable c)). reflexivity.
Qed.

Lemma line_unit_cons (c : N) (s : jsstring) :
  c < 65536 -> c <> 10 -> line_text s = true -> line_text (c :: s) = true.
Proof.
  intros H1 H2 Hs. unfold line_text in *. cbn [forallb]. unfold is_line_unit.
  rewrite (proj2 (N.ltb_lt _ _) H1), (proj2 (N.eqb_neq _ _) H2). exact Hs.
Qed.

Lemma quote_units_line_text (s : jsstring) :
  valid_units s = true -> line_text (quote_units s) = true.
Proof.
  assert (H : forall n s, (length s <= n)%nat -> valid_units s = true ->
                          line_text (quote_units s) = true).
  { clear s. induction n as [|n IH]; intros s Hlen Hv.
    - destruct s; [reflexivity | cbn in Hlen; lia].
    - destruct s as [|c rest]; [reflexivity|].
      cbn [length] in Hlen.
      pose proof (valid_units_head c rest Hv) as Hc.
      pose proof (valid_units_tail c rest Hv) as Hrest.
      assert (IHrest : line_text (quote_units rest) = true)
        by (apply IH; [lia | exact Hrest]).
      cbn [quote_units].
      destruct (c =? 8); [rewrite line_text_app, IHrest; reflexivity|].
      destruct (c =? 9); [rewrite line_text_app, IHrest; reflexivity|].
      destruct (N.eqb_spec c 10) as [E10|E10];
        [rewrite line_text_app, IHrest; reflexivity|].
      destruct (c =? 12); [rewrite line_text_app, IHrest; reflexivity|].
      destruct (c =? 13); [rewrite line_text_app, IHrest; reflexivity|].
      destruct (c =? 34); [rewrite line_text_app, IHrest; reflexivity|].
      destruct (c =? 92); [rewrite line_text_app, IHrest; reflexivity|].
      destruct (c <? 32); [apply hex_escape_line_text; exact IHrest|].
      destruct (is_high_surrogate c).
      + destruct rest as [|d rest'].
        * rewrite <- (app_nil_r (hex4 c)). apply hex_escape_line_text. reflexivity.
        * destruct (is_low_surrogate d) eqn:Ed;
            [|apply hex_escape_line_text; exact IHrest].
          pose proof (valid_units_head d rest' Hrest) as Hd.
          unfold is_low_surrogate in Ed. apply andb_true_iff in Ed as [Ed _].
          apply N.leb_le in Ed.
          apply line_unit_cons; [exact Hc | exact E10|].
          apply line_unit_cons; [exact Hd | lia|].
          apply IH; [cbn [length] in Hlen; lia|].
          exact (valid_units_tail d rest' Hrest).
      + destruct (is_low_surrogate c);
          [apply hex_escape_line_text; exact IHrest|].
        apply line_unit_cons; assumption. }
  apply (H (length s)). lia.
Qed.

Lemma QuoteJSONString_line_text (s : jsstring) :
  valid_units s = true -> line_text (QuoteJSONString s) = true.
Proof.
  intro H. unfold QuoteJSONString.
  rewrite !line_text_app, (quote_units_line_text s H). reflexivity.
Qed.

Lemma join_line_text (parts : list jsstring) :
  Forall (fun s => line_text s = true) parts ->
  line_text (join [44] parts) = true.
Proof.
  induction 1 as [|p parts Hp Hparts IH]; [reflexivity|].
  cbn [join]. destruct parts as [|q parts]; [exact Hp|].
  rewrite !line_text_app, Hp, IH. reflexivity.
Qed.

Lemma wrapped_line_text (open close : N) (parts : list jsstring) :
  is_line_unit open = true -> is_line_unit close = true ->
  Forall (fun s => line_text s = true) parts ->
  line_text (match parts with
             | [] => [open; close]
             | _ :: _ => [open] ++ join [44] parts ++ [close]
             end) = true.
Proof.
  intros Ho Hc Hparts. destruct parts as [|p parts].
  - unfold line_text. cbn [forallb]. rewrite Ho, Hc. reflexivity.
  - rewrite !line_text_app, (join_line_text _ Hparts).
    unfold line_text. cbn [forallb]. rewrite Ho, Hc. reflexivity.
Qed.

Lemma value_nested_ind (P : value -> Prop) :
  P VUndef -> P VNull -> (forall b, P (VBool b)) -> (forall n, P (VNum n)) ->
  (forall s, P (VStr s)) ->
  (forall items, Forall P items -> P (VArr items)) ->
  (forall props, Forall (fun kv => P (snd kv)) props -> P (VObj props)) ->
  (forall name, P (VNative name)) ->
  forall v, P v.
Proof.
  intros H1 H2 H3 H4 H5 H6 H7 H8.
  fix IH 1.
  intros [| |b|n|s|l|m|name];
    [exact H1 | exact H2 | apply H3 | apply H4 | apply H5 | | | apply H8].
  - apply H6. induction l as [|x l IHl]; constructor; [apply IH | exact IHl].
  - apply H7. induction m as [|[k x] m IHm]; constructor; [apply IH | exact IHm].
Qed.

Lemma stringify_line_text (v : value) :
  forall (indent s : jsstring),
    valid_value v = true -> stringify_at [] indent v = Some s ->
    line_text s = true.
Proof.
  induction v as [| |b|n|t|items IH|props IH|name] using value_nested_ind;
    intros indent s Hv; cbn [stringify_at].
  - discriminate.
  - intro H. injection H as <-. reflexivity.
  - destruct b; intro H; injection H as <-; reflexivity.
  - intro H. injection H as <-.
    destruct (number_is_infinite n && negb (number_is_zero n));
      [reflexivity | apply number_to_string_line_text].
  - intro H. injection H as <-. apply QuoteJSONString_line_text. exact Hv.
  - intro H. injection H as <-.
    apply wrapped_line_text; [reflexivity | reflexivity|].
    cbn [valid_value] in Hv. revert Hv.
    induction IH as [|x items Hx _ IHitems]; intro Hv; [constructor|].
    cbn [forallb] in Hv. apply andb_true_iff in Hv as [Hvx Hvi].
    destruct (stringify_at [] (indent ++ []) x) as [sx|] eqn:E.
    + constructor; [exact (Hx _ _ Hvx E) | exact (IHitems Hvi)].
    + constructor; [reflexivity | exact (IHitems Hvi)].
  - intro H. injection H as <-.
    apply wrapped_line_text; [reflexivity | reflexivity|].
    cbn [valid_value] in Hv. revert Hv.
    induction IH as [|[k x] props Hx _ IHprops]; intro Hv; [constructor|].
    cbn [forallb] in Hv. apply andb_true_iff in Hv as [Hkx Hvp].
    apply andb_true_iff in Hkx as [Hk Hvx]. cbn [snd] in Hx.
    destruct (stringify_at [] (indent ++ []) x) as [sx|] eqn:E.
    + constructor; [|exact (IHprops Hvp)].
      change (line_text (QuoteJSONString k ++ [58] ++ sx) = true).
      rewrite !line_text_app, (QuoteJSONString_line_text k Hk).
      rewrite (Hx _ _ Hvx E). reflexivity.
    + exact (IHprops Hvp).
  - discriminate.
Qed.

(** *** The bytes of a line *)

Lemma byte_of_N_not_LF (x : N) : x < 256 -> x <> 10 -> byte_of_N x <> LF.
Proof.
  intros Hx Hne E. apply (f_equal Byte.to_N) in E.
  rewrite (to_N_byte_of_N x Hx) in E. apply Hne. exact E.
Qed.

Lemma utf8_encode_cp_no_LF (cp : codepoint) :
  cp <> 10 -> cp < 2097152 -> ~ In LF (utf8_encode_cp cp).
Proof.
  intros Hne Hlt. unfold utf8_encode_cp.
  rewrite !N.shiftr_div_pow2.
  change (2 ^ 6) with 64. change (2 ^ 12) with 4096. change (2 ^ 18) with 262144.
  rewrite !land_63.
  assert (Hm : forall x, x mod 64 < 64) by (intro x; apply N.mod_lt; discriminate).
  pose proof (Hm cp) as M0. pose proof (Hm (cp / 64)) as M1.
  pose proof (Hm (cp / 4096)) as M2.
  assert (continuation : forall x, x < 64 -> byte_of_N (128 + x) <> LF)
    by (intros x Hx; apply byte_of_N_not_LF; lia).
  pose proof (N.le_0_l (cp / 64)) as P1.
  pose proof (N.le_0_l (cp / 4096)) as P2.
  pose proof (N.le_0_l (cp / 262144)) as P3.
  destruct (N.ltb_spec cp 128).
  { intros [E|[]]. exact (byte_of_N_not_LF cp ltac:(lia) Hne E). }
  assert (lead : forall x, 192 <= x -> x < 256 -> byte_of_N x <> LF)
    by (intros x H1 H2; apply byte_of_N_not_LF; lia).
  destruct (N.ltb_spec cp 2048).
  { assert (cp / 64 < 32) by (apply N.Div0.div_lt_upper_bound; lia).
    intros [E|[E|[]]].
    - apply (lead (192 + cp / 64)); [lia | lia | exact E].
    - exact (continuation _ M0 E). }
  destruct (N.ltb_spec cp 65536).
  { assert (cp / 4096 < 16) by (apply N.Div0.div_lt_upper_bound; lia).
    intros [E|[E|[E|[]]]].
    - apply (lead (224 + cp / 4096)); [lia | lia | exact E].
    - exact (continuation _ M1 E).
    - exact (continuation _ M0 E). }
  assert (cp / 262144 < 8) by (apply N.Div0.div_lt_upper_bound; lia).
  intros [E|[E|[E|[E|[]]]]].
  - apply (lead (240 + cp / 262144)); [lia | lia | exact E].
  - exact (continuation _ M2 E).
  - exact (continuation _ M1 E).
  - exact (continuation _ M0 E).
Qed.

Lemma line_text_head (c : N) (s : jsstring) :
  line_text (c :: s) = true -> c < 65536 /\ c <> 10 /\ line_text s = true.
Proof.
  unfold line_text. cbn [forallb]. unfold is_line_unit. intro H.
  apply andb_true_iff in H as [H Hs]. apply andb_true_iff in H as [H1 H2].
  apply N.ltb_lt in H1. apply negb_true_iff, N.eqb_neq in H2. auto.
Qed.

Lemma utf16_decode_line (s : jsstring) :
  line_text s = true ->
  exists cps,
    utf16_decode (s ++ [nl; nl]) = cps ++ [nl; nl]
    /\ Forall (fun cp => cp <> 10 /\ cp < 2097152) cps.
Proof.
  assert (Hrep : replacement_char <> 10 /\ replacement_char < 2097152)
    by (unfold replacement_char; lia).
  assert (H : forall n s, (length s <= n)%nat -> line_text s = true ->
            exists cps, utf16_decode (s ++ [nl; nl]) = cps ++ [nl; nl]
                        /\ Forall (fun cp => cp <> 10 /\ cp < 2097152) cps).
  { clear s. induction n as [|n IH]; intros s Hlen Hl.
    - destruct s; [|cbn in Hlen; lia]. exists []. split; [reflexivity | constructor].
    - destruct s as [|c s]; [exists []; split; [reflexivity | constructor]|].
      cbn [app utf16_decode]. cbn [length] in Hlen.
      destruct (line_text_head c s Hl) as (Hc & Hc10 & Hs).
      destruct (is_high_surrogate c) eqn:Eh.
      + destruct s as [|d s'].
        * exists [replacement_char]. split; [reflexivity|].
          constructor; [exact Hrep | constructor].
        * cbn [app]. destruct (line_text_head d s' Hs) as (Hd & _ & Hs').
          destruct (is_low_surrogate d) eqn:El.
          -- destruct (IH s') as (cps & E & Hcps);
               [cbn [length] in Hlen; lia | exact Hs'|].
             rewrite E. eexists (_ :: cps). split; [reflexivity|].
             constructor; [|exact Hcps].
             unfold is_high_surrogate in Eh. unfold is_low_surrogate in El.
             apply andb_true_iff in Eh as [A B]. apply andb_true_iff in El as [C D].
             apply N.leb_le in A, B, C, D.
             rewrite N.shiftl_mul_pow2. change (2 ^ 10) with 1024. lia.
          -- destruct (IH (d :: s')) as (cps & E & Hcps); [lia | exact Hs|].
             cbn [app] in E. rewrite E. exists (replacement_char :: cps).
             split; [reflexivity | constructor; [exact Hrep | exact Hcps]].
      + destruct (IH s) as (cps & E & Hcps); [lia | exact Hs|].
        destruct (is_low_surrogate c); rewrite E;
          eexists (_ :: cps); (split; [reflexivity|]);
          (constructor; [|exact Hcps]); [exact Hrep | lia]. }
  apply (H (length s)). lia.
Qed.

(** The event of a text without line feed is one [data:] line and a blank
    line. *)
Lemma framed_line_event (s : jsstring) :
  line_text s = true ->
  exists payload,
    TextEncoder_encode (u16 "data: " ++ s ++ [nl; nl])
    = bytes "data: " ++ payload ++ [LF; LF]
    /\ ~ In LF payload.
Proof.
  intro Hs. destruct (utf16_decode_line s Hs) as (cps & E & Hcps).
  exists (flat_map utf8_encode_cp cps). split.
  - rewrite u16_data_prefix. cbn [app].
    rewrite !TextEncoder_encode_ascii by lia.
    unfold TextEncoder_encode. rewrite E, flat_map_app. reflexivity.
  - intro Hin. apply in_flat_map in Hin as (cp & Hcp & Hin).
    destruct (proj1 (Forall_forall _ _) Hcps cp Hcp) as [H1 H2].
    exact (utf8_encode_cp_no_LF cp H1 H2 Hin).
Qed.

Lemma text_event_framed (text : value) :
  valid_value text = true ->
  exists payload,
    text_event text = bytes "data: " ++ payload ++ [LF; LF] /\ ~ In LF payload.
Proof.
  intro Hv. unfold text_event. apply framed_line_event.
  destruct (JSON_stringify (VObj [(u16 "text", text)])) as [s|] eqn:E;
    [|reflexivity].
  apply (stringify_line_text (VObj [(u16 "text", text)]) [] s); [|exact E].
  cbn [valid_value forallb]. rewrite Hv. reflexivity.
Qed.

Lemma handle_line_shape (p : LLMProvider) (line : jsstring) :
  valid_units line = true ->
  Forall (fun e =>
            (e = sentinel_event
             \/ exists text, truthy text = true /\ e = text_event text)
            /\ exists payload,
                 e = bytes "data: " ++ payload ++ [LF; LF] /\ ~ In LF payload)
         (handle_line p line).
Proof.
  intro Hline. unfold handle_line.
  destruct (startsWith line (u16 "data: ")); [|constructor].
  pose proof (valid_units_trim _ (valid_units_skipn 6 line Hline)) as Hdata.
  unfold slice_from. cbv zeta.
  destruct (trim (skipn 6 line)) as [|c data]; [constructor|].
  destruct (jseqb (c :: data) (u16 "[DONE]")).
  { constructor; [|constructor]. split; [left; reflexivity|].
    exact (framed_line_event (u16 "[DONE]") eq_refl). }
  destruct (JSON_parse (c :: data)) as [json|] eqn:Ej; [|constructor].
  pose proof (JSON_parse_valid _ _ Hdata Ej) as Hjson.
  destruct (extract_text p json) as [text|] eqn:Et; [|constructor].
  pose proof (extract_text_valid p json text Hjson Et) as Htext.
  destruct (truthy text) eqn:Ht; [|constructor].
  constructor; [|constructor]. split.
  - right. exists text. split; [exact Ht | reflexivity].
  - exact (text_event_framed text Htext).
Qed.

(** X21.  Whatever the upstream sends, well formed or not, the transformer
    emits nothing but the sentinel event and text events whose text is
    truthy, and each event is one line: the bytes [data: ], a payload that
    holds no line feed, and two line feeds.  No upstream content can break
    out of its event.  The output ends the way the upstream ends. *)
Theorem transformToSSE_output_shape (stream : ReadableStream) (p : LLMProvider) :
  rs_end (transformToSSE stream p) = rs_end stream
  /\ Forall (fun e =>
               (e = sentinel_event
                \/ exists text, truthy text = true /\ e = text_event text)
               /\ exists payload,
                    e = bytes "data: " ++ payload ++ [LF; LF]
                    /\ ~ In LF payload)
            (rs_chunks (transformToSSE stream p)).
Proof.
  split; [reflexivity|].
  unfold transformToSSE. cbn [rs_chunks]. rewrite read_loop_decoded.
  pose proof (decoded_chunks_valid (rs_chunks stream) TextDecoder_new
                utf8_init_bounded) as Hvalid.
  induction Hvalid as [|t texts Ht _ IH]; [constructor|].
  cbn [flat_map]. apply Forall_app. split; [|exact IH].
  unfold handle_chunk.
  pose proof (chunk_lines_valid t Ht) as Hlines.
  induction Hlines as [|line lines Hline _ IHl]; [constructor|].
  cbn [flat_map]. apply Forall_app. split;
    [apply handle_line_shape; exact Hline | exact IHl].
Qed.


(** ** The theme endpoint *)

(** *** The lines of a background-image field *)

Lemma split_lines_from_cons (c : N) (cur s : jsstring) :
  split_lines_from cur (c :: s)
  = if c =? 10 then cur :: split_lines_from [] s
    else split_lines_from (cur ++ [c]) s.
Proof. reflexivity. Qed.

Lemma split_lines_from_cur (cur s : jsstring) :
  exists first rest,
    split_lines s = first :: rest
    /\ split_lines_from cur s = (cur ++ first) :: rest.
Proof.
  unfold split_lines. revert cur. induction s as [|c s IH]; intro cur.
  - exists [], []. split; [reflexivity|]. cbn. rewrite app_nil_r. reflexivity.
  - rewrite !split_lines_from_cons. destruct (c =? 10).
    + exists [], (split_lines_from [] s). split; [reflexivity|].
      rewrite app_nil_r. reflexivity.
    + destruct (IH ([] ++ [c])) as (f1 & r1 & E1 & E1').
      destruct (IH (cur ++ [c])) as (f2 & r2 & E2 & E2').
      rewrite E1 in E2. injection E2 as <- <-.
      exists ([c] ++ f1), r1. split; [exact E1'|].
      rewrite E2', <- app_assoc. reflexivity.
Qed.

Lemma split_lines_from_snoc (c : N) (cur s : jsstring) :
  (c =? 10) = false ->
  exists init last,
    split_lines_from cur s = init ++ [last]
    /\ split_lines_from cur (s ++ [c]) = init ++ [last ++ [c]].
Proof.
  intro Hc. revert cur. induction s as [|x s IH]; intro cur.
  - exists [], cur. split; [reflexivity|].
    cbn [app]. rewrite split_lines_from_cons, Hc. reflexivity.
  - cbn [app]. rewrite !split_lines_from_cons. destruct (x =? 10).
    + destruct (IH []) as (init & last & E1 & E2).
      exists (cur :: init), last. rewrite E1, E2. split; reflexivity.
    + apply IH.
Qed.

Lemma trim_space_head (c : N) (s : jsstring) :
  is_js_space c = true -> trim (c :: s) = trim s.
Proof. intro H. unfold trim. cbn [trimStart]. rewrite H. reflexivity. Qed.

Lemma trim_space_last (c : N) (s : jsstring) :
  is_js_space c = true -> trim (s ++ [c]) = trim s.
Proof.
  intro H. unfold trim.
  destruct (trimStart_shape s) as [E | (d & r & E & Hd)].
  - rewrite (trimStart_app_blank s [c] E), E. cbn [trimStart]. rewrite H.
    reflexivity.
  - rewrite (trimStart_app_text s [c] d r E), E.
    unfold trimEnd. rewrite rev_app_distr. cbn [rev app trimStart].
    rewrite H. reflexivity.
Qed.

Lemma background_urls_space_head (c : N) (s : jsstring) :
  is_js_space c = true -> background_urls (c :: s) = background_urls s.
Proof.
  intro H. unfold background_urls, split_lines.
  rewrite split_lines_from_cons. destruct (c =? 10) eqn:Ec.
  - reflexivity.
  - destruct (split_lines_from_cur ([] ++ [c]) s) as (first & rest & E1 & E2).
    unfold split_lines in E1. rewrite E2, E1. cbn [app map filter].
    rewrite (trim_space_head c first H). reflexivity.
Qed.

Lemma background_urls_space_last (c : N) (s : jsstring) :
  is_js_space c = true -> background_urls (s ++ [c]) = background_urls s.
Proof.
  intro H. unfold background_urls. destruct (c =? 10) eqn:Ec.
  - apply N.eqb_eq in Ec. subst c.
    change (s ++ [10]) with (s ++ nl :: []).
    rewrite split_lines_app, map_app, filter_app. cbn [split_lines split_lines_from map filter].
    change (trim []) with (@nil N). cbn [jseqb negb]. apply app_nil_r.
  - destruct (split_lines_from_snoc c [] s Ec) as (init & last & E1 & E2).
    unfold split_lines. rewrite E1, E2, !map_app, !filter_app. cbn [map filter].
    rewrite (trim_space_last c last H). reflexivity.
Qed.

Lemma background_urls_trimStart (s : jsstring) :
  background_urls (trimStart s) = background_urls s.
Proof.
  induction s as [|c s IH]; [reflexivity|].
  cbn [trimStart]. destruct (is_js_space c) eqn:E; [|reflexivity].
  rewrite IH. symmetry. apply background_urls_space_head. exact E.
Qed.

Lemma background_urls_trimEnd (s : jsstring) :
  background_urls (trimEnd s) = background_urls s.
Proof.
  unfold trimEnd. rewrite <- (rev_involutive s) at 2.
  generalize (rev s). intro r. induction r as [|c r IH]; [reflexivity|].
  cbn [trimStart]. destruct (is_js_space c) eqn:E; [|reflexivity].
  rewrite IH. cbn [rev]. symmetry. apply background_urls_space_last. exact E.
Qed.

Lemma background_urls_trim (s : jsstring) :
  background_urls (trim s) = background_urls s.
Proof.
  unfold trim. rewrite background_urls_trimEnd. apply background_urls_trimStart.
Qed.

Lemma find_none_forallb {A : Type} (f : A -> bool) (l : list A) :
  find f l = None -> forallb (fun x => negb (f x)) l = true.
Proof.
  induction l as [|x l IH]; [reflexivity|].
  cbn [find forallb]. destruct (f x); [discriminate|].
  intro H. rewrite (IH H). reflexivity.
Qed.

Lemma stored_background_urls_only (v : value) (o : option jsstring) :
  check_background v = Some None -> stored_background v = Some o ->
  urls_only o = true.
Proof.
  unfold check_background, stored_background.
  destruct v; try discriminate; try (intros _ H; injection H as <-; reflexivity).
  cbn [truthy]. intros Hc Hs. injection Hs as <-.
  destruct (trim s) as [|c t] eqn:Et; [reflexivity|].
  destruct s as [|c0 s0]; [discriminate Et|].
  change (negb (jseqb (c :: t) [])) with true in Hc. cbn iota in Hc.
  injection Hc as Hc.
  unfold urls_only. rewrite <- Et at 1 2 3 4.
  rewrite trim_idem, jseqb_refl, background_urls_trim.
  rewrite (find_none_forallb _ _ Hc). rewrite Et. reflexivity.
Qed.

(** *** What a write tells *)

(** The handler reached [db.saveAdminConfig]: every step before it went
    through. *)
Lemma theme_POST_written (server : ThemeServer) (request : ThemeRequest)
  (theme : ThemeConfig) (resp : ThemeResponse) :
  theme_POST server request = (Some theme, resp) ->
  exists body adminConfig,
    tr_body request = Fulfilled body
    /\ ts_getConfig server = Fulfilled adminConfig
    /\ theme_permitted server adminConfig (session_name (tr_authInfo request)) = true
    /\ opt_get body (u16 "enableBuiltInTheme") = VBool (tc_enableBuiltInTheme theme)
    /\ opt_get body (u16 "builtInTheme") = VStr (tc_builtInTheme theme)
    /\ opt_get body (u16 "customCSS") = VStr (tc_customCSS theme)
    /\ check_background (opt_get body (u16 "loginBackgroundImage")) = Some None
    /\ check_background (opt_get body (u16 "registerBackgroundImage")) = Some None
    /\ stored_background (opt_get body (u16 "loginBackgroundImage"))
       = Some (tc_loginBackgroundImage theme)
    /\ stored_background (opt_get body (u16 "registerBackgroundImage"))
       = Some (tc_registerBackgroundImage theme)
    /\ tc_cacheVersion theme
       = (let currentVersion :=
            match ThemeConfig_ adminConfig with
            | Some t => tc_cacheVersion t
            | None => 0
            end in
          if match ThemeConfig_ adminConfig with
             | Some t =>
                 jseqb (if tc_enableBuiltInTheme theme then tc_builtInTheme t
                        else tc_customCSS t)
                       (active_css theme)
             | None => false
             end
          then currentVersion else version_plus_one currentVersion)
    /\ resp = (if ts_saveAdminConfig server theme
               then ThemeOk (tc_cacheVersion theme) else themeFailed).
Proof.
  unfold theme_POST.
  destruct (jseqb (string_or (ts_storageType server) (u16 "localstorage"))
                  (u16 "localstorage")); [discriminate|].
  destruct (tr_body request) as [body|]; [|discriminate].
  destruct (tr_authInfo request) as [[[[|n name]|]]|]; try discriminate.
  destruct (get body (u16 "enableBuiltInTheme")); [|discriminate].
  destruct (opt_get body (u16 "enableBuiltInTheme")) as [| | e| | | | |] eqn:E1;
    try discriminate.
  destruct (opt_get body (u16 "builtInTheme")) as [| | | |b| | |] eqn:E2;
    try discriminate.
  destruct (opt_get body (u16 "customCSS")) as [| | | |c| | |] eqn:E3;
    try discriminate.
  destruct (opt_get body (u16 "enableCache")) as [| |ec| | | | |];
    try discriminate.
  destruct (opt_get body (u16 "cacheMinutes")) as [| | |cm| | | |];
    try discriminate.
  cbv zeta.
  destruct (check_background (opt_get body (u16 "loginBackgroundImage")))
    as [[url|]|] eqn:E4; try discriminate.
  destruct (check_background (opt_get body (u16 "registerBackgroundImage")))
    as [[url|]|] eqn:E5; try discriminate.
  destruct (ts_getConfig server) as [adminConfig|]; [|discriminate].
  destruct (theme_permitted server adminConfig (n :: name)) eqn:Hperm;
    [|discriminate].
  destruct (stored_background (opt_get body (u16 "loginBackgroundImage")))
    as [login|] eqn:E6; [|discriminate].
  destruct (stored_background (opt_get body (u16 "registerBackgroundImage")))
    as [register|] eqn:E7; [|discriminate].
  match goal with
  | |- (if ts_saveAdminConfig server ?t then _ else _) = _ -> _ =>
      set (written := t);
      assert (Hresp : forall r,
                (if ts_saveAdminConfig server written
                 then (Some written, ThemeOk (tc_cacheVersion written))
                 else (Some written, themeFailed)) = (Some theme, r) ->
                written = theme
                /\ r = (if ts_saveAdminConfig server theme
                        then ThemeOk (tc_cacheVersion theme) else themeFailed))
  end.
  { intros r H.
    destruct (ts_saveAdminConfig server written) eqn:Es;
      injection H as <- <-; rewrite Es; split; reflexivity. }
  intro H. destruct (Hresp resp H) as [Hw Hr]. clear Hresp H.
  exists body, adminConfig.
  subst theme. subst written.
  cbn [tc_enableBuiltInTheme tc_builtInTheme tc_customCSS tc_cacheVersion
       tc_loginBackgroundImage tc_registerBackgroundImage session_name] in *.
  split; [reflexivity|]. split; [reflexivity|]. split; [exact Hperm|].
  split; [exact E1|]. split; [exact E2|]. split; [exact E3|].
  split; [exact E4|]. split; [exact E5|]. split; [exact E6|].
  split; [exact E7|]. split; [|exact Hr].
  unfold active_css. cbn [tc_enableBuiltInTheme tc_builtInTheme tc_customCSS].
  destruct (ThemeConfig_ adminConfig) as [t|]; cbn [option_map]; [|reflexivity].
  destruct e; destruct (jseqb _ _); reflexivity.
Qed.

(** X25.  Whatever the handler writes has background-image fields that
    hold URLs only: each field is absent, or a trimmed text that is not
    empty and whose every line, blank lines apart, starts with [http://] or
    [https://] once trimmed. *)
Theorem theme_stores_urls_only (server : ThemeServer) (request : ThemeRequest)
  (theme : ThemeConfig) (resp : ThemeResponse) :
  theme_POST server request = (Some theme, resp) ->
  urls_only (tc_loginBackgroundImage theme) = true
  /\ urls_only (tc_registerBackgroundImage theme) = true.
Proof.
  intro H.
  destruct (theme_POST_written server request theme resp H)
    as (body & adminConfig & _ & _ & _ & _ & _ & _ & Hc1 & Hc2 & Hs1 & Hs2 & _).
  split.
  - exact (stored_background_urls_only _ _ Hc1 Hs1).
  - exact (stored_background_urls_only _ _ Hc2 Hs2).
Qed.

Lemma theme_stores_urls_only_witness :
  urls_only (tc_loginBackgroundImage theme_written_example) = true
  /\ urls_only (tc_registerBackgroundImage theme_written_example) = true.
Proof.
  apply (theme_stores_urls_only theme_server_example theme_request_example
           theme_written_example
           (snd (theme_POST theme_server_example theme_request_example))).
  vm_compute. reflexivity.
Defined.

(** X26.  The cache version moves only with the style sheet.  With a
    stored version below 2^53, the version written is the stored one when
    the stored sheet of the kind now selected equals the new sheet of that
    kind, and the stored one plus one otherwise (also when no theme was
    stored). *)
Theorem theme_cache_version_rule (server : ThemeServer) (request : ThemeRequest)
  (theme : ThemeConfig) (resp : ThemeResponse) (adminConfig : ThemeAdminConfig) :
  theme_POST server request = (Some theme, resp) ->
  ts_getConfig server = Fulfilled adminConfig ->
  match ThemeConfig_ adminConfig with
  | Some t => tc_cacheVersion t
  | None => 0
  end < 2 ^ 53 ->
  tc_cacheVersion theme
  = match ThemeConfig_ adminConfig with
    | Some t =>
        if jseqb (if tc_enableBuiltInTheme theme then tc_builtInTheme t
                  else tc_customCSS t)
                 (active_css theme)
        then tc_cacheVersion t
        else tc_cacheVersion t + 1
    | None => 1
    end.
Proof.
  intros H Hcfg Hlt.
  destruct (theme_POST_written server request theme resp H)
    as (body & adminConfig' & _ & Hcfg' & _ & _ & _ & _ & _ & _ & _ & _ & Hv & _).
  rewrite Hcfg in Hcfg'. injection Hcfg' as <-.
  rewrite Hv. cbv zeta. unfold version_plus_one.
  destruct (ThemeConfig_ adminConfig) as [t|].
  - destruct (jseqb _ _); [reflexivity|].
    destruct (N.ltb_spec (tc_cacheVersion t) (2 ^ 53)); [reflexivity | lia].
  - reflexivity.
Qed.

Lemma theme_cache_version_rule_witness :
  tc_cacheVersion theme_written_example = 7.
Proof.
  refine (eq_trans
            (theme_cache_version_rule theme_server_example theme_request_example
               theme_written_example
               (snd (theme_POST theme_server_example theme_request_example))
               _ _ eq_refl _) _).
  - vm_compute. reflexivity.
  - vm_compute. reflexivity.
  - vm_compute. reflexivity.
Defined.

(** X27.  Switching between the built-in and the custom style sheet
    without editing either of them leaves the cache version as it is, though
    the sheet in force changes: the handler compares the new sheet with the
    stored sheet of the kind now selected, not with the sheet that was in
    force. *)
Theorem theme_kind_switch_keeps_version (server : ThemeServer)
  (request : ThemeRequest) (theme stored : ThemeConfig) (resp : ThemeResponse)
  (adminConfig : ThemeAdminConfig) :
  theme_POST server request = (Some theme, resp) ->
  ts_getConfig server = Fulfilled adminConfig ->
  ThemeConfig_ adminConfig = Some stored ->
  tc_builtInTheme theme = tc_builtInTheme stored ->
  tc_customCSS theme = tc_customCSS stored ->
  tc_cacheVersion theme = tc_cacheVersion stored.
Proof.
  intros H Hcfg Hstored Hb Hc.
  destruct (theme_POST_written server request theme resp H)
    as (body & adminConfig' & _ & Hcfg' & _ & _ & _ & _ & _ & _ & _ & _ & Hv & _).
  rewrite Hcfg in Hcfg'. injection Hcfg' as <-.
  rewrite Hv, Hstored. cbv zeta. unfold active_css.
  destruct (tc_enableBuiltInTheme theme).
  - rewrite Hb, jseqb_refl. reflexivity.
  - rewrite Hc, jseqb_refl. reflexivity.
Qed.

Lemma theme_kind_switch_keeps_version_witness :
  active_css theme_written_example <> active_css stored_theme_example
  /\ tc_cacheVersion theme_written_example = tc_cacheVersion stored_theme_example.
Proof.
  split; [vm_compute; discriminate|].
  apply (theme_kind_switch_keeps_version theme_server_example
           theme_request_example theme_written_example stored_theme_example
           (snd (theme_POST theme_server_example theme_request_example))
           (mkThemeAdminConfig [mkThemeUser (u16 "alice") (u16 "admin") false]
              (Some stored_theme_example)));
    vm_compute; reflexivity.
Defined.

(** X28.  Nothing is written without permission, and nothing succeeds
    without a write.  When the handler hands a theme to the database, the
    caller is the owner named by the environment or a user found as an
    administrator who is not banned, and the answer is ok with the version
    written, or the 500 of a failed write.  In every other case the answer
    is an error; in local-storage mode it is that of the first line. *)
Theorem theme_write_needs_permission (server : ThemeServer)
  (request : ThemeRequest) :
  match theme_POST server request with
  | (Some theme, resp) =>
      (exists adminConfig,
         ts_getConfig server = Fulfilled adminConfig
         /\ theme_permitted server adminConfig
              (session_name (tr_authInfo request)) = true)
      /\ resp = (if ts_saveAdminConfig server theme
                 then ThemeOk (tc_cacheVersion theme) else themeFailed)
  | (None, resp) =>
      is_theme_ok resp = false
      /\ (jseqb (string_or (ts_storageType server) (u16 "localstorage"))
                (u16 "localstorage") = true ->
          resp = ThemeError 400 (u16 "不支持本地存储进行管理员配置"))
  end.
Proof.
  destruct (theme_POST server request) as [[theme|] resp] eqn:E.
  - destruct (theme_POST_written server request theme resp E)
      as (body & adminConfig & _ & Hcfg & Hperm & _ & _ & _ & _ & _ & _ & _ & _ & Hr).
    split; [|exact Hr]. exists adminConfig. split; assumption.
  - revert E. unfold theme_POST.
    destruct (jseqb (string_or (ts_storageType server) (u16 "localstorage"))
                    (u16 "localstorage")).
    { intro E. injection E as <-. split; [reflexivity | intros _; reflexivity]. }
    intro E. split; [|discriminate].
    revert E.
    destruct (tr_body request) as [body|];
      [|intro E; injection E as <-; reflexivity].
    destruct (tr_authInfo request) as [[[[|n name]|]]|];
      try (intro E; injection E as <-; reflexivity).
    destruct (get body (u16 "enableBuiltInTheme"));
      [|intro E; injection E as <-; reflexivity].
    destruct (opt_get body (u16 "enableBuiltInTheme")) as [| | e| | | | |];
      try (intro E; injection E as <-; reflexivity).
    destruct (opt_get body (u16 "builtInTheme")) as [| | | |b| | |];
      try (intro E; injection E as <-; reflexivity).
    destruct (opt_get body (u16 "customCSS")) as [| | | |c| | |];
      try (intro E; injection E as <-; reflexivity).
    destruct (opt_get body (u16 "enableCache")) as [| |ec| | | | |];
      try (intro E; injection E as <-; reflexivity).
    destruct (opt_get body (u16 "cacheMinutes")) as [| | |cm| | | |];
      try (intro E; injection E as <-; reflexivity).
    cbv zeta.
    destruct (check_background (opt_get body (u16 "loginBackgroundImage")))
      as [[url|]|]; try (intro E; injection E as <-; reflexivity).
    destruct (check_background (opt_get body (u16 "registerBackgroundImage")))
      as [[url|]|]; try (intro E; injection E as <-; reflexivity).
    destruct (ts_getConfig server) as [adminConfig|];
      [|intro E; injection E as <-; reflexivity].
    destruct (theme_permitted server adminConfig (n :: name));
      [|intro E; injection E as <-; reflexivity].
    destruct (stored_background (opt_get body (u16 "loginBackgroundImage")));
      [|intro E; injection E as <-; reflexivity].
    destruct (stored_background (opt_get body (u16 "registerBackgroundImage")));
      [|intro E; injection E as <-; reflexivity].
    destruct (ts_saveAdminConfig server _); discriminate.
Qed.


(** ** The request of the chat panel *)

Lemma filter_filter_sub {A : Type} (f g : A -> bool) (l : list A) :
  (forall x, f x = true -> g x = true) ->
  filter f (filter g l) = filter f l.
Proof.
  intro H. induction l as [|x l IH]; [reflexivity|].
  cbn [filter]. destruct (g x) eqn:Eg.
  - cbn [filter]. rewrite IH. reflexivity.
  - destruct (f x) eqn:Ef; [|exact IH].
    rewrite (H x Ef) in Eg. discriminate Eg.
Qed.

Lemma message_gate_is_early : early_gate_error message_gate_error.
Proof.
  unfold message_gate_error, early_gate_error. right. right.
  split; [reflexivity|]. unfold error_custom_api. vm_compute. discriminate.
Qed.

(** X29.  What the panel sends, the endpoint does not refuse for its
    message.  A request built by [handleSendMessage] carries the trimmed
    input, which is not empty, so the endpoint never answers it with the
    error of the message gate, whoever sends it and whatever the server
    holds.  Its history has every message of the user, in order, and no
    welcome message of the assistant. *)
Theorem panel_request_passes_message_gate (messages : list ChatMessage)
  (welcomeMessage input : jsstring) (isStreaming : bool)
  (context : option VideoContext) (req : ChatRequest) :
  chat_request messages welcomeMessage input isStreaming context = Some req ->
  (forall (server : Server) (session : option AuthInfo),
     result (POST server (mkRequest session (Fulfilled req)))
     <> message_gate_error)
  /\ filter (fun m => negb (jseqb (role m) (u16 "assistant"))) (history req)
     = filter (fun m => negb (jseqb (role m) (u16 "assistant"))) messages
  /\ Forall (fun m => role m = u16 "assistant" -> content m <> welcomeMessage)
            (history req).
Proof.
  unfold chat_request.
  destruct (trim input) as [|m msg] eqn:Et; [discriminate|].
  change (jseqb (m :: msg) []) with false. cbn [orb].
  destruct isStreaming; [discriminate|].
  intro H. injection H as <-. cbn [history message].
  split; [|split].
  - intros server session. unfold POST. cbn [authInfo body message].
    destruct session as [[[[|n name]|]]|];
      try (rewrite result_ret; discriminate).
    destruct (getConfig server) as [adminConfig|];
      [|rewrite result_ret; discriminate].
    destruct (AIConfig_ adminConfig) as [aiConfig|].
    2: { rewrite result_ret. intro H. injection H as H.
         vm_compute in H. discriminate H. }
    destruct (Enabled aiConfig).
    2: { rewrite result_ret. intro H. injection H as H.
         vm_compute in H. discriminate H. }
    destruct (roleAllowed server aiConfig (n :: name)) as [[|]|];
      try (rewrite result_ret; discriminate).
    intro H. apply (answer_responses server adminConfig aiConfig (m :: msg)
                      (mkChatRequest (VStr (m :: msg)) context
                         (filter (fun m0 => negb (jseqb (role m0) (u16 "assistant"))
                                            || negb (jseqb (content m0) welcomeMessage))
                                 messages))).
    rewrite H. apply message_gate_is_early.
  - apply filter_filter_sub. intros x Hx. rewrite Hx. reflexivity.
  - apply Forall_forall. intros x Hx Hrole Hcontent.
    apply filter_In in Hx as [_ Hx].
    rewrite Hrole, Hcontent, !jseqb_refl in Hx. discriminate Hx.
Qed.

Lemma panel_request_passes_message_gate_witness :
  result (POST server_without_key
            (mkRequest (Some (mkAuthInfo (Some (u16 "alice"))))
               (Fulfilled
                  (mkChatRequest (VStr message_C) (Some context_matrix)
                     [mkChatMessage (u16 "user") (u16 "hi")]))))
  <> message_gate_error
  /\ filter (fun m => negb (jseqb (role m) (u16 "assistant")))
            [mkChatMessage (u16 "user") (u16 "hi")]
     = filter (fun m => negb (jseqb (role m) (u16 "assistant")))
              [mkChatMessage (u16 "assistant") (u16 "welcome");
               mkChatMessage (u16 "user") (u16 "hi")].
Proof.
  destruct (panel_request_passes_message_gate
              [mkChatMessage (u16 "assistant") (u16 "welcome");
               mkChatMessage (u16 "user") (u16 "hi")]
              (u16 "welcome") ([32] ++ message_C ++ [nl]) false
              (Some context_matrix)
              (mkChatRequest (VStr message_C) (Some context_matrix)
                 [mkChatMessage (u16 "user") (u16 "hi")]))
    as (H1 & H2 & _).
  - vm_compute. reflexivity.
  - split; [apply H1 | exact H2].
Defined.
